(* ===== verification/_CoqProject ===== *)
-Q . S2P
Prelude.v
StdMap.v
ChronoMap.v
ChronoInvariant.v
RpcId.v
Message.v
Estimators.v
TimeHandler.v
ClockSynchronizer.v
RpcState.v
Instances.v
BiDirectionalRpc.v
RpcVirtuals.v
RpcDelivery.v
RpcRoundTrip.v
RpcNetwork.v
UdpRpc.v
MultiEndpoint.v
Base64.v
CryptoHandler.v
EncryptedRpc.v
RpcAuthenticity.v
CStr.v
Headers.v
CSys.v
MiniXml.v
XmlDocument.v
Natpmp.v
Console.v
NatpmpTool.v
UpnpReply.v
ParserKeeps.v
IgdDesc.v
PortListing.v
ParseUrl.v
HttpResponse.v
HttpHeaders.v
HttpBody.v
Connect.v
Soap.v
Exchange.v
UpnpCommands.v
SocketLeaks.v
MiniSsdp.v
SsdpReplies.v
MiniUpnp.v
PortMapping.v
Discovery.v
ListDevices.v
UpnpTool.v
GatewayTable.v
GatewayListing.v
Json.v
HttpClient.v
GameServer.v
PortMultiplexer.v
RpcServer.v
MyPeer.v
MuxRouting.v
InputReplication.v
PeerUpdate.v
Replicas.v
Lobby.v
PeerInvariant.v
FanOutRpc.v
LocalIps.v
StunPacket.v
StunClient.v
StunDiscovery.v
NetEngine.v
