(* ===== verification/Prelude.v ===== *)
(** * The peer-to-peer game library, modelled and verified

    The program (src/peer) is the networking layer of a peer-to-peer game.  A lobby server
    tells the players of a game who takes part, with which keys and addresses.  Every player
    runs a [MyPeer]: it finds its own public address, asks the router to open its port, joins
    the lobby, and then exchanges its inputs with all others over one UDP socket.  On that
    socket runs a remote procedure call layer of its own, with retransmission, duplicate
    removal, barriers, clock synchronisation, several addresses per peer and encryption.  The
    inputs of every player are kept over time in a [ChronoMap], so that all players compute
    the same game.  The router is reached with two C libraries the repository holds and
    modifies, miniupnpc and libnatpmp.

    This file is also the prelude: outcomes, the state monad, machine integers, strings,
    lists and the tactics the others share.  Every other file starts with what it holds.

    ** The files and the code they model

    Data and clocks (src/peer/src/base).
    - StdMap: [std::map] as a sorted list, over a class of key orders.
    - ChronoMap: ChronoMap.hpp, values over time made of blocks that may come in any order.
      ChronoInvariant: what it keeps whatever is put into it.
    - RpcId: RpcId.hpp.  Message: MessageReader.hpp, MessageWriter.hpp.  Headers: what of
      Headers.hpp runs a command, copies an array or sleeps.
    - Estimators: SlidingWindowEstimator.hpp, WelfordEstimator.hpp, AdamOptimizer.hpp,
      PidController.cpp.  TimeHandler: TimeHandler.hpp.  ClockSynchronizer: its two files.

    Remote procedure calls (src/peer/src/base).
    - RpcState, BiDirectionalRpc, RpcVirtuals: BiDirectionalRpc.cpp and .hpp; the state, the
      methods with the overridable ones as parameters, and the interface [RpcVirtuals] with
      its laws, through which the theorems about the base class hold for every subclass.
    - RpcDelivery, RpcRoundTrip: what a packet does to the receiver, and a request and its
      reply from one handler to another.  RpcNetwork: two handlers and their applications
      over a network that loses, repeats and reorders, against an abstract service.
    - UdpRpc, MultiEndpoint, CryptoHandler, EncryptedRpc: UdpBiDirectionalRpc,
      MultiEndpointHandler, CryptoHandler and EncryptedMultiEndpointHandler, each .cpp and
      .hpp.  RpcAuthenticity: the encrypted handler against an attacker who sends any
      datagram.  Base64: Base64.hpp.  FanOutRpc: FanOutRpc.hpp.
    - PortMultiplexer, RpcServer: their two files each; MuxRouting: where a datagram goes.

    The game (src/peer/src/peer, src/peer/src/base).
    - Json: the values of the JSON library, and the string functions of Headers.hpp.
    - HttpClient: HttpClientMuxer.hpp.  GameServer: SingleGameServer.cpp and .hpp.
    - MyPeer: MyPeer.cpp and .hpp, PlayerData.hpp.  LocalIps: LocalIpFetcher.cpp.
    - InputReplication, PeerUpdate: a player's inputs at the other players, and one turn of
      the periodic update.  Replicas: the sender and the receiver together.
    - Lobby: the lobby together with the peers that ask it.
    - PeerInvariant: everything a peer does as a step relation, and what it keeps.
    - StunPacket, StunClient: StunClient.cpp, the packets of STUN and the client with its
      requests, timers and the operations of asio under way.  StunDiscovery: the exchange
      in the constructor of [MyPeer], from the names of the servers to [stunEndpoints].
    - NetEngine: NetEngine.hpp, what is handed to the io service, and the shutdown.

    The router (src/peer/external, src/peer/src/base/PortMappingHandler.cpp).
    - CStr, CSys: C strings and numbers; the operating system as an interface that answers
      calls and records them.
    - Natpmp: natpmp.c and getgateway.c of libnatpmp.
    - MiniXml, XmlDocument: minixml.c, and documents as it reports them.  UpnpReply,
      IgdDesc, PortListing, ParseUrl: upnpreplyparse.c, igd_desc_parse.c,
      portlistingparse.c, [parseURL] of miniwget.c.
    - HttpResponse, HttpHeaders, HttpBody: [getHTTPResponse] of miniwget.c and receivedata.c.
    - Connect, Soap, SocketLeaks: connecthostport.c, minisoap.c, [simpleUPnPcommand] of
      miniupnpc.c and the downloads of miniwget.c.  Exchange: what [simpleUPnPcommand] gives
      when the other end of the connection answers.  UpnpCommands: upnpcommands.c.
    - MiniSsdp, SsdpReplies: minissdpc.c.  MiniUpnp: miniupnpc.c.  PortMapping:
      PortMappingHandler.cpp.  Discovery: the whole way from it to the sockets.
      ParserKeeps: what a parse leaves alone.
    - GatewayTable, GatewayListing: the program and the command line tool at a gateway that
      keeps a table of port mappings, through every layer of an action.
    - Console: output, [printf] conversions and arguments, and total correctness of a run.
      NatpmpTool, ListDevices, UpnpTool: the command line tools natpmpc.c, listdevices.c and
      upnpc.c.

    ** How the code is written down

    A method is a function in the monad [M S A], from a state to a result and the next
    state, or to a [failure]; a failure ends the process, so no state is left.  [LogFatal] is
    the code's own abort, [OutOfRange] and [RuntimeError] are exceptions nobody catches, and
    [Undefined] is what the standards leave undefined: a read outside a block, a null
    pointer, an unset variable, a signed overflow.  A mutex makes a method one step.  Objects
    behind shared pointers live in a list of objects and the containers hold indices, so
    that aliasing is the code's: the handlers of [PortMultiplexer.objects], the [PlayerData]
    of [MyPeer.players].  C memory is a string of bytes with its bounds checked.

    What is not under src/ is an interface: the random numbers, times and iteration orders
    of unordered containers ([Oracle]), msgpack ([Msgpack]), libsodium ([Sodium]), the LRU
    cache ([LruCache]), the JSON text ([JsonText]), generated protobuf classes ([Proto]), the
    web client ([WebClient]), name resolution ([Network]) and the system calls ([Os]).  The classes of laws beside them
    ([OracleLaws], [MsgpackLaws], [SodiumLaws], [OsLaws], [FreshSockets], ...) state
    documented behaviour only; Instances and the ends of the files give concrete instances,
    on which the witnesses evaluate the theorems.  Inside the program, [RpcVirtuals]
    connects the RPC base class to its subclasses; the UPnP actions call the SOAP layer
    itself.  What a router does is stated of the operating system's answers: [Reaches] is a
    host that can be connected to, and [TableGateway] a gateway behind it that keeps a table
    of mappings, as the specification of UPnP describes it: it answers the requests that the
    code sends, byte by byte, with HTTP responses that may come in any pieces.  A tool runs on the system beside the list of everything it
    printed; what the C code reads without having stored it is an argument of the model.

    ** Fuel and bounds

    Structural recursion where the code walks a list or counts down.  A parser's fuel is the
    length of its input and is proved enough (MiniXml, RpcDelivery, PeerUpdate).  A loop only
    the environment can end (interrupted calls, packets of a response, answers to a search)
    has the fuel [patience] of the class [Patience], over which the theorems quantify; using
    it up is an error, and [http_response_body] gives a bound that suffices.  A thread that
    waits for others takes the list of what those do while it sleeps ([wait_loop]); having
    no result means the list ended first.  [delay_fuel] bounds a loop that draws a random
    delay until it is positive, [redirections] the redirections of an HTTP request.  The
    walk over the attributes of a STUN packet has a turn for every byte and one more
    ([attributes_end]).  The waiting loops of natpmpc.c take nine turns at most
    ([natpmpc_ends]), the walks over a gateway's mappings one more than it has.  What asio
    does is a step relation over its operations under way,
    each of which ends with any result ([io_step], [exchange_step]).
    Doubles are the values of the Standard Library's SpecFloat, rounded as binary64.
    Integers keep their width where the code can wrap.  The clock's own readings, counts of
    microseconds, are added without a bound; what a peer sends is not.

    ** What the theorems show

    - Inputs: [inputs_replicated], [replicas_converge], [request_loop_ends],
      [put_convergent], [lookups_after_puts]: in spite of losses, duplicates and any order,
      every player ends with the sender's own timeline.
    - Delivery: [network_implements_service], [request_reply_roundtrip],
      [request_delivered_once], [reply_delivered_once], [requests_cross_the_wire],
      [replies_cross_the_wire], [barriers_never_overlap], [receive_loops_end].
    - Well-formedness: [chrono_type_safe], [peer_well_formed]: no payload, datagram, answer
      or order of calls breaks a timeline or leaves a pointer without a player.
    - Addresses: [packet_goes_to_owner], [endpoints_partition], [failover]; the public one:
      [response_reaches_handler], [handlers_called_once], [exchange_outcome],
      [decode_reply_inside].
    - Secrecy and authenticity: [session_key_handshake], [requests_are_encrypted],
      [only_said_found], [encrypted_request_delivered], [tls_never_downgraded].
    - Lobby: [lobby_endpoints_disjoint], [positions_agree].
    - The router: the XML parser stays in its buffer and reports what a document says
      ([parsexml_memory_safe], [parsexml_document], [description_services]); HTTP bodies are
      read whole however the packets are cut ([http_response_body]); envelopes are whole or
      refused ([soap_body_reference]); actions report the gateway's answer
      ([add_port_mapping_result], [port_mapping_roundtrip]); discovery parses, merges and
      chooses as documented ([msearch_reply_parsed], [ssdp_no_duplicates],
      [valid_igd_state]); no path leaks a socket ([gateway_leaks_no_socket]); opening the
      game's port does to the gateway's table what it is for ([map_port_effect]); NAT-PMP
      messages and retries ([natpmp_wire_format], [retry_schedule]).
    - The tools: the listing is the gateway's table ([listing_shows_table]), devices are
      grouped without loss ([devices_grouped]), the NAT-PMP tool always ends
      ([natpmpc_ends]).
    - Errors, some of them defects: [peer_stamp_overflows], [foreign_id_overtakes],
      [garbage_packet_terminates], [ciphertext_replayed],
      [corrupt_request_ignored], [corrupt_reply_loses_request], [no_gateway_reads_stack],
      [value_read_as_attribute], [answer_without_address_strands], [silence_accepted],
      [shutdown_without_start_waits].

    ** Not modelled

    - The io service, sockets, timers and the resolver of the asio library, which are
      interfaces or steps: nothing is said of when the io service runs what it was given;
      LogHandler.cpp and EasyLoggingWrapper.cpp, which set up the logging library.
    - The HTTP server under [SingleGameServer] and everything else in submodules.
    - Logging, printing outside the command line tools, the freeing of memory, branches of
      other platforms than POSIX; the language bindings (Python, Java) and test programs of
      the C libraries and the example programs, which only call what is modelled.
    - Time inside a step: a call is instantaneous, the clock is read through [Oracle]. *)
From Stdlib Require Export ZArith Lia Ascii.
From stdpp Require Export gmap strings prelude.

#[global] Open Scope string_scope.
#[global] Open Scope list_scope.
#[global] Open Scope Z_scope.

(** ** Outcomes

    What a call of the C++ code can end in.  [Ok] is a normal return.
    [LogFatal] is [LOGFATAL]/[LOG(FATAL)], which logs and aborts the process.
    [OutOfRange] is [std::out_of_range] thrown by [at] and [RuntimeError] is
    [std::runtime_error] (or another exception of a library the code calls);
    the code never catches them in the parts modelled here.  [Undefined] marks a
    step whose behaviour the C or C++ standard leaves undefined, such as reading
    past a buffer. *)
Inductive failure : Type :=
  | LogFatal
  | OutOfRange
  | RuntimeError
  | Undefined.

#[export] Instance failure_eq_dec : EqDecision failure.
Proof. solve_decision. Defined.

Inductive outcome (A : Type) : Type :=
  | Ok (a : A)
  | Err (f : failure).
Arguments Ok {A} a.
Arguments Err {A} f.

#[export] Instance outcome_eq_dec {A} `{EqDecision A} : EqDecision (outcome A).
Proof. solve_decision. Defined.

Definition is_ok {A} (o : outcome A) : bool :=
  match o with Ok _ => true | Err _ => false end.

Definition obind {A B} (o : outcome A) (k : A -> outcome B) : outcome B :=
  match o with Ok a => k a | Err f => Err f end.

(** State-passing computations that may fail; the state of a failed
    computation is gone, because the process is. *)
Definition M (S A : Type) : Type := S -> outcome (A * S).

Definition ret {S A} (a : A) : M S A := fun s => Ok (a, s).
Definition bind {S A B} (m : M S A) (k : A -> M S B) : M S B :=
  fun s => match m s with Ok (a, s') => k a s' | Err f => Err f end.
Definition fail {S A} (f : failure) : M S A := fun _ => Err f.
Definition get_state {S} : M S S := fun s => Ok (s, s).
Definition put_state {S} (s : S) : M S unit := fun _ => Ok (tt, s).
Definition modify {S} (f : S -> S) : M S unit := fun s => Ok (tt, f s).
Definition gets {S A} (f : S -> A) : M S A := fun s => Ok (f s, s).

Declare Scope wga_scope.
Delimit Scope wga_scope with wga.
Notation "'let!' x ':=' m 'in' k" := (bind m (fun x => k))
  (at level 10, x pattern, m at level 100, k at level 200) : wga_scope.
Notation "m1 ;;; m2" := (bind m1 (fun _ => m2))
  (at level 100, right associativity) : wga_scope.
Notation "'let?' x ':=' m 'in' k" := (obind m (fun x => k))
  (at level 10, x pattern, m at level 100, k at level 200) : wga_scope.
#[global] Open Scope wga_scope.

(** [for (auto it : l) body(it)] *)
Fixpoint for_each {S A} (l : list A) (body : A -> M S unit) : M S unit :=
  match l with
  | [] => ret tt
  | x :: l' => body x ;;; for_each l' body
  end.

(** The same loop over a plain value, [acc = f(acc, it)]. *)
Fixpoint ofold {A B} (f : B -> A -> outcome B) (l : list A) (acc : B) : outcome B :=
  match l with
  | [] => Ok acc
  | x :: l' => let? acc' := f acc x in ofold f l' acc'
  end.

(** A loop that waits for other threads: [body] is a turn, which may end the loop with a
    value, and [others] is what the other threads do between two turns, in order.  [None]:
    it was still waiting when [others] ended; otherwise the rest of [others] is left. *)
Fixpoint wait_loop {S A} (body : M S (option A)) (others : list (M S unit)) :
    M S (option A * list (M S unit)) :=
  let! a := body in
  match a with
  | Some a => ret (Some a, others)
  | None =>
      match others with
      | [] => ret (None, [])
      | o :: others' => o ;;; wait_loop body others'
      end
  end.

(** ** Machine integers *)

Definition wrap_u (w z : Z) : Z := z mod 2 ^ w.
Definition wrap_s (w z : Z) : Z := (z + 2 ^ (w - 1)) mod 2 ^ w - 2 ^ (w - 1).
Definition in_u (w z : Z) : bool := (0 <=? z) && (z <? 2 ^ w).
Definition in_s (w z : Z) : bool := (- 2 ^ (w - 1) <=? z) && (z <? 2 ^ (w - 1)).

(** Signed arithmetic of [int64_t]: a result out of range is undefined. *)
Definition int64 (z : Z) : outcome Z := if in_s 64 z then Ok z else Err Undefined.

Lemma int64_ok z : in_s 64 z = true -> int64 z = Ok z.
Proof. unfold int64. by intros ->. Qed.
Lemma wrap_u_range w z : 0 <= w -> 0 <= wrap_u w z < 2 ^ w.
Proof. intros. apply Z.mod_pos_bound. lia. Qed.

Lemma wrap_u_id w z : in_u w z = true -> wrap_u w z = z.
Proof. unfold in_u, wrap_u. intros. apply Z.mod_small. lia. Qed.

Lemma wrap_s_id w z : 0 < w -> in_s w z = true -> wrap_s w z = z.
Proof.
  unfold in_s, wrap_s. intros Hw H.
  assert (2 ^ w = 2 * 2 ^ (w - 1)) as E.
  { rewrite <- Z.pow_succ_r by lia. f_equal. lia. }
  rewrite Z.mod_small; lia.
Qed.

Lemma wrap_s_range w z : 0 < w -> in_s w (wrap_s w z) = true.
Proof.
  unfold in_s, wrap_s. intros Hw.
  assert (2 ^ w = 2 * 2 ^ (w - 1)) as E.
  { rewrite <- Z.pow_succ_r by lia. f_equal. lia. }
  pose proof (Z.mod_pos_bound (z + 2 ^ (w - 1)) (2 ^ w) ltac:(lia)). lia.
Qed.

(** ** Bytes and strings

    [std::string] is a [string]; a raw buffer of [uint8_t] is a [list Z] whose
    elements lie in [0, 256). *)
Definition byte_of_ascii (c : ascii) : Z := Z.of_N (N_of_ascii c).
Definition ascii_of_byte (z : Z) : ascii := ascii_of_N (Z.to_N (z mod 256)).

Fixpoint bytes_of (s : string) : list Z :=
  match s with
  | EmptyString => []
  | String c s' => byte_of_ascii c :: bytes_of s'
  end.
Fixpoint string_of (l : list Z) : string :=
  match l with
  | [] => EmptyString
  | z :: l' => String (ascii_of_byte z) (string_of l')
  end.
Definition is_byte (z : Z) : bool := (0 <=? z) && (z <? 256).

(** The number of bytes in a string, as the code's [size_t]. *)
Definition slen (s : string) : Z := Z.of_nat (String.length s).

Lemma byte_of_ascii_range c : is_byte (byte_of_ascii c) = true.
Proof.
  unfold is_byte, byte_of_ascii. pose proof (N_ascii_bounded c). lia.
Qed.

Lemma ascii_of_byte_of_ascii c : ascii_of_byte (byte_of_ascii c) = c.
Proof.
  pose proof (byte_of_ascii_range c) as H.
  unfold is_byte in H. unfold ascii_of_byte. rewrite Z.mod_small by lia.
  unfold byte_of_ascii. rewrite N2Z.id. apply ascii_N_embedding.
Qed.

Lemma byte_of_ascii_of_byte z : is_byte z = true -> byte_of_ascii (ascii_of_byte z) = z.
Proof.
  unfold is_byte, ascii_of_byte, byte_of_ascii. intros H.
  rewrite Z.mod_small by lia. rewrite N_ascii_embedding by lia. lia.
Qed.

Lemma string_of_bytes_of s : string_of (bytes_of s) = s.
Proof. induction s; simpl; [done|]. by rewrite ascii_of_byte_of_ascii, IHs. Qed.

Lemma bytes_of_string_of l :
  forallb is_byte l = true -> bytes_of (string_of l) = l.
Proof.
  induction l as [|z l IH]; simpl; [done|]. intros [Hz Hl]%andb_prop.
  by rewrite byte_of_ascii_of_byte, IH.
Qed.

Lemma bytes_of_app s1 s2 : bytes_of (s1 +:+ s2) = bytes_of s1 ++ bytes_of s2.
Proof. induction s1; simpl; [done|]. by rewrite IHs1. Qed.

Lemma string_of_app l1 l2 : string_of (l1 ++ l2) = string_of l1 +:+ string_of l2.
Proof. induction l1; simpl; [done|]. by rewrite IHl1. Qed.

Lemma length_bytes_of s : length (bytes_of s) = String.length s.
Proof. induction s; simpl; [done|]. by rewrite IHs. Qed.

Lemma length_string_of l : String.length (string_of l) = length l.
Proof. induction l; simpl; [done|]. by rewrite IHl. Qed.

Lemma bytes_of_is_byte s : forallb is_byte (bytes_of s) = true.
Proof. induction s; simpl; [done|]. by rewrite byte_of_ascii_range, IHs. Qed.

Lemma slen_app s1 s2 : slen (s1 +:+ s2) = slen s1 + slen s2.
Proof.
  unfold slen. rewrite <- !length_bytes_of, bytes_of_app, length_app. lia.
Qed.

Lemma slen_nonneg s : 0 <= slen s.
Proof. unfold slen. lia. Qed.

(** [s.substr(0, n)] and [s.substr(n)] for [n <= s.length()]. *)
Fixpoint str_take (n : nat) (s : string) : string :=
  match n, s with
  | S n', String c s' => String c (str_take n' s')
  | _, _ => EmptyString
  end.
Fixpoint str_drop (n : nat) (s : string) : string :=
  match n, s with
  | S n', String _ s' => str_drop n' s'
  | _, _ => s
  end.

Lemma str_take_app s1 s2 : str_take (String.length s1) (s1 +:+ s2) = s1.
Proof. induction s1; simpl; [by destruct s2|]. by rewrite IHs1. Qed.

Lemma str_drop_app s1 s2 : str_drop (String.length s1) (s1 +:+ s2) = s2.
Proof. induction s1; simpl; [by destruct s2|]. done. Qed.

Lemma str_take_app' n s1 s2 : String.length s1 = n -> str_take n (s1 +:+ s2) = s1.
Proof. intros <-. apply str_take_app. Qed.

Lemma str_drop_app' n s1 s2 : String.length s1 = n -> str_drop n (s1 +:+ s2) = s2.
Proof. intros <-. apply str_drop_app. Qed.

Lemma str_app_assoc (s1 s2 s3 : string) : (s1 +:+ s2) +:+ s3 = s1 +:+ (s2 +:+ s3).
Proof.
  induction s1 as [|c s1 IH]; [done|].
  change (String c ((s1 +:+ s2) +:+ s3) = String c (s1 +:+ (s2 +:+ s3))). by rewrite IH.
Qed.

Lemma str_app_nil_r (s : string) : s +:+ "" = s.
Proof.
  induction s as [|c s IH]; [done|].
  change (String c (s +:+ "") = String c s). by rewrite IH.
Qed.

(** Little-endian bytes of a [w]-byte unsigned value, as [memcpy] lays them out
    on the little-endian machines the program targets. *)
Fixpoint le_bytes (w : nat) (z : Z) : list Z :=
  match w with
  | O => []
  | S w' => z mod 256 :: le_bytes w' (z / 256)
  end.
Fixpoint le_value (l : list Z) : Z :=
  match l with
  | [] => 0
  | b :: l' => b + 256 * le_value l'
  end.

Lemma length_le_bytes w z : length (le_bytes w z) = w.
Proof. revert z. induction w; intros; simpl; [done|]. by rewrite IHw. Qed.

Lemma le_bytes_is_byte w z : forallb is_byte (le_bytes w z) = true.
Proof.
  revert z. induction w; intros; simpl; [done|]. rewrite IHw.
  unfold is_byte. pose proof (Z.mod_pos_bound z 256). lia.
Qed.

Lemma le_value_le_bytes w z :
  0 <= z < 256 ^ Z.of_nat w -> le_value (le_bytes w z) = z.
Proof.
  revert z. induction w; intros z Hz; simpl.
  - simpl in Hz. lia.
  - rewrite IHw.
    + pose proof (Z.div_mod z 256). lia.
    + rewrite Nat2Z.inj_succ, Z.pow_succ_r in Hz by lia.
      split; [apply Z.div_pos; lia|]. apply Z.div_lt_upper_bound; lia.
Qed.

(** Network byte order: the byte of [v] at bit [sh], the value of bytes behind [acc], and
    the bytes of 16 and 32 bit values. *)
Definition byte_at (sh v : Z) : Z := Z.land (Z.shiftr v sh) 255.
Fixpoint be_value (l : list Z) (acc : Z) : Z :=
  match l with [] => acc | b :: l' => be_value l' (acc * 256 + b) end.
Definition be_bytes16 (v : Z) : list Z := [byte_at 8 v; byte_at 0 v].
Definition be_bytes32 (v : Z) : list Z := [byte_at 24 v; byte_at 16 v; byte_at 8 v; byte_at 0 v].

Lemma byte_at_div sh v : 0 <= sh -> byte_at sh v = (v / 2 ^ sh) mod 256.
Proof.
  intros Hs. unfold byte_at. rewrite Z.shiftr_div_pow2 by done.
  change 255 with (Z.ones 8). by rewrite Z.land_ones.
Qed.
Lemma be16 v : 0 <= v < 2 ^ 16 -> be_value [byte_at 8 v; byte_at 0 v] 0 = v.
Proof.
  intros Hv. rewrite !byte_at_div by lia. simpl. rewrite Z.div_1_r.
  change (2 ^ 8) with 256 in *. Z.div_mod_to_equations. lia.
Qed.
Lemma be32 v : 0 <= v < 2 ^ 32 ->
  be_value [byte_at 24 v; byte_at 16 v; byte_at 8 v; byte_at 0 v] 0 = v.
Proof.
  intros Hv. rewrite !byte_at_div by lia. simpl. rewrite Z.div_1_r.
  change (2 ^ 8) with 256. change (2 ^ 16) with (256 * 256). change (2 ^ 24) with (256 * 256 * 256).
  rewrite <- !Z.div_div by lia. Z.div_mod_to_equations. lia.
Qed.

(** ** Generic lemmas *)

Lemma bind_ok {S A B} (m : M S A) (k : A -> M S B) s b s' :
  bind m k s = Ok (b, s') -> exists a s1, m s = Ok (a, s1) /\ k a s1 = Ok (b, s').
Proof. unfold bind. destruct (m s) as [[a s1]|]; naive_solver. Qed.

Lemma obind_ok {A B} (o : outcome A) (k : A -> outcome B) b :
  obind o k = Ok b -> exists a, o = Ok a /\ k a = Ok b.
Proof. destruct o as [a|]; naive_solver. Qed.

Lemma bind_step {S A B} (m : M S A) (k : A -> M S B) s a s1 :
  m s = Ok (a, s1) -> bind m k s = k a s1.
Proof. intros E. unfold bind. by rewrite E. Qed.

Lemma run_bind {S A B} (m : M S A) (k : A -> M S B) s a s1 r :
  m s = Ok (a, s1) -> k a s1 = r -> bind m k s = r.
Proof. intros E <-. by apply bind_step. Qed.

Lemma for_each_app {S A} (l1 l2 : list A) (body : A -> M S unit) s :
  for_each (l1 ++ l2) body s = (for_each l1 body ;;; for_each l2 body) s.
Proof.
  revert s. induction l1 as [|x l1 IH]; intros s; simpl; [done|].
  unfold bind. destruct (body x s) as [[? s1]|]; [|done].
  rewrite IH. done.
Qed.

Lemma ofold_app {A B} (f : B -> A -> outcome B) l1 l2 acc :
  ofold f (l1 ++ l2) acc = let? acc' := ofold f l1 acc in ofold f l2 acc'.
Proof.
  revert acc. induction l1 as [|x l1 IH]; intros acc; simpl; [done|].
  destruct (f acc x); simpl; [apply IH|done].
Qed.

(** A loop whose body always succeeds under an invariant succeeds. *)
Lemma ofold_inv {A B} (P : B -> Prop) (f : B -> A -> outcome B) l acc :
  (forall x b, x ∈ l -> P b -> exists b', f b x = Ok b' /\ P b') ->
  P acc -> exists acc', ofold f l acc = Ok acc' /\ P acc'.
Proof.
  revert acc. induction l as [|x l IH]; intros acc Hstep HP; simpl; [eauto|].
  destruct (Hstep x acc) as (b' & -> & HP'); [left|done|]. simpl.
  apply IH; [|done]. intros y b Hy. apply Hstep. by right.
Qed.

(** An invariant kept by every iteration is kept by the loop. *)
Lemma for_each_inv {S A} (P : S -> Prop) (l : list A) (body : A -> M S unit) s s' :
  (forall x s1 s2, x ∈ l -> P s1 -> body x s1 = Ok (tt, s2) -> P s2) ->
  P s -> for_each l body s = Ok (tt, s') -> P s'.
Proof.
  revert s. induction l as [|x l IH]; intros s Hstep HP Hrun; simpl in Hrun.
  - unfold ret in Hrun. naive_solver.
  - apply bind_ok in Hrun as ([] & s1 & H1 & H2).
    eapply IH; [|eapply Hstep; [left| |]; eauto|exact H2].
    intros y s2 s3 Hy. apply Hstep. by right.
Qed.

(** ** Automation *)

(** Run the monadic equations of the hypotheses forward. *)
Ltac mstep :=
  match goal with
  | H : bind _ _ _ = Ok _ |- _ =>
      apply bind_ok in H; destruct H as (? & ? & ? & ?)
  | H : Ok _ = Ok _ |- _ => injection H; clear H; intros; subst
  | H : Err _ = Ok _ |- _ => discriminate H
  | H : Ok _ = Err _ |- _ => discriminate H
  | H : ret _ _ = Ok _ |- _ => unfold ret in H
  | H : fail _ _ = Ok _ |- _ => discriminate H
  | H : gets _ _ = Ok _ |- _ => unfold gets in H
  | H : modify _ _ = Ok _ |- _ => unfold modify in H
  | H : get_state _ = Ok _ |- _ => unfold get_state in H
  end.
Ltac msteps := repeat mstep.

(** Closed decidable goals, by evaluation. *)
Ltac by_compute := apply (bool_decide_unpack _); vm_compute; exact I.

Create HintDb wga.
#[export] Hint Resolve slen_nonneg byte_of_ascii_range : wga.
Create Rewrite HintDb wga_rw.
#[export] Hint Rewrite string_of_bytes_of bytes_of_app string_of_app length_bytes_of
  length_string_of slen_app : wga_rw.
