(* ===== verification/StdMap.v ===== *)
(** * StdMap

    [std::map<K, V>] as the code uses it: a list of pairs in ascending key
    order, with [find], [insert] (which keeps an existing value), [operator[]=]
    (which overwrites), [erase], [begin]/[rbegin] and [upper_bound].  The key
    order is an interface, [KeyOrder], whose laws are those the standard asks
    of the map's comparison. *)
From S2P Require Import Prelude.

Class KeyOrder (K : Type) : Type := key_ltb : K -> K -> bool.

Class KeyOrderLaws (K : Type) `{KeyOrder K, EqDecision K} : Prop := {
  key_irrefl : forall a : K, key_ltb a a = false;
  key_trans : forall a b c : K, key_ltb a b = true -> key_ltb b c = true -> key_ltb a c = true;
  key_total : forall a b : K, a <> b -> key_ltb a b = true \/ key_ltb b a = true
}.

#[export] Instance Z_KeyOrder : KeyOrder Z := Z.ltb.
#[export] Instance Z_KeyOrderLaws : KeyOrderLaws Z.
Proof. split; unfold key_ltb, Z_KeyOrder; lia. Qed.

Lemma key_ltb_Z (a b : Z) : key_ltb a b = (a <? b).
Proof. done. Qed.

(** [operator<] of [std::string]: by bytes. *)
Fixpoint str_ltb (s t : string) : bool :=
  match s, t with
  | _, EmptyString => false
  | EmptyString, String _ _ => true
  | String a s', String b t' =>
      if byte_of_ascii a =? byte_of_ascii b then str_ltb s' t' else byte_of_ascii a <? byte_of_ascii b
  end.
#[export] Instance string_KeyOrder : KeyOrder string := str_ltb.
Lemma byte_of_ascii_inj a b : byte_of_ascii a = byte_of_ascii b -> a = b.
Proof. intros E. by rewrite <- (ascii_of_byte_of_ascii a), E, ascii_of_byte_of_ascii. Qed.
#[export] Instance string_KeyOrderLaws : KeyOrderLaws string.
Proof.
  split; unfold key_ltb, string_KeyOrder.
  - intros s. induction s as [|a s IH]; cbn [str_ltb]; [done|]. by rewrite Z.eqb_refl.
  - intros s. induction s as [|a s IH]; intros [|b t] [|c u]; cbn [str_ltb]; try done.
    destruct (Z.eqb_spec (byte_of_ascii a) (byte_of_ascii b)),
      (Z.eqb_spec (byte_of_ascii b) (byte_of_ascii c)),
      (Z.eqb_spec (byte_of_ascii a) (byte_of_ascii c)); try (intros; lia); try congruence.
    apply IH.
  - intros s. induction s as [|a s IH]; intros [|b t] Hne; cbn [str_ltb]; auto.
    destruct (Z.eqb_spec (byte_of_ascii a) (byte_of_ascii b)) as [E|E].
    + apply byte_of_ascii_inj in E as ->. rewrite Z.eqb_refl. apply IH. congruence.
    + destruct (Z.eqb_spec (byte_of_ascii b) (byte_of_ascii a)); lia.
Qed.

Section StdMap.
Context {K V : Type} `{KeyOrder K, EqDecision K}.
Implicit Types (m : list (K * V)) (k : K) (v : V).

Fixpoint sm_find (k : K) (m : list (K * V)) : option V :=
  match m with
  | [] => None
  | (k', v') :: m' => if decide (k = k') then Some v' else sm_find k m'
  end.

(** [m[k] = v] *)
Fixpoint sm_assign (k : K) (v : V) (m : list (K * V)) : list (K * V) :=
  match m with
  | [] => [(k, v)]
  | (k', v') :: m' =>
      if key_ltb k k' then (k, v) :: m
      else if decide (k = k') then (k, v) :: m'
      else (k', v') :: sm_assign k v m'
  end.

(** [m.insert(make_pair(k, v))]: an existing key keeps its value. *)
Definition sm_insert (k : K) (v : V) (m : list (K * V)) : list (K * V) :=
  match sm_find k m with Some _ => m | None => sm_assign k v m end.

Fixpoint sm_erase (k : K) (m : list (K * V)) : list (K * V) :=
  match m with
  | [] => []
  | (k', v') :: m' => if decide (k = k') then m' else (k', v') :: sm_erase k m'
  end.

(** The position of the first element whose key is greater than [k]. *)
Fixpoint sm_upper_bound (k : K) (m : list (K * V)) : nat :=
  match m with
  | [] => 0%nat
  | (k', _) :: m' => if key_ltb k k' then 0%nat else S (sm_upper_bound k m')
  end.

Definition sm_rbegin (m : list (K * V)) : option (K * V) := last m.

(** Strictly ascending keys. *)
Fixpoint sm_sorted (m : list (K * V)) : Prop :=
  match m with
  | [] => True
  | (k, _) :: m' => Forall (fun p => key_ltb k p.1 = true) m' /\ sm_sorted m'
  end.

Context `{!KeyOrderLaws K}.

Lemma sm_find_assign k k' v m :
  sm_find k (sm_assign k' v m) = if decide (k = k') then Some v else sm_find k m.
Proof using Type*.
  induction m as [|[k1 v1] m IH]; simpl; [done|].
  destruct (key_ltb k' k1) eqn:E1; simpl; [done|].
  destruct (decide (k' = k1)) as [->|]; simpl.
  - by destruct (decide (k = k1)).
  - rewrite IH. destruct (decide (k = k1)), (decide (k = k')); congruence.
Qed.

Lemma sm_find_insert k k' v m :
  sm_find k (sm_insert k' v m) =
    if decide (k = k') then Some (default v (sm_find k m)) else sm_find k m.
Proof using Type*.
  unfold sm_insert. destruct (sm_find k' m) eqn:E.
  - case_decide; subst; [by rewrite E|done].
  - rewrite sm_find_assign. case_decide; subst; [by rewrite E|done].
Qed.

Lemma sm_sorted_lt k v m : sm_sorted ((k, v) :: m) -> sm_find k m = None.
Proof using Type*.
  intros [Hlt _]. induction m as [|[k1 v1] m IH]; simpl; [done|].
  inversion Hlt as [|?? H1 H2]; subst. simpl in H1.
  destruct (decide (k = k1)) as [->|]; [by rewrite key_irrefl in H1|auto].
Qed.

Lemma sm_find_erase k k' m :
  sm_sorted m -> sm_find k (sm_erase k' m) = if decide (k = k') then None else sm_find k m.
Proof using Type*.
  induction m as [|[k1 v1] m IH]; simpl; [by case_decide|]. intros [Hlt Hs].
  destruct (decide (k' = k1)) as [->|]; simpl.
  - destruct (decide (k = k1)) as [->|]; [|done].
    apply (sm_sorted_lt _ v1). done.
  - rewrite IH by done. destruct (decide (k = k1)), (decide (k = k')); congruence.
Qed.

Lemma Forall_assign (P : K * V -> Prop) k v m :
  P (k, v) -> Forall P m -> Forall P (sm_assign k v m).
Proof using Type.
  intros Hk Hm. induction m as [|[k1 v1] m IH]; simpl; [by repeat constructor|].
  inversion Hm; subst. destruct (key_ltb k k1); [by repeat constructor|].
  case_decide; constructor; auto.
Qed.

Lemma sm_sorted_assign k v m : sm_sorted m -> sm_sorted (sm_assign k v m).
Proof using Type*.
  induction m as [|[k1 v1] m IH]; simpl; [done|]. intros [Hlt Hs].
  destruct (key_ltb k k1) eqn:E; simpl.
  - split; [|done]. constructor; [done|]. eapply Forall_impl; [exact Hlt|].
    simpl. intros. by eapply key_trans.
  - case_decide; subst; simpl; [done|]. split; [|auto].
    apply Forall_assign; [|done]. simpl.
    destruct (key_total k k1); [done|congruence|done].
Qed.

Lemma sm_sorted_insert k v m : sm_sorted m -> sm_sorted (sm_insert k v m).
Proof using Type*. unfold sm_insert. case_match; auto using sm_sorted_assign. Qed.

Lemma sm_sorted_erase k m : sm_sorted m -> sm_sorted (sm_erase k m).
Proof using Type.
  induction m as [|[k1 v1] m IH]; simpl; [done|]. intros [Hlt Hs].
  case_decide; [done|]. simpl. split; [|auto].
  clear -Hlt. induction m as [|[k2 v2] m IH]; simpl; [done|].
  inversion Hlt; subst. case_decide; [done|]. constructor; auto.
Qed.

Lemma sm_length_assign_new k v m :
  sm_find k m = None -> length (sm_assign k v m) = S (length m).
Proof using Type.
  induction m as [|[k1 v1] m IH]; simpl; [done|]. intros Hf.
  destruct (key_ltb k k1); [done|]. case_decide; [done|]. simpl. by rewrite IH.
Qed.

(** Assigning past the greatest key appends. *)
Lemma sm_assign_snoc k v m :
  Forall (fun p => key_ltb p.1 k = true) m -> sm_assign k v m = m ++ [(k, v)].
Proof using Type*.
  induction 1 as [|[k1 v1] m H1 H2 IH]; simpl; [done|]. simpl in H1.
  destruct (key_ltb k k1) eqn:E.
  { pose proof (key_trans _ _ _ H1 E) as C. by rewrite key_irrefl in C. }
  case_decide; subst; [by rewrite key_irrefl in H1|]. by rewrite IH.
Qed.

Lemma sm_upper_bound_le k m : (sm_upper_bound k m <= length m)%nat.
Proof using Type. induction m as [|[k1 v1] m IH]; simpl; [done|]. case_match; lia. Qed.

Lemma sm_find_lookup k v m : sm_find k m = Some v -> (k, v) ∈ m.
Proof using Type.
  induction m as [|[k1 v1] m IH]; simpl; [done|]. case_decide; intros; simplify_eq.
  - left.
  - right. auto.
Qed.

Lemma sm_lookup_find k v m : sm_sorted m -> (k, v) ∈ m -> sm_find k m = Some v.
Proof using Type*.
  induction m as [|[k1 v1] m IH]; simpl; [by intros _ ?%elem_of_nil|].
  intros [Hlt Hs] [[= -> ->]|Hin]%elem_of_cons; [by rewrite decide_True|].
  case_decide; subst; [|auto]. rewrite Forall_forall in Hlt.
  specialize (Hlt _ Hin). simpl in Hlt. by rewrite key_irrefl in Hlt.
Qed.

Lemma sm_sorted_NoDup m : sm_sorted m -> NoDup m.*1.
Proof using Type*.
  induction m as [|[k v] m IH]; cbn; [constructor|]. intros [Hf Hs]. apply NoDup_cons. split; [|by apply IH].
  rewrite list_elem_of_fmap. intros ([k' v'] & -> & Hp). rewrite Forall_forall in Hf. apply Hf in Hp.
  cbn in Hp. by rewrite key_irrefl in Hp.
Qed.

(** A sorted map is determined by its lookups. *)
Lemma sm_ext m1 m2 :
  sm_sorted m1 -> sm_sorted m2 ->
  (forall k, sm_find k m1 = sm_find k m2) -> m1 = m2.
Proof using Type*.
  revert m2. induction m1 as [|[k1 v1] m1 IH]; intros m2 H1 H2 Hf.
  - destruct m2 as [|[k2 v2] m2]; [done|]. specialize (Hf k2). simpl in Hf.
    by rewrite decide_True in Hf.
  - destruct m2 as [|[k2 v2] m2].
    { specialize (Hf k1). simpl in Hf. by rewrite decide_True in Hf. }
    assert (k1 = k2) as ->.
    { destruct (decide (k1 = k2)) as [|Hne]; [done|].
      pose proof (Hf k1) as E1. pose proof (Hf k2) as E2. simpl in E1, E2.
      rewrite decide_True in E1 by done. rewrite decide_False in E1 by done.
      rewrite decide_False in E2 by done. rewrite decide_True in E2 by done.
      symmetry in E1. apply sm_find_lookup in E1. apply sm_find_lookup in E2.
      destruct H1 as [L1 _], H2 as [L2 _]. rewrite Forall_forall in L1, L2.
      specialize (L1 _ E2). specialize (L2 _ E1). simpl in L1, L2.
      pose proof (key_trans _ _ _ L1 L2) as C. by rewrite key_irrefl in C. }
    pose proof (Hf k2) as E. simpl in E. rewrite !decide_True in E by done.
    simplify_eq. f_equal. destruct H1 as [L1 S1], H2 as [L2 S2]. apply IH; [done..|].
    intros k. specialize (Hf k). simpl in Hf. case_decide; [|done]. subst.
    rewrite (sm_sorted_lt k2 v2 m1), (sm_sorted_lt k2 v2 m2); done.
Qed.
End StdMap.
#[export] Hint Resolve sm_sorted_assign sm_sorted_insert sm_sorted_erase : wga.
