(* ===== verification/ChronoMap.v ===== *)
(** * ChronoMap

    [wga::ChronoMap<K, V>] of src/peer/src/base/ChronoMap.hpp: for each key the
    values it took over time, filled in by blocks [start, end) that may arrive
    late, twice or out of order.  [data] maps a key to its [std::map] from start
    times to values, [futureData] keeps the blocks that are still ahead of
    [expirationTime].  The mutex is not modelled: every method holds it for its
    whole body, so a method is one step. *)
From S2P Require Import Prelude.
From S2P Require Import StdMap.

Section ChronoMap.
Context {K V : Type} `{Countable K} `{EqDecision V}.

(** A time block, [tuple<int64_t, int64_t, unordered_map<K, V>>]. *)
Definition block : Type := Z * Z * gmap K V.

Record ChronoMap : Type := mkChronoMap {
  data : gmap K (list (Z * V));
  expirationTime : Z;
  futureData : list (Z * block)
}.

Definition emptyChronoMap : ChronoMap := mkChronoMap ∅ 0 [].

(** One turn of the loop over [newData] in [addNextTimeBlock]. *)
Definition addEntry (startTime : Z) (d : gmap K (list (Z * V))) (it : K * V) :
    outcome (gmap K (list (Z * V))) :=
  match d !! it.1 with
  | None => Ok (<[it.1 := [(startTime, it.2)]]> d)
  | Some im =>
      match sm_rbegin im with
      | None => Err Undefined
      | Some (_, v) =>
          if decide (v = it.2) then Ok d
          else Ok (<[it.1 := sm_assign startTime it.2 im]> d)
      end
  end.

Definition addEntries (startTime : Z) (newData : gmap K V) (d : gmap K (list (Z * V))) :
    outcome (gmap K (list (Z * V))) :=
  ofold (addEntry startTime) (map_to_list newData) d.

(** [addNextTimeBlock]; the recursive call drops the first future block, so the
    recursion is on [futureData]. *)
Fixpoint addNextTimeBlock (future : list (Z * block)) (d : gmap K (list (Z * V)))
    (expiration startTime endTime : Z) (newData : gmap K V) : outcome ChronoMap :=
  if negb (expiration =? startTime) then Err LogFatal
  else if bool_decide (d = ∅) && negb (startTime =? 0) then Err LogFatal
  else
    let? d' := addEntries startTime newData d in
    match future with
    | [] => Ok (mkChronoMap d' endTime [])
    | (k, (s, e, nd)) :: rest =>
        if k =? endTime then addNextTimeBlock rest d' endTime s e nd
        else Ok (mkChronoMap d' endTime future)
    end.

Definition put (startTime endTime : Z) (newData : gmap K V) (cm : ChronoMap) :
    outcome ChronoMap :=
  if startTime <? 0 then Err LogFatal
  else if startTime <? expirationTime cm then Ok cm
  else if endTime <=? startTime then Err LogFatal
  else if negb (startTime =? expirationTime cm) then
    Ok (mkChronoMap (data cm) (expirationTime cm)
          (sm_insert startTime (startTime, endTime, newData) (futureData cm)))
  else
    addNextTimeBlock (futureData cm) (data cm) (expirationTime cm) startTime endTime newData.

Definition get (timestamp : Z) (key : K) (cm : ChronoMap) : outcome (option V) :=
  if timestamp <? 0 then Err LogFatal
  else if expirationTime cm <=? timestamp then Ok None
  else
    match data cm !! key with
    | None => Ok None
    | Some im =>
        let ahead := sm_upper_bound timestamp im in
        if (ahead =? 0)%nat then Ok None
        else if (ahead =? length im)%nat then
          match sm_rbegin im with Some (_, v) => Ok (Some v) | None => Err Undefined end
        else
          match im !! (ahead - 1)%nat with Some (_, v) => Ok (Some v) | None => Err Undefined end
    end.

Definition getAllStep (timestamp : Z) (cm : ChronoMap) (retval : gmap K V) (key : K) :
    outcome (gmap K V) :=
  let? value := get timestamp key cm in
  match value with
  | Some v => Ok (<[key := v]> retval)
  | None => Ok retval
  end.
Definition getAll (timestamp : Z) (cm : ChronoMap) : outcome (gmap K V) :=
  ofold (getAllStep timestamp cm) (elements (dom (data cm))) ∅.

Definition getChangesStep (cm : ChronoMap) (changes : gmap K V) (it : K * V) :
    outcome (gmap K V) :=
  match data cm !! it.1 with
  | None => Ok (<[it.1 := it.2]> changes)
  | Some im =>
      match sm_rbegin im with
      | None => Err Undefined
      | Some (_, v) =>
          if decide (v = it.2) then Ok changes else Ok (<[it.1 := it.2]> changes)
      end
  end.
Definition getChanges (newData : gmap K V) (cm : ChronoMap) : outcome (gmap K V) :=
  ofold (getChangesStep cm) (map_to_list newData) ∅.

Definition getOrDie (timestamp : Z) (key : K) (cm : ChronoMap) : outcome V :=
  let? v := get timestamp key cm in
  match v with Some v => Ok v | None => Err LogFatal end.

Definition getExpirationTime (cm : ChronoMap) : Z := expirationTime cm.

Definition empty (cm : ChronoMap) : bool := expirationTime cm =? 0.

(** What [waitForExpirationTime] returns when it stops waiting in the state
    [cm]: the wait predicate's value. *)
Definition waitForExpirationTime (expirationTimeToWaitFor : Z) (cm : ChronoMap) : bool :=
  expirationTimeToWaitFor <? expirationTime cm.

(** Puts one block after the other. *)
Definition putBlock (cm : ChronoMap) (b : block) : outcome ChronoMap :=
  let '(s, e, nd) := b in put s e nd cm.
Definition putAll (bs : list block) (cm : ChronoMap) : outcome ChronoMap :=
  ofold putBlock bs cm.
End ChronoMap.
Arguments block : clear implicits.
Arguments block K V {_ _}.
Arguments ChronoMap : clear implicits.
Arguments ChronoMap K V {_ _}.

(** The calls of ChronoMapTest.cpp. *)
Example chrono_map_simple :
  let s (l : list (string * string)) : gmap string string := list_to_map l in
  (let? m := put 0 2 (s [("k", "v"); ("k2", "v2")]) emptyChronoMap in
   let? m := put 2 3 (s [("k", "vv"); ("k3", "v3")]) m in
   let? m := put 4 5 (s [("k", "v4")]) m in
   let? m := put 5 6 (s [("k", "v5")]) m in
   let? a := get 3 "k" m in
   let? m := put 3 4 (s [("k", "v3")]) m in
   let? b := get 3 "k" m in
   let? c := get 5 "k" m in
   let? m := put 3 4 (s [("k", "v333")]) m in
   let? d := get 3 "k" m in
   let? e := get 1 "k3" m in
   Ok (a, b, c, d, e)) =
  Ok (None, Some "v3", Some "v5", Some "v3", None).
Proof. vm_compute. reflexivity. Qed.

(** ** Specification

    A chain of blocks and the value it gives a key at a time: that of the last
    block starting at or before the time that mentions the key. *)
Section Spec.
Context {K V : Type} `{Countable K} `{EqDecision V}.
Implicit Types (log bs : list (block K V)) (d : gmap K (list (Z * V))) (k : K).

Definition bstart (b : block K V) : Z := b.1.1.
Definition bend (b : block K V) : Z := b.1.2.
Definition bdata (b : block K V) : gmap K V := b.2.

Fixpoint chain (t : Z) (bs : list (block K V)) : Prop :=
  match bs with
  | [] => True
  | b :: bs' => bstart b = t /\ bstart b < bend b /\ chain (bend b) bs'
  end.
Fixpoint chain_end (t : Z) (bs : list (block K V)) : Z :=
  match bs with [] => t | b :: bs' => chain_end (bend b) bs' end.

Definition lookup_step (t : Z) (k : K) (acc : option V) (b : block K V) : option V :=
  if bstart b <=? t then match bdata b !! k with Some v => Some v | None => acc end else acc.
Definition lookup_log (log : list (block K V)) (t : Z) (k : K) : option V :=
  foldl (lookup_step t k) None log.

(** The blocks of the chain [bs] that a receiver of the set [R] has put in
    [data], and those it must keep in [futureData]. *)
Fixpoint committed (R bs : list (block K V)) : list (block K V) :=
  match bs with
  | [] => []
  | b :: bs' => if decide (b ∈ R) then b :: committed R bs' else []
  end.
Fixpoint pending (R bs : list (block K V)) : list (block K V) :=
  match bs with
  | [] => []
  | b :: bs' => if decide (b ∈ R) then pending R bs' else filter (.∈ R) bs'
  end.
Definition future_of (bs : list (block K V)) : list (Z * block K V) :=
  map (fun b => (bstart b, b)) bs.
Definition addBlock d (b : block K V) : outcome (gmap K (list (Z * V))) :=
  addEntries (bstart b) (bdata b) d.

(** The state a receiver of the set [R] must be in. *)
Definition canonical (bs R : list (block K V)) (cm : ChronoMap K V) : Prop :=
  ofold addBlock (committed R bs) ∅ = Ok (data cm) /\
  expirationTime cm = chain_end 0 (committed R bs) /\
  futureData cm = future_of (pending R bs).

(** ** Committing blocks *)

Definition inner_ok (d : gmap K (list (Z * V))) : Prop := map_Forall (fun _ im => im <> []) d.

Definition upd (s : Z) (ov : option V) (oim : option (list (Z * V))) : option (list (Z * V)) :=
  match ov, oim with
  | None, _ => oim
  | Some v, None => Some [(s, v)]
  | Some v, Some im =>
      match sm_rbegin im with
      | Some (_, v') => if decide (v' = v) then Some im else Some (sm_assign s v im)
      | None => Some im
      end
  end.

Lemma addEntry_spec s d k v :
  inner_ok d -> exists d', addEntry s d (k, v) = Ok d' /\ inner_ok d' /\ d' <> ∅ /\
    forall k', d' !! k' = if decide (k' = k) then upd s (Some v) (d !! k) else d !! k'.
Proof.
  intros Hd. unfold addEntry, upd, sm_rbegin; simpl.
  assert (forall x, x <> [] -> inner_ok (<[k:=x]> d) /\ <[k:=x]> d <> ∅ /\
    forall k', <[k:=x]> d !! k' = if decide (k' = k) then Some x else d !! k') as Hins.
  { intros x Hx. split; [by apply map_Forall_insert_2|].
    split; [apply insert_non_empty|]. intros k'. rewrite lookup_insert.
    destruct (decide (k = k')), (decide (k' = k)); congruence. }
  destruct (d !! k) as [im|] eqn:E.
  - pose proof (Hd _ _ E) as Him.
    destruct (last im) as [[t v']|] eqn:El; [|by apply last_None in El].
    destruct (decide (v' = v)).
    + exists d. repeat split; [done| |].
      * intros ->. by rewrite lookup_empty in E.
      * intros k'. case_decide; [by subst|done].
    + destruct (Hins (sm_assign s v im)) as (? & ? & Hl); [|eauto].
      destruct im as [|[??]?]; simpl; repeat case_match; done.
  - simpl. destruct (Hins [(s, v)]) as (? & ? & Hl); [done|eauto].
Qed.

Lemma addEntries_spec s nd d :
  inner_ok d -> exists d', addEntries s nd d = Ok d' /\ inner_ok d' /\
    (d <> ∅ \/ nd <> ∅ -> d' <> ∅) /\ forall k, d' !! k = upd s (nd !! k) (d !! k).
Proof.
  intros Hd. unfold addEntries. pose proof (NoDup_fst_map_to_list nd) as Hnd.
  pose proof (list_to_map_to_list (M := gmap K) nd) as Hl.
  revert Hnd Hl. generalize (map_to_list nd) as l. intros l Hnd <-.
  revert d Hd. induction l as [|[k v] l IH]; intros d Hd.
  - exists d. split; [done|]. split; [done|]. split; [by intros [|[]]|].
    intros k. simpl. by rewrite lookup_empty.
  - apply NoDup_cons in Hnd as [Hk Hnd]. specialize (IH Hnd). cbn [ofold].
    destruct (addEntry_spec s d k v Hd) as (d1 & -> & Hd1 & Hne & Hl1). cbn [obind].
    destruct (IH d1 Hd1) as (d' & -> & Hd' & Hne' & Hl).
    exists d'. split; [done|]. split; [done|]. split; [intros _; auto|].
    intros k'. rewrite Hl, Hl1. simpl. destruct (decide (k' = k)) as [->|].
    + rewrite lookup_insert_eq, (not_elem_of_list_to_map_1 l k Hk). done.
    + by rewrite lookup_insert_ne.
Qed.
End Spec.

Section Correctness.
Context {K V : Type} `{Countable K} `{EqDecision V}.
Implicit Types (log bs R : list (block K V)) (d : gmap K (list (Z * V))) (k : K).

Lemma addBlock_ok d (b : block K V) :
  inner_ok d -> exists d', addBlock d b = Ok d' /\ inner_ok d' /\
    (d <> ∅ \/ bdata b <> ∅ -> d' <> ∅).
Proof.
  intros Hd. destruct (addEntries_spec (bstart b) (bdata b) d Hd) as (d' & ? & ? & ? & _).
  eauto.
Qed.

Lemma commit_ok log : exists d, ofold addBlock log ∅ = Ok d /\ inner_ok d.
Proof.
  apply ofold_inv; [|apply map_Forall_empty]. intros b d _ Hd.
  destruct (addBlock_ok d b Hd) as (d' & ? & ? & _). eauto.
Qed.

Lemma commit_nonempty b log :
  bdata b <> ∅ -> exists d, ofold addBlock (b :: log) ∅ = Ok d /\ inner_ok d /\ d <> ∅.
Proof.
  intros Hb. cbn [ofold].
  destruct (addBlock_ok ∅ b) as (d1 & -> & Hd1 & Hne); [apply map_Forall_empty|].
  cbn [obind]. specialize (Hne (or_intror Hb)).
  destruct (ofold_inv (fun d => inner_ok d /\ d <> ∅) addBlock log d1) as (d & ? & ? & ?);
    [|done|eauto].
  intros b' d _ [Hd Hdne]. destruct (addBlock_ok d b' Hd) as (d' & ? & ? & ?); eauto 6.
Qed.

(** *** What [get] reads *)

Definition floor (im : list (Z * V)) (t : Z) : option V :=
  snd <$> last (take (sm_upper_bound t im) im).

Lemma upper_bound_all t (im : list (Z * V)) :
  Forall (fun p => p.1 <= t) im -> sm_upper_bound t im = length im.
Proof.
  induction 1 as [|[s v] im H1 H2 IH]; simpl; [done|]. rewrite key_ltb_Z.
  simpl in H1. destruct (Z.ltb_spec t s); [lia|]. by rewrite IH.
Qed.

Lemma upper_bound_snoc t s v (im : list (Z * V)) :
  t < s -> sm_upper_bound t (im ++ [(s, v)]) = sm_upper_bound t im.
Proof.
  intros Hts. induction im as [|[s' v'] im IH]; simpl; rewrite key_ltb_Z.
  - destruct (Z.ltb_spec t s); [done|lia].
  - destruct (t <? s'); [done|]. by rewrite IH.
Qed.

Lemma floor_snoc s v (im : list (Z * V)) t :
  Forall (fun p => p.1 < s) im ->
  floor (im ++ [(s, v)]) t = if s <=? t then Some v else floor im t.
Proof.
  intros Him. unfold floor. destruct (Z.leb_spec s t).
  - rewrite upper_bound_all, take_ge, last_snoc; [done..|].
    apply Forall_app; split; [|by repeat constructor].
    eapply Forall_impl; [exact Him|]. simpl. lia.
  - rewrite upper_bound_snoc, take_app_le by (done || apply sm_upper_bound_le). done.
Qed.

Definition represents (log : list (block K V)) (e : Z) (oim : option (list (Z * V))) (k : K) :
    Prop :=
  match oim with
  | None => forall t, lookup_log log t k = None
  | Some im =>
      im <> [] /\ Forall (fun p => p.1 < e) im /\ forall t, floor im t = lookup_log log t k
  end.

Lemma lookup_log_snoc log b t k :
  lookup_log (log ++ [b]) t k = lookup_step t k (lookup_log log t k) b.
Proof. unfold lookup_log. by rewrite foldl_app. Qed.

Lemma represents_upd log b oim k :
  bstart b < bend b -> represents log (bstart b) oim k ->
  represents (log ++ [b]) (bend b) (upd (bstart b) (bdata b !! k) oim) k.
Proof.
  intros Hlt Hr. unfold represents, upd in *.
  destruct (bdata b !! k) as [v|] eqn:Ev.
  - destruct oim as [im|].
    + destruct Hr as (Hne & Hk & Hf). unfold sm_rbegin.
      destruct (last im) as [[t' v']|] eqn:El; [|by apply last_None in El].
      destruct (decide (v' = v)) as [->|Hv].
      * split; [done|]. split; [eapply Forall_impl; [exact Hk|]; simpl; lia|].
        intros t. rewrite lookup_log_snoc. unfold lookup_step. rewrite Ev, <- Hf.
        destruct (Z.leb_spec (bstart b) t); [|done]. unfold floor.
        rewrite upper_bound_all, take_ge, El; [done..|].
        eapply Forall_impl; [exact Hk|]. simpl. lia.
      * rewrite sm_assign_snoc.
        2:{ eapply Forall_impl; [exact Hk|]. intros p. rewrite key_ltb_Z. lia. }
        split; [by destruct im|]. split.
        { apply Forall_app; split; [|by repeat constructor].
          eapply Forall_impl; [exact Hk|]; simpl; lia. }
        intros t. rewrite floor_snoc, lookup_log_snoc by done.
        unfold lookup_step. by rewrite Ev, Hf.
    + split; [done|]. split; [by repeat constructor|]. intros t.
      rewrite lookup_log_snoc. unfold lookup_step. rewrite Ev, Hr.
      exact (floor_snoc (bstart b) v [] t (Forall_nil_2 _)).
  - assert (forall t, lookup_log (log ++ [b]) t k = lookup_log log t k) as Hsame.
    { intros t. rewrite lookup_log_snoc. unfold lookup_step. rewrite Ev.
      by destruct (bstart b <=? t). }
    destruct oim as [im|]; [|intros t; by rewrite Hsame].
    destruct Hr as (Hne & Hk & Hf). split; [done|].
    split; [eapply Forall_impl; [exact Hk|]; simpl; lia|]. intros t. by rewrite Hsame.
Qed.

Lemma commit_represents log2 log1 d1 :
  inner_ok d1 -> chain (chain_end 0 log1) log2 ->
  (forall k, represents log1 (chain_end 0 log1) (d1 !! k) k) ->
  exists d, ofold addBlock log2 d1 = Ok d /\
    forall k, represents (log1 ++ log2) (chain_end (chain_end 0 log1) log2) (d !! k) k.
Proof.
  revert log1 d1. induction log2 as [|b log2 IH]; intros log1 d1 Hd1 Hc Hr.
  - exists d1. rewrite app_nil_r. done.
  - destruct Hc as (Hs & Hlt & Hc). cbn [ofold].
    destruct (addEntries_spec (bstart b) (bdata b) d1 Hd1) as (d2 & E & Hd2 & _ & Hl).
    unfold addBlock at 1. rewrite E. cbn [obind].
    assert (forall t l, chain_end t (l ++ [b]) = bend b) as Hce
      by (intros t l; revert t; induction l; simpl; auto).
    destruct (IH (log1 ++ [b]) d2) as (d & -> & Hrep).
    + done.
    + by rewrite Hce.
    + intros k. rewrite Hce, Hl. apply represents_upd; [done|]. rewrite Hs. apply Hr.
    + exists d. split; [done|]. intros k. specialize (Hrep k).
      rewrite Hce, <- (assoc_L (++)) in Hrep. exact Hrep.
Qed.

Lemma get_represents (cm : ChronoMap K V) log t k :
  0 <= t -> represents log (expirationTime cm) (data cm !! k) k ->
  get t k cm = Ok (if t <? expirationTime cm then lookup_log log t k else None).
Proof.
  intros Ht Hr. unfold get. destruct (Z.ltb_spec t 0); [lia|].
  destruct (Z.leb_spec (expirationTime cm) t), (Z.ltb_spec t (expirationTime cm)); try lia;
    [done|].
  unfold represents in Hr. destruct (data cm !! k) as [im|]; [|by rewrite Hr].
  destruct Hr as (Hne & _ & <-). unfold floor.
  pose proof (sm_upper_bound_le t im) as Hle. unfold sm_rbegin.
  destruct (Nat.eqb_spec (sm_upper_bound t im) 0) as [->|Hpos]; [done|].
  destruct (Nat.eqb_spec (sm_upper_bound t im) (length im)) as [->|Hlt].
  - rewrite take_ge by done.
    destruct (last im) as [[? ?]|] eqn:El; [done|by apply last_None in El].
  - rewrite last_lookup, length_take, Nat.min_l by done.
    rewrite lookup_take_lt by lia. replace (Nat.pred (sm_upper_bound t im))
      with (sm_upper_bound t im - 1)%nat by lia.
    destruct (im !! _) as [[? ?]|] eqn:El; [done|]. apply lookup_ge_None in El. lia.
Qed.

Lemma chain_committed t bs R : chain t bs -> chain t (committed R bs).
Proof.
  revert t. induction bs as [|b bs IH]; intros t; simpl; [done|]. intros (?&?&?).
  case_decide; simpl; auto.
Qed.

Lemma get_canonical bs R cm t k :
  chain 0 bs -> canonical bs R cm -> 0 <= t ->
  get t k cm = Ok (if t <? expirationTime cm then lookup_log (committed R bs) t k else None).
Proof.
  intros Hc (Hd & He & _) Ht. apply get_represents; [done|].
  destruct (commit_represents (committed R bs) [] ∅) as (d & E & Hr).
  - apply map_Forall_empty.
  - by apply chain_committed.
  - intros k'. rewrite lookup_empty. done.
  - rewrite Hd in E. injection E as <-. rewrite He. apply Hr.
Qed.
End Correctness.

Section Convergence.
Context {K V : Type} `{Countable K} `{EqDecision V}.
Implicit Types (b h : block K V) (bs tl R : list (block K V)).

Lemma chain_starts t bs :
  chain t bs -> Forall (fun b => t <= bstart b < bend b) bs.
Proof.
  revert t. induction bs as [|b bs IH]; intros t; simpl; [constructor|].
  intros (<- & Hlt & Hc). constructor; [lia|].
  eapply Forall_impl; [apply (IH _ Hc)|]. simpl. lia.
Qed.

Lemma chain_not_in t b bs : chain t bs -> bstart b < t -> b ∉ bs.
Proof.
  intros Hc Hlt Hin. pose proof (chain_starts _ _ Hc) as Hf.
  rewrite Forall_forall in Hf. specialize (Hf _ Hin). simpl in Hf. lia.
Qed.

Lemma chain_end_ge t bs : chain t bs -> t <= chain_end t bs.
Proof.
  revert t. induction bs as [|b bs IH]; intros t; simpl; [lia|].
  intros (? & ? & Hc). specialize (IH _ Hc). lia.
Qed.

Lemma chain_end_in t b bs : chain t bs -> b ∈ bs -> bstart b < chain_end t bs.
Proof.
  revert t. induction bs as [|x bs IH]; intros t; simpl; [by intros _ ?%elem_of_nil|].
  intros (? & ? & Hc) [->|Hin]%elem_of_cons; [|eauto].
  pose proof (chain_end_ge _ _ Hc). lia.
Qed.

Lemma filter_ext_in R R' bs :
  (forall x, x ∈ bs -> x ∈ R <-> x ∈ R') -> filter (.∈ R) bs = filter (.∈ R') bs.
Proof.
  intros Hx. induction bs as [|b bs IH]; [done|]. rewrite !filter_cons, IH.
  - assert (b ∈ R <-> b ∈ R') by (apply Hx; left). repeat case_decide; tauto.
  - intros x Hin. apply Hx. by right.
Qed.

Lemma committed_ext R R' bs :
  (forall x, x ∈ bs -> x ∈ R <-> x ∈ R') ->
  committed R bs = committed R' bs /\ pending R bs = pending R' bs.
Proof.
  induction bs as [|b bs IH]; intros Hx; simpl; [done|].
  destruct IH as [E1 E2]; [intros x Hin; apply Hx; by right|].
  assert (b ∈ R <-> b ∈ R') as Hb by (apply Hx; left).
  destruct (decide (b ∈ R)), (decide (b ∈ R')); try tauto.
  - by rewrite E1.
  - split; [done|]. apply filter_ext_in. intros x Hin. apply Hx. by right.
Qed.

Lemma committed_split R bs :
  exists rest, bs = committed R bs ++ rest /\ Forall (.∈ R) (committed R bs) /\
    match rest with
    | [] => pending R bs = []
    | h :: tl => (h ∉ R) /\ pending R bs = filter (.∈ R) tl
    end.
Proof.
  induction bs as [|b bs (rest & E & HR & Hrest)]; simpl.
  - by exists [].
  - case_decide.
    + exists rest. simpl. split; [by f_equal|]. split; [by constructor|done].
    + by exists (b :: bs).
Qed.

Lemma committed_app R xs ys :
  Forall (.∈ R) xs ->
  committed R (xs ++ ys) = xs ++ committed R ys /\ pending R (xs ++ ys) = pending R ys.
Proof.
  induction 1 as [|x xs Hx Hxs [IH1 IH2]]; simpl; [done|].
  rewrite !decide_True by done. by rewrite IH1.
Qed.

Lemma chain_end_app t (xs ys : list (block K V)) : chain_end t (xs ++ ys) = chain_end (chain_end t xs) ys.
Proof. revert t. induction xs; intros t; simpl; auto. Qed.

Lemma chain_app t (xs ys : list (block K V)) : chain t (xs ++ ys) <-> chain t xs /\ chain (chain_end t xs) ys.
Proof. revert t. induction xs as [|x xs IH]; intros t; simpl; [tauto|]. rewrite IH. tauto. Qed.

(** Draining: committing [h] also commits every received block that follows
    it without a gap, and leaves the others pending. *)
Lemma addNextTimeBlock_drain R tl h d :
  chain (bstart h) (h :: tl) -> inner_ok d -> (d <> ∅ \/ bstart h = 0 /\ bdata h <> ∅) ->
  exists cm,
    addNextTimeBlock (future_of (filter (.∈ R) tl)) d (bstart h) (bstart h) (bend h) (bdata h)
      = Ok cm /\
    ofold addBlock (h :: committed R tl) d = Ok (data cm) /\
    expirationTime cm = chain_end (bend h) (committed R tl) /\
    futureData cm = future_of (pending R tl).
Proof.
  revert h d. induction tl as [|b1 tl IH]; intros h d (_ & Hlt & Hc) Hd Hne.
  all: destruct (addBlock_ok d h Hd) as (d' & E & Hd' & Hne').
  all: assert (d' <> ∅) as Hd'ne by (apply Hne'; tauto).
  all: assert (bool_decide (d = ∅) && negb (bstart h =? 0) = false) as Hcheck
    by (apply andb_false_iff; rewrite bool_decide_eq_false, negb_false_iff, Z.eqb_eq; tauto).
  - exists (mkChronoMap d' (bend h) []). simpl.
    rewrite Z.eqb_refl, Hcheck. unfold addBlock in *. rewrite E. done.
  - destruct Hc as (Hs1 & Hlt1 & Hc). simpl committed. simpl pending.
    destruct (decide (b1 ∈ R)) as [Hin|Hout].
    + rewrite filter_cons_True by done.
      destruct (IH b1 d') as (cm & Hrun & Hdata & Hexp & Hfut);
        [by repeat split|done|by left|].
      exists cm. split; [|split; [|done]].
      * cbn -[addEntries addNextTimeBlock]. destruct b1 as [[s1 e1] nd1].
        cbn in Hs1. cbn -[addEntries addNextTimeBlock] in Hrun |- *.
        cbn [addNextTimeBlock]. rewrite Z.eqb_refl, Hcheck. simpl negb.
        unfold addBlock in E. rewrite E. cbn [obind].
        unfold bstart; simpl. subst s1. rewrite Z.eqb_refl. exact Hrun.
      * cbn [ofold]. rewrite E. exact Hdata.
    + rewrite filter_cons_False by done.
      exists (mkChronoMap d' (bend h) (future_of (filter (.∈ R) tl))).
      split; [|split; [|done]].
      * destruct (filter (.∈ R) tl) as [|[[s e] nd] rest] eqn:Ef; simpl.
        all: rewrite Z.eqb_refl, Hcheck; simpl; unfold addBlock in E; rewrite E; simpl.
        1: done.
        assert ((s, e, nd) ∈ tl) as Hin.
        { assert ((s, e, nd) ∈ filter (.∈ R) tl) as Hf by (rewrite Ef; left).
          by apply list_elem_of_filter in Hf as [_ ?]. }
        pose proof (chain_starts _ _ Hc) as Hf. rewrite Forall_forall in Hf.
        specialize (Hf _ Hin). simpl in Hf. unfold bstart in *. simpl in *.
        destruct (Z.eqb_spec s (bend h)); [lia|done].
      * cbn [ofold]. by rewrite E.
Qed.

Lemma future_insert R tl b t :
  chain t tl -> b ∈ tl ->
  sm_insert (bstart b) b (future_of (filter (.∈ R) tl)) = future_of (filter (.∈ b :: R) tl).
Proof.
  revert t. induction tl as [|x tl IH]; intros t Hc Hin; [by apply elem_of_nil in Hin|].
  destruct Hc as (Hs & Hlt & Hc).
  assert (forall y, y ∈ tl -> bstart x < bstart y) as Hgt.
  { intros y Hy. pose proof (chain_starts _ _ Hc) as Hf. rewrite Forall_forall in Hf.
    specialize (Hf _ Hy). simpl in Hf. lia. }
  destruct (decide (b = x)) as [->|Hne].
  - assert (filter (.∈ x :: R) tl = filter (.∈ R) tl) as Eq.
    { apply filter_ext_in. intros y Hy. rewrite elem_of_cons. split; [|tauto].
      intros [->|]; [|done]. specialize (Hgt x Hy). lia. }
    rewrite (filter_cons_True (.∈ x :: R) x tl) by left. rewrite Eq. unfold sm_insert.
    destruct (decide (x ∈ R)).
    + rewrite filter_cons_True by done. simpl. by rewrite decide_True.
    + rewrite filter_cons_False by done.
      assert (Forall (fun p => bstart x < p.1) (future_of (filter (.∈ R) tl))) as Hf.
      { apply Forall_map, Forall_forall. intros y [HR Hy]%list_elem_of_filter.
        by apply Hgt. }
      destruct (future_of (filter (.∈ R) tl)) as [|[k v] rest] eqn:Ef;
        [simpl; by rewrite Ef|].
      assert (sm_find (bstart x) ((k, v) :: rest) = None) as ->.
      { clear -Hf. induction Hf as [|[k' v'] l Hk Hl IHl]; simpl; [done|]. simpl in Hk.
        rewrite decide_False by lia. done. }
      inversion Hf as [|?? Hk _]; subst. simpl in Hk |- *. rewrite key_ltb_Z.
      destruct (Z.ltb_spec (bstart x) k); [|lia]. by rewrite Ef.
  - apply elem_of_cons in Hin as [|Hin]; [done|].
    pose proof (Hgt b Hin) as Hb. specialize (IH _ Hc Hin).
    destruct (decide (x ∈ R)) as [HxR|HxR].
    + rewrite !filter_cons_True by (by try right). simpl. rewrite <- IH.
      unfold sm_insert. simpl.
      rewrite decide_False by lia. destruct (sm_find _ _); [done|].
      rewrite key_ltb_Z. destruct (Z.ltb_spec (bstart b) (bstart x)); [lia|].
      by rewrite decide_False by lia.
    + rewrite !filter_cons_False; [done| |done]. rewrite elem_of_cons. intros [|]; congruence.
Qed.
End Convergence.

Section Theorems.
Context {K V : Type} `{Countable K} `{EqDecision V}.
Implicit Types (b : block K V) (bs R l : list (block K V)) (cm : ChronoMap K V).

(** The first block of the chain mentions some key; without that the second
    block aborts. *)
Definition first_nonempty bs : Prop :=
  match bs with [] => True | b :: _ => bdata b <> ∅ end.

Lemma canonical_ext bs R R' cm :
  (forall x, x ∈ bs -> x ∈ R <-> x ∈ R') -> canonical bs R cm -> canonical bs R' cm.
Proof.
  intros Hx. unfold canonical. destruct (committed_ext R R' bs Hx) as [-> ->]. done.
Qed.

Lemma canonical_fun bs R cm1 cm2 : canonical bs R cm1 -> canonical bs R cm2 -> cm1 = cm2.
Proof.
  intros (E1 & ? & ?) (E2 & ? & ?). destruct cm1, cm2; simpl in *; congruence.
Qed.

Lemma canonical_nil bs : canonical bs [] emptyChronoMap.
Proof.
  assert (committed [] bs = [] /\ pending [] bs = []) as [E1 E2].
  { destruct bs as [|b bs]; simpl; [done|]. split; [done|].
    induction bs as [|x bs IH]; [done|].
    by rewrite filter_cons_False by apply not_elem_of_nil. }
  unfold canonical. rewrite E1, E2. done.
Qed.

(** One [put] of a block of the chain takes the canonical state of the blocks
    received so far to that of the blocks received including this one. *)
Lemma canonical_put bs R cm b :
  chain 0 bs -> first_nonempty bs -> b ∈ bs -> canonical bs R cm ->
  exists cm', putBlock cm b = Ok cm' /\ canonical bs (b :: R) cm'.
Proof.
  intros Hc Hne Hb (Hd & He & Hf).
  destruct (committed_split R bs) as (rest & Ebs & HR & Hrest).
  pose proof (proj1 (chain_app 0 _ _) (eq_ind _ (chain 0) Hc _ Ebs)) as [Hc1 Hc2].
  pose proof (chain_starts _ _ Hc) as Hst. rewrite Forall_forall in Hst.
  pose proof (Hst b Hb) as Hsb. simpl in Hsb.
  pose proof Hb as Hb'. rewrite Ebs, elem_of_app in Hb'.
  unfold putBlock. destruct b as [[s e] nd] eqn:Eb. rewrite <- Eb in *.
  assert (bstart b = s /\ bend b = e /\ bdata b = nd) as (Es & Ee & End) by by subst b.
  unfold put. rewrite <- Es, <- Ee, <- End, He, Hf.
  destruct (Z.ltb_spec (bstart b) 0); [lia|].
  destruct (Z.leb_spec (bend b) (bstart b)); [lia|].
  destruct Hb' as [Hin|Hin].
  - (* already committed: the interval lies before the expiration time *)
    assert (bstart b < chain_end 0 (committed R bs)) as Hlt.
    { by apply chain_end_in. }
    destruct (Z.ltb_spec (bstart b) (chain_end 0 (committed R bs))); [|lia].
    exists cm. split; [done|]. apply (canonical_ext bs R); [|done].
    intros x _. rewrite elem_of_cons. split; [tauto|]. intros [->|]; [|done].
    rewrite Forall_forall in HR. auto.
  - destruct rest as [|h tl]; [by apply elem_of_nil in Hin|]. destruct Hrest as [Hh Ep].
    pose proof Hc2 as (Hs & Hlt & Hct). rewrite Ep.
    assert (h ∉ tl) as Hnot by (apply (chain_not_in (bend h)); [done|lia]).
    destruct (decide (b = h)) as [<-|Hbh].
    + (* the next block: commit it and drain *)
      destruct (addNextTimeBlock_drain R tl b (data cm)) as (cm' & Hrun & Hcd & Hce & Hcf).
      { split; [done|]. split; [done|exact Hct]. }
      { destruct (commit_ok (committed R bs)) as (d & E & ?). rewrite Hd in E. by simplify_eq. }
      { destruct (committed R bs) as [|b0 l] eqn:Ec.
        - right. simpl in Hs, Ebs. split; [done|]. rewrite Ebs in Hne. exact Hne.
        - left. destruct (commit_nonempty b0 l) as (d & E & _ & ?); [|congruence].
          rewrite Ebs in Hne. exact Hne. }
      rewrite <- Hs, Z.ltb_irrefl, Z.eqb_refl. simpl negb. cbv iota.
      exists cm'. split; [exact Hrun|].
      assert (forall x, x ∈ tl -> x ∈ R <-> x ∈ b :: R) as Hx.
      { intros x Hx. rewrite elem_of_cons. split; [tauto|]. intros [->|]; done. }
      destruct (committed_ext R (b :: R) tl Hx) as [E1 E2].
      assert (Forall (.∈ b :: R) (committed R bs)) as HR'.
      { eapply Forall_impl; [exact HR|]. intros. by right. }
      destruct (committed_app (b :: R) (committed R bs) (b :: tl) HR') as [E3 E4].
      unfold canonical. rewrite Ebs at 1 2 3. rewrite E3, E4. simpl committed. simpl pending.
      rewrite !decide_True by left. rewrite <- E1, <- E2.
      rewrite ofold_app, Hd, chain_end_app. simpl obind. done.
    + (* a block ahead of the expiration time: keep it *)
      apply elem_of_cons in Hin as [|Hin]; [done|].
      pose proof (chain_starts _ _ Hct) as Hst'. rewrite Forall_forall in Hst'.
      specialize (Hst' _ Hin). simpl in Hst'.
      destruct (Z.ltb_spec (bstart b) (chain_end 0 (committed R bs))); [lia|].
      destruct (Z.eqb_spec (bstart b) (chain_end 0 (committed R bs))); [lia|]. simpl negb.
      cbv iota. eexists. split; [done|].
      replace (bstart b, bend b, bdata b) with b by (by destruct b as [[??]?]).
      rewrite (future_insert R tl b (bend h)) by done.
      assert (Forall (.∈ b :: R) (committed R bs)) as HR'.
      { eapply Forall_impl; [exact HR|]. intros. by right. }
      destruct (committed_app (b :: R) (committed R bs) (h :: tl) HR') as [E3 E4].
      unfold canonical. simpl data. simpl expirationTime. simpl futureData.
      rewrite Ebs at 1 3 4. rewrite E3, E4. simpl committed. simpl pending.
      rewrite !decide_False by (rewrite elem_of_cons; intros [|]; congruence).
      rewrite app_nil_r. done.
Qed.

Lemma putAll_canonical bs l :
  chain 0 bs -> first_nonempty bs -> Forall (.∈ bs) l ->
  exists cm, putAll l emptyChronoMap = Ok cm /\ canonical bs l cm.
Proof.
  intros Hc Hne Hl. induction l as [|b l IH] using rev_ind.
  - exists emptyChronoMap. split; [done|]. apply canonical_nil.
  - apply Forall_app in Hl as [Hl Hb]. inversion Hb; subst.
    destruct (IH Hl) as (cm & E & Hcan).
    destruct (canonical_put bs l cm b) as (cm' & E' & Hcan'); [done..|].
    exists cm'. unfold putAll in *. rewrite ofold_app, E. simpl. rewrite E'. split; [done|].
    eapply canonical_ext; [|exact Hcan']. intros x _.
    rewrite elem_of_cons, elem_of_app, list_elem_of_singleton. tauto.
Qed.

(** A first block with no keys leaves the map in a state in which the next
    block of the timeline aborts the process: [addNextTimeBlock] takes "no key
    seen yet" for "no block seen yet". *)
Theorem empty_first_block_aborts e1 e2 (nd : gmap K V) :
  0 < e1 -> e1 < e2 ->
  exists cm, put 0 e1 ∅ (emptyChronoMap (K := K) (V := V)) = Ok cm /\
    expirationTime cm = e1 /\ put e1 e2 nd cm = Err LogFatal.
Proof.
  intros H1 H2. exists (mkChronoMap ∅ e1 []). unfold put. simpl.
  destruct (Z.leb_spec e1 0); [lia|].
  unfold addEntries. rewrite map_to_list_empty. simpl. split; [done|]. split; [done|].
  destruct (Z.ltb_spec e1 0); [lia|]. rewrite Z.ltb_irrefl, Z.eqb_refl. simpl.
  destruct (Z.leb_spec e2 e1); [lia|].
  rewrite bool_decide_true by done. destruct (Z.eqb_spec e1 0); [lia|done].
Qed.

(** C7: However the blocks of a timeline are delivered (late, duplicated,
    reordered, some lost), if its first block sets a key then [put] never aborts and the
    map only depends on the set of blocks that arrived: two deliveries of the same blocks
    end in the same state.  If the first block sets none, [put] aborts the process at
    the second one, even in order. *)
Theorem put_convergent bs l1 l2 :
  chain 0 bs -> Forall (.∈ bs) l1 -> (forall b, b ∈ l1 <-> b ∈ l2) ->
  (first_nonempty bs ->
   exists cm, putAll l1 emptyChronoMap = Ok cm /\ putAll l2 emptyChronoMap = Ok cm) /\
  (forall b0 b1 rest, bs = b0 :: b1 :: rest -> bdata b0 = ∅ ->
   putAll [b0; b1] emptyChronoMap = Err LogFatal).
Proof.
  intros Hc Hl1 Heq. split.
  - intros Hne. assert (Forall (.∈ bs) l2) as Hl2.
    { rewrite Forall_forall in *. intros b Hb. by apply Hl1, Heq. }
    destruct (putAll_canonical bs l1) as (cm1 & E1 & H1); [done..|].
    destruct (putAll_canonical bs l2) as (cm2 & E2 & H2); [done..|].
    exists cm1. split; [done|]. rewrite E2. f_equal. symmetry.
    eapply (canonical_fun bs l1); [done|]. eapply canonical_ext; [|exact H2].
    intros x _. by rewrite Heq.
  - intros [[s0 e0] d0] [[s1 e1] d1] rest -> Hd. unfold bstart, bend, bdata in *. simpl in Hd. subst d0.
    destruct Hc as (Hs0 & Hlt0 & Hs1 & Hlt1 & _). cbn in *. subst s0 s1.
    destruct (empty_first_block_aborts e0 e1 d1 Hlt0 Hlt1) as (cm & E0 & _ & E1).
    unfold putAll, putBlock. cbn [ofold fst snd]. rewrite E0. cbn [obind]. by rewrite E1.
Qed.

(** A canonical map answers a time inside its prefix from the timeline itself. *)
Lemma get_canonical_log bs l cm t k :
  chain 0 bs -> canonical bs l cm -> 0 <= t ->
  get t k cm = Ok (if t <? chain_end 0 (committed l bs) then lookup_log bs t k else None).
Proof.
  intros Hc Hcan Ht. rewrite (get_canonical bs l) by done.
  pose proof Hcan as (_ & He & _). rewrite He. f_equal.
  destruct (Z.ltb_spec t (chain_end 0 (committed l bs))) as [Hlt|]; [|done].
  destruct (committed_split l bs) as (rest & Ebs & _ & _).
  rewrite Ebs at 2. unfold lookup_log. rewrite foldl_app.
  rewrite Ebs in Hc. apply chain_app in Hc as [_ Hc2]. apply chain_starts in Hc2.
  clear Ebs Hcan.
  generalize (foldl (lookup_step t k) None (committed l bs)) as acc.
  induction Hc2 as [|b rest [Hb _] Hrest IH]; intros acc; simpl; [done|].
  rewrite <- IH. unfold lookup_step. destruct (Z.leb_spec (bstart b) t); [lia|done].
Qed.

(** After any delivery of blocks of a timeline, [get] at a time inside the
    contiguously received prefix returns the key's value in force at that
    time according to the timeline itself, and [nullopt] past the prefix. *)
Theorem get_after_puts bs l t k :
  chain 0 bs -> first_nonempty bs -> Forall (.∈ bs) l -> 0 <= t ->
  exists cm, putAll l emptyChronoMap = Ok cm /\
    get t k cm = Ok (if t <? chain_end 0 (committed l bs)
                     then lookup_log bs t k else None).
Proof.
  intros Hc Hne Hl Ht. destruct (putAll_canonical bs l) as (cm & E & Hcan); [done..|].
  exists cm. split; [done|]. by apply get_canonical_log.
Qed.

(** [getAll] collects exactly the keys [get] answers for. *)
Lemma getAll_loop t cm (l : list K) (acc : gmap K V) :
  NoDup l -> (forall k, k ∈ l -> is_ok (get t k cm) = true) ->
  exists m, ofold (getAllStep t cm) l acc = Ok m /\
    forall k, m !! k = if decide (k ∈ l) then
                         match get t k cm with Ok (Some v) => Some v | _ => acc !! k end
                       else acc !! k.
Proof.
  revert acc. induction l as [|x l IH]; intros acc Hnd Hok; cbn [ofold].
  - exists acc. split; [done|]. intros k.
    case_decide as Hk; [by apply elem_of_nil in Hk|done].
  - apply NoDup_cons in Hnd as [Hx Hnd].
    assert (is_ok (get t x cm) = true) as Hgx by (apply Hok; left).
    unfold getAllStep at 1. destruct (get t x cm) as [ov|] eqn:Eg; [|done]. cbn [obind].
    set (acc' := match ov with Some v => <[x := v]> acc | None => acc end).
    assert ((match ov with Some v => Ok (<[x := v]> acc) | None => Ok acc end) = Ok acc')
      as -> by (subst acc'; by destruct ov). cbn [obind].
    destruct (IH acc') as (m & Em & Hm); [done| |].
    { intros k Hk. apply Hok. by right. }
    exists m. split; [exact Em|]. intros k. rewrite Hm.
    assert (k <> x -> acc' !! k = acc !! k) as Hother.
    { intros. subst acc'. destruct ov; [|done]. by rewrite lookup_insert_ne. }
    destruct (decide (k ∈ x :: l)) as [Hin|Hin], (decide (k ∈ l)) as [Hin'|Hin'];
      rewrite elem_of_cons in Hin; try tauto.
    + rewrite Hother; [done|congruence].
    + destruct Hin as [->|]; [|done]. rewrite Eg. subst acc'.
      destruct ov; [by rewrite lookup_insert_eq|done].
Qed.

(** After any delivery of blocks of a timeline, [getAll] at a time inside
    the received prefix returns the whole state of the timeline at that time. *)
Theorem getAll_after_puts bs l t :
  chain 0 bs -> first_nonempty bs -> Forall (.∈ bs) l ->
  0 <= t < chain_end 0 (committed l bs) ->
  exists cm m, putAll l emptyChronoMap = Ok cm /\ getAll t cm = Ok m /\
    forall k, m !! k = lookup_log bs t k.
Proof.
  intros Hc Hne Hl Ht. destruct (putAll_canonical bs l) as (cm & E & Hcan); [done..|].
  assert (forall k, get t k cm = Ok (lookup_log bs t k)) as Hget.
  { intros k. rewrite (get_canonical_log bs l) by (done || lia).
    by destruct (Z.ltb_spec t (chain_end 0 (committed l bs))); [|lia]. }
  destruct (getAll_loop t cm (elements (dom (data cm))) ∅) as (m & Em & Hm).
  { apply NoDup_elements. }
  { intros k _. by rewrite Hget. }
  exists cm, m. split; [done|]. split; [exact Em|]. intros k. rewrite Hm, Hget.
  case_decide as Hin; [by destruct (lookup_log bs t k)|].
  rewrite elem_of_elements, not_elem_of_dom in Hin. specialize (Hget k).
  unfold get in Hget. rewrite Hin in Hget. rewrite lookup_empty. repeat case_match; congruence.
Qed.


(** The branches of [put] that do not touch the map or abort. *)
Lemma put_overlap s e nd cm :
  0 <= s -> s < expirationTime cm -> put s e nd cm = Ok cm.
Proof.
  intros. unfold put. destruct (Z.ltb_spec s 0); [lia|].
  by destruct (Z.ltb_spec s (expirationTime cm)); [|lia].
Qed.

Lemma put_invalid s e nd cm :
  s < 0 \/ (expirationTime cm <= s /\ e <= s) -> put s e nd cm = Err LogFatal.
Proof.
  intros. unfold put. destruct (Z.ltb_spec s 0); [done|].
  destruct (Z.ltb_spec s (expirationTime cm)); [lia|].
  by destruct (Z.leb_spec e s); [|lia].
Qed.

(** What the latest value of a key leaves of its new value [v]. *)
Definition changed cm (k : K) (v : V) : option V :=
  match data cm !! k with
  | Some im => if decide (snd <$> last im = Some v) then None else Some v
  | None => Some v
  end.

Lemma getChangesStep_spec cm (acc : gmap K V) k v :
  inner_ok (data cm) -> acc !! k = None ->
  exists acc', getChangesStep cm acc (k, v) = Ok acc' /\
    forall k', acc' !! k' = if decide (k' = k) then changed cm k v else acc !! k'.
Proof.
  intros Hd Hk. unfold getChangesStep, changed, sm_rbegin; simpl.
  assert (forall k', <[k:=v]> acc !! k' = if decide (k' = k) then Some v else acc !! k')
    as Hins by (intros k'; rewrite lookup_insert; repeat case_decide; congruence).
  destruct (data cm !! k) as [im|] eqn:Ed; [|by eauto].
  destruct (last im) as [[t w]|] eqn:El; [|apply last_None in El; by apply Hd in Ed].
  simpl. destruct (decide (w = v)) as [->|Hw].
  - exists acc. split; [done|]. intros k'. rewrite (decide_True (P := Some v = Some v)) by done.
    case_decide; by subst.
  - eexists. split; [done|]. by rewrite (decide_False (P := Some w = Some v)) by congruence.
Qed.

(** [getChanges] reports the keys whose latest value differs, whatever the
    order the unordered map is walked in. *)
Lemma getChanges_spec (nd : gmap K V) cm :
  inner_ok (data cm) ->
  exists m, getChanges nd cm = Ok m /\ forall k, m !! k = nd !! k ≫= changed cm k.
Proof.
  intros Hd. unfold getChanges. pose proof (NoDup_fst_map_to_list nd) as Hnd.
  pose proof (list_to_map_to_list (M := gmap K) nd) as Hl.
  revert Hnd Hl. generalize (map_to_list nd) as l. intros l Hnd <-.
  enough (forall acc : gmap K V, (forall k, k ∈ l.*1 -> acc !! k = None) ->
    exists m, ofold (getChangesStep cm) l acc = Ok m /\
      forall k, m !! k = match (list_to_map l : gmap K V) !! k with
                         | None => acc !! k
                         | Some v => changed cm k v
                         end) as Hgen.
  { destruct (Hgen ∅) as (m & Em & Hm); [intros; apply lookup_empty|].
    exists m. split; [exact Em|]. intros k. rewrite Hm.
    by destruct (list_to_map l !! k). }
  induction l as [|[k v] l IH]; intros acc Hacc.
  - exists acc. split; [done|]. intros k. done.
  - apply NoDup_cons in Hnd as [Hk Hnd]. cbn [ofold].
    destruct (getChangesStep_spec cm acc k v) as (acc' & -> & Ha);
      [done|apply Hacc; left|]. cbn [obind].
    destruct (IH Hnd acc') as (m & Em & Hm).
    { intros k' Hk'. rewrite Ha, decide_False by (intros ->; done). apply Hacc. by right. }
    exists m. split; [exact Em|]. intros k'. rewrite Hm, Ha. simpl.
    destruct (decide (k' = k)) as [->|].
    + by rewrite (not_elem_of_list_to_map_1 l k Hk), lookup_insert_eq.
    + by rewrite lookup_insert_ne.
Qed.
End Theorems.

(** ** The theorems at a concrete timeline *)
Section Witnesses.
Definition demo_chain : list (block string string) :=
  [(0, 2, list_to_map [("k", "v"); ("k2", "v2")]); (2, 3, list_to_map [("k", "vv")]);
   (3, 4, list_to_map [("k2", "w")])].
(** The blocks arrive in the order 1, 2, 0, 1. *)
Definition demo_delivery : list (block string string) :=
  [(2, 3, list_to_map [("k", "vv")]); (3, 4, list_to_map [("k2", "w")]);
   (0, 2, list_to_map [("k", "v"); ("k2", "v2")]); (2, 3, list_to_map [("k", "vv")])].

Lemma demo_chain_ok : chain 0 demo_chain /\ first_nonempty demo_chain /\
  Forall (.∈ demo_chain) demo_delivery.
Proof using.
  split; [by repeat split|]. split; [by_compute|]. repeat constructor; by_compute.
Defined.

Lemma put_convergent_witness :
  exists cm, putAll demo_delivery emptyChronoMap = Ok cm /\
             putAll demo_chain emptyChronoMap = Ok cm.
Proof using.
  apply (put_convergent demo_chain demo_delivery demo_chain);
    [apply demo_chain_ok|apply demo_chain_ok| |apply demo_chain_ok].
  intros b. unfold demo_delivery, demo_chain. rewrite !elem_of_cons. tauto.
Defined.

Lemma get_after_puts_witness :
  exists cm, putAll demo_delivery emptyChronoMap = Ok cm /\
    get 3 "k" cm = Ok (Some "vv").
Proof using.
  destruct (get_after_puts demo_chain demo_delivery 3 "k") as (cm & E & G);
    [apply demo_chain_ok..|lia|].
  exists cm. split; [exact E|]. rewrite G. vm_compute. reflexivity.
Defined.

Lemma getAll_after_puts_witness :
  exists cm m, putAll demo_delivery emptyChronoMap = Ok cm /\ getAll 3 cm = Ok m /\
    forall k, m !! k = lookup_log demo_chain 3 k.
Proof using.
  apply (getAll_after_puts demo_chain demo_delivery 3); [apply demo_chain_ok..|].
  vm_compute. split; congruence.
Defined.


Lemma empty_first_block_aborts_witness :
  exists cm, put 0 200 ∅ (emptyChronoMap (K := string) (V := string)) = Ok cm /\
    expirationTime cm = 200 /\ put 200 400 {["button" := "1"]} cm = Err LogFatal.
Proof using. apply (empty_first_block_aborts 200 400); lia. Defined.
End Witnesses.
