(* ===== verification/ChronoInvariant.v ===== *)
(** * ChronoInvariant

    What a [ChronoMap] (ChronoMap.hpp) keeps whatever is put into it, in any order, valid
    or not: the invariant of its three fields, that every method keeps it, and that on a
    map that has it no method reads what is not there. *)
From S2P Require Import Prelude.
From S2P Require Import StdMap.
From S2P Require Import ChronoMap.

Section Wf.
Context {K V : Type} `{Countable K} `{EqDecision V}.
Implicit Types (d : gmap K (list (Z * V))) (cm : ChronoMap K V).

(** The values of one key: there are some, at ascending times from 0 and before [e]. *)
Definition line_wf (e : Z) (im : list (Z * V)) : Prop :=
  im <> [] /\ sm_sorted im /\ Forall (fun p => 0 <= p.1 < e) im.
Definition data_wf (e : Z) d : Prop := map_Forall (fun _ im => line_wf e im) d.
(** The blocks that wait: by their start, and not empty intervals. *)
Definition future_wf (f : list (Z * block K V)) : Prop :=
  sm_sorted f /\ Forall (fun p => p.1 = p.2.1.1 /\ 0 <= p.2.1.1 < p.2.1.2) f.
Record chrono_wf cm : Prop := {
  cw_expiration : 0 <= expirationTime cm;
  cw_data : data_wf (expirationTime cm) (data cm);
  cw_future : future_wf (futureData cm)
}.

Lemma chrono_wf_empty : chrono_wf emptyChronoMap.
Proof. split; simpl; [done|apply map_Forall_empty|by split]. Qed.

Lemma data_wf_later e e' d : e <= e' -> data_wf e d -> data_wf e' d.
Proof.
  intros He Hd k im Hk. destruct (Hd _ _ Hk) as (? & ? & Hf). split; [done|]. split; [done|].
  eapply Forall_impl; [exact Hf|]. simpl. lia.
Qed.
Lemma line_wf_last e im : line_wf e im -> exists t v, last im = Some (t, v).
Proof.
  intros [Hne _]. destruct (last im) as [[t v]|] eqn:E; [eauto|]. by apply last_None in E.
Qed.
Lemma line_wf_assign e s v im : 0 <= s < e -> line_wf e im -> line_wf e (sm_assign s v im).
Proof.
  intros Hs (Hne & Ho & Hf). split; [|split].
  - destruct im as [|[??]?]; simpl; repeat case_match; done.
  - by apply sm_sorted_assign.
  - by apply Forall_assign.
Qed.
Lemma addEntry_wf e s d it :
  0 <= s < e -> data_wf e d -> exists d', addEntry s d it = Ok d' /\ data_wf e d'.
Proof.
  intros Hs Hd. unfold addEntry. destruct (d !! it.1) as [im|] eqn:E.
  - destruct (line_wf_last _ _ (Hd _ _ E)) as (t & v & Hl). unfold sm_rbegin. rewrite Hl.
    case_decide; [by exists d|]. eexists. split; [done|].
    apply map_Forall_insert_2; [|done]. by apply line_wf_assign; [|apply (Hd _ _ E)].
  - eexists. split; [done|]. apply map_Forall_insert_2; [|done]. split; [done|].
    split; [by split; [constructor|]|]. by constructor; [|constructor].
Qed.
Lemma addEntries_wf e s nd d :
  0 <= s < e -> data_wf e d -> exists d', addEntries s nd d = Ok d' /\ data_wf e d'.
Proof.
  intros Hs. apply ofold_inv. intros it d' _. by apply addEntry_wf.
Qed.

(** A result that is a map with the invariant, or the abort of the code. *)
Definition wf_or_fatal (o : outcome (ChronoMap K V)) : Prop :=
  match o with Ok cm => chrono_wf cm | Err f => f = LogFatal end.
Lemma addNextTimeBlock_wf f d x s e nd :
  future_wf f -> 0 <= x -> data_wf x d -> s < e ->
  wf_or_fatal (addNextTimeBlock f d x s e nd).
Proof.
  revert d x s e nd. induction f as [|[k [[s' e'] nd']] f IH]; intros d x s e nd Hf Hx Hd Hse;
    simpl; destruct (Z.eqb_spec x s) as [->|]; simpl; try done; (case_match; [done|]);
    (destruct (addEntries_wf e s nd d) as (d' & -> & Hd'); [lia|by eapply data_wf_later; [|done]; lia|]);
    simpl.
  - split; simpl; [lia|done|done].
  - destruct Hf as [[Hlt Hs] Hall]. pose proof (Forall_inv Hall) as [Hk Hse']. pose proof (Forall_inv_tail Hall) as Hall'. simpl in *.
    destruct (Z.eqb_spec k e).
    + apply IH; [by split|lia|done|lia].
    + split; simpl; [lia|done|]. by split; [split|].
Qed.
Lemma put_wf s e nd cm : chrono_wf cm -> wf_or_fatal (put s e nd cm).
Proof.
  intros [Hx Hd Hf]. unfold put. destruct (Z.ltb_spec s 0); [done|].
  destruct (Z.ltb_spec s (expirationTime cm)); [by split|].
  destruct (Z.leb_spec e s); [done|].
  destruct (Z.eqb_spec s (expirationTime cm)); simpl.
  - by apply addNextTimeBlock_wf.
  - split; simpl; [done..|]. destruct Hf as [Hs Hall]. split; [by apply sm_sorted_insert|].
    unfold sm_insert. case_match; [done|]. apply Forall_assign; [simpl; lia|done].
Qed.
Lemma putAll_wf bs cm : chrono_wf cm -> wf_or_fatal (putAll bs cm).
Proof.
  unfold putAll. revert cm. induction bs as [|[[s e] nd] bs IH]; intros cm Hcm; simpl; [done|].
  pose proof (put_wf s e nd cm Hcm) as Hp. destruct (put s e nd cm); simpl; auto.
Qed.

(** Reading. *)
Lemma get_wf t k cm : chrono_wf cm -> 0 <= t -> exists v, get t k cm = Ok v.
Proof.
  intros [Hx Hd Hf] Ht. unfold get. destruct (Z.ltb_spec t 0); [lia|].
  destruct (_ <=? _); [eauto|]. destruct (data cm !! k) as [im|] eqn:E; [|eauto].
  destruct (line_wf_last _ _ (Hd _ _ E)) as (t' & v & Hl).
  destruct (Nat.eqb_spec (sm_upper_bound t im) 0); [eauto|].
  destruct (Nat.eqb_spec (sm_upper_bound t im) (length im)).
  - unfold sm_rbegin. rewrite Hl. eauto.
  - pose proof (sm_upper_bound_le t im).
    destruct (lookup_lt_is_Some_2 im (sm_upper_bound t im - 1)) as [[t2 v2] ->]; [lia|eauto].
Qed.
Lemma getAll_wf t cm : chrono_wf cm -> 0 <= t -> exists m, getAll t cm = Ok m.
Proof.
  intros Hcm Ht. unfold getAll.
  destruct (ofold_inv (fun _ => True) (getAllStep t cm) (elements (dom (data cm))) ∅) as (m & -> & _); eauto.
  intros k m _ _. unfold getAllStep. destruct (get_wf t k cm Hcm Ht) as [v ->]. simpl.
  destruct v; eauto.
Qed.
Lemma getChanges_wf nd cm : chrono_wf cm -> exists m, getChanges nd cm = Ok m.
Proof.
  intros Hcm. unfold getChanges.
  destruct (ofold_inv (fun _ => True) (getChangesStep cm) (map_to_list nd) ∅) as (m & -> & _); eauto.
  intros it m _ _. unfold getChangesStep. destruct (data cm !! it.1) as [im|] eqn:E; [|eauto].
  destruct (line_wf_last _ _ (cw_data _ Hcm _ _ E)) as (t & v & Hl). unfold sm_rbegin. rewrite Hl.
  case_decide; eauto.
Qed.

End Wf.

(** A waiting block that an earlier one overlaps is never used nor dropped, and keeps the
    ones behind it waiting, for the map looks at the first only. *)
Definition overlapped : list (block string string) :=
  [(3, 4, {[ "k" := "a" ]}); (5, 6, {[ "k" := "b" ]}); (0, 5, {[ "k" := "c" ]})].
Example overlapped_block_stays :
  (let? cm := putAll overlapped emptyChronoMap in
   let? v := get 5 "k" cm in Ok (expirationTime cm, (futureData cm).*1, v)) = Ok (5, [3; 5], None).
Proof. vm_compute. reflexivity. Qed.
