(* ===== verification/RpcId.v ===== *)
(** * RpcId

    [wga::RpcId] of src/peer/src/base/RpcId.hpp: the identifier of a remote
    call, a signed 64-bit barrier number and an unsigned 64-bit id, with its
    equality, its lexicographic order (the order of [set<RpcId>]) and its hash
    (the bucket choice of the unordered maps). *)
From S2P Require Import Prelude.
From S2P Require Import StdMap.

Record RpcId : Type := mkRpcId { barrier : Z; id : Z }.

#[export] Instance RpcId_eq_dec : EqDecision RpcId.
Proof. solve_decision. Defined.

#[export] Instance RpcId_countable : Countable RpcId.
Proof.
  refine (inj_countable' (fun r => (barrier r, id r)) (fun p => mkRpcId p.1 p.2) _).
  by intros [].
Defined.

(** The default constructor. *)
Definition RpcId_default : RpcId := mkRpcId 0 0.

Definition RpcId_eqb (a b : RpcId) : bool := (barrier a =? barrier b) && (id a =? id b).
Definition RpcId_neqb (a b : RpcId) : bool := negb (RpcId_eqb a b).
Definition RpcId_ltb (a b : RpcId) : bool :=
  (barrier a <? barrier b) || ((barrier a =? barrier b) && (id a <? id b)).
Definition RpcId_empty (r : RpcId) : bool := (barrier r =? 0) && (id r =? 0).

(** [barrier ^ id]: the signed operand is converted to [uint64_t] first.  On a
    platform whose [size_t] has four bytes the halves are folded together. *)
Definition RpcId_hash (size_t_bytes : Z) (r : RpcId) : Z :=
  let hash64 := Z.lxor (wrap_u 64 (barrier r)) (id r) in
  if 4 <? size_t_bytes then hash64
  else Z.lxor (wrap_u 32 (Z.shiftr hash64 32)) (wrap_u 32 hash64).

Definition SESSION_KEY_RPCID : RpcId := mkRpcId 0 1.

(** The field ranges the C++ types impose. *)
Definition RpcId_wf (r : RpcId) : bool := in_s 64 (barrier r) && in_u 64 (id r).

(** The sixteen bytes [writeClass<RpcId>] copies and [readClass<RpcId>] restores:
    the struct is [int64_t barrier; uint64_t id], little-endian, unpadded. *)
Definition sizeof_RpcId : Z := 16.
Definition RpcId_bytes (r : RpcId) : list Z :=
  le_bytes 8 (wrap_u 64 (barrier r)) ++ le_bytes 8 (id r).
Definition RpcId_of_bytes (l : list Z) : RpcId :=
  mkRpcId (wrap_s 64 (le_value (take 8 l))) (le_value (drop 8 l)).

#[export] Instance RpcId_KeyOrder : KeyOrder RpcId := RpcId_ltb.

Lemma RpcId_eqb_eq a b : RpcId_eqb a b = true <-> a = b.
Proof.
  unfold RpcId_eqb. destruct a as [b1 i1], b as [b2 i2]; simpl.
  split; [|intros [= -> ->]]; intros; [f_equal|]; lia.
Qed.

(** [operator<] is a strict total order, as [std::set<RpcId>] and
    [std::map<RpcId, ...>] require. *)
#[export] Instance RpcId_KeyOrderLaws : KeyOrderLaws RpcId.
Proof.
  split; unfold key_ltb, RpcId_KeyOrder, RpcId_ltb.
  - intros [b1 i1]; simpl. lia.
  - intros [b1 i1] [b2 i2] [b3 i3]; simpl. lia.
  - intros [b1 i1] [b2 i2] Hne; simpl.
    destruct (Z.lt_total b1 b2) as [|[->|]]; [lia| |lia].
    assert (i1 <> i2) by congruence. lia.
Qed.

(** Equal ids hash alike and the hash fits [size_t], which the unordered
    containers rely on. *)
Lemma RpcId_hash_range size_t_bytes r :
  RpcId_wf r = true -> 0 <= RpcId_hash size_t_bytes r < 2 ^ 64.
Proof.
  unfold RpcId_wf, RpcId_hash, in_u. intros Hwf.
  assert (forall n a b, 0 <= n -> 0 <= a < 2 ^ n -> 0 <= b < 2 ^ n -> 0 <= Z.lxor a b < 2 ^ n)
    as Hx.
  { intros n a b Hn Ha Hb. assert (0 <= Z.lxor a b) as Hnn by (apply Z.lxor_nonneg; lia).
    split; [done|]. destruct (Z.eq_dec (Z.lxor a b) 0) as [->|]; [lia|].
    apply Z.log2_lt_pow2; [lia|].
    pose proof (Z.log2_lxor a b ltac:(lia) ltac:(lia)).
    destruct (Z.eq_dec n 0) as [->|]; [change (2 ^ 0) with 1 in *;
      replace a with 0 in * by lia; replace b with 0 in * by lia; done|].
    assert (forall c, 0 <= c < 2 ^ n -> Z.log2 c < n) as Hl.
    { intros c Hc. destruct (Z.eq_dec c 0) as [->|]; [simpl; lia|]. apply Z.log2_lt_pow2; lia. }
    pose proof (Hl a Ha). pose proof (Hl b Hb). lia. }
  pose proof (wrap_u_range 64 (barrier r)). pose proof (wrap_u_range 32).
  destruct (4 <? size_t_bytes).
  - apply Hx; lia.
  - assert (0 <= Z.lxor (wrap_u 32 (Z.shiftr (Z.lxor (wrap_u 64 (barrier r)) (id r)) 32))
      (wrap_u 32 (Z.lxor (wrap_u 64 (barrier r)) (id r))) < 2 ^ 32) by (apply Hx; auto with lia).
    lia.
Qed.

Lemma length_RpcId_bytes r : length (RpcId_bytes r) = 16%nat.
Proof. unfold RpcId_bytes. by rewrite length_app, !length_le_bytes. Qed.

Lemma RpcId_bytes_is_byte r : forallb is_byte (RpcId_bytes r) = true.
Proof. unfold RpcId_bytes. by rewrite forallb_app, !le_bytes_is_byte. Qed.

Lemma wrap_s_wrap_u w z : 0 < w -> wrap_s w (wrap_u w z) = wrap_s w z.
Proof.
  intros Hw. unfold wrap_s, wrap_u. by rewrite Zplus_mod_idemp_l.
Qed.

Lemma RpcId_of_bytes_bytes r : RpcId_wf r = true -> RpcId_of_bytes (RpcId_bytes r) = r.
Proof.
  unfold RpcId_wf. intros [Hb Hi]%andb_prop. unfold RpcId_of_bytes, RpcId_bytes.
  rewrite take_app_length', drop_app_length' by (by rewrite length_le_bytes).
  pose proof (wrap_u_range 64 (barrier r)). unfold in_u in Hi.
  rewrite !le_value_le_bytes by lia.
  rewrite wrap_s_wrap_u, wrap_s_id by done. by destruct r.
Qed.
