(* ===== verification/Message.v ===== *)
(** * Message

    [wga::MessageReader] and [wga::MessageWriter]
    (src/peer/src/base/MessageReader.hpp, MessageWriter.hpp) over msgpack-c.
    msgpack-c is a git submodule, so its packer and unpacker are an interface,
    [Msgpack], whose laws are the documented ones: unpacking what was packed
    gives the value back and leaves what follows it. *)
From S2P Require Import Prelude.
From S2P Require Import StdMap.
From S2P Require Import RpcId.

(** The msgpack objects the program writes. *)
Inductive mobj : Type :=
  | MInt (z : Z)
  | MStr (s : string)
  | MMap (kvs : list (string * string)).

Definition mobj_wf (o : mobj) : bool :=
  match o with
  | MInt z => (- 2 ^ 63 <=? z) && (z <? 2 ^ 64)
  | MStr s => slen s <? 2 ^ 32
  | MMap kvs => forallb (fun p => (slen p.1 <? 2 ^ 32) && (slen p.2 <? 2 ^ 32)) kvs
                && (Z.of_nat (length kvs) <? 2 ^ 32)
  end.

Class Msgpack : Type := {
  (** [packer.pack(x)] for an integer or a string *)
  mp_pack : mobj -> string;
  (** [packer.pack_map(n)] *)
  mp_pack_map : Z -> string;
  (** [unpacker.next]: the next object and the bytes left; [None] when the
      bytes hold no complete object *)
  mp_next : string -> option (mobj * string);
  (** of those bytes: the unpacker throws instead of asking for more *)
  mp_malformed : string -> bool
}.

Definition pack_pair `{Msgpack} (p : string * string) : string :=
  mp_pack (MStr p.1) +:+ mp_pack (MStr p.2).
Fixpoint str_concat (l : list string) : string :=
  match l with [] => "" | s :: l' => s +:+ str_concat l' end.

Class MsgpackLaws `{Msgpack} : Prop := {
  mp_next_int : forall z rest, mobj_wf (MInt z) = true ->
    mp_next (mp_pack (MInt z) +:+ rest) = Some (MInt z, rest);
  mp_next_str : forall s rest, mobj_wf (MStr s) = true ->
    mp_next (mp_pack (MStr s) +:+ rest) = Some (MStr s, rest);
  mp_next_map : forall kvs rest, mobj_wf (MMap kvs) = true ->
    mp_next (mp_pack_map (Z.of_nat (length kvs)) +:+
             (str_concat (map pack_pair kvs) +:+ rest)) = Some (MMap kvs, rest);
  mp_pack_nonempty : forall o, mp_pack o <> "";
  (** an object takes at least one byte *)
  mp_next_shrinks : forall s o rest, mp_next s = Some (o, rest) ->
    (String.length rest < String.length s)%nat
}.

(** What protobuf generates for a message type. *)
Class Proto (T : Type) : Type := {
  SerializeToString : T -> string;
  (** [None] when the bytes are no message of the type *)
  ParseFromString : string -> option T
}.
(** Documented behaviour: what was serialized is parsed. *)
Class ProtoLaws (T : Type) `{Proto T} : Prop :=
  proto_roundtrip : forall t : T, ParseFromString (SerializeToString t) = Some t.

(** ** MessageReader: the state is the part of the buffer not yet parsed *)
Section Reader.
Context `{Msgpack}.

Definition load (s : string) : M string unit := fun _ => Ok (tt, s).

(** [unpackHandler.next(oh)]: it throws on malformed bytes; [f] is what the caller makes
    of an object that is not complete yet. *)
Definition next_or (f : failure) : M string mobj := fun buf =>
  match mp_next buf with
  | Some (o, rest) => Ok (o, rest)
  | None => Err (if mp_malformed buf then RuntimeError else f)
  end.

(** [readPrimitive<unsigned char>], [<int64_t>] and [<string>]; converting an
    object of another type or out of range throws. *)
Definition readPrimitive_u8 : M string Z :=
  let! o := next_or RuntimeError in
  match o with
  | MInt z => if in_u 8 z then ret z else fail RuntimeError
  | _ => fail RuntimeError
  end.
Definition readPrimitive_i64 : M string Z :=
  let! o := next_or RuntimeError in
  match o with
  | MInt z => if in_s 64 z then ret z else fail RuntimeError
  | _ => fail RuntimeError
  end.
Definition readPrimitive_string : M string string :=
  let! o := next_or RuntimeError in
  match o with
  | MStr s => ret s
  | _ => fail RuntimeError
  end.

(** [readMap<unordered_map<string, string>>]; a key that occurs twice keeps
    its last value. *)
Definition readMap : M string (gmap string string) :=
  let! o := next_or LogFatal in
  match o with
  | MMap kvs => ret (list_to_map (rev kvs))
  | _ => fail RuntimeError
  end.

(** [readClass<RpcId>] *)
Definition readClass_RpcId : M string RpcId :=
  let! s := readPrimitive_string in
  if negb (slen s =? sizeof_RpcId) then fail RuntimeError
  else ret (RpcId_of_bytes (bytes_of s)).

Definition sizeRemaining : M string Z := gets slen.

(** [readProto<T>] *)
Definition readProto {T} `{Proto T} : M string T :=
  let! s := readPrimitive_string in
  match ParseFromString s with
  | Some t => ret t
  | None => fail RuntimeError
  end.

(** [load(a, size)] of an array: its first [size] bytes. *)
Definition load_array (a : string) (size : Z) : M string unit := fun _ =>
  if (size <? 0) || (slen a <? size) then Err Undefined
  else Ok (tt, str_take (Z.to_nat size) a).
End Reader.

(** ** MessageWriter: the state is the buffer *)
Section Writer.
Context `{Msgpack}.

Definition writer_start : string := "".
Definition writePrimitive (o : mobj) (buffer : string) : string := buffer +:+ mp_pack o.

(** [writeMap]; [kvs] lists the map's elements in its iteration order. *)
Definition writeMap (kvs : list (string * string)) (buffer : string) : string :=
  foldl (fun b p => writePrimitive (MStr p.2) (writePrimitive (MStr p.1) b))
    (buffer +:+ mp_pack_map (wrap_u 32 (Z.of_nat (length kvs)))) kvs.

(** [writeClass<RpcId>] *)
Definition writeClass_RpcId (r : RpcId) (buffer : string) : string :=
  writePrimitive (MStr (string_of (RpcId_bytes r))) buffer.

(** [writeProto<T>] *)
Definition writeProto {T} `{Proto T} (t : T) (buffer : string) : string :=
  writePrimitive (MStr (SerializeToString t)) buffer.

Definition writer_size (buffer : string) : Z := slen buffer.
(** The contents, and the buffer cleared for the next message. *)
Definition finish (buffer : string) : string * string := (buffer, writer_start).
End Writer.

Section Laws.
Context `{MsgpackLaws}.

Lemma read_u8 z rest :
  in_u 8 z = true -> readPrimitive_u8 (mp_pack (MInt z) +:+ rest) = Ok (z, rest).
Proof using Type*.
  intros Hz. unfold readPrimitive_u8, next_or, bind.
  rewrite mp_next_int; [by rewrite Hz|]. unfold mobj_wf, in_u in *. lia.
Qed.

Lemma read_i64 z rest :
  in_s 64 z = true -> readPrimitive_i64 (mp_pack (MInt z) +:+ rest) = Ok (z, rest).
Proof using Type*.
  intros Hz. unfold readPrimitive_i64, next_or, bind.
  rewrite mp_next_int; [by rewrite Hz|]. unfold mobj_wf, in_s in *. simpl in *. lia.
Qed.

Lemma read_string s rest :
  slen s < 2 ^ 32 -> readPrimitive_string (mp_pack (MStr s) +:+ rest) = Ok (s, rest).
Proof using Type*.
  intros Hs. unfold readPrimitive_string, next_or, bind.
  rewrite mp_next_str; [done|]. unfold mobj_wf. lia.
Qed.

Lemma read_RpcId r rest :
  RpcId_wf r = true ->
  readClass_RpcId (mp_pack (MStr (string_of (RpcId_bytes r))) +:+ rest) = Ok (r, rest).
Proof using Type*.
  intros Hr. unfold readClass_RpcId, bind.
  assert (slen (string_of (RpcId_bytes r)) = 16) as Hl.
  { unfold slen. rewrite length_string_of, length_RpcId_bytes. done. }
  rewrite read_string by lia. rewrite Hl.
  change (negb (16 =? sizeof_RpcId)) with false. cbv iota.
  rewrite bytes_of_string_of by apply RpcId_bytes_is_byte.
  by rewrite RpcId_of_bytes_bytes.
Qed.

Lemma writeMap_eq kvs buffer :
  Z.of_nat (length kvs) < 2 ^ 32 ->
  writeMap kvs buffer =
    buffer +:+ (mp_pack_map (Z.of_nat (length kvs)) +:+ str_concat (map pack_pair kvs)).
Proof using Type*.
  intros Hl. unfold writeMap. rewrite wrap_u_id by (unfold in_u; lia).
  rewrite <- str_app_assoc. generalize (buffer +:+ mp_pack_map (Z.of_nat (length kvs))) as b.
  clear. induction kvs as [|p kvs IH]; intros b; simpl.
  - by rewrite str_app_nil_r.
  - rewrite IH. unfold writePrimitive, pack_pair. by rewrite !str_app_assoc.
Qed.

Lemma read_map (m : gmap string string) kvs rest :
  kvs ≡ₚ map_to_list m -> mobj_wf (MMap kvs) = true ->
  readMap (writeMap kvs "" +:+ rest) = Ok (m, rest).
Proof using Type*.
  intros Hp Hwf. rewrite writeMap_eq by (unfold mobj_wf in Hwf; lia).
  change ("" +:+ ?x) with x. unfold readMap, next_or, bind.
  rewrite str_app_assoc, mp_next_map by done. unfold ret. do 2 f_equal.
  assert (rev kvs ≡ₚ map_to_list m) as Hp' by (by rewrite <- Permutation_rev).
  rewrite <- (list_to_map_to_list m). apply list_to_map_proper; [|done].
  rewrite Hp'. apply NoDup_fst_map_to_list.
Qed.

(** A protobuf message is read back, also out of the array the packet came in. *)
Lemma read_proto {T} `{ProtoLaws T} (t : T) rest :
  slen (SerializeToString t) < 2 ^ 32 ->
  readProto (writeProto t "" +:+ rest) = Ok (t, rest).
Proof using Type*.
  intros Hs. unfold readProto, writeProto, writePrimitive, bind. change ("" +:+ ?x) with x.
  rewrite read_string by done. by rewrite proto_roundtrip.
Qed.
Lemma load_array_message (message padding : string) buf :
  load_array (message +:+ padding) (slen message) buf = load message buf.
Proof using Type.
  unfold load_array, load. rewrite slen_app. pose proof (slen_nonneg message).
  pose proof (slen_nonneg padding). destruct (Z.ltb_spec (slen message) 0); [lia|].
  destruct (Z.ltb_spec (slen message + slen padding) (slen message)); [lia|]. simpl.
  unfold slen. by rewrite Nat2Z.id, str_take_app.
Qed.

(** Reading back a map written by [writeMap] in any iteration order gives
    the map, and leaves the bytes after it for the next read. *)
Theorem readMap_writeMap (m : gmap string string) kvs rest :
  kvs ≡ₚ map_to_list m -> mobj_wf (MMap kvs) = true ->
  readMap (writeMap kvs "" +:+ rest) = Ok (m, rest).
Proof using Type*. apply read_map. Qed.
End Laws.
