(* ===== verification/Estimators.v ===== *)
(** * Estimators

    The numeric helpers of src/peer/src/base: [SlidingWindowEstimator],
    [WelfordEstimator], [AdamOptimizer] and [PidController].  A [double] is an
    IEEE 754 binary64 number of the Standard Library's [SpecFloat], so every
    operation rounds as the hardware does and evaluates inside Rocq. *)
From S2P Require Import Prelude.
From Stdlib Require Import SpecFloat.

Definition double : Type := spec_float.
Definition d_of_Z (z : Z) : double := binary_normalize 53 1024 z 0 false.
Definition d_add : double -> double -> double := SFadd 53 1024.
Definition d_sub : double -> double -> double := SFsub 53 1024.
Definition d_mul : double -> double -> double := SFmul 53 1024.
Definition d_div : double -> double -> double := SFdiv 53 1024.
Definition d_sqrt : double -> double := SFsqrt 53 1024.
(** [a < b], false when either is NaN *)
Definition d_ltb : double -> double -> bool := SFltb.
(** [std::min(a, b)] and [std::max(a, b)] *)
Definition d_min (a b : double) : double := if d_ltb b a then b else a.
Definition d_max (a b : double) : double := if d_ltb a b then b else a.

(** [intN_t(d)]: truncation towards zero; undefined when the value is NaN,
    infinite or out of range. *)
Definition d_trunc (w : Z) (d : double) : outcome Z :=
  match d with
  | S754_zero _ => Ok 0
  | S754_finite s m e =>
      let a := if 0 <=? e then Z.shiftl (Zpos m) e else Z.shiftr (Zpos m) (- e) in
      let z := if s then - a else a in
      if in_s w z then Ok z else Err Undefined
  | _ => Err Undefined
  end.

(** A decimal literal [n / d] with [n] and [d] exact, correctly rounded. *)
Definition d_lit (n d : Z) : double := d_div (d_of_Z n) (d_of_Z d).

(** ** SlidingWindowEstimator *)
Record SlidingWindowEstimator : Type := mkSWE {
  swe_mean : double; swe_variance : double; samples : list double
}.
Definition swe_init : SlidingWindowEstimator := mkSWE (d_of_Z 0) (d_of_Z 0) [].
Definition SWE_MAX_COUNT : Z := 3600.

(** [while (samples.size() > MAX_COUNT) samples.pop_front();] *)
Fixpoint trim_front (l : list double) : list double :=
  match l with
  | [] => []
  | _ :: l' => if SWE_MAX_COUNT <? Z.of_nat (length l) then trim_front l' else l
  end.

Definition addSample (newSample : double) (e : SlidingWindowEstimator) : SlidingWindowEstimator :=
  let s := trim_front (samples e ++ [newSample]) in
  let size := d_of_Z (Z.of_nat (length s)) in
  let mean := d_div (foldl d_add (d_of_Z 0) s) size in
  let variance :=
    d_div (foldl (fun v x => d_add v (d_mul (d_sub x mean) (d_sub x mean))) (d_of_Z 0) s) size in
  mkSWE mean variance s.

Definition getMean (e : SlidingWindowEstimator) : double := swe_mean e.
Definition getVariance (e : SlidingWindowEstimator) : double := swe_variance e.

(** [sort(v.begin(), v.end())] *)
Fixpoint d_insert (x : double) (l : list double) : list double :=
  match l with
  | [] => [x]
  | y :: l' => if d_ltb y x then y :: d_insert x l' else x :: l
  end.
Definition d_sort (l : list double) : list double := foldr d_insert [] l.

Definition upperBoundIndex (size : Z) : outcome Z :=
  d_trunc 32 (d_mul (d_of_Z size) (d_lit 99 100)).

Definition getUpperBound (e : SlidingWindowEstimator) : outcome double :=
  if Z.of_nat (length (samples e)) =? 0 then Ok (d_of_Z 0)
  else
    let sortedSamples := d_sort (samples e) in
    let? idx := upperBoundIndex (Z.of_nat (length (samples e))) in
    match sortedSamples !! Z.to_nat idx with
    | None => Err Undefined
    | Some retval =>
        Ok (d_max (d_add (swe_mean e) (d_mul (d_sqrt (swe_variance e)) (d_lit 5 2))) retval)
    end.

(** ** WelfordEstimator *)
Record WelfordEstimator : Type := mkWelford { w_mean : double; w_m2 : double; w_count : Z }.
Definition welford_init : WelfordEstimator := mkWelford (d_of_Z 0) (d_of_Z 0) 0.
Definition welford_addSample (sample : double) (e : WelfordEstimator) : WelfordEstimator :=
  let meanDiff := d_sub sample (w_mean e) in
  let count := w_count e + 1 in
  let mean := d_add (w_mean e) (d_div meanDiff (d_of_Z count)) in
  let meanDiff2 := d_sub sample mean in
  mkWelford mean (d_add (w_m2 e) (d_mul meanDiff meanDiff2)) count.
Definition welford_getMean (e : WelfordEstimator) : double := w_mean e.
Definition welford_getVariance (e : WelfordEstimator) : double :=
  d_div (w_m2 e) (d_of_Z (w_count e)).
Definition welford_getUpperBound (e : WelfordEstimator) : double :=
  d_add (welford_getMean e) (d_mul (d_sqrt (welford_getVariance e)) (d_of_Z 1)).

(** ** AdamOptimizer *)
Record AdamOptimizer : Type := mkAdam {
  learningRate : double; averageGradient : double; averageSquaredGradient : double;
  currentValue : double
}.
Definition BETA1 : double := d_lit 9 10.
Definition ONE_MINUS_BETA1 : double := d_sub (d_of_Z 1) BETA1.
Definition BETA2 : double := d_lit 99 100.
Definition ONE_MINUS_BETA2 : double := d_sub (d_of_Z 1) BETA2.
Definition EPSILON : double := d_lit 1 (10 ^ 10).

Definition adam_init (initialValue rate : double) : AdamOptimizer :=
  mkAdam rate (d_of_Z 0) (d_of_Z 0) initialValue.
Definition adam_update (gradient : double) (a : AdamOptimizer) : AdamOptimizer :=
  let avg := d_add (d_mul BETA1 (averageGradient a)) (d_mul ONE_MINUS_BETA1 gradient) in
  let sq := d_add (d_mul BETA2 (averageSquaredGradient a))
                  (d_mul ONE_MINUS_BETA2 (d_mul gradient gradient)) in
  mkAdam (learningRate a) avg sq
    (d_sub (currentValue a) (d_mul (learningRate a) (d_div avg (d_add (d_sqrt sq) EPSILON)))).
Definition updateWithLabel (label : double) (a : AdamOptimizer) : AdamOptimizer :=
  adam_update (d_sub (currentValue a) label) a.
Definition adam_force (value : double) (a : AdamOptimizer) : AdamOptimizer :=
  mkAdam (learningRate a) (averageGradient a) (averageSquaredGradient a) value.
Definition getCurrentValue (a : AdamOptimizer) : double := currentValue a.

(** ** PidController *)
Record PidController : Type := mkPid {
  pid_dt : double; pid_max : double; pid_min : double; pid_Kp : double; pid_Kd : double;
  pid_Ki : double; pid_pre_error : double; pid_integral : double
}.
Definition pid_init (dt max min Kp Kd Ki : double) : PidController :=
  mkPid dt max min Kp Kd Ki (d_of_Z 0) (d_of_Z 0).
Definition calculate (setpoint pv : double) (c : PidController) : double * PidController :=
  let error := d_sub setpoint pv in
  let Pout := d_mul (pid_Kp c) error in
  let integral := d_add (pid_integral c) (d_mul error (pid_dt c)) in
  let Iout := d_mul (pid_Ki c) integral in
  let derivative := d_div (d_sub error (pid_pre_error c)) (pid_dt c) in
  let Dout := d_mul (pid_Kd c) derivative in
  let output := d_add (d_add Pout Iout) Dout in
  let output :=
    if d_ltb (pid_max c) output then pid_max c
    else if d_ltb output (pid_min c) then pid_min c
    else output in
  (output, mkPid (pid_dt c) (pid_max c) (pid_min c) (pid_Kp c) (pid_Kd c) (pid_Ki c)
             error integral).

(** ** Properties *)

Lemma d_ltb_irrefl x : d_ltb x x = false.
Proof.
  unfold d_ltb, SFltb, SFcompare. destruct x as [s|s| |s m e]; try done; destruct s; try done.
  all: rewrite Z.compare_refl; rewrite Pos.compare_cont_refl; done.
Qed.

Lemma trim_front_length l : Z.of_nat (length (trim_front l)) <= Z.max 0 SWE_MAX_COUNT.
Proof.
  induction l as [|x l IH]; cbn [trim_front]; [simpl; lia|].
  case_match eqn:E; [done|]. lia.
Qed.

Lemma trim_front_suffix l : exists dropped, l = dropped ++ trim_front l.
Proof.
  induction l as [|x l [d IH]]; cbn [trim_front]; [by exists []|].
  case_match; [|by exists []]. exists (x :: d). simpl. by rewrite <- IH.
Qed.

(** The window keeps the latest samples, at most [MAX_COUNT] of them, and the
    newest is always among them. *)
Lemma addSample_window x e :
  Z.of_nat (length (samples (addSample x e))) <= SWE_MAX_COUNT /\
  exists dropped, samples e ++ [x] = dropped ++ samples (addSample x e).
Proof.
  unfold addSample; simpl. split; [|apply trim_front_suffix].
  pose proof (trim_front_length (samples e ++ [x])). unfold SWE_MAX_COUNT in *. lia.
Qed.

Lemma length_d_sort l : length (d_sort l) = length l.
Proof.
  induction l as [|x l IH]; simpl; [done|]. rewrite <- IH. clear IH.
  induction (d_sort l) as [|y l' IH]; simpl; [done|]. case_match; simpl; [by rewrite IH|done].
Qed.

Definition index_ok (n : nat) : bool :=
  match upperBoundIndex (Z.of_nat n) with
  | Ok i => (0 <=? i) && (i <? Z.of_nat n)
  | Err _ => false
  end.
Lemma index_ok_all : forallb index_ok (seq 1 3600) = true.
Proof. vm_cast_no_check (eq_refl true). Qed.

(** The percentile index of [getUpperBound] is inside the sorted samples for
    every window size the estimator can hold, so the read is never out of
    bounds: an estimator whose window is within [MAX_COUNT] always answers. *)
Theorem getUpperBound_in_bounds e :
  Z.of_nat (length (samples e)) <= SWE_MAX_COUNT ->
  exists d, getUpperBound e = Ok d.
Proof.
  intros Hlen. unfold getUpperBound.
  destruct (Z.eqb_spec (Z.of_nat (length (samples e))) 0) as [|Hpos]; [eauto|].
  unfold SWE_MAX_COUNT in Hlen.
  assert (index_ok (length (samples e)) = true) as Hok.
  { pose proof index_ok_all as Hall. rewrite forallb_forall in Hall. apply Hall.
    apply in_seq. lia. }
  unfold index_ok in Hok. destruct (upperBoundIndex _) as [i|]; [|done]. simpl.
  apply andb_prop in Hok as [H1 H2].
  destruct (d_sort (samples e) !! Z.to_nat i) eqn:El; [eauto|].
  apply lookup_ge_None in El. rewrite length_d_sort in El. lia.
Qed.

Lemma getUpperBound_in_bounds_witness :
  exists d, getUpperBound (addSample (d_of_Z 7) swe_init) = Ok d.
Proof. apply getUpperBound_in_bounds. vm_compute. discriminate. Defined.

(** Whatever the gains, the set point, the process value and the history
    (NaN included), the controller's output is never above [_max] nor below
    [_min]. *)
Theorem calculate_clamped setpoint pv c :
  d_ltb (pid_max c) (pid_min c) = false ->
  let out := (calculate setpoint pv c).1 in
  d_ltb (pid_max c) out = false /\ d_ltb out (pid_min c) = false.
Proof.
  intros Hmm. unfold calculate; simpl.
  match goal with |- context [if d_ltb (pid_max c) ?o then _ else _] => generalize o end. intros o.
  destruct (d_ltb (pid_max c) o) eqn:E1; [split; [apply d_ltb_irrefl|exact Hmm]|].
  destruct (d_ltb o (pid_min c)) eqn:E2; [split; [exact Hmm|apply d_ltb_irrefl]|done].
Qed.

Lemma calculate_clamped_witness :
  let c := pid_init (d_lit 1 10) (d_of_Z 100) (d_of_Z (-100)) (d_lit 1 10) (d_lit 1 100)
             (d_lit 1 2) in
  let out := (calculate (d_of_Z 100000) (d_of_Z 20) c).1 in
  d_ltb (pid_max c) out = false /\ d_ltb out (pid_min c) = false.
Proof. apply calculate_clamped. vm_compute. reflexivity. Defined.
