(* ===== verification/TimeHandler.v ===== *)
(** * TimeHandler

    The environment the program reads (clocks, [rand()], [sole::uuid4],
    [randombytes_buf], the order an unordered container is walked in) as an
    interface, [Oracle], and src/peer/src/base/TimeHandler.hpp on top of it.
    Each reading takes a fresh index, so nothing ties two readings together
    except the laws stated here. *)
From S2P Require Import Prelude.
From S2P Require Import Estimators.

Class Oracle : Type := {
  (** [rand()] *)
  o_rand : N -> Z;
  (** [sole::uuid4().cd] *)
  o_uuid : N -> Z;
  (** [high_resolution_clock::now()] in microseconds *)
  o_clock : N -> Z;
  (** [time(NULL)] *)
  o_time : N -> Z;
  (** [n] bytes of [randombytes_buf] *)
  o_bytes : N -> nat -> list Z;
  (** [int64_t(flakyDelayDist(generator))] *)
  o_delay : N -> Z;
  (** the order in which an unordered map is walked *)
  o_order : forall {K V : Type} `{Countable K}, N -> gmap K V -> list (K * V);
  (** the order in which a set of endpoints is walked *)
  o_set_order : forall {K : Type} `{Countable K}, N -> gset K -> list K
}.

Class OracleLaws `{Oracle} : Prop := {
  o_rand_nonneg : forall n, 0 <= o_rand n;
  o_uuid_range : forall n, in_u 64 (o_uuid n) = true;
  o_bytes_length : forall n len, length (o_bytes n len) = len;
  o_bytes_range : forall n len, forallb is_byte (o_bytes n len) = true;
  o_order_perm : forall K V `{Countable K} n (m : gmap K V), o_order n m ≡ₚ map_to_list m;
  o_set_order_perm : forall K `{Countable K} n (X : gset K), o_set_order n X ≡ₚ elements X
}.

(** ** TimeHandler *)
Record TimeHandler : Type := mkTimeHandler {
  noiseShift : Z; timeShift : Z;
  offsetEstimator : SlidingWindowEstimator; offsetOptimizer : AdamOptimizer
}.
Definition TimeHandler_init : TimeHandler :=
  mkTimeHandler 0 0 swe_init (adam_init (d_of_Z 0) (d_lit 1 10)).

(** [addNoise], given the value of [rand()] *)
Definition addNoise (rnd : Z) (t : TimeHandler) : TimeHandler :=
  mkTimeHandler (-1 * (Z.rem rnd 30 * 1000000)) (timeShift t) (offsetEstimator t)
    (offsetOptimizer t).

(** [currentTimeMicros], given the value of the virtual [now()] *)
Definition currentTimeMicros (now : Z) (t : TimeHandler) : Z := now - (timeShift t + noiseShift t).
Definition currentTimeMs (now : Z) (t : TimeHandler) : Z := Z.quot (currentTimeMicros now t) 1000.
Definition getTimeShift (t : TimeHandler) : Z := timeShift t.
Definition setTimeShift (shift : Z) (t : TimeHandler) : TimeHandler :=
  mkTimeHandler (noiseShift t) shift (offsetEstimator t) (offsetOptimizer t).

(** The clocks: [now()] of [SystemClockTimeHandler] and of [FakeTimeHandler]. *)
Definition SystemClock_now (initialTime clock : Z) : Z := clock - initialTime.
Record FakeTimeHandler : Type := mkFake { fake_base : TimeHandler; currentTime : Z }.
Definition Fake_init : FakeTimeHandler := mkFake TimeHandler_init 0.
Definition setCurrentTime (t : Z) (f : FakeTimeHandler) : FakeTimeHandler := mkFake (fake_base f) t.
Definition addTime (micros : Z) (f : FakeTimeHandler) : FakeTimeHandler :=
  mkFake (fake_base f) (currentTime f + micros).
Definition Fake_now (f : FakeTimeHandler) : Z := currentTime f.

(** [currentTimeMicros() + getTimeShift()]: the stamp the synchronizer takes
    does not depend on the shift being estimated. *)
Definition clockStamp (now : Z) (t : TimeHandler) : Z := currentTimeMicros now t + getTimeShift t.

Lemma clockStamp_shift_free now shift t :
  clockStamp now (setTimeShift shift t) = clockStamp now t.
Proof. unfold clockStamp, currentTimeMicros, getTimeShift, setTimeShift; simpl. lia. Qed.

(** ** World

    What the objects of one process share: the [GlobalClock] and the position in
    the environment's readings.  [initialTime] is that of the global
    [SystemClockTimeHandler]. *)
Record World : Type := mkWorld { tick : N; timeHandler : TimeHandler; initialTime : Z }.

Definition next_tick (w : World) : World := mkWorld (N.succ (tick w)) (timeHandler w) (initialTime w).
Definition set_timeHandler (t : TimeHandler) (w : World) : World :=
  mkWorld (tick w) t (initialTime w).

Section Readings.
Context `{Oracle}.
Definition reading {A} (f : N -> A) (w : World) : A * World := (f (tick w), next_tick w).
Definition world_stamp (w : World) : Z * World :=
  let (c, w') := reading o_clock w in
  (clockStamp (SystemClock_now (initialTime w) c) (timeHandler w), w').
End Readings.
