(* ===== verification/ClockSynchronizer.v ===== *)
(** * ClockSynchronizer

    src/peer/src/base/ClockSynchronizer.hpp and .cpp: the NTP-like exchange that
    estimates the round trip and the offset to the host's clock.  Each method
    takes the clock stamp ([currentTimeMicros() + getTimeShift()]) it reads.
    Log output is left out: it only reads the estimators. *)
From S2P Require Import Prelude.
From S2P Require Import RpcId.
From S2P Require Import Estimators.
From S2P Require Import TimeHandler.

Record ClockSynchronizer : Type := mkClock {
  requestSendTimeMap : gmap RpcId Z;
  requestReceiveTimeMap : gmap RpcId Z;
  pingEstimator : SlidingWindowEstimator;
  count : Z;
  connectedToHost : bool;
  baselineOffset : Z
}.

Definition ClockSynchronizer_init (toHost : bool) : ClockSynchronizer :=
  mkClock ∅ ∅ swe_init 0 toHost 0.

Definition set_sendTimes (m : gmap RpcId Z) (c : ClockSynchronizer) : ClockSynchronizer :=
  mkClock m (requestReceiveTimeMap c) (pingEstimator c) (count c) (connectedToHost c)
    (baselineOffset c).
Definition set_receiveTimes (m : gmap RpcId Z) (c : ClockSynchronizer) : ClockSynchronizer :=
  mkClock (requestSendTimeMap c) m (pingEstimator c) (count c) (connectedToHost c)
    (baselineOffset c).

Definition createRequest (i : RpcId) (now : Z) (c : ClockSynchronizer) :
    outcome (Z * ClockSynchronizer) :=
  match requestSendTimeMap c !! i with
  | Some _ => Err LogFatal
  | None => Ok (now, set_sendTimes (<[i := now]> (requestSendTimeMap c)) c)
  end.

Definition receiveRequest (i : RpcId) (now : Z) (c : ClockSynchronizer) :
    outcome (Z * ClockSynchronizer) :=
  match requestReceiveTimeMap c !! i with
  | Some _ => Err LogFatal
  | None => Ok (now, set_receiveTimes (<[i := now]> (requestReceiveTimeMap c)) c)
  end.

Definition getReplyDuration (i : RpcId) (now : Z) (c : ClockSynchronizer) : outcome (Z * Z) :=
  match requestReceiveTimeMap c !! i with
  | Some sendTime => Ok (sendTime, now)
  | None => Err OutOfRange
  end.

Definition eraseRequestRecieveTime (i : RpcId) (c : ClockSynchronizer) : outcome ClockSynchronizer :=
  match requestReceiveTimeMap c !! i with
  | None => Err LogFatal
  | Some _ => Ok (set_receiveTimes (delete i (requestReceiveTimeMap c)) c)
  end.

(** The offset of one exchange; [ping_2] is half the mean round trip.  Every step is one
    of [int64_t]. *)
Definition exchangeOffset (ping_2 reqSend reqReceipt replySend replyReceive : Z) : outcome Z :=
  let? there := int64 (reqReceipt - reqSend) in
  let? there := int64 (there - ping_2) in
  let? timeOffsetRequest := int64 (-1 * there) in
  let? back := int64 (replyReceive - replySend) in
  let? timeOffsetReply := int64 (back - ping_2) in
  let? sum := int64 (timeOffsetRequest + timeOffsetReply) in
  Ok (Z.quot sum 2).
Definition exchangePing (reqSend reqReceipt replySend replyReceive : Z) : outcome Z :=
  let? total := int64 (replyReceive - reqSend) in
  let? processing := int64 (replySend - reqReceipt) in
  int64 (total - processing).

(** The part of [updateDrift] that corrects the shared time handler. *)
Definition applyOffset (timeOffset : Z) (c : ClockSynchronizer) (t : TimeHandler) :
    outcome (ClockSynchronizer * TimeHandler) :=
  let? cnt := int64 (count c + 1) in
  if connectedToHost c then
    let? baseline :=
      (if cnt <=? 10 then
         let? sum := int64 (baselineOffset c + timeOffset) in
         Ok (if cnt =? 10 then Z.quot sum cnt else sum)
       else Ok (baselineOffset c)) in
    let? t1 :=
      (if 10 <? cnt then
         let? error := int64 (timeOffset - baseline) in
         Ok (mkTimeHandler (noiseShift t) (timeShift t)
               (addSample (d_of_Z error) (offsetEstimator t))
               (updateWithLabel (d_div (d_of_Z error) (d_of_Z 1000000)) (offsetOptimizer t)))
       else Ok t) in
    let? shift := d_trunc 64 (d_mul (d_of_Z 1000000) (getCurrentValue (offsetOptimizer t1))) in
    let? newTimeShift := int64 (shift + baseline) in
    Ok (mkClock (requestSendTimeMap c) (requestReceiveTimeMap c) (pingEstimator c) cnt true baseline,
        setTimeShift newTimeShift t1)
  else
    Ok (mkClock (requestSendTimeMap c) (requestReceiveTimeMap c) (pingEstimator c) cnt false
          (baselineOffset c), t).

Definition updateDrift (requestSendTime requestReceiptTime replySendTime replyReceiveTime : Z)
    (c : ClockSynchronizer) (t : TimeHandler) : outcome (ClockSynchronizer * TimeHandler) :=
  let? ping_2 := d_trunc 64 (d_div (getMean (pingEstimator c)) (d_of_Z 2)) in
  let? timeOffset :=
    exchangeOffset ping_2 requestSendTime requestReceiptTime replySendTime replyReceiveTime in
  let? ping := exchangePing requestSendTime requestReceiptTime replySendTime replyReceiveTime in
  let c1 := mkClock (requestSendTimeMap c) (requestReceiveTimeMap c)
              (addSample (d_min (d_mul (d_of_Z 1000) (d_of_Z 1000)) (d_of_Z ping)) (pingEstimator c))
              (count c) (connectedToHost c) (baselineOffset c) in
  applyOffset timeOffset c1 t.

Definition handleReply (i : RpcId) (requestReceiveTime replySendTime replyReceiveTime : Z)
    (c : ClockSynchronizer) (t : TimeHandler) : outcome (ClockSynchronizer * TimeHandler) :=
  match requestSendTimeMap c !! i with
  | None => Err OutOfRange
  | Some requestSendTime =>
      updateDrift requestSendTime requestReceiveTime replySendTime replyReceiveTime
        (set_sendTimes (delete i (requestSendTimeMap c)) c) t
  end.

Definition getPing (c : ClockSynchronizer) : double := getMean (pingEstimator c).
Definition getOffset (t : TimeHandler) : double := getMean (offsetEstimator t).
Definition getHalfPingUpperBound (c : ClockSynchronizer) : outcome double :=
  let? u := getUpperBound (pingEstimator c) in Ok (d_div u (d_of_Z 2)).

(** ** Properties *)

(** With stamps and an estimate below 2^59 in magnitude no intermediate of the
    computation leaves [int64_t]. *)
Definition moderate (z : Z) : Prop := Z.abs z < 2 ^ 59.
Lemma exchange_no_overflow ping_2 a b x y :
  moderate ping_2 -> moderate a -> moderate b -> moderate x -> moderate y ->
  exchangeOffset ping_2 a b x y = Ok (Z.quot (-1 * (b - a - ping_2) + (y - x - ping_2)) 2) /\
  exchangePing a b x y = Ok ((y - a) - (x - b)).
Proof.
  unfold moderate. change (2 ^ 59) with 576460752303423488. intros.
  unfold exchangeOffset, exchangePing.
  split; repeat (rewrite int64_ok by (unfold in_s; change (2 ^ (64 - 1)) with 9223372036854775808; lia);
    cbn [obind]); done.
Qed.

(** The offset of one exchange is the NTP offset.  When the replier's clock
    runs [theta] ahead, the request takes [d1] and the reply [d2], the measured
    ping is the true round trip [d1 + d2] and the measured offset is [-theta]
    up to half the asymmetry of the two delays, whatever the running ping
    estimate [ping_2] and the processing time are. *)
Theorem exchange_measures_offset ping_2 reqSend theta d1 d2 processing :
  let reqReceipt := reqSend + d1 + theta in
  let replySend := reqReceipt + processing in
  let replyReceive := reqSend + d1 + processing + d2 in
  moderate ping_2 -> moderate reqSend -> moderate reqReceipt -> moderate replySend ->
  moderate replyReceive ->
  exchangePing reqSend reqReceipt replySend replyReceive = Ok (d1 + d2) /\
  exists offset, exchangeOffset ping_2 reqSend reqReceipt replySend replyReceive = Ok offset /\
    offset = Z.quot (d2 - d1 - 2 * theta) 2 /\
    2 * Z.abs (offset + theta) <= Z.abs (d2 - d1) + 1.
Proof.
  cbv zeta. intros Hp H1 H2 H3 H4.
  destruct (exchange_no_overflow ping_2 _ _ _ _ Hp H1 H2 H3 H4) as [-> ->].
  split; [f_equal; lia|]. eexists. split; [reflexivity|].
  assert (-1 * (reqSend + d1 + theta - reqSend - ping_2) +
     (reqSend + d1 + processing + d2 - (reqSend + d1 + theta + processing) - ping_2)
     = d2 - d1 - 2 * theta) as -> by lia.
  split; [done|]. pose proof (Z.quot_rem' (d2 - d1 - 2 * theta) 2).
  pose proof (Z.rem_bound_abs (d2 - d1 - 2 * theta) 2 ltac:(lia)). lia.
Qed.

Lemma exchange_measures_offset_witness :
  exchangePing 1000 6040 6050 1070 = Ok (40 + 20) /\
  exists offset, exchangeOffset 30 1000 6040 6050 1070 = Ok offset /\
    offset = Z.quot (20 - 40 - 2 * 5000) 2 /\ 2 * Z.abs (offset + 5000) <= Z.abs (20 - 40) + 1.
Proof. apply (exchange_measures_offset 30 1000 5000 40 20 10); reflexivity. Defined.

(** The peer chooses two of the four stamps: with one of them far off, the first subtraction
    leaves [int64_t]. *)
Example peer_stamp_overflows : exchangeOffset 0 1000 (- 2 ^ 63) 0 2000 = Err Undefined.
Proof. reflexivity. Qed.

(** The offsets of the first exchanges, one after the other. *)
Fixpoint applyOffsets (l : list Z) (c : ClockSynchronizer) (t : TimeHandler) :
    outcome (ClockSynchronizer * TimeHandler) :=
  match l with
  | [] => Ok (c, t)
  | o :: l' => let? (c', t') := applyOffset o c t in applyOffsets l' c' t'
  end.

Definition sumZ (l : list Z) : Z := foldr Z.add 0 l.

Definition fresh_optimizer (t : TimeHandler) : Prop :=
  offsetOptimizer t = offsetOptimizer TimeHandler_init.

Lemma fresh_shift t :
  fresh_optimizer t ->
  d_trunc 64 (d_mul (d_of_Z 1000000) (getCurrentValue (offsetOptimizer t))) = Ok 0.
Proof. unfold fresh_optimizer. intros ->. vm_compute. reflexivity. Qed.

(** Offsets below 2^58, of which ten still add up within [int64_t]. *)
Definition small_offset (o : Z) : Prop := Z.abs o < 2 ^ 58.
Lemma sum_small l : Forall small_offset l -> Z.abs (sumZ l) <= Z.of_nat (length l) * 2 ^ 58.
Proof.
  unfold small_offset. induction 1 as [|o l Ho Hl IH]; cbn [sumZ foldr length] in *; [lia|].
  unfold sumZ in IH. rewrite Nat2Z.inj_succ. lia.
Qed.
Ltac int64_fits :=
  rewrite int64_ok by (unfold in_s; change (2 ^ (64 - 1)) with (32 * 2 ^ 58);
                       change (2 ^ 58) with 288230376151711744 in *; lia); cbn [obind].

Lemma warm_up_step o c t :
  connectedToHost c = true -> 0 <= count c -> count c + 1 < 10 -> fresh_optimizer t ->
  Z.abs (baselineOffset c + o) <= 10 * 2 ^ 58 ->
  exists c' t', applyOffset o c t = Ok (c', t') /\ connectedToHost c' = true /\
    count c' = count c + 1 /\ baselineOffset c' = baselineOffset c + o /\
    timeShift t' = baselineOffset c + o /\ fresh_optimizer t'.
Proof.
  intros Hh Hc0 Hc Ht Hb. unfold applyOffset. int64_fits. rewrite Hh.
  destruct (Z.leb_spec (count c + 1) 10); [|lia]. destruct (Z.ltb_spec 10 (count c + 1)); [lia|].
  int64_fits. destruct (Z.eqb_spec (count c + 1) 10); [lia|]. cbn [obind].
  rewrite fresh_shift by done. cbn [obind]. int64_fits. by eexists _, _.
Qed.

Lemma warm_up_run l c t :
  connectedToHost c = true -> 0 <= count c -> count c + Z.of_nat (length l) < 10 ->
  fresh_optimizer t -> Forall small_offset l -> Z.abs (baselineOffset c) <= count c * 2 ^ 58 ->
  exists c' t', applyOffsets l c t = Ok (c', t') /\ connectedToHost c' = true /\
    count c' = count c + Z.of_nat (length l) /\
    baselineOffset c' = baselineOffset c + sumZ l /\ fresh_optimizer t' /\
    (l <> [] -> timeShift t' = baselineOffset c').
Proof.
  revert c t. induction l as [|o l IH]; intros c t Hh Hc0 Hc Ht Hl Hb.
  - exists c, t. simpl. repeat split; try done; lia.
  - simpl length in Hc. apply Forall_cons in Hl as [Ho Hl]. unfold small_offset in Ho.
    destruct (warm_up_step o c t) as (c1 & t1 & E & H1 & H2 & H3 & H4 & H5); [done|lia|lia|done|lia|].
    destruct (IH c1 t1) as (c' & t' & E' & J1 & J2 & J3 & J4 & J5); [done|lia|lia|done|done|lia|].
    exists c', t'. cbn [applyOffsets]. rewrite E. simpl obind. split; [exact E'|].
    split; [done|]. split; [simpl; lia|]. split; [simpl; lia|]. split; [done|].
    intros _. destruct l as [|o' l]; [|by apply J5].
    simpl in E'. simplify_eq. lia.
Qed.

(** On a connection to the host, the tenth exchange sets the baseline to the
    mean of the ten measured offsets, and the clock shift to that baseline. *)
Theorem baseline_is_mean l o t :
  length l = 9%nat -> Forall small_offset (o :: l) -> fresh_optimizer t ->
  exists c' t',
    applyOffsets (l ++ [o]) (ClockSynchronizer_init true) t = Ok (c', t') /\
    count c' = 10 /\ baselineOffset c' = Z.quot (sumZ l + o) 10 /\
    timeShift t' = baselineOffset c'.
Proof.
  intros Hl [Ho Hs]%Forall_cons Ht. unfold small_offset in Ho.
  destruct (warm_up_run l (ClockSynchronizer_init true) t) as (c & t1 & E & H1 & H2 & H3 & H4 & _);
    [done|done|rewrite Hl; simpl; lia|done|done|simpl; lia|].
  assert (forall l1 l2 c t, applyOffsets (l1 ++ l2) c t =
    let? (c', t') := applyOffsets l1 c t in applyOffsets l2 c' t') as Happ.
  { clear. induction l1 as [|x l1 IH]; intros l2 c t; [done|]. cbn [app applyOffsets].
    destruct (applyOffset x c t) as [[c' t']|]; simpl; [apply IH|done]. }
  pose proof (sum_small l Hs) as Hsum. rewrite Hl in Hsum. simpl baselineOffset in H3.
  rewrite Happ, E. cbn [obind applyOffsets]. unfold applyOffset. rewrite H1, H2, H3, Hl.
  simpl count. change (0 + Z.of_nat 9 + 1) with 10. change (int64 10) with (@Ok Z 10). cbn [obind].
  change (10 <=? 10) with true. change (10 <? 10) with false. change (10 =? 10) with true.
  cbv iota. change (Z.of_nat 9) with 9 in Hsum. rewrite Z.add_0_l. int64_fits.
  rewrite fresh_shift by done. cbn [obind].
  pose proof (Z.quot_rem' (sumZ l + o) 10). pose proof (Z.rem_bound_abs (sumZ l + o) 10 ltac:(lia)).
  int64_fits. eexists _, _. split; [done|]. simpl. done.
Qed.

Lemma baseline_is_mean_witness :
  exists c' t',
    applyOffsets ([-7; -5; -6; -6; -6; -8; -4; -6; -6] ++ [-6]) (ClockSynchronizer_init true)
      TimeHandler_init = Ok (c', t') /\
    count c' = 10 /\
    baselineOffset c' = Z.quot (sumZ [-7; -5; -6; -6; -6; -8; -4; -6; -6] + -6) 10 /\
    timeShift t' = baselineOffset c'.
Proof.
  apply (baseline_is_mean [-7; -5; -6; -6; -6; -8; -4; -6; -6] (-6));
    [done|by repeat constructor|done].
Defined.

(** During the first nine exchanges the shared clock is shifted by the sum of
    the offsets measured so far, not by an estimate of the offset: after [n]
    exchanges that all measure [o], by [n * o]. *)
Theorem warm_up_shift_is_sum l t :
  l <> [] -> Z.of_nat (length l) < 10 -> Forall small_offset l -> fresh_optimizer t ->
  exists c' t', applyOffsets l (ClockSynchronizer_init true) t = Ok (c', t') /\
    timeShift t' = sumZ l.
Proof.
  intros Hne Hl Hs Ht.
  destruct (warm_up_run l (ClockSynchronizer_init true) t)
    as (c & t1 & E & _ & _ & H3 & _ & H5); try done.
  exists c, t1. split; [done|]. rewrite H5, H3 by done. simpl. lia.
Qed.

Lemma warm_up_shift_is_sum_witness :
  exists c' t', applyOffsets [-1000; -1000; -1000] (ClockSynchronizer_init true) TimeHandler_init
    = Ok (c', t') /\ timeShift t' = sumZ [-1000; -1000; -1000].
Proof. apply (warm_up_shift_is_sum [-1000; -1000; -1000]); [done|done|by repeat constructor|done]. Defined.

Lemma applyOffset_maps o c t c' t' :
  applyOffset o c t = Ok (c', t') ->
  requestSendTimeMap c' = requestSendTimeMap c /\ requestReceiveTimeMap c' = requestReceiveTimeMap c.
Proof.
  unfold applyOffset. intros (n & _ & E)%obind_ok. destruct (connectedToHost c); [|by injection E as <- _].
  apply obind_ok in E as (b & _ & E). apply obind_ok in E as (t1 & _ & E).
  apply obind_ok in E as (sh & _ & E). apply obind_ok in E as (ns & _ & E). by injection E as <- _.
Qed.

(** The two maps only hold requests in flight: creating and answering the same
    request leaves them as they were. *)
Lemma createRequest_handleReply_maps i now r1 r2 r3 c c1 c2 t t2 x :
  createRequest i now c = Ok (x, c1) -> handleReply i r1 r2 r3 c1 t = Ok (c2, t2) ->
  requestSendTimeMap c2 = requestSendTimeMap c /\
  requestReceiveTimeMap c2 = requestReceiveTimeMap c.
Proof.
  unfold createRequest, handleReply. destruct (requestSendTimeMap c !! i) eqn:E; [done|].
  intros [= <- <-]. simpl. rewrite lookup_insert_eq. unfold updateDrift.
  intros (p & _ & (o & _ & (g & _ & E2)%obind_ok)%obind_ok)%obind_ok.
  apply applyOffset_maps in E2 as [-> ->]. simpl. by rewrite delete_insert_id.
Qed.
