(* ===== verification/RpcState.v ===== *)
(** * RpcState

    The state of a [wga::BiDirectionalRpc] (src/peer/src/base/BiDirectionalRpc.hpp)
    and the computations over it.  [sub] stands for the fields the derived
    classes add, [world] for what the process shares.  The LRU caches come from
    the cpp-lru-cache submodule, so they are an interface, [LruCache]. *)
From S2P Require Import Prelude.
From S2P Require Import RpcId.
From S2P Require Import Estimators.
From S2P Require Import TimeHandler.
From S2P Require Import ClockSynchronizer.

Class LruCache : Type := {
  lru : Type;
  lru_new : Z -> lru;
  (** [put(k, true)] *)
  lru_put : RpcId -> lru -> lru;
  lru_exists : RpcId -> lru -> bool;
  lru_size : lru -> Z;
  lru_capacity : lru -> Z
}.

(** An entry is there once put, entries only come from [put], an entry is only
    dropped when the cache is full, and a cache never gets emptier. *)
Class LruCacheLaws `{LruCache} : Prop := {
  lru_exists_new : forall n k, lru_exists k (lru_new n) = false;
  lru_capacity_new : forall n, lru_capacity (lru_new n) = n;
  lru_capacity_put : forall k c, lru_capacity (lru_put k c) = lru_capacity c;
  lru_exists_put : forall k c, 0 < lru_capacity c -> lru_exists k (lru_put k c) = true;
  lru_exists_put_inv : forall k k' c,
    lru_exists k' (lru_put k c) = true -> k' = k \/ lru_exists k' c = true;
  lru_exists_put_keep : forall k k' c,
    lru_size c < lru_capacity c -> lru_exists k' c = true -> lru_exists k' (lru_put k c) = true;
  lru_size_new : forall n, 0 <= n -> lru_size (lru_new n) = 0;
  lru_size_put : forall k c, lru_size c <= lru_capacity c ->
    lru_size c <= lru_size (lru_put k c) <= lru_capacity c
}.

Section State.
Context `{LruCache}.

Record IdPayload : Type := mkIdPayload { ip_id : RpcId; ip_payload : string }.

Record Rpc : Type := mkRpc {
  delayedRequests : gmap RpcId string;
  outgoingRequests : gmap RpcId string;
  incomingRequests : gmap RpcId string;
  oneWayRequests : gset RpcId;
  outgoingReplies : gmap RpcId string;
  incomingReplies : gmap RpcId string;
  processedRequests : lru;
  processedReplies : lru;
  onBarrier : Z;
  onId : Z;
  flaky : bool;
  shuttingDown : bool;
  clockSynchronizer : ClockSynchronizer
}.

(** The constructor; [flaky] starts as the global [ALL_RPC_FLAKY]. *)
Definition Rpc_init (ALL_RPC_FLAKY toHost : bool) : Rpc :=
  mkRpc ∅ ∅ ∅ ∅ ∅ ∅ (lru_new (128 * 1024)) (lru_new (128 * 1024)) 0 0 ALL_RPC_FLAKY false
    (ClockSynchronizer_init toHost).

Definition set_delayed m (r : Rpc) : Rpc :=
  mkRpc m (outgoingRequests r) (incomingRequests r) (oneWayRequests r) (outgoingReplies r)
    (incomingReplies r) (processedRequests r) (processedReplies r) (onBarrier r) (onId r)
    (flaky r) (shuttingDown r) (clockSynchronizer r).
Definition set_outgoing m (r : Rpc) : Rpc :=
  mkRpc (delayedRequests r) m (incomingRequests r) (oneWayRequests r) (outgoingReplies r)
    (incomingReplies r) (processedRequests r) (processedReplies r) (onBarrier r) (onId r)
    (flaky r) (shuttingDown r) (clockSynchronizer r).
Definition set_incoming m (r : Rpc) : Rpc :=
  mkRpc (delayedRequests r) (outgoingRequests r) m (oneWayRequests r) (outgoingReplies r)
    (incomingReplies r) (processedRequests r) (processedReplies r) (onBarrier r) (onId r)
    (flaky r) (shuttingDown r) (clockSynchronizer r).
Definition set_oneWay s (r : Rpc) : Rpc :=
  mkRpc (delayedRequests r) (outgoingRequests r) (incomingRequests r) s (outgoingReplies r)
    (incomingReplies r) (processedRequests r) (processedReplies r) (onBarrier r) (onId r)
    (flaky r) (shuttingDown r) (clockSynchronizer r).
Definition set_outReplies m (r : Rpc) : Rpc :=
  mkRpc (delayedRequests r) (outgoingRequests r) (incomingRequests r) (oneWayRequests r) m
    (incomingReplies r) (processedRequests r) (processedReplies r) (onBarrier r) (onId r)
    (flaky r) (shuttingDown r) (clockSynchronizer r).
Definition set_inReplies m (r : Rpc) : Rpc :=
  mkRpc (delayedRequests r) (outgoingRequests r) (incomingRequests r) (oneWayRequests r)
    (outgoingReplies r) m (processedRequests r) (processedReplies r) (onBarrier r) (onId r)
    (flaky r) (shuttingDown r) (clockSynchronizer r).
Definition set_processedRequests c (r : Rpc) : Rpc :=
  mkRpc (delayedRequests r) (outgoingRequests r) (incomingRequests r) (oneWayRequests r)
    (outgoingReplies r) (incomingReplies r) c (processedReplies r) (onBarrier r) (onId r)
    (flaky r) (shuttingDown r) (clockSynchronizer r).
Definition set_processedReplies c (r : Rpc) : Rpc :=
  mkRpc (delayedRequests r) (outgoingRequests r) (incomingRequests r) (oneWayRequests r)
    (outgoingReplies r) (incomingReplies r) (processedRequests r) c (onBarrier r) (onId r)
    (flaky r) (shuttingDown r) (clockSynchronizer r).
Definition set_onBarrier z (r : Rpc) : Rpc :=
  mkRpc (delayedRequests r) (outgoingRequests r) (incomingRequests r) (oneWayRequests r)
    (outgoingReplies r) (incomingReplies r) (processedRequests r) (processedReplies r) z (onId r)
    (flaky r) (shuttingDown r) (clockSynchronizer r).
Definition set_flaky b (r : Rpc) : Rpc :=
  mkRpc (delayedRequests r) (outgoingRequests r) (incomingRequests r) (oneWayRequests r)
    (outgoingReplies r) (incomingReplies r) (processedRequests r) (processedReplies r)
    (onBarrier r) (onId r) b (shuttingDown r) (clockSynchronizer r).
Definition set_shuttingDown b (r : Rpc) : Rpc :=
  mkRpc (delayedRequests r) (outgoingRequests r) (incomingRequests r) (oneWayRequests r)
    (outgoingReplies r) (incomingReplies r) (processedRequests r) (processedReplies r)
    (onBarrier r) (onId r) (flaky r) b (clockSynchronizer r).
Definition set_clock c (r : Rpc) : Rpc :=
  mkRpc (delayedRequests r) (outgoingRequests r) (incomingRequests r) (oneWayRequests r)
    (outgoingReplies r) (incomingReplies r) (processedRequests r) (processedReplies r)
    (onBarrier r) (onId r) (flaky r) (shuttingDown r) c.

(** A handler object together with what its process shares. *)
Record St (X : Type) : Type := mkSt { rpc : Rpc; sub : X; world : World }.
Global Arguments mkSt {X} rpc sub world.
Global Arguments rpc {X} s.
Global Arguments sub {X} s.
Global Arguments world {X} s.

Section Computations.
Context {X : Type} `{Oracle}.

Definition get_rpc : M (St X) Rpc := gets rpc.
Definition mod_rpc (f : Rpc -> Rpc) : M (St X) unit :=
  modify (fun s => mkSt (f (rpc s)) (sub s) (world s)).
Definition get_sub : M (St X) X := gets sub.
Definition mod_sub (f : X -> X) : M (St X) unit :=
  modify (fun s => mkSt (rpc s) (f (sub s)) (world s)).
Definition read_world {A} (f : World -> A * World) : M (St X) A :=
  fun s => let (a, w) := f (world s) in Ok (a, mkSt (rpc s) (sub s) w).

Definition rand : M (St X) Z := read_world (reading o_rand).
Definition uuid4 : M (St X) Z := read_world (reading o_uuid).
Definition time_now : M (St X) Z := read_world (reading o_time).
Definition stamp : M (St X) Z := read_world world_stamp.

(** The elements in the order the container is walked this time. *)
Definition walk (m : gmap RpcId string) : M (St X) (list (RpcId * string)) :=
  read_world (reading (fun n => o_order n m)).

(** [m.begin()] *)
Definition map_begin (m : gmap RpcId string) : M (St X) (RpcId * string) :=
  let! l := walk m in
  match l with [] => fail Undefined | x :: _ => ret x end.

(** [DRAW_FROM_UNORDERED(it, m)] *)
Definition draw (m : gmap RpcId string) : M (St X) (RpcId * string) :=
  let! l := walk m in
  let! r := rand in
  match l !! Z.to_nat (r mod Z.of_nat (size m)) with
  | Some x => ret x
  | None => fail Undefined
  end.

(** Calls into [clockSynchronizer]. *)
Definition clock_createRequest (i : RpcId) : M (St X) unit :=
  let! now := stamp in
  let! r := get_rpc in
  match createRequest i now (clockSynchronizer r) with
  | Ok (_, c) => mod_rpc (set_clock c)
  | Err f => fail f
  end.
Definition clock_receiveRequest (i : RpcId) : M (St X) unit :=
  let! now := stamp in
  let! r := get_rpc in
  match receiveRequest i now (clockSynchronizer r) with
  | Ok (_, c) => mod_rpc (set_clock c)
  | Err f => fail f
  end.
Definition clock_getReplyDuration (i : RpcId) : M (St X) (Z * Z) :=
  let! now := stamp in
  let! r := get_rpc in
  match getReplyDuration i now (clockSynchronizer r) with
  | Ok p => ret p
  | Err f => fail f
  end.
Definition clock_eraseRequestRecieveTime (i : RpcId) : M (St X) unit :=
  let! r := get_rpc in
  match eraseRequestRecieveTime i (clockSynchronizer r) with
  | Ok c => mod_rpc (set_clock c)
  | Err f => fail f
  end.
Definition clock_handleReply (i : RpcId) (receiveTime sendTime : Z) : M (St X) unit :=
  let! now := stamp in
  fun s =>
    match handleReply i receiveTime sendTime now (clockSynchronizer (rpc s))
            (timeHandler (world s)) with
    | Ok (c, t) =>
        Ok (tt, mkSt (set_clock c (rpc s)) (sub s) (set_timeHandler t (world s)))
    | Err f => Err f
    end.
End Computations.
End State.
