(* ===== verification/Instances.v ===== *)
(** * Instances

    Concrete values of the interfaces to third-party code, so that the theorems
    proved against an interface can be applied to concrete inputs.  They are
    models of the interfaces, not of the libraries: nothing but the witnesses
    uses them. *)
From S2P Require Import Prelude.
From S2P Require Import StdMap.
From S2P Require Import RpcId.
From S2P Require Import Message.
From S2P Require Import Estimators.
From S2P Require Import TimeHandler.
From S2P Require Import ClockSynchronizer.
From S2P Require Import RpcState.

(** ** A tag-length-value codec for [Msgpack] *)
Section Tlv.
Definition tlv_int (w : nat) (z : Z) : string := string_of (le_bytes w z).
Definition tlv_pack (o : mobj) : string :=
  match o with
  | MInt z => String "I"%char (tlv_int 9 (z + 2 ^ 63))
  | MStr s => String "S"%char (tlv_int 8 (slen s) +:+ s)
  | MMap _ => String "M"%char ""
  end.
Definition tlv_pack_map (n : Z) : string := String "M"%char (tlv_int 8 n).

Definition tlv_read (w : nat) (s : string) : option (Z * string) :=
  if (String.length s <? w)%nat then None
  else Some (le_value (bytes_of (str_take w s)), str_drop w s).
Definition tlv_next_str (s : string) : option (string * string) :=
  match s with
  | String "S"%char s1 =>
      '(n, s2) ← tlv_read 8 s1;
      if slen s2 <? n then None else Some (str_take (Z.to_nat n) s2, str_drop (Z.to_nat n) s2)
  | _ => None
  end.
Fixpoint tlv_next_pairs (n : nat) (s : string) : option (list (string * string) * string) :=
  match n with
  | O => Some ([], s)
  | S n' =>
      '(k, s1) ← tlv_next_str s; '(v, s2) ← tlv_next_str s1;
      '(l, s3) ← tlv_next_pairs n' s2; Some ((k, v) :: l, s3)
  end.
Definition tlv_next (s : string) : option (mobj * string) :=
  match s with
  | String "I"%char s1 => '(z, s2) ← tlv_read 9 s1; Some (MInt (z - 2 ^ 63), s2)
  | String "S"%char _ => '(v, s2) ← tlv_next_str s; Some (MStr v, s2)
  | String "M"%char s1 =>
      '(n, s2) ← tlv_read 8 s1;
      if slen s2 <? n then None
      else '(l, s3) ← tlv_next_pairs (Z.to_nat n) s2; Some (MMap l, s3)
  | _ => None
  end.

Lemma tlv_read_int w z rest :
  0 <= z < 256 ^ Z.of_nat w -> tlv_read w (tlv_int w z +:+ rest) = Some (z, rest).
Proof.
  intros Hz. unfold tlv_read, tlv_int.
  assert (String.length (string_of (le_bytes w z)) = w) as Hl
    by (by rewrite length_string_of, length_le_bytes).
  rewrite <- (length_bytes_of (_ +:+ _)), bytes_of_app, length_app, !length_bytes_of, Hl.
  destruct (Nat.ltb_spec (w + String.length rest) w); [lia|].
  rewrite str_take_app', str_drop_app' by done.
  rewrite bytes_of_string_of by apply le_bytes_is_byte. by rewrite le_value_le_bytes.
Qed.

Lemma tlv_next_str_pack s rest :
  slen s < 2 ^ 32 -> tlv_next_str (tlv_pack (MStr s) +:+ rest) = Some (s, rest).
Proof.
  intros Hs. change (tlv_pack (MStr s) +:+ rest)
    with (String "S"%char ((tlv_int 8 (slen s) +:+ s) +:+ rest)).
  unfold tlv_next_str. rewrite str_app_assoc. pose proof (slen_nonneg s).
  rewrite tlv_read_int by (change (256 ^ Z.of_nat 8) with (2 ^ 64); lia). cbn -[slen str_take str_drop].
  rewrite slen_app. pose proof (slen_nonneg rest).
  destruct (Z.ltb_spec (slen s + slen rest) (slen s)); [lia|].
  unfold slen. by rewrite Nat2Z.id, str_take_app, str_drop_app.
Qed.
End Tlv.

Definition tlv_malformed (s : string) : bool :=
  match s with
  | String c _ => negb (Ascii.eqb c "I" || Ascii.eqb c "S" || Ascii.eqb c "M")
  | EmptyString => false
  end.
#[export] Instance tlv_Msgpack : Msgpack :=
  {| mp_pack := tlv_pack; mp_pack_map := tlv_pack_map; mp_next := tlv_next;
     mp_malformed := tlv_malformed |}.

Lemma tlv_next_pairs_pack kvs rest :
  Forall (fun p => slen p.1 < 2 ^ 32 /\ slen p.2 < 2 ^ 32) kvs ->
  tlv_next_pairs (length kvs) (str_concat (map pack_pair kvs) +:+ rest) = Some (kvs, rest).
Proof.
  induction 1 as [|[k v] kvs [Hk Hv] Hf IH]; [done|].
  cbn [length tlv_next_pairs map str_concat]. unfold pack_pair at 1. cbn [fst snd].
  rewrite !str_app_assoc. change (mp_pack ?o) with (tlv_pack o).
  rewrite tlv_next_str_pack by done. cbn -[tlv_pack tlv_next_str].
  rewrite tlv_next_str_pack by done. cbn -[tlv_pack tlv_next_str]. by rewrite IH.
Qed.

Lemma slen_concat_pairs kvs : Z.of_nat (length kvs) <= slen (str_concat (map pack_pair kvs)).
Proof.
  induction kvs as [|p kvs IH]; [apply slen_nonneg|]. cbn [map str_concat length].
  rewrite slen_app. unfold pack_pair at 1. rewrite slen_app.
  change (mp_pack ?o) with (tlv_pack o).
  assert (1 <= slen (tlv_pack (MStr p.1))) by (unfold slen; simpl; lia).
  pose proof (slen_nonneg (tlv_pack (MStr p.2))). lia.
Qed.

Lemma length_str_drop n s : (String.length (str_drop n s) <= String.length s)%nat.
Proof. revert s. induction n as [|n IH]; intros [|c s]; simpl; try lia. specialize (IH s). lia. Qed.
Lemma tlv_read_le w s z rest :
  tlv_read w s = Some (z, rest) -> (String.length rest <= String.length s)%nat.
Proof.
  unfold tlv_read. destruct (_ <? _)%nat; [done|]. intros [= _ <-]. apply length_str_drop.
Qed.
Lemma tlv_next_str_lt s v rest :
  tlv_next_str s = Some (v, rest) -> (String.length rest < String.length s)%nat.
Proof.
  unfold tlv_next_str. destruct s as [|c s]; [done|]. intros E.
  destruct (decide (c = "S"%char)) as [->|Hc].
  - destruct (tlv_read 8 s) as [[n s2]|] eqn:Er; [|done]. cbn -[str_take str_drop slen] in E.
    destruct (slen s2 <? n); [done|]. injection E as _ <-. apply tlv_read_le in Er.
    pose proof (length_str_drop (Z.to_nat n) s2). simpl. lia.
  - destruct c as [[] [] [] [] [] [] [] []]; try discriminate E. by destruct Hc.
Qed.
Lemma tlv_next_pairs_le n s l rest :
  tlv_next_pairs n s = Some (l, rest) -> (String.length rest <= String.length s)%nat.
Proof.
  revert s l. induction n as [|n IH]; intros s l; simpl; [intros [= _ ->]; done|].
  destruct (tlv_next_str s) as [[k s1]|] eqn:E1; [|done]. cbn -[tlv_next_str].
  destruct (tlv_next_str s1) as [[v s2]|] eqn:E2; [|done]. cbn -[tlv_next_str].
  destruct (tlv_next_pairs n s2) as [[l' s3]|] eqn:E3; [|done]. intros [= _ ->].
  apply tlv_next_str_lt in E1, E2. apply IH in E3. lia.
Qed.
Lemma tlv_next_lt s o rest :
  tlv_next s = Some (o, rest) -> (String.length rest < String.length s)%nat.
Proof.
  destruct s as [|c s]; [done|]. intros E.
  destruct (decide (c = "I"%char)) as [->|HI];
    [|destruct (decide (c = "S"%char)) as [->|HS];
      [|destruct (decide (c = "M"%char)) as [->|HM]]].
  - cbn -[tlv_read] in E. destruct (tlv_read 9 s) as [[z s2]|] eqn:Er; [|done].
    injection E as _ <-. apply tlv_read_le in Er. simpl. lia.
  - cbn -[tlv_next_str] in E. destruct (tlv_next_str _) as [[z s2]|] eqn:Er; [|done].
    injection E as _ <-. by apply tlv_next_str_lt in Er.
  - cbn -[tlv_read slen tlv_next_pairs] in E. destruct (tlv_read 8 s) as [[n s2]|] eqn:Er; [|done].
    cbn -[tlv_read slen tlv_next_pairs] in E. destruct (slen s2 <? n); [done|].
    destruct (tlv_next_pairs _ s2) as [[l s3]|] eqn:Ep; [|done]. injection E as _ <-.
    apply tlv_read_le in Er. apply tlv_next_pairs_le in Ep. simpl. lia.
  - destruct c as [[] [] [] [] [] [] [] []]; done.
Qed.

#[export] Instance tlv_MsgpackLaws : MsgpackLaws.
Proof.
  split.
  - intros z rest Hz. unfold mobj_wf in Hz. change (mp_pack (MInt z) +:+ rest)
      with (String "I"%char (tlv_int 9 (z + 2 ^ 63) +:+ rest)).
    cbn -[tlv_int tlv_read]. rewrite tlv_read_int by (change (256 ^ Z.of_nat 9) with (2 ^ 72); lia).
    cbn -[tlv_int]. repeat f_equal. lia.
  - intros s rest Hs. unfold mobj_wf in Hs.
    change ((tlv_next_str (tlv_pack (MStr s) +:+ rest) ≫=
      fun '(v, s2) => Some (MStr v, s2)) = Some (MStr s, rest)).
    rewrite tlv_next_str_pack by lia. done.
  - intros kvs rest Hwf. unfold mobj_wf in Hwf. apply andb_prop in Hwf as [Hf Hn].
    change (mp_next (String "M"%char (tlv_int 8 (Z.of_nat (length kvs)) +:+
      (str_concat (map pack_pair kvs) +:+ rest))) = Some (MMap kvs, rest)).
    cbn -[tlv_int tlv_read slen tlv_next_pairs].
    rewrite tlv_read_int by (change (256 ^ Z.of_nat 8) with (2 ^ 64); lia).
    cbn -[tlv_int tlv_read slen tlv_next_pairs]. rewrite slen_app.
    pose proof (slen_concat_pairs kvs). pose proof (slen_nonneg rest).
    destruct (Z.ltb_spec (slen (str_concat (map pack_pair kvs)) + slen rest)
      (Z.of_nat (length kvs))); [lia|].
    rewrite Nat2Z.id, tlv_next_pairs_pack; [done|].
    apply Forall_forall. intros p Hp. rewrite forallb_forall in Hf.
    apply list_elem_of_In in Hp. specialize (Hf _ Hp). simpl in Hf. lia.
  - intros [z|s|kvs]; done.
  - exact tlv_next_lt.
Qed.

(** ** A deterministic environment: reading number [n] is a function of [n] *)
#[export] Instance counting_Oracle : Oracle := {|
  o_rand := Z.of_N;
  o_uuid := fun n => wrap_u 64 (Z.of_N n);
  o_clock := fun n => 1000 * (Z.of_N n mod 2 ^ 40);
  o_time := fun n => Z.of_N n;
  o_bytes := fun n len => repeat (wrap_u 8 (Z.of_N n)) len;
  o_delay := fun _ => 100;
  o_order := fun _ _ _ _ _ m => map_to_list m;
  o_set_order := fun _ _ _ _ X => elements X
|}.

Ltac oracle_laws :=
  constructor; simpl; try done;
  [ intros n; lia
  | intros n; pose proof (wrap_u_range 64 (Z.of_N n)); unfold in_u; lia
  | intros n len; apply repeat_length
  | intros n len; induction len as [|len IH]; [done|]; simpl; rewrite IH, andb_true_r;
    unfold is_byte, wrap_u; pose proof (Z.mod_pos_bound (Z.of_N n) (2 ^ 8)); lia ].
#[export] Instance counting_OracleLaws : OracleLaws.
Proof. oracle_laws. Qed.

(** The same environment with [time(NULL)] standing still at [now]. *)
Definition frozen_Oracle (now : Z) : Oracle := {|
  o_rand := Z.of_N;
  o_uuid := fun n => wrap_u 64 (Z.of_N n);
  o_clock := fun n => 1000 * (Z.of_N n mod 2 ^ 40);
  o_time := fun _ => now;
  o_bytes := fun n len => repeat (wrap_u 8 (Z.of_N n)) len;
  o_delay := fun _ => 100;
  o_order := fun _ _ _ _ _ m => map_to_list m;
  o_set_order := fun _ _ _ _ X => elements X
|}.

Lemma frozen_OracleLaws now : @OracleLaws (frozen_Oracle now).
Proof. oracle_laws. Qed.

(** ** A least-recently-used cache as a list, the most recent entry first *)
Fixpoint remove_first (k : RpcId) (l : list RpcId) : list RpcId :=
  match l with
  | [] => []
  | x :: l' => if bool_decide (x = k) then l' else x :: remove_first k l'
  end.
Lemma remove_first_elem k k' l : k' ∈ remove_first k l -> k' ∈ l.
Proof.
  induction l as [|x l IH]; [done|]. cbn [remove_first]. case_bool_decide; [by right|].
  intros [->|Hx]%elem_of_cons; [left|right; auto].
Qed.
Lemma remove_first_keep k k' l : k' <> k -> k' ∈ l -> k' ∈ remove_first k l.
Proof.
  intros Hne. induction l as [|x l IH]; [done|]. cbn [remove_first].
  intros [->|Hx]%elem_of_cons; [rewrite bool_decide_false by done; left|].
  case_bool_decide; [done|right; auto].
Qed.
Lemma length_remove_first k l :
  (length (remove_first k l) <= length l <= S (length (remove_first k l)))%nat.
Proof. induction l as [|x l IH]; cbn [remove_first length]; [lia|]. case_bool_decide; cbn [length]; lia. Qed.

#[export] Instance list_LruCache : LruCache := {|
  lru := list RpcId * Z;
  lru_new := fun n => ([], n);
  lru_put := fun k c => (take (Z.to_nat c.2) (k :: remove_first k c.1), c.2);
  lru_exists := fun k c => bool_decide (k ∈ c.1);
  lru_size := fun c => Z.of_nat (length c.1);
  lru_capacity := snd
|}.

#[export] Instance list_LruCacheLaws : LruCacheLaws.
Proof.
  constructor; simpl; try done.
  - intros k [l c] Hc. simpl in *. apply bool_decide_eq_true.
    destruct (Z.to_nat c) eqn:E; [lia|]. simpl. left.
  - intros k k' [l c] Hc%bool_decide_eq_true. simpl in *.
    apply elem_of_take in Hc as (i & Hi & _). apply list_elem_of_lookup_2 in Hi.
    apply elem_of_cons in Hi as [->|Hi%remove_first_elem]; [by left|right].
    by apply bool_decide_eq_true.
  - intros k k' [l c] Hc Hk%bool_decide_eq_true. simpl in *. apply bool_decide_eq_true.
    pose proof (length_remove_first k l). rewrite take_ge by (cbn [length]; lia).
    destruct (decide (k' = k)) as [->|]; [left|right]. by apply remove_first_keep.
  - intros k [l c] Hc. simpl in *. pose proof (length_remove_first k l).
    rewrite length_take. cbn [length]. lia.
Qed.

(** The round trip of a map, through this codec. *)
Lemma readMap_writeMap_witness :
  let m := <["x" := "1"]> (<["y" := ""]> ∅) : gmap string string in
  mobj_wf (MMap (map_to_list m)) = true /\
  readMap (writeMap (map_to_list m) "" +:+ "tail") = Ok (m, "tail").
Proof. split; [done|]. apply readMap_writeMap; [reflexivity|done]. Defined.
