(* ===== verification/BiDirectionalRpc.v ===== *)
(** * BiDirectionalRpc

    The methods of [wga::BiDirectionalRpc]
    (src/peer/src/base/BiDirectionalRpc.cpp and .hpp).  The class is abstract:
    [send] is pure virtual and several methods are overridden by the encrypted
    handler, so the methods that make virtual calls take the overriders as
    section variables ([v_send], [v_reply], ...).  Every method holds the
    recursive mutex, so one call is one step. *)
From S2P Require Import Prelude.
From S2P Require Import StdMap.
From S2P Require Import RpcId.
From S2P Require Import Message.
From S2P Require Import Estimators.
From S2P Require Import TimeHandler.
From S2P Require Import ClockSynchronizer.
From S2P Require Import RpcState.

(** [enum RpcHeader] *)
Definition REQUEST : Z := 1.
Definition REPLY : Z := 2.
Definition ACKNOWLEDGE : Z := 3.

Section BiDirectionalRpc.
Context `{LruCache} {X : Type} `{Oracle} `{Msgpack}.
Abbreviation MS := (M (St X)).

(** ** Methods that only call the virtual [send] *)
Section Sending.
Variable v_send : string -> MS unit.

(** [int(sizeof(RpcId) + it->second.length())] *)
Definition batch_size (payload : string) : Z := wrap_s 32 (wrap_u 64 (sizeof_RpcId + slen payload)).

(** The [while] loop that attaches more requests to a packet; every turn adds
    one id to [rpcsSent], so [size outgoingRequests] turns are enough. *)
Fixpoint batchRequests (fuel : nat) (rpcsSent : gset RpcId) (writer : string) : MS string :=
  match fuel with
  | O => ret writer
  | S fuel' =>
      let! r := get_rpc in
      let outgoing := outgoingRequests r in
      if negb (bool_decide (outgoing = ∅)) && (size rpcsSent <? size outgoing)%nat then
        let! it := draw outgoing in
        if bool_decide (it.1 ∈ rpcsSent) then ret writer
        else
          let sz := batch_size it.2 in
          if 400 <? sz + writer_size writer then ret writer
          else
            batchRequests fuel' ({[it.1]} ∪ rpcsSent)
              (writePrimitive (MStr it.2) (writeClass_RpcId it.1 writer))
      else ret writer
  end.

Definition sendRequest (i : RpcId) (payload : string) (batch : bool) : MS unit :=
  let writer := writePrimitive (MStr payload)
                  (writeClass_RpcId i (writePrimitive (MInt REQUEST) writer_start)) in
  let! r := get_rpc in
  let! writer := (if batch then batchRequests (size (outgoingRequests r)) {[i]} writer
                  else ret writer) in
  v_send (finish writer).1.

(** One reply record of a packet: id, receive time, send time, payload. *)
Definition writeReply (i : RpcId) (payload writer : string) : MS string :=
  let! replyDuration := clock_getReplyDuration i in
  ret (writePrimitive (MStr payload)
         (writePrimitive (MInt replyDuration.2)
            (writePrimitive (MInt replyDuration.1) (writeClass_RpcId i writer)))).

Fixpoint batchReplies (fuel : nat) (rpcsSent : gset RpcId) (writer : string) : MS string :=
  match fuel with
  | O => ret writer
  | S fuel' =>
      let! r := get_rpc in
      let outgoing := outgoingReplies r in
      if negb (bool_decide (outgoing = ∅)) && (size rpcsSent <? size outgoing)%nat then
        let! it := draw outgoing in
        if bool_decide (it.1 ∈ rpcsSent) then ret writer
        else
          let sz := batch_size it.2 in
          if 400 <? sz + writer_size writer then ret writer
          else
            let! writer := writeReply it.1 it.2 writer in
            batchReplies fuel' ({[it.1]} ∪ rpcsSent) writer
      else ret writer
  end.

Definition sendReply (i : RpcId) (payload : string) (batch : bool) : MS unit :=
  let! writer := writeReply i payload (writePrimitive (MInt REPLY) writer_start) in
  let! r := get_rpc in
  let! writer := (if batch then batchReplies (size (outgoingReplies r)) {[i]} writer
                  else ret writer) in
  v_send (finish writer).1.

Definition sendAcknowledge (i : RpcId) : MS unit :=
  v_send (finish (writePrimitive (MStr "ACK_OK")
                    (writeClass_RpcId i (writePrimitive (MInt ACKNOWLEDGE) writer_start)))).1.

Definition resendRandomOutgoingMessage : MS unit :=
  let! r := get_rpc in
  if negb (bool_decide (outgoingReplies r = ∅)) then
    let! it := draw (outgoingReplies r) in sendReply it.1 it.2 true
  else if negb (bool_decide (outgoingRequests r = ∅)) then
    let! it := draw (outgoingRequests r) in sendRequest it.1 it.2 true
  else ret tt.

Definition requestWithId (p : IdPayload) : MS unit :=
  let! r := get_rpc in
  let! immediately :=
    (if bool_decide (outgoingRequests r = ∅) then ret true
     else let! it := map_begin (outgoingRequests r) in
          ret (barrier it.1 =? onBarrier r)) in
  if immediately then
    mod_rpc (fun r => set_outgoing (<[ip_id p := ip_payload p]> (outgoingRequests r)) r) ;;;
    clock_createRequest (ip_id p) ;;;
    sendRequest (ip_id p) (ip_payload p) false
  else
    mod_rpc (fun r => set_delayed (<[ip_id p := ip_payload p]> (delayedRequests r)) r).

Definition reply (i : RpcId) (payload : string) : MS unit :=
  let! r := get_rpc in
  match incomingRequests r !! i with
  | None => fail LogFatal
  | Some _ =>
      mod_rpc (fun r => set_incoming (delete i (incomingRequests r)) r) ;;;
      mod_rpc (fun r => set_processedRequests (lru_put i (processedRequests r)) r) ;;;
      mod_rpc (fun r => set_outReplies (<[i := payload]> (outgoingReplies r)) r) ;;;
      sendReply i payload false
  end.

(** The lowest barrier among the delayed requests. *)
Definition lowestBarrier (l : list (RpcId * string)) (first : Z) : Z :=
  foldl (fun b it => Z.min b (barrier it.1)) first l.

Definition sendDelayed (lowest : Z) (it : RpcId * string) : MS unit :=
  if barrier it.1 =? lowest then
    mod_rpc (fun r => set_outgoing (<[it.1 := it.2]> (outgoingRequests r)) r) ;;;
    clock_createRequest it.1 ;;;
    sendRequest it.1 it.2 false ;;;
    mod_rpc (fun r => set_delayed (delete it.1 (delayedRequests r)) r)
  else ret tt.

Definition tryToSendBarrier : MS unit :=
  let! r := get_rpc in
  if bool_decide (delayedRequests r = ∅) then ret tt
  else if bool_decide (outgoingRequests r = ∅) then
    let! first := map_begin (delayedRequests r) in
    let! all := walk (delayedRequests r) in
    let lowest := lowestBarrier all (barrier first.1) in
    let! l := walk (delayedRequests r) in
    for_each l (sendDelayed lowest)
  else ret tt.
End Sending.

(** The base class's versions of the overridable [addIncoming] methods. *)
Definition addIncomingRequest (p : IdPayload) : MS unit :=
  clock_receiveRequest (ip_id p) ;;;
  mod_rpc (fun r =>
    match incomingRequests r !! ip_id p with
    | Some _ => r
    | None => set_incoming (<[ip_id p := ip_payload p]> (incomingRequests r)) r
    end).

Definition addIncomingReply (i : RpcId) (payload : string) : MS unit :=
  mod_rpc (fun r =>
    match incomingReplies r !! i with
    | Some _ => r
    | None => set_inReplies (<[i := payload]> (incomingReplies r)) r
    end).

(** [validatePacket] is not virtual, so the calls in [receive] always run this
    one, whatever class the object has. *)
Definition validatePacket (i : RpcId) (payload : string) : bool := true.

Definition barrier_ : MS unit :=
  let! r := get_rpc in
  match int64 (onBarrier r + 1) with
  | Ok b => mod_rpc (set_onBarrier b)
  | Err f => fail f
  end.
Definition shutdown : MS unit := mod_rpc (set_shuttingDown true).

(** ** Methods that call overridable methods *)
Section Virtual.
Variable v_send : string -> MS unit.
Variable v_requestWithId : IdPayload -> MS unit.
Variable v_reply : RpcId -> string -> MS unit.
Variable v_sendAcknowledge : RpcId -> MS unit.
Variable v_addIncomingRequest : IdPayload -> MS unit.
Variable v_addIncomingReply : RpcId -> string -> MS unit.
Variable v_readyToSend : MS bool.

Definition request (payload : string) : MS RpcId :=
  let! cd := uuid4 in
  let! r := get_rpc in
  let uuid := mkRpcId (onBarrier r) cd in
  v_requestWithId (mkIdPayload uuid payload) ;;; ret uuid.

Definition requestOneWay (payload : string) : MS unit :=
  let! cd := uuid4 in
  let! r := get_rpc in
  let uuid := mkRpcId (onBarrier r) cd in
  mod_rpc (fun r => set_oneWay ({[uuid]} ∪ oneWayRequests r) r) ;;;
  v_requestWithId (mkIdPayload uuid payload).

Definition replyOneWay (i : RpcId) : MS unit := v_reply i "OK".

Definition sendShutdown : MS unit :=
  let! r := get_rpc in
  if shuttingDown r then ret tt else requestOneWay "SHUTDOWN".

Definition heartbeat : MS unit :=
  let! r := get_rpc in
  if negb (bool_decide (outgoingReplies r = ∅)) ||
     negb (bool_decide (outgoingRequests r = ∅)) then
    resendRandomOutgoingMessage v_send
  else
    let! ready := v_readyToSend in
    if ready && negb (shuttingDown r) then requestOneWay "PING" else ret tt.

Definition handleRequest (i : RpcId) (payload : string) : MS unit :=
  let! r := get_rpc in
  let skip := bool_decide (is_Some (incomingRequests r !! i)) ||
              lru_exists i (processedRequests r) in
  let! skip :=
    (if skip then ret true
     else match outgoingReplies r !! i with
          | Some p => sendReply v_send i p false ;;; ret true
          | None => ret false
          end) in
  if skip then ret tt
  else
    v_addIncomingRequest (mkIdPayload i payload) ;;;
    let! r := get_rpc in
    match incomingRequests r !! i with
    | Some p =>
        if bool_decide (p = "PING") then v_reply i "PONG"
        else if bool_decide (p = "SHUTDOWN") then shutdown ;;; v_reply i "SHUTDOWN_REPLY"
        else ret tt
    | None => ret tt
    end.

Definition handleReply (i : RpcId) (payload : string)
    (requestReceiveTime replySendTime : Z) : MS unit :=
  let! r := get_rpc in
  if bool_decide (is_Some (incomingReplies r !! i)) || lru_exists i (processedReplies r) then
    v_sendAcknowledge i
  else
    match outgoingRequests r !! i with
    | None => v_sendAcknowledge i
    | Some _ =>
        mod_rpc (fun r => set_outgoing (delete i (outgoingRequests r)) r) ;;;
        tryToSendBarrier v_send ;;;
        let! r := get_rpc in
        (if bool_decide (i ∈ oneWayRequests r) then
           mod_rpc (fun r => set_oneWay (oneWayRequests r ∖ {[i]}) r)
         else v_addIncomingReply i payload) ;;;
        v_sendAcknowledge i ;;;
        clock_handleReply i requestReceiveTime replySendTime
    end.

Definition handleAcknowledge (i : RpcId) : MS unit :=
  let! r := get_rpc in
  match outgoingReplies r !! i with
  | Some _ =>
      clock_eraseRequestRecieveTime i ;;;
      mod_rpc (fun r => set_outReplies (delete i (outgoingReplies r)) r)
  | None => ret tt
  end.

(** Reading from the local [MessageReader], whose state is [buffer]. *)
Definition reading_with {A} (m : M string A) (buffer : string) : MS (A * string) :=
  match m buffer with
  | Ok p => ret p
  | Err f => fail f
  end.

Variable v_handleReply : RpcId -> string -> Z -> Z -> MS unit.

(** The [while (reader.sizeRemaining())] loops.  Each turn parses at least one
    byte, so the length of the packet is enough fuel. *)
Fixpoint receiveRequests (fuel : nat) (buffer : string) : MS bool :=
  match fuel with
  | O => fail Undefined
  | S fuel' =>
      if slen buffer =? 0 then ret true
      else
        let! (i, buffer) := reading_with readClass_RpcId buffer in
        let! (payload, buffer) := reading_with readPrimitive_string buffer in
        if negb (validatePacket i payload) then ret false
        else handleRequest i payload ;;; receiveRequests fuel' buffer
  end.

Fixpoint receiveReplies (fuel : nat) (buffer : string) : MS bool :=
  match fuel with
  | O => fail Undefined
  | S fuel' =>
      if slen buffer =? 0 then ret true
      else
        let! (i, buffer) := reading_with readClass_RpcId buffer in
        let! (requestReceiveTime, buffer) := reading_with readPrimitive_i64 buffer in
        let! (replySendTime, buffer) := reading_with readPrimitive_i64 buffer in
        let! (payload, buffer) := reading_with readPrimitive_string buffer in
        if negb (validatePacket i payload) then ret false
        else
          v_handleReply i payload requestReceiveTime replySendTime ;;;
          receiveReplies fuel' buffer
  end.

Definition receive (message : string) : MS bool :=
  let! (header, buffer) := reading_with readPrimitive_u8 message in
  let! r := get_rpc in
  let! flake := (if flaky r then let! n := rand in ret (Z.rem n 100 =? 0) else ret false) in
  if flake then ret true
  else if header =? REQUEST then receiveRequests (S (String.length buffer)) buffer
  else if header =? REPLY then receiveReplies (S (String.length buffer)) buffer
  else if header =? ACKNOWLEDGE then
    let! (i, buffer) := reading_with readClass_RpcId buffer in
    let! (payload, buffer) := reading_with readPrimitive_string buffer in
    if negb (validatePacket i payload) then ret false
    else handleAcknowledge i ;;; ret true
  else fail LogFatal.
End Virtual.

(** ** Queries and the consumption of received messages *)
Definition hasIncomingRequest (r : Rpc) : bool := negb (bool_decide (incomingRequests r = ∅)).
Definition hasIncomingRequestWithId (i : RpcId) (r : Rpc) : bool :=
  bool_decide (is_Some (incomingRequests r !! i)).
Definition hasIncomingReply (r : Rpc) : bool := negb (bool_decide (incomingReplies r = ∅)).
Definition hasIncomingReplyWithId (i : RpcId) (r : Rpc) : bool :=
  bool_decide (is_Some (incomingReplies r !! i)).
Definition hasProcessedReplyWithId (i : RpcId) (r : Rpc) : bool :=
  lru_exists i (processedReplies r).
Definition isShuttingDown (r : Rpc) : bool := shuttingDown r.
Definition setFlaky (b : bool) : MS unit := mod_rpc (set_flaky b).

Definition getFirstIncomingRequest : MS IdPayload :=
  let! r := get_rpc in
  if negb (hasIncomingRequest r) then fail LogFatal
  else let! it := map_begin (incomingRequests r) in ret (mkIdPayload it.1 it.2).

Definition getFirstIncomingReply : MS IdPayload :=
  let! r := get_rpc in
  if negb (hasIncomingReply r) then fail LogFatal
  else
    let! it := map_begin (incomingReplies r) in
    mod_rpc (fun r => set_processedReplies (lru_put it.1 (processedReplies r)) r) ;;;
    mod_rpc (fun r => set_inReplies (delete it.1 (incomingReplies r)) r) ;;;
    ret (mkIdPayload it.1 it.2).

Definition consumeIncomingReplyWithId (i : RpcId) : MS string :=
  let! r := get_rpc in
  match incomingReplies r !! i with
  | None => fail LogFatal
  | Some payload =>
      mod_rpc (fun r => set_processedReplies (lru_put i (processedReplies r)) r) ;;;
      mod_rpc (fun r => set_inReplies (delete i (incomingReplies r)) r) ;;;
      ret payload
  end.

(** A map with an element whose payload is not empty. *)
Definition some_nonempty (m : gmap RpcId string) : bool :=
  existsb (fun p => negb (slen p.2 =? 0)) (map_to_list m).
Definition hasWork (r : Rpc) : bool :=
  some_nonempty (delayedRequests r) || some_nonempty (outgoingRequests r) ||
  some_nonempty (incomingRequests r) || some_nonempty (incomingReplies r).

Definition getLatency (r : Rpc) : outcome (double * double) :=
  let? u := getHalfPingUpperBound (clockSynchronizer r) in
  Ok (d_div (getPing (clockSynchronizer r)) (d_of_Z 2), u).
Definition rpc_getHalfPingUpperBound (r : Rpc) : outcome double :=
  getHalfPingUpperBound (clockSynchronizer r).
End BiDirectionalRpc.

(** ** [initTimeShift]

    Twenty pings, each waited for while other threads run.  The handler is one of the
    objects of a larger state, in which [run] calls its methods. *)
Section InitTimeShift.
Context `{LruCache} {X : Type} `{Oracle} {T : Type}.
Variable run : forall A, M (St X) A -> M T A.
Variable v_requestWithId : IdPayload -> M (St X) unit.

Definition ping_answered (reqId : RpcId) : M T (option unit) :=
  let! r := run _ get_rpc in
  ret (if hasIncomingReplyWithId reqId r || hasProcessedReplyWithId reqId r then Some tt else None).

(** [pings] more to go. *)
Fixpoint initTimeShift (pings : nat) (others : list (M T unit)) :
    M T (option unit * list (M T unit)) :=
  match pings with
  | O => ret (Some tt, others)
  | S pings' =>
      let! reqId := run _ (request v_requestWithId "PING") in
      let! (done, others) := wait_loop (ping_answered reqId) others in
      match done with
      | None => ret (None, others)
      | Some _ => initTimeShift pings' others
      end
  end.
End InitTimeShift.
