(* ===== verification/RpcVirtuals.v ===== *)
(** * RpcVirtuals

    The overridable methods of [wga::BiDirectionalRpc] as an interface, what the
    base class relies on in them ([RpcVirtualsLaws]), the calls a program makes
    on a handler, the states those calls reach, and the barrier invariant: a
    request issued after [barrier()] is never in flight together with one issued
    before it. *)
From S2P Require Import Prelude.
From S2P Require Import StdMap.
From S2P Require Import RpcId.
From S2P Require Import Message.
From S2P Require Import Estimators.
From S2P Require Import TimeHandler.
From S2P Require Import ClockSynchronizer.
From S2P Require Import RpcState.
From S2P Require Import Instances.
From S2P Require Import BiDirectionalRpc.

(** Run one primitive step recorded in [H]. *)
Ltac run H :=
  unfold get_rpc, get_sub, mod_rpc, mod_sub, gets, modify, ret in H; cbv beta in H;
  first [ discriminate H
        | injection H; clear H;
          repeat (let E := fresh in intros E;
                  match type of E with ?a = ?b => first [subst b | subst a | idtac] end) ].

(** ** What a computation leaves alone *)
Section Frames.
Context `{LruCache} {X : Type} `{Oracle} `{Msgpack}.
Implicit Types (s : St X).

(** [m] does not change what [f] sees of the handler. *)
Definition keeps {T A : Type} (f : Rpc -> T) (m : M (St X) A) : Prop :=
  forall s a s', m s = Ok (a, s') -> f (rpc s') = f (rpc s).

Lemma keeps_ret {T A} (f : Rpc -> T) (a : A) : keeps f (ret a).
Proof using. intros s x s' E. by msteps. Qed.
Lemma keeps_fail {T A} (f : Rpc -> T) e : keeps f (@fail (St X) A e).
Proof using. by intros s x s'. Qed.
Lemma keeps_bind {T A B} (f : Rpc -> T) (m : M (St X) A) (k : A -> M (St X) B) :
  keeps f m -> (forall a, keeps f (k a)) -> keeps f (bind m k).
Proof using.
  intros Hm Hk s b s' (a & s1 & E1 & E2)%bind_ok.
  rewrite (Hk _ _ _ _ E2). by apply (Hm _ _ _ E1).
Qed.
Lemma keeps_get_rpc {T} (f : Rpc -> T) : keeps f get_rpc.
Proof using. intros s x s' E. unfold get_rpc in E. by msteps. Qed.
Lemma keeps_get_sub {T} (f : Rpc -> T) : keeps f get_sub.
Proof using. intros s x s' E. unfold get_sub in E. by msteps. Qed.
Lemma keeps_mod_sub {T} (f : Rpc -> T) g : keeps f (mod_sub g).
Proof using. intros s x s' E. unfold mod_sub in E. by msteps. Qed.
Lemma keeps_read_world {T A} (f : Rpc -> T) (g : World -> A * World) :
  keeps f (read_world g : M (St X) A).
Proof using. intros s x s' E. unfold read_world in E. destruct (g _). by msteps. Qed.
Lemma keeps_mod_rpc {T} (f : Rpc -> T) g :
  (forall r, f (g r) = f r) -> keeps f (mod_rpc g : M (St X) unit).
Proof using. intros Hg s x s' E. run E. apply Hg. Qed.
Lemma keeps_if {T A} (f : Rpc -> T) (b : bool) (m1 m2 : M (St X) A) :
  keeps f m1 -> keeps f m2 -> keeps f (if b then m1 else m2).
Proof using. by destruct b. Qed.
Lemma keeps_id {T A} (f : Rpc -> T) (m : M (St X) A) : keeps (fun r => r) m -> keeps f m.
Proof using. intros Hm s a s' E. by rewrite (Hm _ _ _ E). Qed.
Lemma keeps_for_each {T A} (f : Rpc -> T) (l : list A) (body : A -> M (St X) unit) :
  (forall x, keeps f (body x)) -> keeps f (for_each l body).
Proof using.
  intros Hb. induction l as [|x l IH]; [apply keeps_ret|]. simpl.
  apply keeps_bind; [apply Hb|]. intros _. exact IH.
Qed.

Lemma keeps_stamp {T} (f : Rpc -> T) : keeps f stamp.
Proof using. apply keeps_read_world. Qed.
Lemma keeps_uuid4 {T} (f : Rpc -> T) : keeps f uuid4.
Proof using. apply keeps_read_world. Qed.
Lemma keeps_rand {T} (f : Rpc -> T) : keeps f rand.
Proof using. apply keeps_read_world. Qed.
Lemma keeps_walk {T} (f : Rpc -> T) m : keeps f (walk m).
Proof using. apply keeps_read_world. Qed.
Lemma keeps_map_begin {T} (f : Rpc -> T) m : keeps f (map_begin m).
Proof using.
  apply keeps_bind; [apply keeps_walk|]. intros [|]; [apply keeps_fail|apply keeps_ret].
Qed.
Lemma keeps_draw {T} (f : Rpc -> T) m : keeps f (draw m).
Proof using.
  apply keeps_bind; [apply keeps_walk|]. intros l.
  apply keeps_bind; [apply keeps_read_world|]. intros r.
  destruct (l !! _); [apply keeps_ret|apply keeps_fail].
Qed.
Lemma keeps_getReplyDuration {T} (f : Rpc -> T) i : keeps f (clock_getReplyDuration i).
Proof using.
  apply keeps_bind; [apply keeps_stamp|]. intros now.
  apply keeps_bind; [apply keeps_get_rpc|]. intros r.
  destruct (getReplyDuration _ _ _); [apply keeps_ret|apply keeps_fail].
Qed.
End Frames.

Create HintDb keeps.
#[export] Hint Resolve keeps_ret keeps_fail keeps_bind keeps_get_rpc keeps_get_sub keeps_mod_sub
  keeps_read_world keeps_if keeps_for_each keeps_stamp keeps_uuid4 keeps_rand keeps_walk keeps_map_begin keeps_draw
  keeps_getReplyDuration : keeps.
#[export] Hint Extern 1 (keeps _ (mod_rpc _)) => apply keeps_mod_rpc; intros; try done : keeps.

(** Decompose a frame goal along the structure of the computation. *)
Ltac keeps_tac :=
  repeat first
    [ progress intros
    | match goal with
      | |- keeps _ (bind _ _) => apply keeps_bind
      | |- keeps _ (for_each _ _) => apply keeps_for_each
      | |- keeps _ (if ?b then _ else _) => apply keeps_if
      | |- keeps _ (match ?x with _ => _ end) => destruct x
      | |- keeps _ (mod_rpc _) => apply keeps_mod_rpc; intros; try done
      end
    | solve [eauto 3 with keeps] ].

Section SendingFrames.
Context `{LruCache} {X : Type} `{Oracle} `{Msgpack}.
Variable v_send : string -> M (St X) unit.
Hypothesis v_send_keeps : forall m, keeps (fun r => r) (v_send m).

Lemma keeps_v_send {T} (f : Rpc -> T) m : keeps f (v_send m).
Proof using v_send_keeps. apply keeps_id, v_send_keeps. Qed.
#[local] Hint Resolve keeps_v_send : keeps.

Lemma keeps_batchRequests {T} (f : Rpc -> T) n sent w :
  keeps f (batchRequests (X := X) n sent w).
Proof using. revert sent w. induction n; simpl; keeps_tac. Qed.
Lemma keeps_writeReply {T} (f : Rpc -> T) i p w : keeps f (writeReply (X := X) i p w).
Proof using. unfold writeReply. keeps_tac. Qed.
#[local] Hint Resolve keeps_batchRequests keeps_writeReply : keeps.
Lemma keeps_batchReplies {T} (f : Rpc -> T) n sent w :
  keeps f (batchReplies (X := X) n sent w).
Proof using. revert sent w. induction n; simpl; keeps_tac. Qed.
#[local] Hint Resolve keeps_batchReplies : keeps.

(** Sending never changes the handler's own fields. *)
Lemma keeps_sendRequest {T} (f : Rpc -> T) i p b : keeps f (sendRequest v_send i p b).
Proof using v_send_keeps. unfold sendRequest. keeps_tac. Qed.
Lemma keeps_sendReply {T} (f : Rpc -> T) i p b : keeps f (sendReply v_send i p b).
Proof using v_send_keeps. unfold sendReply. keeps_tac. Qed.
Lemma keeps_sendAcknowledge {T} (f : Rpc -> T) i : keeps f (sendAcknowledge v_send i).
Proof using v_send_keeps. unfold sendAcknowledge. keeps_tac. Qed.
#[local] Hint Resolve keeps_sendRequest keeps_sendReply keeps_sendAcknowledge : keeps.
Lemma keeps_resend {T} (f : Rpc -> T) : keeps f (resendRandomOutgoingMessage v_send).
Proof using v_send_keeps. unfold resendRandomOutgoingMessage. keeps_tac. Qed.
End SendingFrames.
#[export] Hint Resolve keeps_sendRequest keeps_sendReply keeps_sendAcknowledge keeps_resend : keeps.

(** ** The barrier invariant *)
Section Barrier.
Context `{LruCache} {X : Type} `{Oracle} {OL : OracleLaws} `{Msgpack}.
Implicit Types (s : St X) (r : Rpc) (i : RpcId).

Definition req_part (r : Rpc) : gmap RpcId string * gmap RpcId string * Z :=
  (delayedRequests r, outgoingRequests r, onBarrier r).

Record barrier_inv (r : Rpc) : Prop := {
  (** requests in flight belong to one barrier *)
  bi_same : forall a b, is_Some (outgoingRequests r !! a) -> is_Some (outgoingRequests r !! b) ->
    barrier a = barrier b;
  (** something is delayed only behind something in flight *)
  bi_empty : outgoingRequests r = ∅ -> delayedRequests r = ∅;
  (** what is delayed belongs to a later barrier *)
  bi_order : forall a d, is_Some (outgoingRequests r !! a) -> is_Some (delayedRequests r !! d) ->
    barrier a < barrier d;
  bi_le : forall a, is_Some (outgoingRequests r !! a) \/ is_Some (delayedRequests r !! a) ->
    barrier a <= onBarrier r
}.

Lemma barrier_inv_part r r' : req_part r' = req_part r -> barrier_inv r -> barrier_inv r'.
Proof using.
  unfold req_part. intros [= E1 E2 E3] []. constructor; rewrite ?E1, ?E2, ?E3; eauto.
Qed.

(** What holds whatever ids are handed in: nothing is held back while nothing is in
    flight. *)
Definition nothing_stranded (r : Rpc) : Prop :=
  outgoingRequests r = ∅ -> delayedRequests r = ∅.
(** Both: the second half when no id of another handler's barrier is handed in. *)
Definition rpc_inv (foreign : bool) (r : Rpc) : Prop :=
  nothing_stranded r /\ (foreign = false -> barrier_inv r).

Lemma rpc_inv_part foreign r r' : req_part r' = req_part r -> rpc_inv foreign r -> rpc_inv foreign r'.
Proof using.
  unfold rpc_inv, nothing_stranded. intros E [Hn Hb]. split.
  - unfold req_part in E. injection E as -> -> _. done.
  - intros Hf. eapply barrier_inv_part; [exact E|auto].
Qed.
Lemma rpc_inv_keeps {A} foreign (m : M (St X) A) s a s' :
  keeps req_part m -> m s = Ok (a, s') -> rpc_inv foreign (rpc s) -> rpc_inv foreign (rpc s').
Proof using. intros Hk E. apply rpc_inv_part. by apply (Hk s a). Qed.

Lemma barrier_inv_keeps {A} (m : M (St X) A) s a s' :
  keeps req_part m -> m s = Ok (a, s') -> barrier_inv (rpc s) -> barrier_inv (rpc s').
Proof using. intros Hk E. apply barrier_inv_part. by apply (Hk s a). Qed.

Lemma barrier_inv_init b h : barrier_inv (Rpc_init b h).
Proof using.
  constructor; simpl; try done; intros; rewrite ?lookup_empty in *;
    repeat match goal with
           | H : is_Some None |- _ => by destruct H
           | H : _ \/ _ |- _ => destruct H
           end.
Qed.

Lemma map_begin_elem (m : gmap RpcId string) s it s' :
  map_begin m s = Ok (it, s') -> m !! it.1 = Some it.2.
Proof using OL.
  unfold map_begin. intros (l & s1 & E & E2)%bind_ok.
  unfold walk, read_world, reading in E. simpl in E. injection E as <- <-.
  pose proof (o_order_perm _ _ (tick (world s)) m) as Hp.
  destruct (o_order _ m) as [|[k v] l]; run E2. apply elem_of_map_to_list.
  rewrite <- Hp. left.
Qed.

Lemma walk_elem (m : gmap RpcId string) s l s' it :
  walk m s = Ok (l, s') -> it ∈ l <-> m !! it.1 = Some it.2.
Proof using OL.
  unfold walk, read_world, reading. simpl. intros [= <- _].
  rewrite (o_order_perm _ _ (tick (world s)) m). destruct it. apply elem_of_map_to_list.
Qed.

Section WithSend.
Variable v_send : string -> M (St X) unit.
Hypothesis v_send_keeps : forall m, keeps (fun r => r) (v_send m).
#[local] Hint Resolve v_send_keeps : keeps.

Lemma keeps_clock_createRequest i : keeps req_part (clock_createRequest (X := X) i).
Proof using.
  unfold clock_createRequest. keeps_tac.
Qed.

Lemma requestWithId_barrier p s s' :
  barrier (ip_id p) = onBarrier (rpc s) -> barrier_inv (rpc s) ->
  requestWithId v_send p s = Ok (tt, s') -> barrier_inv (rpc s').
Proof using OL v_send_keeps.
  intros Hb Hinv E. unfold requestWithId in E.
  apply bind_ok in E as (r & s1 & E1 & E). run E1.
  apply bind_ok in E as (imm & s2 & E1 & E).
  assert (rpc s2 = rpc s) as Er.
  { revert E1. apply (keeps_if (fun r => r)); keeps_tac. }
  destruct imm.
  - apply bind_ok in E as ([] & s3 & E3 & E). run E3.
    apply bind_ok in E as ([] & s4 & E4 & E5).
    apply (barrier_inv_keeps _ _ _ _ (keeps_sendRequest v_send v_send_keeps req_part _ _ _) E5).
    apply (barrier_inv_keeps _ _ _ _ (keeps_clock_createRequest _) E4).
    simpl. rewrite Er. destruct Hinv as [Hsame Hempty Horder Hle].
    assert (forall a, is_Some (<[ip_id p:=ip_payload p]> (outgoingRequests (rpc s)) !! a) ->
      barrier a = onBarrier (rpc s)) as Hall.
    { intros a. rewrite lookup_insert. destruct (decide (_ = a)) as [Ha|Ha]; [intros _; by rewrite <- Ha|].
      intros Hsome. case_bool_decide as Hemp.
      - rewrite Hemp, lookup_empty in Hsome. by destruct Hsome.
      - apply bind_ok in E1 as (it & s5 & E1 & E2). run E2.
        apply map_begin_elem in E1. rewrite (Hsame a it.1) by eauto. lia. }
    constructor; simpl.
    + intros a b Ha Hb'. by rewrite (Hall a), (Hall b).
    + intros He. by apply insert_non_empty in He.
    + intros a d Ha Hd. rewrite (Hall a) by done. exfalso.
      case_bool_decide as Hemp.
      * rewrite (Hempty Hemp), lookup_empty in Hd. by destruct Hd.
      * apply bind_ok in E1 as (it & s5 & E1 & E2). run E2. apply map_begin_elem in E1.
        assert (barrier it.1 < barrier d) by eauto.
        assert (barrier d <= onBarrier (rpc s)) by eauto. lia.
    + intros a [Ha|Ha]; [by rewrite (Hall a)|eauto].
  - run E. simpl. rewrite Er.
    case_bool_decide as Hemp; [run E1|].
    apply bind_ok in E1 as (it & s5 & E1 & E2). run E2. apply map_begin_elem in E1.
    destruct Hinv as [Hsame Hempty Horder Hle].
    assert (barrier it.1 <= onBarrier (rpc s)) by eauto.
    constructor; simpl; [done|done| |].
    + intros a d Ha. rewrite lookup_insert. case_decide as Hd; [|eauto]. intros _.
      rewrite <- Hd, Hb, (Hsame a it.1) by eauto. lia.
    + intros a [Ha|Ha]; [eauto|]. revert Ha. rewrite lookup_insert.
      case_decide as Hd; [intros _; subst; lia|eauto].
Qed.

(** The two branches: the request goes out, or it waits behind one in flight. *)
Lemma requestWithId_stranded p s s' :
  nothing_stranded (rpc s) -> requestWithId v_send p s = Ok (tt, s') -> nothing_stranded (rpc s').
Proof using OL v_send_keeps.
  intros Hn E He. unfold requestWithId in E.
  apply bind_ok in E as (r & s1 & E1 & E). run E1.
  apply bind_ok in E as (imm & s2 & E1 & E).
  assert (rpc s2 = rpc s) as Er.
  { revert E1. apply (keeps_if (fun r => r)); keeps_tac. }
  destruct imm; exfalso.
  - apply bind_ok in E as ([] & s3 & E3 & E). run E3.
    apply bind_ok in E as ([] & s4 & E4 & E5).
    pose proof (keeps_sendRequest v_send v_send_keeps req_part _ _ _ _ _ _ E5) as K1.
    pose proof (keeps_clock_createRequest _ _ _ _ E4) as K2. rewrite K2 in K1.
    unfold req_part in K1. injection K1 as _ K1 _. rewrite He in K1.
    by apply (insert_non_empty (outgoingRequests (rpc s2)) (ip_id p) (ip_payload p)).
  - run E. simpl in He. rewrite Er in He. rewrite bool_decide_true in E1 by done. by run E1.
Qed.
Lemma requestWithId_inv foreign p s s' :
  (foreign = false -> barrier (ip_id p) = onBarrier (rpc s)) -> rpc_inv foreign (rpc s) ->
  requestWithId v_send p s = Ok (tt, s') -> rpc_inv foreign (rpc s').
Proof using OL v_send_keeps.
  intros Hb [Hn Hi] E. split; [by eapply requestWithId_stranded|].
  intros Hf. eapply requestWithId_barrier; eauto.
Qed.

Lemma lowestBarrier_spec l first :
  lowestBarrier l first <= first /\
  (forall it, it ∈ l -> lowestBarrier l first <= barrier it.1) /\
  (lowestBarrier l first = first \/
   exists it, it ∈ l /\ lowestBarrier l first = barrier it.1).
Proof using.
  revert first. induction l as [|x l IH]; intros first; simpl.
  - split; [done|]. split; [by intros it ?%elem_of_nil|by left].
  - destruct (IH (Z.min first (barrier x.1))) as (L1 & L2 & L3). unfold lowestBarrier in *.
    simpl. split; [lia|]. split.
    + intros it [->|Hit]%elem_of_cons; [lia|auto].
    + destruct L3 as [L3|(it & Hit & L3)]; [|right; exists it; split; [by right|done]].
      rewrite L3. destruct (Z.min_spec first (barrier x.1)) as [[_ ->]|[_ ->]]; [by left|].
      right. exists x. split; [left|done].
Qed.

(** The state during the loop that releases the delayed requests of the
    lowest barrier, with [l] still to visit. *)
Record releasing (lowest : Z) (l : list (RpcId * string)) (r : Rpc) : Prop := {
  rl_out : forall a, is_Some (outgoingRequests r !! a) -> barrier a = lowest;
  rl_del : forall d, is_Some (delayedRequests r !! d) -> lowest <= barrier d <= onBarrier r;
  rl_left : forall d, is_Some (delayedRequests r !! d) -> barrier d = lowest -> d ∈ l.*1;
  rl_low : lowest <= onBarrier r;
  rl_some : outgoingRequests r <> ∅ \/ exists it, it ∈ l /\ barrier it.1 = lowest
}.

Lemma releasing_part lowest l r r' :
  req_part r' = req_part r -> releasing lowest l r -> releasing lowest l r'.
Proof using.
  unfold req_part. intros [= E1 E2 E3] []. constructor; rewrite ?E1, ?E2, ?E3; eauto.
Qed.

Lemma releasing_loop lowest l s s' :
  releasing lowest l (rpc s) -> for_each l (sendDelayed v_send lowest) s = Ok (tt, s') ->
  releasing lowest [] (rpc s').
Proof using v_send_keeps.
  revert s. induction l as [|it l IH]; intros s Hr E; simpl in E; [by run E|].
  apply bind_ok in E as ([] & s1 & E1 & E2). eapply IH; [|exact E2]. clear IH E2.
  unfold sendDelayed in E1. destruct Hr as [Ho Hd Hl Hlow Hs].
  destruct (Z.eqb_spec (barrier it.1) lowest) as [Hb|Hb].
  - apply bind_ok in E1 as ([] & s2 & E2 & E1). run E2.
    apply bind_ok in E1 as ([] & s3 & E3 & E1).
    apply bind_ok in E1 as ([] & s4 & E4 & E1).
    run E1.
    pose proof (keeps_sendRequest v_send v_send_keeps req_part _ _ _ _ _ _ E4) as K1.
    pose proof (keeps_clock_createRequest _ _ _ _ E3) as K2. rewrite K2 in K1.
    unfold req_part in K1. simpl in K1. injection K1 as K1a K1b K1c.
    constructor; simpl; rewrite ?K1a, ?K1b, ?K1c.
    + intros a. rewrite lookup_insert. case_decide; [intros _; by subst|auto].
    + intros d. rewrite lookup_delete. case_decide; [by intros []|auto].
    + intros d. rewrite lookup_delete. case_decide as Hne; [by intros []|]. intros Hx Hy.
      specialize (Hl d Hx Hy). rewrite fmap_cons, elem_of_cons in Hl.
      destruct Hl as [->|]; done.
    + done.
    + left. apply insert_non_empty.
  - run E1. constructor; try done.
    + intros d Hx Hy. specialize (Hl d Hx Hy). rewrite fmap_cons, elem_of_cons in Hl.
      destruct Hl as [->|]; done.
    + destruct Hs as [|(it' & Hit & Hb')]; [by left|]. right.
      apply elem_of_cons in Hit as [->|]; [done|eauto].
Qed.

Lemma tryToSendBarrier_barrier s s' :
  (outgoingRequests (rpc s) <> ∅ -> barrier_inv (rpc s)) ->
  (forall d, is_Some (delayedRequests (rpc s) !! d) -> barrier d <= onBarrier (rpc s)) ->
  tryToSendBarrier v_send s = Ok (tt, s') -> barrier_inv (rpc s').
Proof using OL v_send_keeps.
  intros Hinv Hle E. unfold tryToSendBarrier in E.
  apply bind_ok in E as (r & s1 & E1 & E). run E1.
  case_bool_decide as Hd.
  - run E. destruct (decide (outgoingRequests (rpc s) = ∅)) as [Ho|Ho]; [|auto].
    constructor; rewrite ?Ho, ?Hd; intros; try done;
      repeat match goal with H : _ \/ _ |- _ => destruct H | H : is_Some _ |- _ =>
        rewrite lookup_empty in H; by destruct H end.
  - case_bool_decide as Ho; [|run E; auto].
    apply bind_ok in E as (first & s2 & E1 & E).
    apply bind_ok in E as (all & s3 & E2 & E). apply bind_ok in E as (l & s4 & E3 & E).
    pose proof (keeps_map_begin (fun r => r) _ _ _ _ E1) as K1. simpl in K1.
    pose proof (keeps_walk (fun r => r) _ _ _ _ E2) as K2. simpl in K2.
    pose proof (keeps_walk (fun r => r) _ _ _ _ E3) as K3. simpl in K3.
    apply map_begin_elem in E1.
    destruct (lowestBarrier_spec all (barrier first.1)) as (L1 & L2 & L3).
    set (lowest := lowestBarrier all (barrier first.1)) in *.
    assert (exists it, it ∈ all /\ barrier it.1 = lowest) as (it & Hit & Hlow).
    { destruct L3 as [L3|(it & ? & L3)]; [|eauto]. exists first. split; [|done].
      by apply (walk_elem _ _ _ _ _ E2). }
    assert (releasing lowest l (rpc s4)) as Hr.
    { rewrite K3, K2, K1. constructor.
      - intros a Ha. rewrite Ho, lookup_empty in Ha. by destruct Ha.
      - intros d [v Hv]. split; [|eauto]. apply (L2 (d, v)).
        by apply (walk_elem _ _ _ _ (d, v) E2).
      - intros d [v Hv] _. apply list_elem_of_fmap. exists (d, v). split; [done|].
        by apply (walk_elem _ _ _ _ (d, v) E3).
      - transitivity (barrier first.1); [done|]. apply Hle. eauto.
      - right. exists it. split; [|done]. apply (walk_elem _ _ _ _ _ E3).
        by apply (walk_elem _ _ _ _ _ E2). }
    pose proof (releasing_loop lowest l s4 s' Hr E) as [Go Gd Gl Glow Gs].
    constructor.
    + intros a b Ha Hb. by rewrite (Go a), (Go b).
    + intros He. destruct Gs as [|(? & ?%elem_of_nil & _)]; done.
    + intros a d Ha Hdl. rewrite (Go a) by done. specialize (Gd d Hdl).
      destruct (decide (barrier d = lowest)) as [Hb|]; [|lia].
      specialize (Gl d Hdl Hb). by apply elem_of_nil in Gl.
    + intros a [Ha|Ha]; [by rewrite (Go a)|by apply Gd].
Qed.

(** Releasing the delayed requests of a barrier puts at least one in flight. *)
Lemma sendDelayed_out lowest it s s' :
  sendDelayed v_send lowest it s = Ok (tt, s') ->
  outgoingRequests (rpc s) <> ∅ \/ barrier it.1 = lowest -> outgoingRequests (rpc s') <> ∅.
Proof using v_send_keeps.
  unfold sendDelayed. intros E Ho He. destruct (Z.eqb_spec (barrier it.1) lowest) as [Hb|Hb].
  - apply bind_ok in E as ([] & s1 & E1 & E). run E1. apply bind_ok in E as ([] & s2 & E2 & E).
    apply bind_ok in E as ([] & s3 & E3 & E). run E. simpl in He.
    pose proof (keeps_sendRequest v_send v_send_keeps req_part _ _ _ _ _ _ E3) as K1.
    pose proof (keeps_clock_createRequest _ _ _ _ E2) as K2. rewrite K2 in K1.
    unfold req_part in K1. injection K1 as _ K1 _. rewrite K1 in He. by apply insert_non_empty in He.
  - run E. by destruct Ho.
Qed.
Lemma released_out lowest l s s' :
  for_each l (sendDelayed v_send lowest) s = Ok (tt, s') ->
  outgoingRequests (rpc s) <> ∅ \/ (exists it, it ∈ l /\ barrier it.1 = lowest) ->
  outgoingRequests (rpc s') <> ∅.
Proof using v_send_keeps.
  revert s. induction l as [|it l IH]; intros s E Ho; simpl in E.
  - destruct Ho as [Ho|(it & ?%elem_of_nil & _)]; [|done]. intros He. by run E.
  - apply bind_ok in E as ([] & s1 & E1 & E2). eapply IH; [exact E2|].
    pose proof (sendDelayed_out _ _ _ _ E1) as Hd.
    destruct Ho as [Ho|(it' & Hit & Hb)]; [left; apply Hd; by left|].
    apply elem_of_cons in Hit as [->|Hit]; [left; apply Hd; by right|right; by exists it'].
Qed.
Lemma tryToSendBarrier_stranded s s' :
  tryToSendBarrier v_send s = Ok (tt, s') -> nothing_stranded (rpc s').
Proof using OL v_send_keeps.
  intros E He. unfold tryToSendBarrier in E. apply bind_ok in E as (r & s1 & E1 & E). run E1.
  case_bool_decide as Hd; [by run E|]. case_bool_decide as Ho; [|by run E].
  apply bind_ok in E as (first & s2 & E1 & E).
  apply bind_ok in E as (all & s3 & E2 & E). apply bind_ok in E as (l & s4 & E3 & E).
  apply map_begin_elem in E1. destruct (lowestBarrier_spec all (barrier first.1)) as (_ & _ & L3).
  exfalso. revert He. eapply released_out; [exact E|]. right.
  destruct L3 as [L3|(it & Hit & L3)]; [exists first|exists it].
  - split; [|done]. by apply (walk_elem _ _ _ _ _ E3).
  - split; [|done]. apply (walk_elem _ _ _ _ _ E3). by apply (walk_elem _ _ _ _ _ E2).
Qed.
End WithSend.
End Barrier.

(** ** The overridable methods *)
Section Interface.
Context `{LruCache} {X : Type} `{Oracle} `{Msgpack}.

Record RpcVirtuals : Type := mkVirtuals {
  v_send : string -> M (St X) unit;
  v_requestWithId : IdPayload -> M (St X) unit;
  v_reply : RpcId -> string -> M (St X) unit;
  v_sendAcknowledge : RpcId -> M (St X) unit;
  v_addIncomingRequest : IdPayload -> M (St X) unit;
  v_addIncomingReply : RpcId -> string -> M (St X) unit;
  v_readyToSend : M (St X) bool;
  v_handleReply : RpcId -> string -> Z -> Z -> M (St X) unit
}.

(** The base class's own versions, around a [send] of the derived class. *)
Definition base_virtuals (send : string -> M (St X) unit) : RpcVirtuals := {|
  v_send := send;
  v_requestWithId := requestWithId send;
  v_reply := reply send;
  v_sendAcknowledge := sendAcknowledge send;
  v_addIncomingRequest := addIncomingRequest;
  v_addIncomingReply := addIncomingReply;
  v_readyToSend := ret true;
  v_handleReply := handleReply send (sendAcknowledge send) addIncomingReply
|}.

(** What [BiDirectionalRpc] relies on in its derived classes. *)
Class RpcVirtualsLaws (V : RpcVirtuals) : Prop := {
  vl_send : forall m, keeps (fun r => r) (v_send V m);
  vl_requestWithId : forall foreign p s s',
    (foreign = false -> barrier (ip_id p) = onBarrier (rpc s)) -> rpc_inv foreign (rpc s) ->
    v_requestWithId V p s = Ok (tt, s') -> rpc_inv foreign (rpc s');
  vl_reply : forall i p, keeps req_part (v_reply V i p);
  vl_sendAcknowledge : forall i, keeps req_part (v_sendAcknowledge V i);
  vl_addIncomingRequest : forall p, keeps req_part (v_addIncomingRequest V p);
  vl_addIncomingReply : forall i p, keeps req_part (v_addIncomingReply V i p);
  vl_readyToSend : keeps (fun r => r) (v_readyToSend V);
  vl_handleReply : forall foreign i p t1 t2 s s',
    rpc_inv foreign (rpc s) -> v_handleReply V i p t1 t2 s = Ok (tt, s') -> rpc_inv foreign (rpc s')
}.

(** The methods of the base class with the virtual calls resolved. *)
Variable V : RpcVirtuals.
Definition do_requestOneWay := requestOneWay (v_requestWithId V).
Definition do_handleRequest := handleRequest (v_send V) (v_reply V) (v_addIncomingRequest V).
Definition do_receive := receive (v_send V) (v_reply V) (v_addIncomingRequest V) (v_handleReply V).

(** The public calls that change the handler. *)
Inductive rpc_call : Type :=
  | CallRequest (payload : string)
  | CallRequestOneWay (payload : string)
  | CallReply (i : RpcId) (payload : string)
  | CallReplyOneWay (i : RpcId)
  | CallBarrier
  | CallShutdown
  | CallSendShutdown
  | CallHeartbeat
  | CallResend
  | CallReceive (message : string)
  | CallGetFirstIncomingReply
  | CallConsumeIncomingReplyWithId (i : RpcId)
  | CallSetFlaky (b : bool).

Definition run_call (c : rpc_call) : M (St X) unit :=
  match c with
  | CallRequest p => let! _ := request (v_requestWithId V) p in ret tt
  | CallRequestOneWay p => do_requestOneWay p
  | CallReply i p => v_reply V i p
  | CallReplyOneWay i => replyOneWay (v_reply V) i
  | CallBarrier => barrier_
  | CallShutdown => shutdown
  | CallSendShutdown => sendShutdown (v_requestWithId V)
  | CallHeartbeat => heartbeat (v_send V) (v_requestWithId V) (v_readyToSend V)
  | CallResend => resendRandomOutgoingMessage (v_send V)
  | CallReceive m => let! _ := do_receive m in ret tt
  | CallGetFirstIncomingReply => let! _ := getFirstIncomingReply in ret tt
  | CallConsumeIncomingReplyWithId i => let! _ := consumeIncomingReplyWithId i in ret tt
  | CallSetFlaky b => setFlaky b
  end.

(** The states of one handler: calls run to completion (they hold the mutex),
    and between them the derived class and the rest of the process may change
    what is theirs.  [requestWithId] is public too and takes an id: [foreign] says whether
    ids come in that carry another barrier than the handler's own. *)
Inductive reachable (foreign : bool) : St X -> Prop :=
  | reach_init : forall flaky toHost x w, reachable foreign (mkSt (Rpc_init flaky toHost) x w)
  | reach_call : forall c s s', reachable foreign s -> run_call c s = Ok (tt, s') ->
      reachable foreign s'
  | reach_requestWithId : forall p s s', reachable foreign s ->
      (foreign = false -> barrier (ip_id p) = onBarrier (rpc s)) ->
      v_requestWithId V p s = Ok (tt, s') -> reachable foreign s'
  | reach_other : forall s x w, reachable foreign s -> reachable foreign (mkSt (rpc s) x w).
End Interface.
Arguments RpcVirtuals {_} X.

Section BarrierTheorem.
Context `{LruCache} {X : Type} `{Oracle} {OL : OracleLaws} `{Msgpack}.
Context (V : RpcVirtuals X) {VL : RpcVirtualsLaws V}.
Implicit Types (s : St X).
#[local] Hint Resolve vl_send vl_reply vl_sendAcknowledge vl_addIncomingRequest
  vl_addIncomingReply vl_readyToSend : keeps.

Lemma keeps_readyToSend {T} (f : Rpc -> T) : keeps f (v_readyToSend V).
Proof using VL. apply keeps_id, vl_readyToSend. Qed.
#[local] Hint Resolve keeps_readyToSend : keeps.

Variable foreign : bool.

(** [m] preserves the invariant. *)
Definition preserves {A} (m : M (St X) A) : Prop :=
  forall s a s', rpc_inv foreign (rpc s) -> m s = Ok (a, s') -> rpc_inv foreign (rpc s').

Lemma preserves_keeps {A} (m : M (St X) A) : keeps req_part m -> preserves m.
Proof using. intros Hk s a s' Hi E. by apply (rpc_inv_keeps foreign m s a s'). Qed.
Lemma preserves_bind {A B} (m : M (St X) A) (k : A -> M (St X) B) :
  preserves m -> (forall a, preserves (k a)) -> preserves (bind m k).
Proof using.
  intros Hm Hk s b s' Hi (a & s1 & E1 & E2)%bind_ok. eapply Hk; [|exact E2]. eapply Hm; eauto.
Qed.

Ltac pres := repeat first
  [ apply preserves_keeps; solve [keeps_tac]
  | match goal with
    | |- preserves (bind _ _) => apply preserves_bind; [|intros]
    | |- preserves (if ?b then _ else _) => destruct b
    | |- preserves (match ?x with _ => _ end) => destruct x
    end ].

Lemma preserves_requestNew (b : bool) payload :
  preserves (let! cd := (uuid4 : M (St X) Z) in let! r := get_rpc in
             (if b then mod_rpc (fun r0 =>
                set_oneWay ({[mkRpcId (onBarrier r) cd]} ∪ oneWayRequests r0) r0)
              else ret tt) ;;;
             v_requestWithId V (mkIdPayload (mkRpcId (onBarrier r) cd) payload)).
Proof using VL.
  intros s [] s' Hi (cd & s1 & E1 & E)%bind_ok. apply bind_ok in E as (r & s2 & E2 & E).
  pose proof (keeps_uuid4 (fun r => r) _ _ _ E1) as K. simpl in K. run E2.
  apply bind_ok in E as ([] & s2 & E2 & E).
  assert (req_part (rpc s2) = req_part (rpc s1)) as Hp by (destruct b; run E2; done).
  eapply vl_requestWithId; [| |exact E].
  - intros _. unfold req_part in Hp. simpl. congruence.
  - eapply rpc_inv_part; [exact Hp|]. by rewrite K.
Qed.

Lemma preserves_requestOneWay p : preserves (do_requestOneWay V p).
Proof using VL. apply (preserves_requestNew true). Qed.
Lemma preserves_request p : preserves (request (v_requestWithId V) p).
Proof using VL.
  intros s i s' Hi E. eapply (preserves_requestNew false p s tt s' Hi).
  unfold request in E. apply bind_ok in E as (cd & s1 & E1 & E).
  apply bind_ok in E as (r & s2 & E2 & E). apply bind_ok in E as ([] & s3 & E3 & E). run E.
  unfold bind. rewrite E1, E2. simpl. exact E3.
Qed.

Lemma keeps_handleRequest i p : keeps req_part (do_handleRequest V i p).
Proof using VL. unfold do_handleRequest, handleRequest, shutdown. keeps_tac. Qed.
Lemma keeps_handleAcknowledge i : keeps (X := X) req_part (handleAcknowledge i).
Proof using. unfold handleAcknowledge, clock_eraseRequestRecieveTime. keeps_tac. Qed.
Lemma keeps_reading_with {A} (m : M string A) b : keeps (X := X) req_part (reading_with m b).
Proof using. unfold reading_with. keeps_tac. Qed.
#[local] Hint Resolve keeps_handleRequest keeps_handleAcknowledge keeps_reading_with : keeps.

Lemma preserves_receiveRequests fuel b :
  preserves (receiveRequests (v_send V) (v_reply V) (v_addIncomingRequest V) fuel b).
Proof using VL.
  revert b. induction fuel as [|fuel IH]; intros b; simpl; [apply preserves_keeps; keeps_tac|].
  pres. apply IH.
Qed.
Lemma preserves_receiveReplies fuel b : preserves (receiveReplies (v_handleReply V) fuel b).
Proof using VL.
  revert b. induction fuel as [|fuel IH]; intros b; simpl; [apply preserves_keeps; keeps_tac|].
  pres; [|apply IH]. intros ? [] ?. apply vl_handleReply.
Qed.
Lemma preserves_receive m : preserves (do_receive V m).
Proof using VL.
  unfold do_receive, receive. pres;
    first [apply preserves_receiveRequests | apply preserves_receiveReplies].
Qed.
Lemma preserves_barrier_ : preserves barrier_.
Proof using.
  intros s [] s' [Hn Hb] E. unfold barrier_ in E. apply bind_ok in E as (r & s1 & E1 & E). run E1.
  unfold int64 in E. destruct (in_s 64 _); [|done]. run E. split; [done|]. intros Hf.
  destruct (Hb Hf) as [Hs He Ho Hl]. constructor; simpl; auto.
  intros a Ha. specialize (Hl a Ha). lia.
Qed.

(** One public call of the handler keeps the invariant. *)
Lemma preserves_run_call c : preserves (run_call V c).
Proof using VL.
  destruct c; simpl;
    unfold sendShutdown, heartbeat, replyOneWay, setFlaky, shutdown, getFirstIncomingReply,
      consumeIncomingReplyWithId;
    try apply preserves_barrier_; pres;
    first [ apply preserves_requestOneWay | apply preserves_request | apply preserves_receive ].
Qed.

Lemma rpc_reachable_inv s : reachable V foreign s -> rpc_inv foreign (rpc s).
Proof using VL.
  induction 1 as [f h x w|c s s' _ IH E|p s s' _ IH Hb E|s x w _ IH].
  - split; [done|]. intros _. apply barrier_inv_init.
  - by eapply preserves_run_call.
  - by eapply vl_requestWithId.
  - done.
Qed.

(** C4: In every state the public calls of a handler can reach, nothing is held back while
    nothing is in flight, whatever ids are handed to [requestWithId].  When all those ids
    carry the barrier the handler is at, as the ids do that [request] and [requestOneWay]
    draw, then requests issued on both sides of a [barrier()] are never in flight together,
    and whatever is held back belongs to a later barrier than whatever is in flight.  (An id
    drawn by another handler, as [FanOutRpc::request] hands on, can break the order:
    [foreign_id_overtakes].) *)
Theorem barriers_never_overlap s :
  reachable V foreign s ->
  (outgoingRequests (rpc s) = ∅ -> delayedRequests (rpc s) = ∅) /\
  (foreign = false ->
   (forall a b, is_Some (outgoingRequests (rpc s) !! a) ->
      is_Some (outgoingRequests (rpc s) !! b) -> barrier a = barrier b) /\
   (forall a d, is_Some (outgoingRequests (rpc s) !! a) ->
      is_Some (delayedRequests (rpc s) !! d) -> barrier a < barrier d)).
Proof using VL.
  intros [Hn Hi]%rpc_reachable_inv. split; [exact Hn|]. intros Hf.
  destruct (Hi Hf) as [Hs He Ho _]. eauto.
Qed.
End BarrierTheorem.

(** ** The base class satisfies the interface *)
Section Base.
Context `{LruCache} {X : Type} `{Oracle} {OL : OracleLaws} `{Msgpack}.
Variable send : string -> M (St X) unit.
Hypothesis send_keeps : forall m, keeps (fun r => r) (send m).
#[local] Hint Resolve send_keeps : keeps.

Lemma keeps_base_reply i p : keeps req_part (reply send i p).
Proof using send_keeps. unfold reply. keeps_tac. Qed.
Lemma keeps_base_addIncomingRequest p : keeps (X := X) req_part (addIncomingRequest p).
Proof using.
  unfold addIncomingRequest, clock_receiveRequest. keeps_tac. by destruct (_ !! _).
Qed.
Lemma keeps_base_addIncomingReply i p : keeps (X := X) req_part (addIncomingReply i p).
Proof using. unfold addIncomingReply. keeps_tac. by destruct (_ !! _). Qed.

(** [handleReply] with the acknowledgement and the delivery of a derived class. *)
Lemma handleReply_inv foreign ack addReply i p t1 t2 s s' :
  (forall j, keeps req_part (ack j)) -> (forall j q, keeps req_part (addReply j q)) ->
  rpc_inv foreign (rpc s) -> handleReply send ack addReply i p t1 t2 s = Ok (tt, s') ->
  rpc_inv foreign (rpc s').
Proof using OL send_keeps.
  intros Hack Hadd Hi E. unfold handleReply in E.
  apply bind_ok in E as (r & s1 & E1 & E). run E1.
  destruct (_ || _); [by apply (rpc_inv_keeps _ _ _ _ _ (Hack i) E)|].
  destruct (outgoingRequests (rpc s) !! i) as [q|] eqn:Hq;
    [|by apply (rpc_inv_keeps _ _ _ _ _ (Hack i) E)].
  apply bind_ok in E as ([] & s1 & E1 & E). apply bind_ok in E as ([] & s2 & E2 & E).
  eapply rpc_inv_keeps; [|exact E|].
  - unfold clock_handleReply. apply keeps_bind; [keeps_tac|]. intros r.
    apply keeps_bind; [keeps_tac|]. intros _. apply keeps_bind; [auto|]. intros _.
    apply keeps_bind; [keeps_tac|]. intros now s3 [] s4 E4.
    destruct (ClockSynchronizer.handleReply _ _ _ _ _ _) as [[c t]|]; [|done]. run E4. done.
  - split; [by eapply tryToSendBarrier_stranded|]. intros Hf.
    destruct (proj2 Hi Hf) as [Hs He Ho Hl]. run E1.
    assert (forall a, is_Some (delete i (outgoingRequests (rpc s)) !! a) ->
      is_Some (outgoingRequests (rpc s) !! a)) as Hsub
      by (intros a Ha; by apply lookup_delete_is_Some in Ha as []).
    apply (tryToSendBarrier_barrier _ send_keeps _ _) in E2; [done|..]; simpl.
    + intros Hne. constructor; simpl; intros.
      * auto.
      * done.
      * auto.
      * match goal with Hx : _ \/ _ |- _ => destruct Hx end; auto.
    + intros d Hd. apply Hl. by right.
Qed.

#[export] Instance base_virtuals_laws : RpcVirtualsLaws (base_virtuals send).
Proof using OL send_keeps.
  constructor; simpl; auto using keeps_base_reply, keeps_base_addIncomingRequest,
    keeps_base_addIncomingReply, keeps_sendAcknowledge.
  - intros. by eapply requestWithId_inv.
  - keeps_tac.
  - intros. eapply handleReply_inv; eauto using keeps_base_addIncomingReply,
      keeps_sendAcknowledge.
Qed.
End Base.

(** ** A handler that records what it sends *)
Definition log_send `{LruCache} (m : string) : M (St (list string)) unit := mod_sub (cons m).
Lemma keeps_log_send `{LruCache} m : keeps (fun r => r) (log_send m).
Proof. unfold log_send. keeps_tac. Qed.
#[export] Instance log_virtuals_laws `{LruCache, Oracle, !OracleLaws, Msgpack} :
  RpcVirtualsLaws (base_virtuals log_send).
Proof. apply base_virtuals_laws, keeps_log_send. Qed.

(** The calls [l] one after the other. *)
Definition run_calls `{LruCache, Oracle, Msgpack} {X} (V : RpcVirtuals X) (l : list rpc_call) :=
  for_each l (run_call V).
Lemma reachable_calls `{LruCache, Oracle, Msgpack} {X} (V : RpcVirtuals X) foreign l s s' :
  reachable V foreign s -> run_calls V l s = Ok (tt, s') -> reachable V foreign s'.
Proof.
  intros Hr. apply (for_each_inv (reachable V foreign)); [|done].
  intros c s1 s2 _. apply reach_call.
Qed.
Definition world0 : World := mkWorld 0 TimeHandler_init 0.
Definition handler0 `{LruCache} : St (list string) := mkSt (Rpc_init false true) [] world0.

Lemma barriers_never_overlap_witness :
  exists s, reachable (base_virtuals log_send) false s /\
    size (outgoingRequests (rpc s)) = 1%nat /\ size (delayedRequests (rpc s)) = 1%nat /\
    (forall a d, is_Some (outgoingRequests (rpc s) !! a) ->
       is_Some (delayedRequests (rpc s) !! d) -> barrier a < barrier d).
Proof.
  destruct (run_calls (base_virtuals log_send)
    [CallRequest "a"; CallBarrier; CallRequest "b"] handler0) as [[[] s]|] eqn:E;
    [|vm_compute in E; discriminate E].
  assert (reachable (base_virtuals log_send) false s) as Hr
    by (eapply reachable_calls; [apply reach_init|exact E]).
  exists s. split; [exact Hr|].
  assert (forall s', Ok (tt, s') = Ok (tt, s) -> s' = s) as Hs by (intros ? [= ->]; reflexivity).
  vm_compute in E. apply Hs in E. split; [subst s; reflexivity|]. split; [subst s; reflexivity|].
  apply (proj2 (barriers_never_overlap (base_virtuals log_send) false s Hr) eq_refl).
Defined.

(** An id of another handler, which is at barrier 5: it goes out at once, and the handler's
    own request, of an earlier barrier, waits behind it. *)
Example foreign_id_overtakes :
  exists s s1, requestWithId log_send (mkIdPayload (mkRpcId 5 77) "a") handler0 = Ok (tt, s1) /\
    run_calls (base_virtuals log_send) [CallRequest "b"] s1 = Ok (tt, s) /\
    reachable (base_virtuals log_send) true s /\
    map (fun x => barrier x.1) (map_to_list (outgoingRequests (rpc s))) = [5] /\
    map (fun x => barrier x.1) (map_to_list (delayedRequests (rpc s))) = [0].
Proof.
  destruct (requestWithId log_send (mkIdPayload (mkRpcId 5 77) "a") handler0) as [[[] s1]|] eqn:E1;
    [|vm_compute in E1; discriminate E1].
  assert (reachable (base_virtuals log_send) true s1) as Hr1
    by (eapply reach_requestWithId; [apply reach_init|done|exact E1]).
  destruct (run_calls (base_virtuals log_send) [CallRequest "b"] s1) as [[[] s]|] eqn:E;
    [|vm_compute in E1; injection E1 as <-; vm_compute in E; discriminate E].
  exists s, s1. split; [done|]. split; [done|].
  split; [eapply reachable_calls; [exact Hr1|exact E]|].
  assert (forall s', Ok (tt, s') = Ok (tt, s1) -> s' = s1) as Hs1 by (intros ? [= ->]; reflexivity).
  assert (forall s', Ok (tt, s') = Ok (tt, s) -> s' = s) as Hs by (intros ? [= ->]; reflexivity).
  vm_compute in E1. apply Hs1 in E1. subst s1. vm_compute in E. apply Hs in E. subst s.
  by vm_compute.
Qed.
