(* ===== verification/RpcDelivery.v ===== *)
(** * RpcDelivery

    What the packets of [wga::BiDirectionalRpc] say and what the other side does
    with them: the packets [sendRequest], [sendReply] and [sendAcknowledge] build
    are read back by [receive] as exactly the records they were built from, and
    handling a record a second time changes nothing. *)
From S2P Require Import Prelude.
From S2P Require Import StdMap.
From S2P Require Import RpcId.
From S2P Require Import Message.
From S2P Require Import Estimators.
From S2P Require Import TimeHandler.
From S2P Require Import ClockSynchronizer.
From S2P Require Import RpcState.
From S2P Require Import Instances.
From S2P Require Import BiDirectionalRpc.
From S2P Require Import RpcVirtuals.

(** ** The packets *)
Section Packets.
Context `{Msgpack}.

Definition pack_id (i : RpcId) : string := mp_pack (MStr (string_of (RpcId_bytes i))).
Definition request_entry (x : RpcId * string) : string :=
  pack_id x.1 +:+ mp_pack (MStr x.2).
Definition request_packet (l : list (RpcId * string)) : string :=
  mp_pack (MInt REQUEST) +:+ str_concat (map request_entry l).

(** id, receive time, send time, payload *)
Definition reply_record : Type := RpcId * Z * Z * string.
Definition reply_entry (x : reply_record) : string :=
  let '(i, t1, t2, p) := x in
  pack_id i +:+ (mp_pack (MInt t1) +:+ (mp_pack (MInt t2) +:+ mp_pack (MStr p))).
Definition reply_packet (l : list reply_record) : string :=
  mp_pack (MInt REPLY) +:+ str_concat (map reply_entry l).
Definition ack_packet (i : RpcId) (payload : string) : string :=
  mp_pack (MInt ACKNOWLEDGE) +:+ (pack_id i +:+ mp_pack (MStr payload)).

(** What fits the wire format. *)
Definition request_wf (x : RpcId * string) : Prop := RpcId_wf x.1 = true /\ slen x.2 < 2 ^ 32.
Definition reply_wf (x : reply_record) : Prop :=
  let '(i, t1, t2, p) := x in
  RpcId_wf i = true /\ in_s 64 t1 = true /\ in_s 64 t2 = true /\ slen p < 2 ^ 32.
End Packets.

(** ** Receiving a packet *)
Section Receiving.
Context `{LruCache} {X : Type} `{Oracle} `{MsgpackLaws}.
Variable V : RpcVirtuals X.
Implicit Types (s : St X).

Lemma slen_pack_pos o rest : 0 < slen (mp_pack o +:+ rest).
Proof using Type*.
  rewrite slen_app. pose proof (slen_nonneg rest).
  pose proof (mp_pack_nonempty o) as Hne. destruct (mp_pack o); [done|].
  pose proof (slen_nonneg s). unfold slen in *. simpl. lia.
Qed.

Lemma reading_with_ok {A B} (m : M string A) b a b' (k : A * string -> M (St X) B) s :
  m b = Ok (a, b') -> bind (reading_with m b) k s = k (a, b') s.
Proof using. intros E. unfold reading_with, bind. by rewrite E. Qed.

Lemma length_entries {A} (f : A -> string) l :
  (forall x, 0 < slen (f x)) -> (length l <= String.length (str_concat (map f l)))%nat.
Proof using.
  intros Hf. induction l as [|x l IH]; simpl; [lia|].
  specialize (Hf x). unfold slen in *. pose proof (slen_app (f x) (str_concat (map f l))) as Ha.
  unfold slen in Ha. lia.
Qed.

Lemma receiveRequests_entries fuel l s :
  Forall request_wf l -> (length l < fuel)%nat ->
  receiveRequests (v_send V) (v_reply V) (v_addIncomingRequest V) fuel
    (str_concat (map request_entry l)) s =
  (for_each l (fun x => do_handleRequest V x.1 x.2) ;;; ret true) s.
Proof using Type*.
  intros Hl. revert fuel s. induction Hl as [|[i p] l [Hi Hp] Hl IH]; intros fuel s Hf.
  { destruct fuel; [lia|]. done. }
  destruct fuel as [|fuel]; [lia|]. cbn [receiveRequests map str_concat for_each].
  change (request_entry (i, p)) with (pack_id i +:+ mp_pack (MStr p)). rewrite str_app_assoc.
  pose proof (slen_pack_pos (MStr (string_of (RpcId_bytes i)))
    (mp_pack (MStr p) +:+ str_concat (map request_entry l))) as Hpos.
  unfold pack_id. rewrite (proj2 (Z.eqb_neq _ 0)) by lia. 
  erewrite reading_with_ok by (by apply read_RpcId). cbv beta iota.
  erewrite reading_with_ok by (by apply read_string). cbv beta iota.
  unfold validatePacket, negb, bind, do_handleRequest. cbn [fst snd].
  destruct (handleRequest _ _ _ _ _ s) as [[[] s1]|]; [|done].
  rewrite IH by (simpl in Hf; lia). done.
Qed.

Lemma receiveReplies_entries fuel (l : list reply_record) s :
  Forall reply_wf l -> (length l < fuel)%nat ->
  receiveReplies (v_handleReply V) fuel (str_concat (map reply_entry l)) s =
  (for_each l (fun '(i, t1, t2, p) => v_handleReply V i p t1 t2) ;;; ret true) s.
Proof using Type*.
  intros Hl. revert fuel s.
  induction Hl as [|[[[i t1] t2] p] l (Hi & Ht1 & Ht2 & Hp) Hl IH]; intros fuel s Hf.
  { destruct fuel; [lia|]. done. }
  destruct fuel as [|fuel]; [lia|]. cbn [receiveReplies map str_concat for_each].
  change (reply_entry (i, t1, t2, p)) with
    (pack_id i +:+ (mp_pack (MInt t1) +:+ (mp_pack (MInt t2) +:+ mp_pack (MStr p)))).
  rewrite !str_app_assoc.
  pose proof (slen_pack_pos (MStr (string_of (RpcId_bytes i)))
    (mp_pack (MInt t1) +:+ (mp_pack (MInt t2) +:+ (mp_pack (MStr p) +:+
      str_concat (map reply_entry l))))) as Hpos.
  unfold pack_id. rewrite (proj2 (Z.eqb_neq _ 0)) by lia. 
  erewrite reading_with_ok by (by apply read_RpcId). cbv beta iota.
  erewrite reading_with_ok by (by apply read_i64). cbv beta iota.
  erewrite reading_with_ok by (by apply read_i64). cbv beta iota.
  erewrite reading_with_ok by (by apply read_string). cbv beta iota.
  unfold validatePacket, negb, bind. cbn [fst snd].
  destruct (v_handleReply V i p t1 t2 s) as [[[] s1]|]; [|done].
  rewrite IH by (simpl in Hf; lia). done.
Qed.

Lemma receive_header z rest s :
  in_u 8 z = true -> flaky (rpc s) = false ->
  do_receive V (mp_pack (MInt z) +:+ rest) s =
  (if z =? REQUEST then receiveRequests (v_send V) (v_reply V) (v_addIncomingRequest V)
                          (S (String.length rest)) rest
   else if z =? REPLY then receiveReplies (v_handleReply V) (S (String.length rest)) rest
   else if z =? ACKNOWLEDGE then
     let! (i, buffer) := reading_with readClass_RpcId rest in
     let! (payload, buffer) := reading_with readPrimitive_string buffer in
     if negb (validatePacket i payload) then ret false else handleAcknowledge i ;;; ret true
   else fail LogFatal) s.
Proof using Type*.
  intros Hz Hf. unfold do_receive, receive.
  erewrite reading_with_ok by (by apply read_u8). cbv beta iota.
  unfold get_rpc, gets, bind at 1. rewrite Hf. done.
Qed.

Lemma slen_request_entry x : 0 < slen (request_entry x).
Proof using Type*. apply slen_pack_pos. Qed.
Lemma slen_reply_entry x : 0 < slen (reply_entry x).
Proof using Type*. destruct x as [[[i t1] t2] p]. apply slen_pack_pos. Qed.

Lemma receive_request_packet l s :
  Forall request_wf l -> flaky (rpc s) = false ->
  do_receive V (request_packet l) s =
  (for_each l (fun x => do_handleRequest V x.1 x.2) ;;; ret true) s.
Proof using Type*.
  intros Hl Hf. unfold request_packet. rewrite receive_header by done. simpl.
  apply (receiveRequests_entries (S _)); [done|].
  pose proof (length_entries request_entry l slen_request_entry). lia.
Qed.

Lemma receive_reply_packet l s :
  Forall reply_wf l -> flaky (rpc s) = false ->
  do_receive V (reply_packet l) s =
  (for_each l (fun '(i, t1, t2, p) => v_handleReply V i p t1 t2) ;;; ret true) s.
Proof using Type*.
  intros Hl Hf. unfold reply_packet. rewrite receive_header by done. simpl.
  apply (receiveReplies_entries (S _)); [done|].
  pose proof (length_entries reply_entry l slen_reply_entry). lia.
Qed.

Lemma receive_ack_packet i p s :
  RpcId_wf i = true -> slen p < 2 ^ 32 -> flaky (rpc s) = false ->
  do_receive V (ack_packet i p) s = (handleAcknowledge i ;;; ret true) s.
Proof using Type*.
  intros Hi Hp Hf. unfold ack_packet. rewrite receive_header by done. simpl.
  unfold pack_id. erewrite reading_with_ok by (by apply read_RpcId). cbv beta iota.
  rewrite <- (str_app_nil_r (mp_pack (MStr p))).
  by erewrite reading_with_ok by (by apply read_string).
Qed.
End Receiving.

(** ** Sending a packet *)
Section Sending.
Context `{LruCache} {X : Type} `{Oracle} {OL : OracleLaws} `{MsgpackLaws}.
Variable send : string -> M (St X) unit.
Implicit Types (s : St X).

(** Only the environment's readings moved on between [s] and [s1]. *)
Definition same (s s1 : St X) : Prop :=
  rpc s1 = rpc s /\ sub s1 = sub s /\ timeHandler (world s1) = timeHandler (world s) /\
  initialTime (world s1) = initialTime (world s).
Lemma same_refl s : same s s.
Proof using. by repeat split. Qed.
Lemma same_trans s1 s2 s3 : same s1 s2 -> same s2 s3 -> same s1 s3.
Proof using. unfold same. intuition congruence. Qed.
Lemma same_rpc s s1 : same s s1 -> rpc s1 = rpc s.
Proof using. by intros []. Qed.
Lemma same_reading {A} (f : N -> A) s a s1 :
  read_world (reading f) s = Ok (a, s1) -> a = f (tick (world s)) /\ same s s1.
Proof using. unfold read_world, reading. intros [= <- <-]. by repeat split. Qed.

Lemma draw_elem m s it s1 : draw m s = Ok (it, s1) -> m !! it.1 = Some it.2 /\ same s s1.
Proof using OL.
  unfold draw. intros (l & s2 & E1 & E)%bind_ok. apply bind_ok in E as (n & s3 & E2 & E).
  apply same_reading in E2 as [_ S2].
  destruct (l !! _) as [x|] eqn:Hx; run E. split.
  - apply list_elem_of_lookup_2 in Hx. by apply (walk_elem _ _ _ _ _ E1).
  - apply same_reading in E1 as [_ S1]. by eapply same_trans.
Qed.

Lemma draw_total m s : m <> ∅ -> exists it s1, draw m s = Ok (it, s1).
Proof using OL.
  intros Hm. unfold draw, walk, rand, read_world, reading, bind. simpl.
  set (l := o_order _ m). set (n := o_rand _).
  assert (length l = size m) as Hlen.
  { unfold l. rewrite o_order_perm. by rewrite length_map_to_list. }
  assert (size m <> O) as Hs by (by rewrite map_size_non_empty_iff).
  destruct (l !! Z.to_nat (n mod Z.of_nat (size m))) as [x|] eqn:Hx; [by repeat eexists|].
  apply lookup_ge_None in Hx. pose proof (Z.mod_pos_bound n (Z.of_nat (size m))). lia.
Qed.

(** What the batching loop adds: other entries of the map, each once. *)
Definition batch_of {A} (m : gmap RpcId A) (sent : gset RpcId) (l : list (RpcId * A)) : Prop :=
  NoDup l.*1 /\ (forall x, x ∈ l -> m !! x.1 = Some x.2 /\ x.1 ∉ sent).

Lemma batch_of_nil {A} (m : gmap RpcId A) sent : batch_of m sent [].
Proof using. split; [constructor|]. by intros x ?%elem_of_nil. Qed.
Lemma batch_of_cons {A} (m : gmap RpcId A) sent x l :
  m !! x.1 = Some x.2 -> x.1 ∉ sent -> batch_of m ({[x.1]} ∪ sent) l -> batch_of m sent (x :: l).
Proof using.
  intros Hx Hs [Hd Hl]. split.
  - simpl. constructor; [|done]. intros (y & Hy & Hin)%list_elem_of_fmap.
    destruct (Hl y Hin) as [_ Hn]. apply Hn, elem_of_union. left. by apply elem_of_singleton.
  - intros y [->|Hy]%elem_of_cons; [done|]. destruct (Hl y Hy) as [Hm Hn].
    split; [done|]. intros Hy'. by apply Hn, elem_of_union_r.
Qed.

Lemma batchRequests_spec fuel sent w s w' s1 :
  batchRequests fuel sent w s = Ok (w', s1) ->
  exists l, w' = w +:+ str_concat (map request_entry l) /\ same s s1 /\
    batch_of (outgoingRequests (rpc s)) sent l.
Proof using OL.
  assert (forall sent w s1, same s s1 -> exists l, w = w +:+ str_concat (map request_entry l) /\
    same s s1 /\ batch_of (outgoingRequests (rpc s)) sent l) as Hstop.
  { intros ? w0 s0 Hs. exists []. simpl. rewrite str_app_nil_r. auto using batch_of_nil. }
  revert sent w s Hstop. induction fuel as [|fuel IH]; intros sent w s Hstop E; simpl in E.
  { run E. auto using same_refl. }
  apply bind_ok in E as (r & s2 & E1 & E). run E1.
  destruct (_ && _) in E; [|run E; auto using same_refl].
  apply bind_ok in E as (it & s2 & E2 & E). apply draw_elem in E2 as (Hit & Hs).
  case_bool_decide as Hsent; [run E; auto|].
  destruct (400 <? _); [run E; auto|].
  apply IH in E as (l & -> & Hs' & Hl).
  - exists (it :: l). split; [|split; [by eapply same_trans|]].
    + unfold writePrimitive, writeClass_RpcId, writePrimitive. cbn [map str_concat].
      unfold request_entry at 2, pack_id. by rewrite !str_app_assoc.
    + rewrite (same_rpc _ _ Hs) in Hl. by apply batch_of_cons.
  - intros ? w0 s0 Hs0. exists []. simpl. rewrite str_app_nil_r. auto using batch_of_nil.
Qed.

(** [sendRequest] hands [send] one packet: the request, then other requests in
    flight. *)
Lemma sendRequest_packet i p b s s' :
  sendRequest send i p b s = Ok (tt, s') ->
  exists l s1, same s s1 /\
    send (request_packet ((i, p) :: l)) s1 = Ok (tt, s') /\
    batch_of (outgoingRequests (rpc s)) {[i]} l.
Proof using OL.
  unfold sendRequest. intros (r & s1 & E1 & E)%bind_ok. run E1.
  apply bind_ok in E as (w & s1 & E1 & E).
  assert (writePrimitive (MStr p) (writeClass_RpcId i (writePrimitive (MInt REQUEST)
    writer_start)) = mp_pack (MInt REQUEST) +:+ request_entry (i, p)) as Hw.
  { unfold writePrimitive, writeClass_RpcId, writePrimitive, writer_start, request_entry, pack_id.
    cbn [fst snd]. change ("" +:+ ?x) with x. by rewrite !str_app_assoc. }
  rewrite Hw in E1. destruct b.
  - apply batchRequests_spec in E1 as (l & -> & Hs & Hl).
    exists l, s1. split; [done|]. split; [|done].
    rewrite str_app_assoc in E. exact E.
  - run E1. exists [], s. split; [apply same_refl|]. split; [|apply batch_of_nil].
    unfold request_packet. cbn [map str_concat]. by rewrite str_app_nil_r.
Qed.

(** The readings the replies carry fit the 64-bit integers of the packet. *)
Definition clock_fits (s : St X) : Prop :=
  (forall i t, requestReceiveTimeMap (clockSynchronizer (rpc s)) !! i = Some t ->
     in_s 64 t = true) /\
  (forall n, in_s 64 (clockStamp (SystemClock_now (initialTime (world s)) (o_clock n))
                        (timeHandler (world s))) = true).
Lemma clock_fits_same s s1 : same s s1 -> clock_fits s -> clock_fits s1.
Proof using. intros (Hr & _ & Ht & Hi) [Hm Hc]. split; [by rewrite Hr|by rewrite Ht, Hi]. Qed.

(** A reply record of [i]: payload [p] and two times that fit. *)
Definition record_for s (x : RpcId * string) (y : reply_record) : Prop :=
  exists t1 t2, y = (x.1, t1, t2, x.2) /\
    requestReceiveTimeMap (clockSynchronizer (rpc s)) !! x.1 = Some t1 /\
    (clock_fits s -> in_s 64 t1 = true /\ in_s 64 t2 = true).
Lemma record_for_same s s1 x y : same s s1 -> record_for s1 x y -> record_for s x y.
Proof using.
  intros Hs (t1 & t2 & E & Hm & Hf). exists t1, t2. split; [done|].
  split; [by rewrite <- (same_rpc _ _ Hs)|]. intros Hc. by apply Hf, (clock_fits_same s).
Qed.

Lemma writeReply_spec i p w s w' s1 :
  writeReply i p w s = Ok (w', s1) ->
  exists y, record_for s (i, p) y /\ w' = w +:+ reply_entry y /\ same s s1.
Proof using.
  unfold writeReply, clock_getReplyDuration. intros ([t1 t2] & s2 & E1 & E)%bind_ok. run E.
  apply bind_ok in E1 as (now & s3 & E3 & E). apply bind_ok in E as (r & s4 & E4 & E). run E4.
  assert (same s s3 /\ now = clockStamp (SystemClock_now (initialTime (world s))
    (o_clock (tick (world s)))) (timeHandler (world s))) as [Hs Hnow].
  { unfold stamp, read_world, world_stamp, reading in E3. simpl in E3. injection E3 as <- <-.
    by repeat split. }
  unfold getReplyDuration in E. destruct (requestReceiveTimeMap _ !! i) as [t|] eqn:Ht; [|done].
  injection E as <- <- E2s. exists (i, t, now, p). split; [|split; [|by rewrite <- E2s]].
  - exists t, now. split; [done|]. simpl. rewrite (same_rpc _ _ Hs) in Ht. split; [done|].
    intros [Hm Hc]. split; [by eapply Hm|]. rewrite Hnow. apply Hc.
  - unfold reply_entry, writePrimitive, writeClass_RpcId, writePrimitive, pack_id. simpl.
    by rewrite !str_app_assoc.
Qed.

Lemma batchReplies_spec fuel sent w s w' s1 :
  batchReplies fuel sent w s = Ok (w', s1) ->
  exists l ys, w' = w +:+ str_concat (map reply_entry ys) /\ same s s1 /\
    Forall2 (record_for s) l ys /\ batch_of (outgoingReplies (rpc s)) sent l.
Proof using OL.
  assert (forall sent w s1, same s s1 ->
    exists l ys, w = w +:+ str_concat (map reply_entry ys) /\ same s s1 /\
    Forall2 (record_for s) l ys /\ batch_of (outgoingReplies (rpc s)) sent l) as Hstop.
  { intros ? w0 s0 Hs. exists [], []. simpl. rewrite str_app_nil_r. auto using batch_of_nil. }
  revert sent w s Hstop. induction fuel as [|fuel IH]; intros sent w s Hstop E; simpl in E.
  { run E. auto using same_refl. }
  apply bind_ok in E as (r & s2 & E1 & E). run E1.
  destruct (_ && _) in E; [|run E; auto using same_refl].
  apply bind_ok in E as (it & s2 & E2 & E). apply draw_elem in E2 as (Hit & Hs).
  case_bool_decide as Hsent; [run E; auto|].
  destruct (400 <? _); [run E; auto|].
  apply bind_ok in E as (w2 & s3 & E3 & E).
  apply writeReply_spec in E3 as (y & Hy & -> & Hs3).
  assert (same s s3) as Hs' by (by eapply same_trans).
  apply IH in E as (l & ys & -> & Hs4 & Hl & Hb).
  - exists (it :: l), (y :: ys). split; [|split; [by eapply same_trans|split]].
    + cbn [map str_concat]. by rewrite str_app_assoc.
    + constructor; [by apply (record_for_same s s2); destruct it|].
      eapply Forall2_impl; [exact Hl|]. intros ? ?. by apply record_for_same.
    + rewrite (same_rpc _ _ Hs') in Hb. by apply batch_of_cons.
  - intros ? w0 s0 Hs0. exists [], []. simpl. rewrite str_app_nil_r. auto using batch_of_nil.
Qed.

(** [sendReply] hands [send] one packet: the reply, then other replies not yet
    acknowledged. *)
Lemma sendReply_packet i p b s s' :
  sendReply send i p b s = Ok (tt, s') ->
  exists l y ys s1, same s s1 /\ send (reply_packet (y :: ys)) s1 = Ok (tt, s') /\
    record_for s (i, p) y /\ Forall2 (record_for s) l ys /\
    batch_of (outgoingReplies (rpc s)) {[i]} l.
Proof using OL.
  unfold sendReply. intros (w & s1 & E1 & E)%bind_ok.
  apply writeReply_spec in E1 as (y & Hy & -> & Hs1).
  apply bind_ok in E as (r & s2 & E2 & E). run E2. apply bind_ok in E as (w & s2 & E2 & E).
  assert (writePrimitive (MInt REPLY) writer_start = mp_pack (MInt REPLY)) as Hw by done.
  rewrite Hw in E2. destruct b.
  - apply batchReplies_spec in E2 as (l & ys & -> & Hs2 & Hl & Hb).
    exists l, y, ys, s2. split; [by eapply same_trans|]. rewrite str_app_assoc in E.
    split; [exact E|]. split; [done|]. split.
    + eapply Forall2_impl; [exact Hl|]. intros ? ?. by apply record_for_same.
    + by rewrite (same_rpc _ _ Hs1) in Hb.
  - run E2. exists [], y, [], s1. split; [done|].
    split; [|auto using batch_of_nil]. unfold reply_packet. cbn [map str_concat].
    by rewrite str_app_nil_r.
Qed.
End Sending.

(** ** From one peer to the other *)
Section Wire.
Context `{LruCache} {X Y : Type} `{Oracle} {OL : OracleLaws} `{MsgpackLaws}.
Variable send : string -> M (St X) unit.
Implicit Types (s : St X) (t : St Y).

(** Requests cross the wire.  [sendRequest] hands the socket one packet;
    whatever peer receives it runs [handleRequest] on that request and then, once
    each, on some other requests in flight, and reports success. *)
Theorem requests_cross_the_wire i p b s s' :
  request_wf (i, p) ->
  (forall j q, outgoingRequests (rpc s) !! j = Some q -> request_wf (j, q)) ->
  sendRequest send i p b s = Ok (tt, s') ->
  exists l packet s1,
    same s s1 /\ send packet s1 = Ok (tt, s') /\
    batch_of (outgoingRequests (rpc s)) {[i]} l /\
    forall (V : RpcVirtuals Y) t, flaky (rpc t) = false ->
      do_receive V packet t =
      (for_each ((i, p) :: l) (fun x => do_handleRequest V x.1 x.2) ;;; ret true) t.
Proof using Type*.
  intros Hi Hout E. apply sendRequest_packet in E as (l & s1 & Hs & E & Hb).
  exists l, (request_packet ((i, p) :: l)), s1. split; [done|]. split; [done|]. split; [done|].
  intros V t Ht. apply receive_request_packet; [|done]. constructor; [done|].
  apply Forall_forall. intros [j q] Hj. apply Hout. by destruct (proj2 Hb _ Hj).
Qed.

(** Replies cross the wire.  [sendReply] hands the socket one packet; whatever
    peer receives it runs [handleReply] on that reply and then on some other
    unacknowledged replies, once each, with the times this side recorded. *)
Theorem replies_cross_the_wire i p b s s' :
  request_wf (i, p) -> clock_fits s ->
  (forall j q, outgoingReplies (rpc s) !! j = Some q -> request_wf (j, q)) ->
  sendReply send i p b s = Ok (tt, s') ->
  exists l y ys packet s1,
    same s s1 /\ send packet s1 = Ok (tt, s') /\
    record_for s (i, p) y /\ Forall2 (record_for s) l ys /\
    batch_of (outgoingReplies (rpc s)) {[i]} l /\
    forall (V : RpcVirtuals Y) t, flaky (rpc t) = false ->
      do_receive V packet t =
      (for_each (y :: ys) (fun '(j, t1, t2, q) => v_handleReply V j q t1 t2) ;;; ret true) t.
Proof using Type*.
  intros Hi Hc Hout E. apply sendReply_packet in E as (l & y & ys & s1 & Hs & E & Hy & Hl & Hb).
  exists l, y, ys, (reply_packet (y :: ys)), s1. repeat (split; [done|]).
  assert (forall x z, request_wf x -> record_for s x z -> reply_wf z) as Hwf.
  { intros x z [Hx1 Hx2] (t1 & t2 & -> & _ & Hf). destruct (Hf Hc). by repeat split. }
  intros V t Ht. apply receive_reply_packet; [|done]. constructor; [by eapply Hwf|].
  destruct Hb as [_ Hb]. clear E Hy. induction Hl as [|[j q] z l ys Hz _ IH]; [constructor|].
  constructor.
  - eapply Hwf; [|exact Hz]. apply Hout. apply (Hb (j, q)). left.
  - apply IH. intros x Hx. apply Hb. by right.
Qed.
End Wire.

(** ** Handling a record once *)
Section Once.
Context `{LruCacheLaws} {X : Type} `{Oracle} {OL : OracleLaws} `{Msgpack}.
Variable V : RpcVirtuals X.
Implicit Types (s : St X).

Definition request_known (i : RpcId) (r : Rpc) : Prop :=
  is_Some (incomingRequests r !! i) \/ lru_exists i (processedRequests r) = true.
Definition reply_known (i : RpcId) (r : Rpc) : Prop :=
  is_Some (incomingReplies r !! i) \/ lru_exists i (processedReplies r) = true.

Lemma handleRequest_known i p s :
  request_known i (rpc s) -> do_handleRequest V i p s = Ok (tt, s).
Proof using.
  intros Hk. unfold do_handleRequest, handleRequest, get_rpc, gets, bind at 1.
  assert (bool_decide (is_Some (incomingRequests (rpc s) !! i)) ||
    lru_exists i (processedRequests (rpc s)) = true) as ->.
  { destruct Hk as [Hk|Hk]; [by rewrite bool_decide_true|]. by rewrite Hk, orb_true_r. }
  done.
Qed.

Lemma handleReply_known send ack addReply i p t1 t2 s :
  reply_known i (rpc s) \/ outgoingRequests (rpc s) !! i = None ->
  handleReply send ack addReply i p t1 t2 s = ack i s.
Proof using.
  intros Hk. unfold handleReply, get_rpc, gets, bind at 1.
  destruct (bool_decide (is_Some (incomingReplies (rpc s) !! i)) ||
    lru_exists i (processedReplies (rpc s))) eqn:E; [done|].
  destruct Hk as [Hk| ->]; [|done]. exfalso. apply orb_false_iff in E as [E1 E2].
  apply bool_decide_eq_false in E1. destruct Hk as [?|Hk]; [done|]. congruence.
Qed.

Section Send.
Variable send : string -> M (St X) unit.
Hypothesis send_keeps : forall m, keeps (fun r => r) (send m).

Lemma reply_processed i q s s' :
0 < lru_capacity (processedRequests (rpc s)) -> reply send i q s = Ok (tt, s') ->
lru_exists i (processedRequests (rpc s')) = true /\
outgoingReplies (rpc s') = <[i := q]> (outgoingReplies (rpc s)) /\
incomingRequests (rpc s') = delete i (incomingRequests (rpc s)).
Proof using H0 send_keeps.
intros Hc E. unfold reply in E. apply bind_ok in E as (r & s1 & E1 & E). run E1.
destruct (incomingRequests (rpc s) !! i); [|done].
apply bind_ok in E as ([] & s1 & E1 & E). run E1.
apply bind_ok in E as ([] & s1 & E1 & E). run E1.
apply bind_ok in E as ([] & s1 & E1 & E). run E1.
pose proof (keeps_sendReply send send_keeps (fun r => r) _ _ _ _ _ _ E) as K.
simpl in K. rewrite K. simpl. by rewrite lru_exists_put.
Qed.

Lemma addIncomingRequest_fresh p s s' :
incomingRequests (rpc s) !! ip_id p = None -> addIncomingRequest p s = Ok (tt, s') ->
sub s' = sub s /\
incomingRequests (rpc s') = <[ip_id p := ip_payload p]> (incomingRequests (rpc s)) /\
processedRequests (rpc s') = processedRequests (rpc s) /\
outgoingReplies (rpc s') = outgoingReplies (rpc s).
Proof using.
intros Hn E. unfold addIncomingRequest, clock_receiveRequest in E.
apply bind_ok in E as ([] & s1 & E1 & E). apply bind_ok in E1 as (now & s2 & E2 & E1).
unfold stamp, read_world, world_stamp, reading in E2. simpl in E2. injection E2 as <- <-.
apply bind_ok in E1 as (r & s3 & E3 & E1). run E3. simpl in E1.
destruct (receiveRequest _ _ _) as [[? c]|]; [|done]. run E1. run E. simpl in *.
rewrite Hn. done.
Qed.
End Send.
End Once.

Section AtMostOnce.
Context `{LruCacheLaws} {X : Type} `{Oracle} {OL : OracleLaws} `{Msgpack}.
Variable send : string -> M (St X) unit.
Hypothesis send_keeps : forall m, keeps (fun r => r) (send m).
Abbreviation V := (base_virtuals send).
Implicit Types (s : St X).

(** C9: A request is delivered once.  The first copy of a request that is not a
    ping or a shutdown puts its payload among the incoming requests; a second
    copy, while it waits there or after it was answered, leaves the whole
    handler as it is: nothing is delivered again and no reply is sent again. *)
Theorem request_delivered_once i p q s s1 :
  p <> "PING" -> p <> "SHUTDOWN" ->
  ~ request_known i (rpc s) -> outgoingReplies (rpc s) !! i = None ->
  do_handleRequest V i p s = Ok (tt, s1) ->
  incomingRequests (rpc s1) = <[i := p]> (incomingRequests (rpc s)) /\
  do_handleRequest V i q s1 = Ok (tt, s1) /\
  forall a s2, 0 < lru_capacity (processedRequests (rpc s)) ->
    reply send i a s1 = Ok (tt, s2) ->
    incomingRequests (rpc s2) = delete i (incomingRequests (rpc s)) /\
    outgoingReplies (rpc s2) !! i = Some a /\
    do_handleRequest V i q s2 = Ok (tt, s2).
Proof using H0 send_keeps.
  intros Hp1 Hp2 Hk Ho E. unfold do_handleRequest, handleRequest in E.
  apply bind_ok in E as (r & s3 & E1 & E). run E1.
  assert (bool_decide (is_Some (incomingRequests (rpc s) !! i)) ||
    lru_exists i (processedRequests (rpc s)) = false) as Hskip.
  { apply orb_false_iff. split.
    - apply bool_decide_eq_false. intros ?. by apply Hk; left.
    - apply not_true_is_false. intros ?. by apply Hk; right. }
  rewrite Hskip, Ho in E. apply bind_ok in E as (b & s3 & E1 & E). run E1.
  apply bind_ok in E as ([] & s4 & E1 & E). simpl in E1.
  assert (incomingRequests (rpc s) !! i = None) as Hn.
  { destruct (incomingRequests (rpc s) !! i) eqn:Hi; [|done]. exfalso. apply Hk. left. by rewrite Hi. }
  apply addIncomingRequest_fresh in E1 as (Hs & Hin & Hpr & Hor); [|done]. simpl in Hin.
  apply bind_ok in E as (r & s5 & E2 & E). run E2.
  rewrite Hin, lookup_insert_eq in E.
  rewrite !bool_decide_false in E by done. run E. split; [done|]. split.
  - apply handleRequest_known. left. by rewrite Hin, lookup_insert_eq.
  - intros a s2 Hc Hr. rewrite <- Hpr in Hc.
    destruct (reply_processed send send_keeps i a _ _ Hc Hr) as (Hr1 & Hr2 & Hr3).
    split; [|split].
    + rewrite Hr3, Hin. apply delete_insert_eq.
    + by rewrite Hr2, lookup_insert_eq.
    + apply handleRequest_known. by right.
Qed.

#[local] Hint Resolve send_keeps : keeps.
Definition reply_part (r : Rpc) : gset RpcId * gmap RpcId string * lru :=
  (oneWayRequests r, incomingReplies r, processedReplies r).

Lemma keeps_createRequest_reply_part i : keeps (X := X) reply_part (clock_createRequest i).
Proof using. unfold clock_createRequest. keeps_tac. Qed.
#[local] Hint Resolve keeps_createRequest_reply_part : keeps.
Lemma keeps_tryToSendBarrier : keeps reply_part (tryToSendBarrier send).
Proof using send_keeps. unfold tryToSendBarrier, sendDelayed. keeps_tac. Qed.

(** [i] is neither in flight nor held back. *)
Definition gone (i : RpcId) (r : Rpc) : Prop :=
  outgoingRequests r !! i = None /\ delayedRequests r !! i = None.
Lemma gone_keeps {A} i (m : M (St X) A) s a s' :
  keeps req_part m -> m s = Ok (a, s') -> gone i (rpc s) -> gone i (rpc s').
Proof using.
  intros Hk E. specialize (Hk _ _ _ E). unfold req_part, gone in *. by injection Hk as -> -> _.
Qed.

Lemma sendDelayed_gone i lowest it s s' :
  it.1 <> i -> gone i (rpc s) -> sendDelayed send lowest it s = Ok (tt, s') -> gone i (rpc s').
Proof using send_keeps.
  intros Hne Hg E. unfold sendDelayed in E. destruct (_ =? _); [|by run E].
  apply bind_ok in E as ([] & s1 & E1 & E). run E1.
  apply bind_ok in E as ([] & s1 & E1 & E).
  apply (gone_keeps i _ _ _ _ (keeps_clock_createRequest _)) in E1;
    [|by destruct Hg; split; [simpl; rewrite lookup_insert_ne|]].
  apply bind_ok in E as ([] & s2 & E2 & E).
  apply (gone_keeps i _ _ _ _ (keeps_sendRequest send send_keeps req_part _ _ _)) in E2; [|done].
  run E. destruct E2 as [Ho Hd]. split; [done|]. simpl. by rewrite lookup_delete_ne.
Qed.

Lemma tryToSendBarrier_gone i s s' :
  gone i (rpc s) -> tryToSendBarrier send s = Ok (tt, s') -> gone i (rpc s').
Proof using OL send_keeps.
  intros Hg E. unfold tryToSendBarrier in E. apply bind_ok in E as (r & s1 & E1 & E). run E1.
  destruct (bool_decide _); [by run E|]. destruct (bool_decide _); [|by run E].
  apply bind_ok in E as (x & s1 & E1 & E). apply bind_ok in E as (l1 & s2 & E2 & E).
  apply bind_ok in E as (l & s3 & E3 & E).
  assert (gone i (rpc s3)) as Hg3.
  { apply (gone_keeps i _ _ _ _ (keeps_walk req_part _) E3),
      (gone_keeps i _ _ _ _ (keeps_walk req_part _) E2),
      (gone_keeps i _ _ _ _ (keeps_map_begin req_part _) E1), Hg. }
  revert E. apply (for_each_inv (fun s => gone i (rpc s))); [|done].
  intros it sa sb Hit Hga. apply sendDelayed_gone; [|done]. intros Heq.
  apply (walk_elem _ _ _ _ _ E3) in Hit. rewrite Heq in Hit. destruct Hg. congruence.
Qed.

(** C10: A reply is delivered once.  The first copy of the reply to a request in
    flight retires the request and puts the payload among the incoming replies
    (or nowhere, for a one-way request); every later copy is only acknowledged. *)
Theorem reply_delivered_once i p t1 t2 s s1 :
  is_Some (outgoingRequests (rpc s) !! i) -> delayedRequests (rpc s) !! i = None ->
  ~ reply_known i (rpc s) ->
  v_handleReply V i p t1 t2 s = Ok (tt, s1) ->
  outgoingRequests (rpc s1) !! i = None /\
  (i ∉ oneWayRequests (rpc s) ->
     incomingReplies (rpc s1) = <[i := p]> (incomingReplies (rpc s))) /\
  (i ∈ oneWayRequests (rpc s) ->
     incomingReplies (rpc s1) = incomingReplies (rpc s) /\ i ∉ oneWayRequests (rpc s1)) /\
  (forall p' t1' t2', v_handleReply V i p' t1' t2' s1 = v_sendAcknowledge V i s1).
Proof using OL send_keeps.
  intros [q Hq] Hd Hk E. simpl in E. unfold handleReply in E.
  apply bind_ok in E as (r & s2 & E1 & E). run E1.
  assert (bool_decide (is_Some (incomingReplies (rpc s) !! i)) ||
    lru_exists i (processedReplies (rpc s)) = false) as Hskip.
  { apply orb_false_iff. split.
    - apply bool_decide_eq_false. intros ?. by apply Hk; left.
    - apply not_true_is_false. intros ?. by apply Hk; right. }
  rewrite Hskip, Hq in E. apply bind_ok in E as ([] & s2 & E1 & E). run E1.
  apply bind_ok in E as ([] & s2 & E1 & E).
  pose proof (keeps_tryToSendBarrier _ _ _ E1) as K1.
  assert (gone i (rpc s2)) as Hg.
  { eapply tryToSendBarrier_gone; [|exact E1]. split; simpl; [apply lookup_delete_eq|done]. }
  unfold reply_part in K1. simpl in K1. injection K1 as K1a K1b K1c.
  apply bind_ok in E as (r & s3 & E2 & E). run E2. apply bind_ok in E as ([] & s3 & E2 & E).
  apply bind_ok in E as ([] & s4 & E3 & E).
  pose proof (keeps_sendAcknowledge send send_keeps (fun r => r) _ _ _ _ E3) as K3. simpl in K3.
  assert (req_part (rpc s1) = req_part (rpc s3) /\ reply_part (rpc s1) = reply_part (rpc s3))
    as [Kq Kr].
  { rewrite <- K3. unfold clock_handleReply in E. apply bind_ok in E as (now & s5 & E4 & E).
    pose proof (keeps_stamp (fun r => r) _ _ _ E4) as K4. simpl in K4. rewrite <- K4.
    destruct (ClockSynchronizer.handleReply _ _ _ _ _ _) as [[c t]|]; [|done]. by run E. }
  unfold req_part in Kq. injection Kq as Kq1 Kq2 Kq3.
  unfold reply_part in Kr. injection Kr as Kr1 Kr2 Kr3.
  rewrite K1a in E2.
  assert (gone i (rpc s3)) as [Hg3 _].
  { revert Hg. destruct (bool_decide _) in E2; [by run E2|].
    apply (gone_keeps i _ _ _ _ (keeps_base_addIncomingReply i p) E2). }
  assert (outgoingRequests (rpc s1) !! i = None) as Hout by (by rewrite Kq2).
  split; [done|]. split; [|split].
  - intros Hnot. rewrite bool_decide_false in E2 by done.
    unfold addIncomingReply in E2. run E2. rewrite Kr2. simpl. rewrite K1b.
    destruct (incomingReplies (rpc s) !! i) eqn:Hi; [|done].
    exfalso. apply Hk. left. by rewrite Hi.
  - intros Hin. rewrite bool_decide_true in E2 by done. run E2. rewrite Kr1, Kr2. simpl.
    split; [done|]. apply not_elem_of_difference. right. by apply elem_of_singleton.
  - intros. apply handleReply_known. by right.
Qed.
End AtMostOnce.

(** ** The loops of [receive] *)
Section ReceiveLoops.
Context `{LruCache} {X : Type} `{Oracle} `{MsgpackLaws}.
Variable V : RpcVirtuals X.
Implicit Types (s : St X).

(** [m] takes at least one byte off the buffer. *)
Definition consumes {A} (m : M string A) : Prop :=
  forall b a b', m b = Ok (a, b') -> (String.length b' < String.length b)%nat.
Lemma consumes_next f {A} (k : mobj -> M string A) :
  (forall o b a b', k o b = Ok (a, b') -> b' = b) -> consumes (bind (next_or f) k).
Proof using H2.
  intros Hk b a b' (o & b1 & E1 & E2)%bind_ok. rewrite (Hk _ _ _ _ E2).
  unfold next_or in E1. destruct (mp_next b) as [[o' b2]|] eqn:En; [|done].
  injection E1 as <- <-. by apply (mp_next_shrinks b o').
Qed.
Lemma consumes_string : consumes readPrimitive_string.
Proof using H2. apply consumes_next. intros [] b a b' E; by run E. Qed.
Lemma consumes_i64 : consumes readPrimitive_i64.
Proof using H2.
  apply consumes_next. intros [] b a b' E; [|by run E..]. destruct (in_s _ _); by run E.
Qed.
Lemma consumes_RpcId : consumes readClass_RpcId.
Proof using H2.
  intros b a b' (o & b1 & E1 & E2)%bind_ok. apply consumes_string in E1.
  destruct (negb _); by run E2.
Qed.
Lemma reading_with_inv {A} (m : M string A) b a b' s s' :
  reading_with m b s = Ok ((a, b'), s') -> m b = Ok (a, b') /\ s' = s.
Proof using. unfold reading_with. destruct (m b) as [[]|]; intros E; by run E. Qed.

Lemma reading_with_cong {A B} (m : M string A) b (k1 k2 : A * string -> M (St X) B) s :
  consumes m ->
  (forall a b', (String.length b' < String.length b)%nat -> k1 (a, b') s = k2 (a, b') s) ->
  bind (reading_with m b) k1 s = bind (reading_with m b) k2 s.
Proof using.
  intros Hm Hk. unfold reading_with, bind. destruct (m b) as [[a b']|] eqn:E; [|done].
  simpl. apply Hk. by apply (Hm _ a).
Qed.

(** The parsing loops of [receive] end.  Every turn consumes a byte of the
    packet, so any fuel above the length of the packet gives the same result, and
    the fuel [receive] is given is above it. *)
Theorem receive_loops_end b s n1 n2 :
  (String.length b < n1)%nat -> (String.length b < n2)%nat ->
  receiveRequests (v_send V) (v_reply V) (v_addIncomingRequest V) n1 b s =
    receiveRequests (v_send V) (v_reply V) (v_addIncomingRequest V) n2 b s /\
  receiveReplies (v_handleReply V) n1 b s = receiveReplies (v_handleReply V) n2 b s.
Proof using H2.
  revert b s n2. induction n1 as [|n1 IH]; intros b s n2 H3 H4; [lia|].
  destruct n2 as [|n2]; [lia|]. split; cbn [receiveRequests receiveReplies].
  - destruct (_ =? 0); [done|].
    apply reading_with_cong; [apply consumes_RpcId|]. intros i b1 Hb1.
    apply reading_with_cong; [apply consumes_string|]. intros p b2 Hb2.
    simpl. unfold bind. destruct (handleRequest _ _ _ _ _ s) as [[[] s1]|]; [|done].
    apply IH; lia.
  - destruct (_ =? 0); [done|].
    apply reading_with_cong; [apply consumes_RpcId|]. intros i b1 Hb1.
    apply reading_with_cong; [apply consumes_i64|]. intros t1 b2 Hb2.
    apply reading_with_cong; [apply consumes_i64|]. intros t2 b3 Hb3.
    apply reading_with_cong; [apply consumes_string|]. intros p b4 Hb4.
    simpl. unfold bind. destruct (v_handleReply V i p t1 t2 s) as [[[] s1]|]; [|done].
    apply IH; lia.
Qed.

(** [m] can only return [true]. *)
Definition yields_true (m : M (St X) bool) : Prop :=
  forall s r s', m s = Ok (r, s') -> r = true.
Lemma yields_true_bind {A} (m : M (St X) A) (k : A -> M (St X) bool) :
  (forall a, yields_true (k a)) -> yields_true (bind m k).
Proof using. intros Hk s r s' (a & s1 & _ & E)%bind_ok. by apply (Hk a) in E. Qed.
Lemma yields_true_ret : yields_true (ret true).
Proof using. intros s r s' E. by run E. Qed.
Lemma yields_true_fail f : yields_true (fail f).
Proof using. by intros s r s' E. Qed.
Ltac yields := repeat first
  [ apply yields_true_ret | apply yields_true_fail
  | match goal with
    | |- yields_true (bind _ _) => apply yields_true_bind; intros
    | |- yields_true (match ?x with _ => _ end) => destruct x
    end ].

Lemma receiveRequests_true n b :
  yields_true (receiveRequests (v_send V) (v_reply V) (v_addIncomingRequest V) n b).
Proof using. revert b. induction n as [|n IH]; intros b; simpl; yields; apply IH. Qed.
Lemma receiveReplies_true n b : yields_true (receiveReplies (v_handleReply V) n b).
Proof using. revert b. induction n as [|n IH]; intros b; simpl; yields; apply IH. Qed.

Lemma receive_true m : yields_true (do_receive V m).
Proof using.
  unfold do_receive, receive, validatePacket. cbn [negb].
  yields; first [apply receiveRequests_true | apply receiveReplies_true].
Qed.

(** [receive] never turns a packet down.  Whatever class the handler has and
    whatever the bytes are, a call that returns returns [true]: the packet
    validation of the encrypted handler is not virtual and is never consulted. *)
Theorem receive_never_rejects m s b s' : do_receive V m s = Ok (b, s') -> b = true.
Proof using. apply receive_true. Qed.
End ReceiveLoops.
