(* ===== verification/RpcRoundTrip.v ===== *)
(** * RpcRoundTrip

    A whole exchange between two [wga::BiDirectionalRpc] handlers: request, reply
    and acknowledgement, each carried by the packet the other side receives. *)
From S2P Require Import Prelude.
From S2P Require Import StdMap.
From S2P Require Import RpcId.
From S2P Require Import Message.
From S2P Require Import Estimators.
From S2P Require Import TimeHandler.
From S2P Require Import ClockSynchronizer.
From S2P Require Import RpcState.
From S2P Require Import Instances.
From S2P Require Import BiDirectionalRpc.
From S2P Require Import RpcVirtuals.
From S2P Require Import RpcDelivery.

Section RoundTrip.
Context `{LruCacheLaws} `{Oracle} {OL : OracleLaws} `{MsgpackLaws}.
Abbreviation State := (St (list string)).
Abbreviation V := (base_virtuals log_send).
Implicit Types (s t : State).

Definition next_id (s : State) : RpcId :=
  mkRpcId (onBarrier (rpc s)) (o_uuid (tick (world s))).

Lemma log_send_ok m s : log_send m s = Ok (tt, mkSt (rpc s) (m :: sub s) (world s)).
Proof using. done. Qed.

Lemma clock_createRequest_ok i s :
  requestSendTimeMap (clockSynchronizer (rpc s)) !! i = None ->
  exists c w, clock_createRequest i s = Ok (tt, mkSt (set_clock c (rpc s)) (sub s) w) /\
    timeHandler w = timeHandler (world s) /\ initialTime w = initialTime (world s).
Proof using.
  intros Hn. unfold clock_createRequest, stamp, read_world, get_rpc, gets, bind.
  destruct (world_stamp (world s)) as [now w] eqn:Ew. simpl.
  unfold createRequest. rewrite Hn. eexists _, w. split; [reflexivity|].
  unfold world_stamp, reading in Ew. simpl in Ew. by injection Ew as _ <-.
Qed.

Lemma request_first p s :
  outgoingRequests (rpc s) = ∅ ->
  requestSendTimeMap (clockSynchronizer (rpc s)) !! next_id s = None ->
  exists c w,
    request (v_requestWithId V) p s = Ok (next_id s, mkSt
      (set_clock c (set_outgoing {[next_id s := p]} (rpc s)))
      (request_packet [(next_id s, p)] :: sub s) w).
Proof using.
  intros Ho Hn. unfold request, uuid4, read_world, reading, get_rpc, gets, bind at 1 2 3. simpl.
  fold (next_id s). unfold requestWithId, get_rpc, gets, bind at 1. simpl.
  rewrite Ho. rewrite bool_decide_true by done. unfold ret at 1, bind at 1 2 3. simpl.
  set (s1 := mkSt _ _ _).
  destruct (clock_createRequest_ok (next_id s) s1 Hn) as (c & w & -> & _).
  exists c, w. unfold sendRequest, bind, get_rpc, gets, ret. simpl.
  rewrite Ho, insert_empty. do 4 f_equal.
  unfold request_packet, writePrimitive, writeClass_RpcId, writePrimitive, writer_start.
  cbn [map str_concat]. unfold request_entry, pack_id. cbn [fst snd].
  by rewrite str_app_nil_r, !str_app_assoc.
Qed.

Lemma handleRequest_fresh i p t :
  p <> "PING" -> p <> "SHUTDOWN" -> ~ request_known i (rpc t) ->
  outgoingReplies (rpc t) !! i = None ->
  requestReceiveTimeMap (clockSynchronizer (rpc t)) !! i = None ->
  exists c w, timeHandler w = timeHandler (world t) /\ initialTime w = initialTime (world t) /\
    is_Some (requestReceiveTimeMap c !! i) /\
    do_handleRequest V i p t = Ok (tt, mkSt
      (set_incoming (<[i := p]> (incomingRequests (rpc t))) (set_clock c (rpc t))) (sub t) w).
Proof using.
  intros Hp1 Hp2 Hk Ho Hr. unfold do_handleRequest, handleRequest, get_rpc, gets, bind at 1.
  assert (incomingRequests (rpc t) !! i = None) as Hn.
  { destruct (incomingRequests (rpc t) !! i) eqn:E; [|done].
    exfalso. apply Hk. left. by rewrite E. }
  assert (lru_exists i (processedRequests (rpc t)) = false) as Hl.
  { apply not_true_is_false. intros ?. apply Hk. by right. }
  rewrite Hn, Hl, Ho. rewrite bool_decide_false by (by intros []). simpl.
  unfold bind at 1, ret at 1. unfold addIncomingRequest, clock_receiveRequest.
  unfold bind at 1 2 3, stamp, read_world, get_rpc, gets.
  destruct (world_stamp (world t)) as [now w] eqn:Ew. unfold bind at 1. simpl.
  unfold receiveRequest. rewrite Hr. unfold mod_rpc, modify, bind. simpl. rewrite Hn. simpl.
  rewrite lookup_insert_eq. rewrite !bool_decide_false by done.
  unfold world_stamp, reading in Ew. simpl in Ew. injection Ew as _ <-.
  eexists _, _. split; [|split; [|split; [|reflexivity]]]; [done..|]. simpl.
  by rewrite lookup_insert_eq.
Qed.

Lemma reply_ok i q t p :
  incomingRequests (rpc t) !! i = Some p -> clock_fits t ->
  is_Some (requestReceiveTimeMap (clockSynchronizer (rpc t)) !! i) ->
  exists y w, record_for t (i, q) y /\
    reply log_send i q t = Ok (tt, mkSt
      (set_outReplies (<[i := q]> (outgoingReplies (rpc t)))
        (set_processedRequests (lru_put i (processedRequests (rpc t)))
          (set_incoming (delete i (incomingRequests (rpc t))) (rpc t))))
      (reply_packet [y] :: sub t) w).
Proof using.
  intros Hi Hc [t0 Ht0]. unfold reply, get_rpc, gets, bind at 1. rewrite Hi.
  unfold mod_rpc, modify, bind at 1 2 3. simpl.
  unfold sendReply, writeReply, clock_getReplyDuration, stamp, read_world, get_rpc, gets.
  unfold bind at 1 2 3 4. simpl.
  set (now := clockStamp _ _). unfold getReplyDuration. rewrite Ht0.
  unfold ret, bind. simpl. exists (i, t0, now, q). eexists. split.
  - exists t0, now. split; [done|]. split; [done|]. intros [Hm Hn]. split; [by eapply Hm|].
    apply Hn.
  - unfold log_send, mod_sub, modify. simpl. do 4 f_equal.
    unfold reply_packet, writePrimitive, writeClass_RpcId, writePrimitive, writer_start.
    cbn [map str_concat]. unfold reply_entry, pack_id. by rewrite str_app_nil_r, !str_app_assoc.
Qed.

Lemma sendAcknowledge_ok i s :
  sendAcknowledge log_send i s =
    Ok (tt, mkSt (rpc s) (ack_packet i "ACK_OK" :: sub s) (world s)).
Proof using.
  unfold sendAcknowledge, log_send, mod_sub, modify. simpl. do 4 f_equal.
  unfold ack_packet, writePrimitive, writeClass_RpcId, writePrimitive, writer_start, pack_id.
  by rewrite !str_app_assoc.
Qed.

Lemma handleReply_last i p q r1 r2 s s2 :
  outgoingRequests (rpc s) = {[i := p]} -> delayedRequests (rpc s) = ∅ ->
  ~ reply_known i (rpc s) -> i ∉ oneWayRequests (rpc s) ->
  v_handleReply V i q r1 r2 s = Ok (tt, s2) ->
  outgoingRequests (rpc s2) = ∅ /\
  incomingReplies (rpc s2) = <[i := q]> (incomingReplies (rpc s)) /\
  sub s2 = ack_packet i "ACK_OK" :: sub s.
Proof using.
  intros Ho Hd Hk Hw E. simpl in E. unfold handleReply, get_rpc, gets, bind at 1 in E.
  assert (incomingReplies (rpc s) !! i = None) as Hn.
  { destruct (incomingReplies (rpc s) !! i) eqn:Hi; [|done].
    exfalso. apply Hk. left. by rewrite Hi. }
  assert (lru_exists i (processedReplies (rpc s)) = false) as Hl.
  { apply not_true_is_false. intros ?. apply Hk. by right. }
  rewrite Hn, Hl, Ho, lookup_singleton_eq in E.
  rewrite bool_decide_false in E by (by intros []). simpl in E.
  unfold mod_rpc, modify, bind at 1 in E. unfold bind at 1, tryToSendBarrier in E.
  unfold bind at 1, get_rpc, gets in E. simpl in E. rewrite Hd in E.
  rewrite bool_decide_true in E by done. unfold ret at 1 in E.
  unfold bind at 1 in E. simpl in E. unfold bind at 1 in E.
  rewrite bool_decide_false in E by done.
  unfold addIncomingReply, mod_rpc, modify in E. simpl in E.
  unfold bind at 1 in E. rewrite sendAcknowledge_ok in E. simpl in E.
  unfold clock_handleReply, stamp, read_world, bind in E.
  destruct (world_stamp _) as [now w].
  destruct (ClockSynchronizer.handleReply _ _ _ _ _ _) as [[c h]|]; [|done].
  injection E as <-. simpl. rewrite Hn. simpl. by rewrite Ho, delete_singleton_eq.
Qed.

Lemma handleAcknowledge_ok i q t :
  outgoingReplies (rpc t) !! i = Some q ->
  is_Some (requestReceiveTimeMap (clockSynchronizer (rpc t)) !! i) ->
  exists t3, handleAcknowledge i t = Ok (tt, t3) /\
    outgoingReplies (rpc t3) = delete i (outgoingReplies (rpc t)).
Proof using.
  intros Hq [t0 Ht0]. unfold handleAcknowledge, clock_eraseRequestRecieveTime, get_rpc, gets, bind.
  rewrite Hq. unfold eraseRequestRecieveTime. rewrite Ht0.
  eexists. split; [reflexivity|]. done.
Qed.

(** C5: Request and reply make the round trip.  A handler with nothing in flight
    sends a request; the peer that gets the packet has it among its incoming
    requests; its reply leaves it as one packet; the requester that gets that
    packet has exactly the reply's payload, nothing in flight, and has sent an
    acknowledgement, which makes the peer forget the reply. *)
Theorem request_reply_roundtrip p q s t :
  let i := next_id s in
  outgoingRequests (rpc s) = ∅ -> delayedRequests (rpc s) = ∅ ->
  requestSendTimeMap (clockSynchronizer (rpc s)) !! i = None ->
  ~ reply_known i (rpc s) -> i ∉ oneWayRequests (rpc s) ->
  ~ request_known i (rpc t) -> outgoingReplies (rpc t) !! i = None ->
  requestReceiveTimeMap (clockSynchronizer (rpc t)) !! i = None ->
  flaky (rpc s) = false -> flaky (rpc t) = false ->
  in_s 64 (onBarrier (rpc s)) = true -> slen p < 2 ^ 32 -> slen q < 2 ^ 32 ->
  p <> "PING" -> p <> "SHUTDOWN" ->
  exists s1 m, request (v_requestWithId V) p s = Ok (i, s1) /\ sub s1 = m :: sub s /\
  exists t1, do_receive V m t = Ok (true, t1) /\ incomingRequests (rpc t1) !! i = Some p /\
  (clock_fits t1 ->
   exists t2 m2, reply log_send i q t1 = Ok (tt, t2) /\ sub t2 = m2 :: sub t /\
   forall b s2, do_receive V m2 s1 = Ok (b, s2) ->
     b = true /\ outgoingRequests (rpc s2) = ∅ /\
     incomingReplies (rpc s2) = <[i := q]> (incomingReplies (rpc s)) /\
     exists m3, sub s2 = m3 :: sub s1 /\
     exists t3, do_receive V m3 t2 = Ok (true, t3) /\
       outgoingReplies (rpc t3) = outgoingReplies (rpc t)).
Proof using Type*.
  intros i Ho Hd Hst Hrk How Hqk Hor Hrt Hfs Hft Hb Hp Hq Hp1 Hp2.
  assert (RpcId_wf i = true) as Hi.
  { unfold RpcId_wf, i, next_id. simpl. by rewrite Hb, o_uuid_range. }
  destruct (request_first p s Ho Hst) as (c & w & Er). fold i in Er.
  eexists _, _. split; [exact Er|]. split; [reflexivity|].
  destruct (handleRequest_fresh i p t Hp1 Hp2 Hqk Hor Hrt) as (ct & wt & _ & _ & Hts & Eh).
  eexists. split.
  { rewrite receive_request_packet by (done || by repeat constructor).
    unfold for_each, bind. cbn [fst snd]. rewrite Eh. reflexivity. }
  simpl. split; [apply lookup_insert_eq|]. intros Hcf.
  edestruct (reply_ok i q) as (y & w2 & Hy & Erep); [..|exact Hcf|exact Hts|].
  { simpl. apply lookup_insert_eq. }
  eexists _, _. split; [exact Erep|]. split; [reflexivity|].
  destruct Hy as (r1 & r2 & -> & _ & Hf). destruct (Hf Hcf) as [Hr1 Hr2].
  intros b s2 E. rewrite receive_reply_packet in E by (done || by repeat constructor).
  unfold for_each, bind, ret in E. cbn [fst snd] in E.
  destruct (v_handleReply V i q r1 r2 _) as [[[] s3]|] eqn:E3; [|done]. injection E as <- <-.
  split; [done|]. apply (handleReply_last i p) in E3 as (Ho2 & Hi2 & Hs2); try done.
  split; [done|]. split; [done|]. eexists. split; [exact Hs2|].
  edestruct (handleAcknowledge_ok i q) as (t3 & E4 & Ho3); [..|
    exists t3; split; [rewrite receive_ack_packet by done; unfold bind; rewrite E4; reflexivity|]].
  - simpl. apply lookup_insert_eq.
  - exact Hts.
  - rewrite Ho3. simpl. apply delete_insert_id. done.
Qed.
End RoundTrip.

(** ** Concrete runs *)
Definition id0 : RpcId := next_id handler0.

Lemma handler0_fresh : clock_fits handler0.
Proof.
  split; [by intros i t; simpl; rewrite lookup_empty|]. intros n.
  unfold clockStamp, currentTimeMicros, SystemClock_now, getTimeShift, in_s. simpl.
  pose proof (Z.mod_pos_bound (Z.of_N n) (2 ^ 40)). lia.
Qed.

(** The whole exchange, run: what the requester and the replier end with. *)
Definition exchange : outcome (list (RpcId * string) * list (RpcId * string) * nat) :=
  let? (i, s1) := request (v_requestWithId (base_virtuals log_send)) "hello" handler0 in
  let? (b1, t1) := do_receive (base_virtuals log_send) (hd "" (sub s1)) handler0 in
  let? (_, t2) := reply log_send i "world" t1 in
  let? (b2, s2) := do_receive (base_virtuals log_send) (hd "" (sub t2)) s1 in
  let? (b3, t3) := do_receive (base_virtuals log_send) (hd "" (sub s2)) t2 in
  Ok (map_to_list (incomingReplies (rpc s2)), map_to_list (outgoingReplies (rpc t3)),
      size (outgoingRequests (rpc s2))).
Example exchange_runs : exchange = Ok ([(id0, "world")], [], 0%nat).
Proof. vm_compute. reflexivity. Qed.

(** ** The theorems at concrete inputs *)
Lemma request_reply_roundtrip_witness :
  exists s1 m t1, request (v_requestWithId (base_virtuals log_send)) "hello" handler0 = Ok (id0, s1) /\
    sub s1 = [m] /\ do_receive (base_virtuals log_send) m handler0 = Ok (true, t1) /\
    incomingRequests (rpc t1) !! id0 = Some "hello".
Proof.
  destruct (request_reply_roundtrip "hello" "world" handler0 handler0)
    as (s1 & m & E1 & E2 & t1 & E3 & E4 & _); try reflexivity; try discriminate;
    try (intros [[? Hk]|Hk]; vm_compute in Hk; discriminate Hk).
  exists s1, m, t1. repeat split; assumption.
Defined.

(** A handler with the request [id0] in flight, and one that received it. *)
Definition after (c : list rpc_call) : St (list string) :=
  match run_calls (base_virtuals log_send) c handler0 with
  | Ok (_, s) => s
  | Err _ => handler0
  end.
Definition asked : St (list string) := after [CallRequest "hello"].
Definition got : St (list string) := after [CallReceive (hd "" (sub asked))].

Lemma entries_wf (m : gmap RpcId string) :
  forallb (fun x => RpcId_wf x.1 && (slen x.2 <? 2 ^ 32)) (map_to_list m) = true ->
  forall j q, m !! j = Some q -> request_wf (j, q).
Proof.
  rewrite forallb_forall. intros Hm j q Hj.
  assert (In (j, q) (map_to_list m)) as Hin by (by apply list_elem_of_In, elem_of_map_to_list).
  specialize (Hm _ Hin). apply andb_prop in Hm as [H1 H2]. split; [exact H1|]. simpl in *. lia.
Qed.

Lemma requests_cross_the_wire_witness :
  exists l packet s1, same asked s1 /\ log_send packet s1 = Ok (tt,
      mkSt (rpc s1) (packet :: sub s1) (world s1)) /\
    do_receive (base_virtuals log_send) packet handler0 =
      (for_each ((id0, "hello") :: l) (fun x => do_handleRequest (base_virtuals log_send) x.1 x.2)
       ;;; ret true) handler0.
Proof.
  destruct (sendRequest log_send id0 "hello" true asked) as [[[] s']|] eqn:E;
    [|vm_compute in E; discriminate E].
  destruct (requests_cross_the_wire (Y := list string) log_send id0 "hello" true asked s')
    as (l & packet & s1 & Hs & _ & _ & H).
  - split; reflexivity.
  - apply entries_wf. vm_compute. reflexivity.
  - exact E.
  - exists l, packet, s1. split; [exact Hs|]. split; [reflexivity|]. apply H. reflexivity.
Defined.

Lemma replies_cross_the_wire_witness :
  exists y ys packet, record_for (after [CallReceive (hd "" (sub asked)); CallReply id0 "world"])
      (id0, "world") y /\
    do_receive (base_virtuals log_send) packet asked =
      (for_each (y :: ys) (fun '(j, t1, t2, q) => v_handleReply (base_virtuals log_send) j q t1 t2)
       ;;; ret true) asked.
Proof.
  set (s := after _).
  destruct (sendReply log_send id0 "world" true s) as [[[] s']|] eqn:E;
    [|vm_compute in E; discriminate E].
  destruct (replies_cross_the_wire (Y := list string) log_send id0 "world" true s s')
    as (l & y & ys & packet & s1 & _ & _ & Hy & _ & _ & H).
  - split; reflexivity.
  - split.
    + assert (map_Forall (fun _ t => in_s 64 t = true)
        (requestReceiveTimeMap (clockSynchronizer (rpc s)))) as Hm by by_compute.
      exact Hm.
    + assert (timeHandler (world s) = timeHandler world0 /\ initialTime (world s) = 0) as [-> ->]
        by (split; vm_compute; reflexivity).
      apply (proj2 handler0_fresh).
  - apply entries_wf. vm_compute. reflexivity.
  - exact E.
  - exists y, ys, packet. split; [exact Hy|]. apply H. reflexivity.
Defined.

Lemma request_delivered_once_witness :
  exists s1, do_handleRequest (base_virtuals log_send) id0 "hello" handler0 = Ok (tt, s1) /\
    incomingRequests (rpc s1) = {[id0 := "hello"]} /\
    do_handleRequest (base_virtuals log_send) id0 "again" s1 = Ok (tt, s1).
Proof.
  destruct (do_handleRequest (base_virtuals log_send) id0 "hello" handler0) as [[[] s1]|] eqn:E;
    [|vm_compute in E; discriminate E].
  exists s1. split; [reflexivity|].
  destruct (request_delivered_once log_send keeps_log_send id0 "hello" "again" handler0 s1)
    as (H1 & H2 & _); try discriminate; try reflexivity; try exact E.
  - intros [[? Hk]|Hk]; vm_compute in Hk; discriminate Hk.
  - split; [exact H1|exact H2].
Defined.

Lemma reply_delivered_once_witness :
  exists s1, v_handleReply (base_virtuals log_send) id0 "world" 1 2 asked = Ok (tt, s1) /\
    outgoingRequests (rpc s1) !! id0 = None /\
    v_handleReply (base_virtuals log_send) id0 "world" 1 2 s1 = sendAcknowledge log_send id0 s1.
Proof.
  destruct (v_handleReply (base_virtuals log_send) id0 "world" 1 2 asked) as [[[] s1]|] eqn:E;
    [|vm_compute in E; discriminate E].
  exists s1. split; [reflexivity|].
  destruct (reply_delivered_once log_send keeps_log_send id0 "world" 1 2 asked s1)
    as (H1 & _ & _ & H2); try exact E.
  - eexists. vm_compute. reflexivity.
  - vm_compute. reflexivity.
  - intros [[? Hk]|Hk]; vm_compute in Hk; discriminate Hk.
  - split; [exact H1|apply H2].
Defined.

Lemma receive_loops_end_witness :
  (String.length (hd "" (sub asked)) < 200)%nat /\
  receiveRequests (v_send (base_virtuals log_send)) (v_reply (base_virtuals log_send))
    (v_addIncomingRequest (base_virtuals log_send)) 200 (hd "" (sub asked)) handler0 =
  receiveRequests (v_send (base_virtuals log_send)) (v_reply (base_virtuals log_send))
    (v_addIncomingRequest (base_virtuals log_send)) 300 (hd "" (sub asked)) handler0.
Proof.
  assert ((String.length (hd "" (sub asked)) < 200)%nat) as Hl by by_compute.
  split; [exact Hl|].
  apply (receive_loops_end (base_virtuals log_send)); lia.
Defined.

Lemma receive_never_rejects_witness :
  exists s', do_receive (base_virtuals log_send) (hd "" (sub asked)) handler0 = Ok (true, s').
Proof.
  destruct (do_receive (base_virtuals log_send) (hd "" (sub asked)) handler0) as [[b s']|] eqn:E;
    [|vm_compute in E; discriminate E].
  exists s'. rewrite (receive_never_rejects (base_virtuals log_send) _ _ _ _ E) in E |- *.
  reflexivity.
Defined.
