(* ===== verification/RpcNetwork.v ===== *)
(** * RpcNetwork

    Two [wga::BiDirectionalRpc] handlers over a network that loses, repeats and
    reorders packets, with what their applications asked, answered and took: the pair
    implements a service in which every request is answered at most once and every
    reply taken belongs to a request that was made. *)
From S2P Require Import Prelude.
From S2P Require Import StdMap.
From S2P Require Import RpcId.
From S2P Require Import Message.
From S2P Require Import Estimators.
From S2P Require Import TimeHandler.
From S2P Require Import ClockSynchronizer.
From S2P Require Import RpcState.
From S2P Require Import Instances.
From S2P Require Import BiDirectionalRpc.
From S2P Require Import RpcVirtuals.
From S2P Require Import RpcDelivery.
From S2P Require Import RpcRoundTrip.

(** ** The service

    What was asked, answered and taken so far, the latest first.  The handlers answer
    each other's pings and shutdowns themselves. *)
Definition own_request (p : string) : Prop := p = "PING" \/ p = "SHUTDOWN".
Definition own_reply (q : string) : Prop := q = "PONG" \/ q = "SHUTDOWN_REPLY".

Inductive service : list (RpcId * string) -> list (RpcId * string) -> list (RpcId * string) -> Prop :=
  | service_start : service [] [] []
  | service_ask x asked answered taken :
      service asked answered taken -> service (x :: asked) answered taken
  | service_answer i p q asked answered taken :
      service asked answered taken -> (i, p) ∈ asked -> i ∉ answered.*1 ->
      service asked ((i, q) :: answered) taken
  | service_take i q asked answered taken :
      service asked answered taken -> (i, q) ∈ answered \/ own_reply q -> i ∉ taken.*1 ->
      service asked answered ((i, q) :: taken).

(** ** Each element once

    A map of what waits and a cache of what was dealt with, as the handler keeps them for
    requests and for replies; [h] is what was dealt with. *)
Section Once.
Context `{LruCacheLaws}.
Implicit Types (m : gmap RpcId string) (c : lru) (h : list RpcId).

Definition not_full c : Prop := lru_size c < lru_capacity c.
Record once h m c : Prop := {
  on_room : 0 < lru_capacity c;
  on_size : lru_size c <= lru_capacity c;
  on_apart : forall i, is_Some (m !! i) -> lru_exists i c = false;
  on_seen : not_full c -> NoDup h /\ forall i, i ∈ h -> lru_exists i c = true
}.

Lemma once_new n : 0 < n -> once [] ∅ (lru_new n).
Proof using Type*.
  intros Hn. split.
  - by rewrite lru_capacity_new.
  - rewrite lru_capacity_new, lru_size_new; lia.
  - intros i [x Hx]. by rewrite lookup_empty in Hx.
  - intros _. split; [constructor|]. by intros i ?%elem_of_nil.
Qed.
Lemma once_insert h m c i p : lru_exists i c = false -> once h m c -> once h (<[i := p]> m) c.
Proof using Type*.
  intros Hi [Hr Hs Ha Hh]. split; [done|done| |done].
  intros j. rewrite lookup_insert_is_Some. intros [<-|[_ Hj]]; auto.
Qed.
Lemma once_done h m c i : is_Some (m !! i) -> once h m c -> once (i :: h) (delete i m) (lru_put i c).
Proof using Type*.
  intros Hi [Hr Hs Ha Hh]. destruct (lru_size_put i c Hs) as [Hle Hcap].
  split; unfold not_full in *; rewrite ?lru_capacity_put; [done|done| |].
  - intros j [Hne Hj]%lookup_delete_is_Some. apply not_true_is_false.
    intros [->|Hex]%lru_exists_put_inv; [done|]. by rewrite Ha in Hex.
  - intros Hlt. destruct Hh as [Hd Hh]; [lia|]. split.
    + constructor; [|done]. intros Hin%Hh. by rewrite Ha in Hin.
    + intros j [->|Hj]%elem_of_cons; [by apply lru_exists_put|].
      apply lru_exists_put_keep; [lia|auto].
Qed.
Lemma once_forget h m c i : once (i :: h) m c -> once h m c.
Proof using.
  intros [? ? ? Hh]. split; try done. intros [[_ Hd]%NoDup_cons Hj]%Hh. split; [done|].
  intros j Hin. apply Hj. by right.
Qed.
End Once.

(** ** Handlers that only say what was asked and answered *)
Section Honest.
Context `{LruCacheLaws} `{Oracle} {OL : OracleLaws} `{MsgpackLaws}.
Abbreviation State := (St (list string)).
Abbreviation V := (base_virtuals log_send).
Implicit Types (s : State) (asked answered : list (RpcId * string)).

Definition says_request asked (x : RpcId * string) : Prop :=
  request_wf x /\ (x ∈ asked \/ own_request x.2).
Definition says_answer answered (x : RpcId * string) : Prop :=
  request_wf x /\ (x ∈ answered \/ own_reply x.2).
Definition says_reply answered (y : reply_record) : Prop :=
  reply_wf y /\ says_answer answered (y.1.1.1, y.2).
Inductive says_packet asked answered : string -> Prop :=
  | says_requests l : Forall (says_request asked) l -> says_packet asked answered (request_packet l)
  | says_replies l : Forall (says_reply answered) l -> says_packet asked answered (reply_packet l)
  | says_ack i : RpcId_wf i = true -> says_packet asked answered (ack_packet i "ACK_OK").

(** [asked] and [answered] are this side's, [asked'] and [answered'] the other's. *)
Record honest asked answered asked' answered' s : Prop := {
  ho_outgoing : forall i p, outgoingRequests (rpc s) !! i = Some p -> says_request asked (i, p);
  ho_delayed : forall i p, delayedRequests (rpc s) !! i = Some p -> says_request asked (i, p);
  ho_incoming : forall i p, incomingRequests (rpc s) !! i = Some p -> says_request asked' (i, p);
  ho_outReplies : forall i q, outgoingReplies (rpc s) !! i = Some q -> says_answer answered (i, q);
  ho_inReplies : forall i q, incomingReplies (rpc s) !! i = Some q -> says_answer answered' (i, q);
  ho_sent : Forall (says_packet asked answered) (sub s);
  ho_flaky : flaky (rpc s) = false
}.

Section Side.
Variables asked answered asked' answered' : list (RpcId * string).
Abbreviation ok := (honest asked answered asked' answered').
Definition ready s : Prop := ok s /\ clock_fits s.

(** What [honest] looks at. *)
Definition view (r : Rpc) :=
  (outgoingRequests r, delayedRequests r, incomingRequests r, outgoingReplies r, incomingReplies r, flaky r).
Lemma honest_view s s' : view (rpc s') = view (rpc s) -> sub s' = sub s -> ok s -> ok s'.
Proof using. unfold view. intros [= E1 E2 E3 E4 E5 E6] Es []. split; rewrite ?E1, ?E2, ?E3, ?E4, ?E5, ?E6, ?Es; done. Qed.
Lemma honest_same s s' : same s s' -> ok s -> ok s'.
Proof using. intros (Er & Es & _). apply honest_view; [by rewrite Er|done]. Qed.
Lemma ready_same s s' : same s s' -> ready s -> ready s'.
Proof using. intros Hs [Ho Hc]. split; [by apply (honest_same s)|by apply (clock_fits_same s)]. Qed.

(** One more packet was sent, nothing else happened. *)
Definition sent s s' : Prop :=
  exists packet s1, same s s1 /\ s' = mkSt (rpc s1) (packet :: sub s1) (world s1) /\
    says_packet asked answered packet.
Lemma sent_honest s s' : sent s s' -> ok s -> ok s'.
Proof using.
  intros (packet & s1 & Hs & -> & Hp) Ho. apply (honest_same _ _ Hs) in Ho as [].
  split; try done. simpl. by constructor.
Qed.
Lemma sent_ready s s' : sent s s' -> ready s -> ready s'.
Proof using.
  intros Hs [Ho Hc]. split; [by apply (sent_honest s)|]. destruct Hs as (packet & s1 & Hs & -> & _).
  exact (clock_fits_same _ _ Hs Hc).
Qed.
Lemma sent_rpc s s' : sent s s' -> rpc s' = rpc s.
Proof using. intros (packet & s1 & Hs & -> & _). exact (same_rpc _ _ Hs). Qed.

Lemma sendRequest_sent i p b s s' :
  ok s -> says_request asked (i, p) -> sendRequest log_send i p b s = Ok (tt, s') -> sent s s'.
Proof using OL.
  intros Ho Hi E. apply sendRequest_packet in E as (l & s1 & Hs & E & _ & Hl).
  rewrite log_send_ok in E. injection E as <-. exists (request_packet ((i, p) :: l)), s1.
  split; [done|]. split; [done|]. constructor. constructor; [done|]. apply Forall_forall.
  intros [j q] [Hj _]%Hl. by eapply ho_outgoing.
Qed.
Lemma sendReply_sent i q b s s' :
  ready s -> says_answer answered (i, q) -> sendReply log_send i q b s = Ok (tt, s') -> sent s s'.
Proof using OL.
  intros [Ho Hc] Hi E. apply sendReply_packet in E as (l & y & ys & s1 & Hs & E & Hy & Hys & _ & Hl).
  rewrite log_send_ok in E. injection E as <-. exists (reply_packet (y :: ys)), s1.
  split; [done|]. split; [done|].
  assert (forall x z, says_answer answered x -> record_for s x z -> says_reply answered z) as Hz.
  { intros [j a] z [Hx1 Hx2] (t1 & t2 & -> & _ & Hf). destruct (Hf Hc) as [Hf1 Hf2].
    split; [by destruct Hx1|done]. }
  constructor. constructor; [by apply (Hz (i, q))|]. clear Hy.
  induction Hys as [|[j a] z l ys Hr _ IH]; [constructor|]. constructor.
  - apply (Hz (j, a)); [|done]. eapply ho_outReplies; [done|]. by apply (Hl (j, a)); left.
  - apply IH. intros x Hx. apply Hl. by right.
Qed.
Lemma sendAcknowledge_sent i s s' :
  RpcId_wf i = true -> sendAcknowledge log_send i s = Ok (tt, s') -> sent s s'.
Proof using.
  intros Hi E. rewrite sendAcknowledge_ok in E. injection E as <-.
  exists (ack_packet i "ACK_OK"), s. split; [apply same_refl|]. split; [done|]. by constructor.
Qed.

(** *** Requests go out *)
Lemma createRequest_honest i s s' : ok s -> clock_createRequest i s = Ok (tt, s') -> ok s'.
Proof using.
  intros Ho E. unfold clock_createRequest, stamp, read_world in E.
  apply bind_ok in E as (now & s1 & E1 & E). destruct (world_stamp (world s)) as [n w]. injection E1 as <- <-.
  apply bind_ok in E as (r & s1 & E1 & E). run E1.
  destruct (createRequest _ _ _) as [[? c]|]; [|done]. run E. by apply (honest_view s).
Qed.
Lemma insert_says {P : RpcId * string -> Prop} (m : gmap RpcId string) i p :
  P (i, p) -> (forall j q, m !! j = Some q -> P (j, q)) ->
  forall j q, <[i := p]> m !! j = Some q -> P (j, q).
Proof using. intros Hi Hm j q [[-> ->]|[_ Hj]]%lookup_insert_Some; auto. Qed.
Lemma delete_says {P : RpcId * string -> Prop} (m : gmap RpcId string) i :
  (forall j q, m !! j = Some q -> P (j, q)) -> forall j q, delete i m !! j = Some q -> P (j, q).
Proof using. intros Hm j q [_ Hj]%lookup_delete_Some. auto. Qed.

Lemma walk_same m s l s' : walk m s = Ok (l, s') -> same s s'.
Proof using. intros E. by apply same_reading in E as [_ E]. Qed.
Lemma map_begin_same m s it s' : map_begin m s = Ok (it, s') -> same s s'.
Proof using. unfold map_begin. intros (l & s1 & E1 & E)%bind_ok. apply walk_same in E1. by destruct l; run E. Qed.

Lemma requestWithId_honest x s s' :
  ok s -> says_request asked (ip_id x, ip_payload x) -> requestWithId log_send x s = Ok (tt, s') -> ok s'.
Proof using OL.
  intros Ho Hx E. unfold requestWithId in E. apply bind_ok in E as (r & s1 & E1 & E). run E1.
  apply bind_ok in E as (now & s1 & E1 & E).
  assert (ok s1) as Ho1.
  { destruct (bool_decide _) in E1; [by run E1|]. apply bind_ok in E1 as (it & s2 & E1 & E2). run E2.
    by apply map_begin_same, honest_same in E1. }
  destruct now.
  - apply bind_ok in E as ([] & s2 & E2 & E). run E2. apply bind_ok in E as ([] & s2 & E2 & E).
    apply createRequest_honest in E2.
    + eapply sent_honest; [|exact E2]. by eapply sendRequest_sent.
    + destruct Ho1. split; try done. simpl. by apply (insert_says (P := says_request asked)).
  - run E. destruct Ho1. split; try done. simpl. by apply (insert_says (P := says_request asked)).
Qed.

Lemma sendDelayed_honest lowest it s s' :
  ok s -> says_request asked it -> sendDelayed log_send lowest it s = Ok (tt, s') -> ok s'.
Proof using OL.
  intros Ho Hit E. unfold sendDelayed in E. destruct (_ =? _); [|by run E]. destruct it as [i p].
  apply bind_ok in E as ([] & s1 & E1 & E). run E1. apply bind_ok in E as ([] & s1 & E1 & E).
  apply createRequest_honest in E1; [|destruct Ho; split; try done; simpl; by apply (insert_says (P := says_request asked))].
  apply bind_ok in E as ([] & s2 & E2 & E). apply sendRequest_sent in E2; [|done|done].
  apply sent_honest in E2; [|done]. run E. destruct E2. split; try done.
  simpl. by apply (delete_says (P := says_request asked)).
Qed.
Lemma tryToSendBarrier_honest s s' : ok s -> tryToSendBarrier log_send s = Ok (tt, s') -> ok s'.
Proof using OL.
  intros Ho E. unfold tryToSendBarrier in E. apply bind_ok in E as (r & s1 & E1 & E). run E1.
  destruct (bool_decide _) in E; [by run E|]. destruct (bool_decide _) in E; [|by run E].
  apply bind_ok in E as (x & s1 & E1 & E). apply bind_ok in E as (l1 & s2 & E2 & E).
  apply bind_ok in E as (l & s3 & E3 & E).
  assert (ok s3) as Ho3.
  { eapply honest_same; [|exact Ho]. eapply same_trans; [by eapply map_begin_same|].
    eapply same_trans; by eapply walk_same. }
  revert E. apply (for_each_inv ok); [|done]. intros it sa sb Hit Hoa. apply sendDelayed_honest; [done|].
  apply (walk_elem _ _ _ _ _ E3) in Hit. destruct it as [i p]. exact (ho_delayed _ _ _ _ _ Ho _ _ Hit).
Qed.

(** A new request, one-way or not, under the id that is drawn for it. *)
Lemma request_honest p s i s' :
  ok s -> says_request asked (next_id s, p) -> request (v_requestWithId V) p s = Ok (i, s') ->
  i = next_id s /\ ok s'.
Proof using OL.
  intros Ho Hp E. unfold request in E. apply bind_ok in E as (cd & s1 & E1 & E).
  apply same_reading in E1 as [Hcd E1]. apply bind_ok in E as (r & s2 & E2 & E). run E2.
  apply bind_ok in E as ([] & s2 & E2 & E). run E.
  assert (mkRpcId (onBarrier (rpc s1)) cd = next_id s) as Hid
    by (unfold next_id; by rewrite (same_rpc _ _ E1), Hcd).
  rewrite Hid in *. split; [done|]. eapply requestWithId_honest; [| |exact E2]; [|done].
  by apply (honest_same s).
Qed.
Lemma requestOneWay_honest p s s' :
  ok s -> says_request asked (next_id s, p) -> do_requestOneWay V p s = Ok (tt, s') -> ok s'.
Proof using OL.
  intros Ho Hp E. unfold do_requestOneWay, requestOneWay in E. apply bind_ok in E as (cd & s1 & E1 & E).
  apply same_reading in E1 as [Hcd E1]. apply bind_ok in E as (r & s2 & E2 & E). run E2.
  apply bind_ok in E as ([] & s2 & E2 & E). run E2.
  assert (mkRpcId (onBarrier (rpc s1)) cd = next_id s) as Hid
    by (unfold next_id; by rewrite (same_rpc _ _ E1), Hcd).
  rewrite Hid in *. eapply requestWithId_honest; [| |exact E]; [|done].
  apply (honest_view s1); [done|done|]. by apply (honest_same s).
Qed.
Lemma own_request_said p s :
  in_s 64 (onBarrier (rpc s)) = true -> own_request p -> says_request asked (next_id s, p).
Proof using OL.
  intros Hb Hp. split; [|by right]. split.
  - unfold RpcId_wf, next_id. simpl. by rewrite Hb, o_uuid_range.
  - by destruct Hp as [-> | ->].
Qed.

Lemma resend_honest s s' : ready s -> resendRandomOutgoingMessage log_send s = Ok (tt, s') -> ok s'.
Proof using OL.
  intros Hr E. unfold resendRandomOutgoingMessage in E. apply bind_ok in E as (r & s1 & E1 & E). run E1.
  destruct (negb _) in E; [|destruct (negb _) in E; [|by run E; apply Hr]];
    apply bind_ok in E as ([i x] & s1 & E1 & E); apply draw_elem in E1 as [Hi E1]; simpl in *.
  - apply sendReply_sent in E; [| |by eapply ho_outReplies; [apply Hr|]]; [|by apply (ready_same s)].
    eapply sent_honest; [done|]. eapply honest_same; [done|]. apply Hr.
  - assert (ok s1) as Ho1 by (eapply honest_same; [done|apply Hr]).
    apply sendRequest_sent in E; [by apply sent_honest in E|done|].
    eapply ho_outgoing; [exact Ho1|]. by rewrite (same_rpc _ _ E1).
Qed.
Lemma heartbeat_honest s s' :
  ready s -> in_s 64 (onBarrier (rpc s)) = true ->
  heartbeat log_send (v_requestWithId V) (ret true) s = Ok (tt, s') -> ok s'.
Proof using OL.
  intros Hr Hb E. unfold heartbeat in E. apply bind_ok in E as (r & s1 & E1 & E). run E1.
  destruct (_ || _) in E; [by apply resend_honest in E|].
  apply bind_ok in E as (b & s1 & E1 & E). run E1. destruct (_ && _) in E; [|run E; apply Hr].
  eapply requestOneWay_honest; [apply Hr| |exact E]. apply own_request_said; [done|by left].
Qed.

(** *** Requests come in and replies go out *)
Lemma reply_ready i q s s' :
  ready s -> says_answer answered (i, q) -> reply log_send i q s = Ok (tt, s') ->
  ready s' /\ is_Some (incomingRequests (rpc s) !! i) /\
  incomingRequests (rpc s') = delete i (incomingRequests (rpc s)) /\
  processedRequests (rpc s') = lru_put i (processedRequests (rpc s)) /\
  incomingReplies (rpc s') = incomingReplies (rpc s) /\
  processedReplies (rpc s') = processedReplies (rpc s).
Proof using OL.
  intros [Ho Hc] Hi E. unfold reply in E. apply bind_ok in E as (r & s1 & E1 & E). run E1.
  destruct (incomingRequests (rpc s) !! i) eqn:Hin; [|done].
  do 3 (apply bind_ok in E as ([] & s1 & E1 & E); run E1).
  apply sendReply_sent in E; [| |done].
  - pose proof (sent_rpc _ _ E) as Hrpc. apply sent_ready in E.
    + split; [done|]. split; [done|]. by rewrite Hrpc.
    + split; [|exact Hc]. destruct Ho. split; try done; simpl.
      * by apply (delete_says (P := says_request asked')).
      * by apply (insert_says (P := says_answer answered)).
  - split; [|exact Hc]. destruct Ho. split; try done; simpl.
    + by apply (delete_says (P := says_request asked')).
    + by apply (insert_says (P := says_answer answered)).
Qed.

Lemma addIncomingRequest_ready i p s s' :
  ready s -> says_request asked' (i, p) -> incomingRequests (rpc s) !! i = None ->
  addIncomingRequest (mkIdPayload i p) s = Ok (tt, s') ->
  ready s' /\ incomingRequests (rpc s') = <[i := p]> (incomingRequests (rpc s)) /\
  processedRequests (rpc s') = processedRequests (rpc s) /\
  incomingReplies (rpc s') = incomingReplies (rpc s) /\
  processedReplies (rpc s') = processedReplies (rpc s).
Proof using.
  intros [Ho Hc] Hp Hn E. unfold addIncomingRequest, clock_receiveRequest in E.
  apply bind_ok in E as ([] & s1 & E1 & E). apply bind_ok in E1 as (now & s2 & E2 & E1).
  unfold stamp, read_world, world_stamp, reading in E2. simpl in E2. injection E2 as Hnow <-.
  apply bind_ok in E1 as (r & s3 & E3 & E1). run E3. simpl in E1. unfold receiveRequest in E1.
  destruct (requestReceiveTimeMap _ !! i) eqn:Hr; [done|]. run E1. run E. cbn [ip_id ip_payload rpc] in *.
  rewrite Hn. split; [|done]. split.
  - destruct Ho. split; try done. simpl. by apply (insert_says (P := says_request asked')).
  - destruct Hc as [Hc1 Hc2]. split; [|exact Hc2]. simpl.
    intros j t [[-> <-]|[_ Hj]]%lookup_insert_Some; [rewrite <- Hnow; apply Hc2|by eapply Hc1].
Qed.

(** The caches agree with what was dealt with ([h] requests, [k] replies), and no ping or
    shutdown is left to the application. *)
Definition tidy_part (r : Rpc) :=
  (incomingRequests r, processedRequests r, incomingReplies r, processedReplies r).
Record tidy (h k : list RpcId) (r : Rpc) : Prop := {
  ti_requests : once h (incomingRequests r) (processedRequests r);
  ti_replies : once k (incomingReplies r) (processedReplies r);
  ti_own : forall i p, incomingRequests r !! i = Some p -> ~ own_request p
}.
Lemma tidy_same h k r r' : tidy_part r' = tidy_part r -> tidy h k r -> tidy h k r'.
Proof using. unfold tidy_part. intros [= E1 E2 E3 E4] []. split; by rewrite ?E1, ?E2, ?E3, ?E4. Qed.
Lemma tidy_keeps {A} h k (m : M State A) s a s' :
  keeps tidy_part m -> m s = Ok (a, s') -> tidy h k (rpc s) -> tidy h k (rpc s').
Proof using. intros Hk E. apply tidy_same. by apply (Hk s a). Qed.

Lemma own_answer i q : RpcId_wf i = true -> own_reply q -> says_answer answered (i, q).
Proof using. intros Hi Hq. split; [|by right]. split; [done|]. by destruct Hq as [-> | ->]. Qed.

(** The handler answers a ping or a shutdown that just came. *)
Lemma reply_tidy i q h k s s' :
  ready s -> says_answer answered (i, q) -> reply log_send i q s = Ok (tt, s') ->
  once h (incomingRequests (rpc s)) (processedRequests (rpc s)) ->
  once k (incomingReplies (rpc s)) (processedReplies (rpc s)) ->
  (forall j p, incomingRequests (rpc s) !! j = Some p -> j <> i -> ~ own_request p) ->
  ready s' /\ tidy (i :: h) k (rpc s') /\ is_Some (incomingRequests (rpc s) !! i) /\
  processedRequests (rpc s') = lru_put i (processedRequests (rpc s)).
Proof using Type*.
  intros Hr Hi E Hh Hk Hown. destruct (reply_ready _ _ _ _ Hr Hi E) as (Hr' & Hin & E1 & E2 & E3 & E4).
  split; [done|]. split; [|by split]. split; rewrite ?E1, ?E2, ?E3, ?E4; [by apply once_done|done|].
  intros j p [Hne Hj]%lookup_delete_Some. by eapply Hown.
Qed.

Lemma handleRequest_ready i p h k s s' :
  ready s -> tidy h k (rpc s) -> says_request asked' (i, p) ->
  do_handleRequest V i p s = Ok (tt, s') -> ready s' /\ tidy h k (rpc s').
Proof using Type*.
  intros Hr [Hh Hk Hown] Hp E. unfold do_handleRequest, handleRequest in E.
  apply bind_ok in E as (r & s1 & E1 & E). run E1.
  destruct (bool_decide (is_Some (incomingRequests (rpc s) !! i)) ||
            lru_exists i (processedRequests (rpc s))) eqn:Hskip; [by run E|].
  apply orb_false_iff in Hskip as [Hin%bool_decide_eq_false Hlru].
  assert (incomingRequests (rpc s) !! i = None) as Hn by (by apply eq_None_not_Some).
  destruct (outgoingReplies (rpc s) !! i) as [q|] eqn:Hq.
  { apply bind_ok in E as (b & s1 & E1 & E). apply bind_ok in E1 as ([] & s2 & E2 & E1). run E1. run E.
    apply sendReply_sent in E2; [|done|by eapply ho_outReplies; [apply Hr|]].
    pose proof (sent_rpc _ _ E2) as Hrpc. apply sent_ready in E2; [|done]. by rewrite Hrpc. }
  apply bind_ok in E as (b & s1 & E1 & E). run E1. apply bind_ok in E as ([] & s2 & E2 & E).
  apply addIncomingRequest_ready in E2 as (Hr2 & E2 & E3 & E4 & E5); [|done..].
  apply bind_ok in E as (r & s3 & E6 & E). run E6. rewrite E2, lookup_insert_eq in E.
  assert (once h (incomingRequests (rpc s2)) (processedRequests (rpc s2))) as Hh2
    by (rewrite E2, E3; by apply once_insert).
  assert (once k (incomingReplies (rpc s2)) (processedReplies (rpc s2))) as Hk2 by (by rewrite E4, E5).
  assert (forall j x, incomingRequests (rpc s2) !! j = Some x -> j <> i -> ~ own_request x) as Hown2.
  { intros j x. rewrite E2. intros [[<- _]|[_ Hj]]%lookup_insert_Some Hne; [done|by eapply Hown]. }
  assert (RpcId_wf i = true) as Hi by apply Hp. case_bool_decide as Hping.
  { destruct (reply_tidy _ _ h k _ _ Hr2 (own_answer i "PONG" Hi ltac:(by left)) E Hh2 Hk2 Hown2) as (? & [] & _).
    split; [done|]. split; try done. by eapply once_forget. }
  case_bool_decide as Hshut.
  - apply bind_ok in E as ([] & s3 & E6 & E). unfold shutdown in E6. run E6.
    eapply (reply_tidy i "SHUTDOWN_REPLY" h k) in E as (? & [] & _); try done.
    + split; [done|]. split; try done. by eapply once_forget.
    + destruct Hr2 as [[] Hc]. by split.
    + apply own_answer; [done|by right].
  - run E. split; [done|]. split; [done|done|]. intros j x Hj.
    destruct (decide (j = i)) as [->|]; [|by eapply Hown2].
    rewrite E2, lookup_insert_eq in Hj. injection Hj as <-. by intros [|].
Qed.
Lemma handleRequests_ready l h k s s' :
  Forall (says_request asked') l -> ready s -> tidy h k (rpc s) ->
  for_each l (fun x => do_handleRequest V x.1 x.2) s = Ok (tt, s') -> ready s' /\ tidy h k (rpc s').
Proof using Type*.
  intros Hl Hr Ht. apply (for_each_inv (fun s => ready s /\ tidy h k (rpc s))); [|done].
  intros [i p] s1 s2 Hx [Hr1 Ht1]. apply handleRequest_ready; [done|done|]. by eapply Forall_forall in Hl.
Qed.

(** *** Replies come in *)
#[local] Hint Resolve keeps_log_send : keeps.
Lemma keeps_clock_createRequest_tidy i : keeps (X := list string) tidy_part (clock_createRequest i).
Proof using. unfold clock_createRequest. keeps_tac. Qed.
#[local] Hint Resolve keeps_clock_createRequest_tidy : keeps.
Lemma keeps_tryToSendBarrier_tidy : keeps tidy_part (tryToSendBarrier log_send).
Proof using. unfold tryToSendBarrier, sendDelayed. keeps_tac. Qed.
Lemma keeps_requestWithId_tidy x : keeps tidy_part (requestWithId log_send x).
Proof using. unfold requestWithId. keeps_tac. Qed.
#[local] Hint Resolve keeps_requestWithId_tidy : keeps.

Lemma clock_handleReply_honest i t1 t2 s s' :
  ok s -> clock_handleReply i t1 t2 s = Ok (tt, s') ->
  ok s' /\ tidy_part (rpc s') = tidy_part (rpc s).
Proof using.
  intros Ho E. unfold clock_handleReply, stamp, read_world in E. apply bind_ok in E as (now & s1 & E1 & E).
  destruct (world_stamp (world s)) as [n w]. injection E1 as <- <-. simpl in E.
  destruct (ClockSynchronizer.handleReply _ _ _ _ _ _) as [[c t]|]; [|done]. run E.
  split; [by apply (honest_view s)|done].
Qed.
(** What [handleReply] does with the payload of a reply that was waited for. *)
Lemma deliver_honest i q h k s s' :
  ok s -> tidy h k (rpc s) -> says_answer answered' (i, q) -> lru_exists i (processedReplies (rpc s)) = false ->
  (if bool_decide (i ∈ oneWayRequests (rpc s))
   then mod_rpc (fun r => set_oneWay (oneWayRequests r ∖ {[i]}) r)
   else addIncomingReply i q) s = Ok (tt, s') -> ok s' /\ tidy h k (rpc s').
Proof using Type*.
  intros Ho [Hh Hk Hown] Hq Hl E. case_bool_decide.
  - run E. split; [by apply (honest_view s)|done].
  - unfold addIncomingReply in E. run E. cbn [rpc sub].
    destruct (incomingReplies (rpc s) !! i); [by split; [apply (honest_view s)|]|].
    split; [|by split; [done|apply once_insert|done]].
    destruct Ho. split; try done. simpl. by apply (insert_says (P := says_answer answered')).
Qed.
Lemma handleReply_honest i q t1 t2 h k s s' :
  ok s -> tidy h k (rpc s) -> RpcId_wf i = true -> says_answer answered' (i, q) ->
  v_handleReply V i q t1 t2 s = Ok (tt, s') -> ok s' /\ tidy h k (rpc s').
Proof using Type*.
  intros Ho Ht Hi Hq E. simpl in E. unfold handleReply in E. apply bind_ok in E as (r & s1 & E1 & E). run E1.
  assert (forall s1 s', ok s1 -> tidy h k (rpc s1) -> sendAcknowledge log_send i s1 = Ok (tt, s') ->
    ok s' /\ tidy h k (rpc s')) as Hack.
  { intros s1 s2 Ho1 Ht1 E1. apply sendAcknowledge_sent in E1; [|done].
    rewrite (sent_rpc _ _ E1). split; [by apply (sent_honest s1)|done]. }
  destruct (bool_decide (is_Some (incomingReplies (rpc s) !! i)) ||
            lru_exists i (processedReplies (rpc s))) eqn:Hskip; [by apply Hack in E|].
  apply orb_false_iff in Hskip as [_ Hlru]. destruct (outgoingRequests (rpc s) !! i); [|by apply Hack in E].
  apply bind_ok in E as ([] & s1 & E1 & E). run E1. apply bind_ok in E as ([] & s1 & E1 & E).
  pose proof (keeps_tryToSendBarrier_tidy _ _ _ E1) as K1. apply tryToSendBarrier_honest in E1;
    [|destruct Ho; split; try done; simpl; by apply (delete_says (P := says_request asked))].
  change (tidy_part (rpc s1) = tidy_part (rpc s)) in K1.
  assert (tidy h k (rpc s1)) as Ht1 by (by eapply tidy_same; [exact K1|]). unfold tidy_part in K1. injection K1 as _ _ _ K1. cbn in K1.
  apply bind_ok in E as (r & s2 & E2 & E). run E2. apply bind_ok in E as ([] & s2 & E2 & E).
  apply (deliver_honest i q h k) in E2 as [Ho2 Ht2]; [|done|done|done|by rewrite K1].
  apply bind_ok in E as ([] & s3 & E3 & E). apply Hack in E3 as [Ho3 Ht3]; [|done|done].
  apply clock_handleReply_honest in E as [Ho4 E4]; [|done]. split; [done|]. by eapply tidy_same.
Qed.

(** *** A packet of the other side *)
Lemma receive_honest m h k s b s' :
  ready s -> tidy h k (rpc s) -> says_packet asked' answered' m -> do_receive V m s = Ok (b, s') ->
  ok s' /\ tidy h k (rpc s').
Proof using Type*.
  intros Hr Ht Hm E. assert (flaky (rpc s) = false) as Hf by apply Hr. destruct Hm as [l Hl|l Hl|i Hi].
  - rewrite receive_request_packet in E by (done || by eapply Forall_impl; [exact Hl|intros x []]).
    apply bind_ok in E as ([] & s1 & E1 & E). run E.
    apply (handleRequests_ready _ h k) in E1 as [[Ho _] Ht1]; done.
  - rewrite receive_reply_packet in E by (done || by eapply Forall_impl; [exact Hl|intros x []]).
    apply bind_ok in E as ([] & s1 & E1 & E). run E.
    eapply (for_each_inv (fun s => ok s /\ tidy h k (rpc s))) in E1; [exact E1| |by split; [apply Hr|]].
    intros [[[i t1] t2] q] sa sb Hx [Ho1 Ht1] E2.
    rewrite Forall_forall in Hl. destruct (Hl _ Hx) as [(Hi & _) Hq].
    by apply (handleReply_honest i q t1 t2 h k sa sb).
  - rewrite receive_ack_packet in E by done. apply bind_ok in E as ([] & s1 & E1 & E). run E.
    unfold handleAcknowledge, clock_eraseRequestRecieveTime in E1. apply bind_ok in E1 as (r & s2 & E2 & E1).
    run E2. destruct (outgoingReplies (rpc s) !! i); [|by run E1; split; [apply Hr|]].
    apply bind_ok in E1 as ([] & s3 & E3 & E1). apply bind_ok in E3 as (r & s4 & E4 & E3). run E4.
    destruct (eraseRequestRecieveTime _ _); [|done]. run E3. run E1. split; [|by eapply tidy_same; [|exact Ht]].
    destruct Hr as [[] _]. split; try done. simpl. by apply (delete_says (P := says_answer answered)).
Qed.

(** *** The application takes a reply *)
Lemma take_reply_tidy i q h k s :
  ok s -> tidy h k (rpc s) -> incomingReplies (rpc s) !! i = Some q ->
  let s' := mkSt (set_inReplies (delete i (incomingReplies (rpc s)))
                   (set_processedReplies (lru_put i (processedReplies (rpc s))) (rpc s))) (sub s) (world s) in
  ok s' /\ tidy h (i :: k) (rpc s') /\ says_answer answered' (i, q).
Proof using Type*.
  intros Ho [Hh Hk Hown] Hi s'. split; [|split].
  - destruct Ho. split; try done. simpl. by apply (delete_says (P := says_answer answered')).
  - split; [done| |done]. by apply once_done.
  - by eapply ho_inReplies.
Qed.
End Side.

(** ** Two applications over a network *)
Record Peer : Type := mkPeer {
  handler : State;
  p_asked : list (RpcId * string);
  p_answered : list (RpcId * string);
  p_taken : list (RpcId * string)
}.
Definition with_handler s a : Peer := mkPeer s (p_asked a) (p_answered a) (p_taken a).
Definition start toHost w : Peer := mkPeer (mkSt (Rpc_init false toHost) [] w) [] [] [].
Definition fits s : Prop := clock_fits s /\ in_s 64 (onBarrier (rpc s)) = true.

(** Calls that ask, answer and take nothing. *)
Definition quiet (c : rpc_call) : bool :=
  match c with
  | CallBarrier | CallShutdown | CallSendShutdown | CallHeartbeat | CallResend => true
  | _ => false
  end.

(** What an application does with its handler; the rest of the process may change the
    world the handler shares. *)
Inductive acts (a : Peer) : Peer -> Prop :=
  | act_request p i s' :
      slen p < 2 ^ 32 -> request (v_requestWithId V) p (handler a) = Ok (i, s') ->
      acts a (mkPeer s' ((i, p) :: p_asked a) (p_answered a) (p_taken a))
  | act_requestOneWay p s' :
      slen p < 2 ^ 32 -> do_requestOneWay V p (handler a) = Ok (tt, s') ->
      acts a (mkPeer s' ((next_id (handler a), p) :: p_asked a) (p_answered a) (p_taken a))
  | act_reply i q s' :
      slen q < 2 ^ 32 -> v_reply V i q (handler a) = Ok (tt, s') ->
      acts a (mkPeer s' (p_asked a) ((i, q) :: p_answered a) (p_taken a))
  | act_getFirst x s' :
      getFirstIncomingReply (handler a) = Ok (x, s') ->
      acts a (mkPeer s' (p_asked a) (p_answered a) ((ip_id x, ip_payload x) :: p_taken a))
  | act_consume i q s' :
      consumeIncomingReplyWithId i (handler a) = Ok (q, s') ->
      acts a (mkPeer s' (p_asked a) (p_answered a) ((i, q) :: p_taken a))
  | act_quiet c s' :
      quiet c = true -> run_call V c (handler a) = Ok (tt, s') -> acts a (with_handler s' a)
  | act_world w : acts a (with_handler (mkSt (rpc (handler a)) (sub (handler a)) w) a).

(** Any packet the other side ever sent may come, at any time, any number of times or
    never.  The times of the packets fit their 64 bits. *)
Inductive exchange : Peer -> Peer -> Prop :=
  | exchange_start ha wa hb wb : exchange (start ha wa) (start hb wb)
  | exchange_act a a' b : exchange a b -> fits (handler a) -> acts a a' -> exchange a' b
  | exchange_receive a b m r s' :
      exchange a b -> fits (handler a) -> m ∈ sub (handler b) ->
      do_receive V m (handler a) = Ok (r, s') -> exchange (with_handler s' a) b
  | exchange_swap a b : exchange a b -> exchange b a.

(** One side of the pair, as the other may rely on it. *)
Record side (a b : Peer) : Prop := {
  si_honest : honest (p_asked a) (p_answered a) (p_asked b) (p_answered b) (handler a);
  si_tidy : tidy (p_answered a).*1 (p_taken a).*1 (rpc (handler a));
  si_answered : forall i q, (i, q) ∈ p_answered a -> exists p, (i, p) ∈ p_asked b;
  si_taken : forall i q, (i, q) ∈ p_taken a -> (i, q) ∈ p_answered b \/ own_reply q
}.

Lemma honest_mono asked answered asked' answered' asked1 answered1 asked1' answered1' s :
  asked ⊆ asked1 -> answered ⊆ answered1 -> asked' ⊆ asked1' -> answered' ⊆ answered1' ->
  honest asked answered asked' answered' s -> honest asked1 answered1 asked1' answered1' s.
Proof using.
  intros H1' H2' H3' H4' [Ho Hd Hi Hor Hir Hs Hf].
  assert (forall l l' : list (RpcId * string), l ⊆ l' -> forall x, says_request l x -> says_request l' x) as Hq.
  { intros l l' Hl x [Hx [Hin|Hown]]; split; auto. }
  assert (forall l l' : list (RpcId * string), l ⊆ l' -> forall x, says_answer l x -> says_answer l' x) as Ha.
  { intros l l' Hl x [Hx [Hin|Hown]]; split; auto. }
  split; eauto. eapply Forall_impl; [exact Hs|]. intros m [l Hl|l Hl|i Hw]; constructor; [..|done];
    (eapply Forall_impl; [exact Hl|]); eauto. intros y [Hy Hx]. split; eauto.
Qed.
Lemma side_mono a b b' :
  p_asked b ⊆ p_asked b' -> p_answered b ⊆ p_answered b' -> side a b -> side a b'.
Proof using.
  intros Hk Hw [Hh Ht Ha Hr]. split; [by eapply honest_mono; [..|exact Hh]|done| |].
  - intros i q (p & Hp)%Ha. exists p. auto.
  - intros i q [?|?]%Hr; auto.
Qed.
Lemma subseteq_grow {A} (x : A) l : l ⊆ x :: l.
Proof using. intros y Hy. by right. Qed.
#[local] Hint Resolve subseteq_grow : core.

Lemma quiet_side c a b s' :
  quiet c = true -> fits (handler a) -> run_call V c (handler a) = Ok (tt, s') ->
  side a b -> side (with_handler s' a) b.
Proof using Type*.
  intros Hq [Hc Hb] E [Hh Ht Ha Hr]. assert (ready (p_asked a) (p_answered a) (p_asked b) (p_answered b) (handler a))
    as Hready by done.
  split; simpl; [| |done|done].
  - destruct c; try done; simpl in E.
    + unfold barrier_ in E. apply bind_ok in E as (r & s1 & E1 & E). run E1.
      unfold int64 in E. destruct (in_s 64 (onBarrier _ + 1)); [|done]. run E. by apply (honest_view _ _ _ _ (handler a)).
    + unfold shutdown in E. run E. by apply (honest_view _ _ _ _ (handler a)).
    + unfold sendShutdown in E. apply bind_ok in E as (r & s1 & E1 & E). run E1.
      destruct (shuttingDown _); [by run E|]. eapply requestOneWay_honest; [exact Hh| |exact E].
      apply own_request_said; [done|by right].
    + by eapply heartbeat_honest.
    + by eapply resend_honest.
  - eapply tidy_keeps; [|exact E|exact Ht]. destruct c; try done; simpl;
      unfold barrier_, shutdown, sendShutdown, heartbeat, requestOneWay;
      pose proof keeps_requestWithId_tidy; pose proof keeps_log_send; keeps_tac; auto with keeps.
Qed.

Lemma asked_said asked p s :
  in_s 64 (onBarrier (rpc s)) = true -> slen p < 2 ^ 32 ->
  says_request ((next_id s, p) :: asked) (next_id s, p).
Proof using OL.
  intros Hb Hp. split; [|left; left]. split; [|done].
  unfold RpcId_wf, next_id. simpl. by rewrite Hb, o_uuid_range.
Qed.
Lemma ask_side i p a b s' :
  honest ((i, p) :: p_asked a) (p_answered a) (p_asked b) (p_answered b) s' ->
  tidy (p_answered a).*1 (p_taken a).*1 (rpc s') -> side a b ->
  side (mkPeer s' ((i, p) :: p_asked a) (p_answered a) (p_taken a)) b.
Proof using. intros Hh Ht [_ _ Ha Hr]. by split. Qed.
Lemma honest_ask x a b :
  honest (p_asked a) (p_answered a) (p_asked b) (p_answered b) (handler a) ->
  honest (x :: p_asked a) (p_answered a) (p_asked b) (p_answered b) (handler a).
Proof using. by apply honest_mono. Qed.

Lemma reply_side i q a b s' :
  slen q < 2 ^ 32 -> fits (handler a) -> reply log_send i q (handler a) = Ok (tt, s') ->
  side a b -> side (mkPeer s' (p_asked a) ((i, q) :: p_answered a) (p_taken a)) b.
Proof using Type*.
  intros Hq [Hc _] E [Hh Ht Ha Hr]. destruct Ht as [Ht1 Ht2 Ht3].
  destruct (incomingRequests (rpc (handler a)) !! i) as [p|] eqn:Hi;
    [|unfold reply in E; apply bind_ok in E as (r & s1 & E1 & E); run E1; by rewrite Hi in E].
  destruct (ho_incoming _ _ _ _ _ Hh _ _ Hi) as [[Hwf _] [Hin|Hown]]; [|by apply Ht3 in Hi].
  assert (honest (p_asked a) ((i, q) :: p_answered a) (p_asked b) (p_answered b) (handler a)) as Hh'
    by (revert Hh; by apply honest_mono).
  destruct (reply_tidy _ _ _ _ i q (p_answered a).*1 (p_taken a).*1 _ _ (conj Hh' Hc)
    ltac:(by split; [|left; left]) E Ht1 Ht2) as ([Hs _] & Ht' & _); [by intros j x Hj _; eapply Ht3|].
  split; [done|done| |done].
  intros j x [[= -> ->]|Hj]%elem_of_cons; [by exists p|by eapply Ha].
Qed.
Lemma take_side i q a b s1 s' :
  same (handler a) s1 -> incomingReplies (rpc (handler a)) !! i = Some q ->
  s' = mkSt (set_inReplies (delete i (incomingReplies (rpc s1)))
              (set_processedReplies (lru_put i (processedReplies (rpc s1))) (rpc s1))) (sub s1) (world s1) ->
  side a b -> side (mkPeer s' (p_asked a) (p_answered a) ((i, q) :: p_taken a)) b.
Proof using Type*.
  intros Hs Hi -> [Hh Ht Ha Hr]. assert (rpc s1 = rpc (handler a)) as Er by (by apply same_rpc).
  apply (honest_same _ _ _ _ _ _ Hs) in Hh. rewrite <- Er in Ht, Hi.
  destruct (take_reply_tidy _ _ _ _ i q _ _ s1 Hh Ht Hi) as (Hh' & Ht' & [_ Hq]).
  split; [exact Hh'|exact Ht'|done|].
  intros j x [[= -> ->]|Hj]%elem_of_cons; [done|by eapply Hr].
Qed.

Lemma acts_side a a' b : fits (handler a) -> acts a a' -> side a b -> side a' b.
Proof using Type*.
  intros Hf Hact Hs. pose proof Hs as [Hh Ht Ha Hr].
  destruct Hact as [p i s' Hp E|p s' Hp E|i q s' Hq E|x s' E|i q s' E|c s' Hc E|w].
  - destruct (request_honest _ _ _ _ p _ _ _ (honest_ask (next_id (handler a), p) a b Hh)
      (asked_said _ p _ ltac:(apply Hf) Hp) E) as [-> Hh'].
    apply ask_side; [done| |done]. eapply tidy_keeps; [|exact E|exact Ht].
    pose proof keeps_requestWithId_tidy. unfold request. keeps_tac.
  - apply ask_side; [|eapply tidy_keeps; [|exact E|exact Ht];
      pose proof keeps_requestWithId_tidy; unfold do_requestOneWay, requestOneWay; keeps_tac|done].
    eapply requestOneWay_honest; [by apply honest_ask| |exact E]. apply asked_said; [apply Hf|done].
  - by apply reply_side.
  - unfold getFirstIncomingReply in E. apply bind_ok in E as (r & s1 & E1 & E). run E1.
    destruct (negb _) in E; [done|]. apply bind_ok in E as (it & s1 & E1 & E).
    apply bind_ok in E as ([] & s2 & E2 & E). run E2. apply bind_ok in E as ([] & s2 & E2 & E). run E2. run E.
    eapply take_side; [by eapply map_begin_same|by apply map_begin_elem in E1|done|done].
  - unfold consumeIncomingReplyWithId in E. apply bind_ok in E as (r & s1 & E1 & E). run E1.
    destruct (incomingReplies (rpc (handler a)) !! i) as [y|] eqn:Hi; [|done].
    apply bind_ok in E as ([] & s2 & E2 & E). run E2. apply bind_ok in E as ([] & s2 & E2 & E). run E2. run E.
    by eapply take_side; [apply same_refl|exact Hi| |].
  - by eapply quiet_side.
  - split; [by apply (honest_view _ _ _ _ (handler a))|done..].
Qed.

(** Both sides, in every state of the pair. *)
Lemma acts_grow a a' : acts a a' -> p_asked a ⊆ p_asked a' /\ p_answered a ⊆ p_answered a'.
Proof using. destruct 1; simpl; split; (reflexivity || apply subseteq_grow). Qed.
Lemma start_side ha wa hb wb : side (start ha wa) (start hb wb).
Proof using Type*.
  split; simpl; [|split; simpl; [by apply once_new..|]| |].
  1: split; simpl; try done.
  all: intros ? ?; try (intros E; by rewrite ?lookup_empty in E); by intros ?%elem_of_nil.
Qed.
Lemma exchange_sides a b : exchange a b -> side a b /\ side b a.
Proof using Type*.
  induction 1 as [ha wa hb wb|a a' b _ [IHa IHb] Hf Hact|a b m r s' _ [IHa IHb] Hf Hm E|a b _ [IHa IHb]].
  - split; apply start_side.
  - destruct (acts_grow _ _ Hact). split; [by eapply acts_side|by eapply side_mono].
  - split; [|by eapply side_mono; [..|exact IHb]]. destruct IHa as [Hh Ht Ha Hr].
    assert (says_packet (p_asked b) (p_answered b) m) as Hsays.
    { pose proof (ho_sent _ _ _ _ _ (si_honest _ _ IHb)) as Hall. rewrite Forall_forall in Hall. auto. }
    destruct (receive_honest _ _ _ _ m _ _ _ _ _ (conj Hh (proj1 Hf)) Ht Hsays E). by split.
  - done.
Qed.

Lemma service_intro asked answered taken :
  (forall i q, (i, q) ∈ answered -> exists p, (i, p) ∈ asked) -> NoDup answered.*1 ->
  (forall i q, (i, q) ∈ taken -> (i, q) ∈ answered \/ own_reply q) -> NoDup taken.*1 ->
  service asked answered taken.
Proof using.
  intros Ha Hda. induction taken as [|[i q] taken IH].
  - intros _ _. revert Ha Hda. induction answered as [|[i q] answered IH].
    + intros _ _. induction asked as [|x asked IH]; by constructor.
    + intros Ha [Hn Hd]%NoDup_cons. destruct (Ha i q) as [p Hp]; [left|].
      apply (service_answer i p); [|done|done]. apply IH; [|done]. intros j x Hj. apply (Ha j x). by right.
  - intros Ht [Hn Hd]%NoDup_cons. apply service_take; [|apply Ht; left|done].
    apply IH; [|done]. intros j x Hj. apply Ht. by right.
Qed.

(** C3: Two handlers over an unreliable network implement a request-and-reply service.
    Whatever the applications call, and whichever of the packets ever sent the network
    delivers, repeats, reorders and loses: every request that waits for the application is
    one the other side made, under that id and with that payload.  And as long as no cache
    of ids dealt with has filled up, what was asked, answered and taken is a history of the
    abstract service: no request is answered twice, no reply is taken twice, and a reply is
    taken only when it was given to a request that was made (or the other handler gave it
    itself, to a ping or a shutdown). *)
Theorem network_implements_service a b :
  exchange a b ->
  (forall i p, incomingRequests (rpc (handler b)) !! i = Some p -> (i, p) ∈ p_asked a) /\
  (not_full (processedRequests (rpc (handler b))) -> not_full (processedReplies (rpc (handler a))) ->
   service (p_asked a) (p_answered b) (p_taken a)).
Proof using Type*.
  intros [Ha Hb]%exchange_sides. split.
  - intros i p Hi. destruct (ho_incoming _ _ _ _ _ (si_honest _ _ Hb) _ _ Hi) as [_ [Hin|Hown]]; [done|].
    by apply (ti_own _ _ _ (si_tidy _ _ Hb)) in Hi.
  - intros Hfb Hfa. apply service_intro.
    + apply (si_answered _ _ Hb).
    + by apply (on_seen _ _ _ (ti_requests _ _ _ (si_tidy _ _ Hb))).
    + apply (si_taken _ _ Ha).
    + by apply (on_seen _ _ _ (ti_replies _ _ _ (si_tidy _ _ Ha))).
Qed.
End Honest.

(** ** A request that comes twice and a reply that comes twice *)
Lemma fits_standing (s : St (list string)) :
  initialTime (world s) = 0 -> noiseShift (timeHandler (world s)) = 0 ->
  forallb (fun x => in_s 64 x.2) (map_to_list (requestReceiveTimeMap (clockSynchronizer (rpc s)))) = true ->
  in_s 64 (onBarrier (rpc s)) = true -> fits s.
Proof.
  intros Hi Hn Hm Hb. split; [|done]. split.
  - intros i t Ht. rewrite forallb_forall in Hm. apply (Hm (i, t)). by apply list_elem_of_In, elem_of_map_to_list.
  - intros n. unfold clockStamp, currentTimeMicros, SystemClock_now, getTimeShift. rewrite Hi, Hn.
    unfold in_s. simpl. pose proof (Z.mod_pos_bound (Z.of_N n) (2 ^ 40)). lia.
Qed.

(** One side: "hello" is asked, and after two copies of the reply came the reply is taken.
    The other: two copies of the request come, and it is answered once. *)
Definition L : RpcVirtuals (list string) := base_virtuals log_send.
Record run : Type := mkRun { alice1 : St (list string); bob1 : St (list string); bob2 : St (list string);
  bob3 : St (list string); alice2 : St (list string); alice3 : St (list string); alice4 : St (list string); payload4 : string }.
Definition demo_run : outcome run :=
  let? (_, a1) := request (v_requestWithId L) "hello" handler0 in
  let m := hd "" (sub a1) in
  let? (_, b1) := do_receive L m handler0 in
  let? (_, b2) := do_receive L m b1 in
  let? (_, b3) := v_reply L id0 "world" b2 in
  let r := hd "" (sub b3) in
  let? (_, a2) := do_receive L r a1 in
  let? (_, a3) := do_receive L r a2 in
  let? (q, a4) := consumeIncomingReplyWithId id0 a3 in
  Ok (mkRun a1 b1 b2 b3 a2 a3 a4 q).
Definition fitsb (s : St (list string)) : bool :=
  (initialTime (world s) =? 0) && (noiseShift (timeHandler (world s)) =? 0) &&
  forallb (fun x => in_s 64 x.2) (map_to_list (requestReceiveTimeMap (clockSynchronizer (rpc s)))) &&
  in_s 64 (onBarrier (rpc s)).
Lemma fitsb_fits s : fitsb s = true -> fits s.
Proof.
  unfold fitsb. intros [[[Hi%Z.eqb_eq Hn%Z.eqb_eq]%andb_true_iff Hm]%andb_true_iff Hb]%andb_true_iff.
  by apply fits_standing.
Qed.

Definition demo_ok (r : run) : bool :=
  forallb fitsb [alice1 r; bob1 r; bob2 r; alice2 r; alice3 r] &&
  forallb (fun s => negb (bool_decide (sub s = []))) [alice1 r; bob3 r] &&
  String.eqb (payload4 r) "world" &&
  (lru_size (processedRequests (rpc (bob3 r))) <? lru_capacity (processedRequests (rpc (bob3 r)))) &&
  (lru_size (processedReplies (rpc (alice4 r))) <? lru_capacity (processedReplies (rpc (alice4 r)))).
Lemma demo_run_ok : match demo_run with Ok r => demo_ok r | Err _ => false end = true.
Proof. vm_compute. reflexivity. Qed.

Lemma hd_elem (l : list string) : l <> [] -> hd "" l ∈ l.
Proof. destruct l as [|x l]; [done|left]. Qed.

(** The calls of the run, with what the theorem asks of the states between them. *)
Lemma demo_calls : exists r r1 r2 r3 r4,
  let m := hd "" (sub (alice1 r)) in let n := hd "" (sub (bob3 r)) in
  (request (v_requestWithId L) "hello" handler0 = Ok (id0, alice1 r) /\ m ∈ sub (alice1 r)) /\
  (do_receive L m handler0 = Ok (r1, bob1 r) /\ fits (bob1 r)) /\
  (do_receive L m (bob1 r) = Ok (r2, bob2 r) /\ fits (bob2 r)) /\
  (v_reply L id0 "world" (bob2 r) = Ok (tt, bob3 r) /\ n ∈ sub (bob3 r)) /\
  (do_receive L n (alice1 r) = Ok (r3, alice2 r) /\ fits (alice1 r) /\ fits (alice2 r)) /\
  (do_receive L n (alice2 r) = Ok (r4, alice3 r) /\ fits (alice3 r)) /\
  consumeIncomingReplyWithId id0 (alice3 r) = Ok ("world", alice4 r) /\
  not_full (processedRequests (rpc (bob3 r))) /\ not_full (processedReplies (rpc (alice4 r))).
Proof.
  pose proof demo_run_ok as Hok. destruct demo_run as [r|f] eqn:E; [|done]. exists r. unfold demo_ok in Hok.
  cbn [forallb] in Hok. rewrite !andb_true_iff, !negb_true_iff, !bool_decide_eq_false, !Z.ltb_lt, String.eqb_eq in Hok.
  destruct Hok as ((((( F1 & F2 & F3 & F5 & F6 & _) & Ha & Hb & _) & Hq) & Nb) & Na).
  apply fitsb_fits in F1, F2, F3, F5, F6. apply hd_elem in Ha, Hb.
  unfold demo_run in E. destruct (request _ _ handler0) as [[i s1]|] eqn:E1; [|done]. cbn [obind] in E.
  destruct (request_first "hello" handler0) as (c & w & E0); [done|done|].
  assert (i = id0) as -> by (unfold L in E1; rewrite E1 in E0; by injection E0).
  destruct (do_receive L _ handler0) as [[r1 s2]|] eqn:E2; [|done]. cbn [obind] in E.
  destruct (do_receive L _ s2) as [[r2 s3]|] eqn:E3; [|done]. cbn [obind] in E.
  destruct (v_reply L id0 "world" s3) as [[[] s4]|] eqn:E4; [|done]. cbn [obind] in E.
  destruct (do_receive L _ s1) as [[r3 s5]|] eqn:E5; [|done]. cbn [obind] in E.
  destruct (do_receive L _ s5) as [[r4 s6]|] eqn:E6; [|done]. cbn [obind] in E.
  destruct (consumeIncomingReplyWithId id0 s6) as [[q s7]|] eqn:E7; [|done]. cbn [obind] in E.
  injection E as <-. simpl in Hq. subst q. exists r1, r2, r3, r4. simpl in *. auto 20.
Qed.

Lemma network_implements_service_witness :
  exists a b, exchange a b /\ p_taken a = [(id0, "world")] /\
    service [(id0, "hello")] [(id0, "world")] [(id0, "world")].
Proof.
  destruct demo_calls as (r & r1 & r2 & r3 & r4 & (E1 & M) & (E2 & F2) & (E3 & F3) & (E4 & N) &
    (E5 & F1 & F5) & (E6 & F6) & E7 & Nb & Na).
  assert (fits handler0) as F0 by (by apply fitsb_fits).
  set (asks s := mkPeer s [(id0, "hello")] [] []).
  assert (exchange (asks (alice1 r)) (start true world0)) as X1.
  { apply (exchange_act (start true world0)); [apply exchange_start|exact F0|].
    by apply (act_request (start true world0)). }
  pose proof (exchange_receive _ _ _ _ _ (exchange_swap _ _ X1) F0 M E2) as X2.
  pose proof (exchange_receive _ _ _ _ _ X2 F2 M E3) as X3.
  assert (exchange (mkPeer (bob3 r) [] [(id0, "world")] []) (asks (alice1 r))) as X4.
  { apply (exchange_act _ _ _ X3); [exact F3|]. by apply (act_reply (mkPeer (bob2 r) [] [] [])). }
  pose proof (exchange_receive _ _ _ _ _ (exchange_swap _ _ X4) F1 N E5) as X5.
  pose proof (exchange_receive _ _ _ _ _ X5 F5 N E6) as X6.
  exists (mkPeer (alice4 r) [(id0, "hello")] [] [(id0, "world")]), (mkPeer (bob3 r) [] [(id0, "world")] []).
  assert (exchange (mkPeer (alice4 r) [(id0, "hello")] [] [(id0, "world")])
            (mkPeer (bob3 r) [] [(id0, "world")] [])) as X7.
  { apply (exchange_act _ _ _ X6); [exact F6|]. by apply (act_consume (asks (alice3 r))). }
  split; [exact X7|]. split; [reflexivity|]. by apply (network_implements_service _ _ X7).
Defined.
