(* ===== verification/UdpRpc.v ===== *)
(** * UdpRpc

    [wga::UdpBiDirectionalRpc] (src/peer/src/base/UdpBiDirectionalRpc.cpp and
    .hpp): the [send] that throttles, doubles and optionally delays a message, and
    the datagram that leaves when the network thread runs what [_send] posted.
    [Part] is how a derived class's fields contain its base class's. *)
From S2P Require Import Prelude.
From S2P Require Import RpcId.
From S2P Require Import TimeHandler.
From S2P Require Import RpcState.
From S2P Require Import Message.
From S2P Require Import Instances.
From S2P Require Import BiDirectionalRpc.
From S2P Require Import RpcVirtuals.

(** ** A class's fields inside those of the classes derived from it *)
Class Part (X P : Type) : Type := {
  part : X -> P;
  set_part : P -> X -> X;
  part_set : forall p x, part (set_part p x) = p;
  set_set : forall p q x, set_part p (set_part q x) = set_part p x;
  set_same : forall x, set_part (part x) x = x
}.
#[export] Instance self_part (P : Type) : Part P P | 10 :=
  {| part := fun x => x; set_part := fun p _ => p; part_set := fun _ _ => eq_refl;
     set_set := fun _ _ _ => eq_refl; set_same := fun _ => eq_refl |}.

Section Fields.
Context `{LruCache} {X P : Type} `{Part X P}.
Definition get_part : M (St X) P := gets (fun s => part (sub s)).
Definition mod_part (f : P -> P) : M (St X) unit := mod_sub (fun x => set_part (f (part x)) x).
Lemma keeps_get_part {T} (f : Rpc -> T) : keeps f get_part.
Proof using. intros s x s' E. unfold get_part, gets in E. by injection E as _ <-. Qed.
Lemma keeps_mod_part {T} (f : Rpc -> T) g : keeps f (mod_part g).
Proof using. apply keeps_mod_sub. Qed.
End Fields.
#[export] Hint Resolve keeps_get_part keeps_mod_part : keeps.

(** ** Endpoints *)
Record endpoint : Type := mkEndpoint { address : string; port : Z }.
#[export] Instance endpoint_eq_dec : EqDecision endpoint.
Proof. solve_decision. Defined.
#[export] Instance endpoint_countable : Countable endpoint.
Proof.
  refine (inj_countable' (fun e => (address e, port e)) (fun p => mkEndpoint p.1 p.2) _).
  by intros [].
Defined.

(** ** The class *)
(** [postedSends]: what [_send] posted and the network thread has not run yet,
    with the delay of its timer; [datagrams]: what was handed to the socket. *)
Record UdpState : Type := mkUdp {
  activeEndpoint : endpoint;
  lastSendTime : Z;
  sendBytes : Z;
  doubleSends : bool;
  postedSends : list (Z * string);
  datagrams : list (endpoint * string)
}.
Definition Udp_init (e : endpoint) : UdpState := mkUdp e 0 0 true [] [].
Definition set_activeEndpoint e u :=
  mkUdp e (lastSendTime u) (sendBytes u) (doubleSends u) (postedSends u) (datagrams u).
Definition set_throttle t b u :=
  mkUdp (activeEndpoint u) t b (doubleSends u) (postedSends u) (datagrams u).
Definition set_posted l u :=
  mkUdp (activeEndpoint u) (lastSendTime u) (sendBytes u) (doubleSends u) l (datagrams u).
Definition set_datagrams l u :=
  mkUdp (activeEndpoint u) (lastSendTime u) (sendBytes u) (doubleSends u) (postedSends u) l.

Definition MAX_BYTES_PER_SECOND : Z := 20 * 1024.

Section UdpRpc.
Context `{LruCache} {X : Type} `{Oracle} `{Part X UdpState}.

Definition setEndpoint (destination : endpoint) : M (St X) unit :=
  mod_part (set_activeEndpoint destination).

(** [_send]: post the lambda that sends to [activeEndpoint]. *)
Definition _send (delay : Z) (localMessage : string) : M (St X) unit :=
  mod_part (fun u => set_posted (postedSends u ++ [(delay, localMessage)]) u).

(** The lambda, when the network thread runs the posted send number [n]: the
    endpoint is the one that is active now. *)
Definition run_posted (n : nat) : M (St X) unit :=
  mod_part (fun u =>
    match postedSends u !! n with
    | None => u
    | Some (_, m) =>
        set_datagrams (datagrams u ++ [(activeEndpoint u, m)])
          (set_posted (delete n (postedSends u)) u)
    end).

(** The rejection loop that draws a delay between 0 and 2000; the loop has no
    bound in the code, so it takes fuel and runs out only when [fuel] draws in a
    row are refused. *)
Definition o_delay_reading : M (St X) Z := read_world (reading o_delay).
Fixpoint drawDelay (fuel : nat) : M (St X) Z :=
  match fuel with
  | O => fail Undefined
  | S fuel' =>
      let! number := o_delay_reading in
      if (0 <? number) && (number <? 2000) then ret number else drawDelay fuel'
  end.

Variable fuel : nat.

(** One turn of the loop that sends once or twice. *)
Definition sendCopy (message : string) : M (St X) unit :=
  let! r := get_rpc in
  let! delay := (if flaky r then drawDelay fuel else ret 0) in
  if negb (delay =? 0) then _send delay message else _send 0 message.

Definition udp_send (message : string) : M (St X) unit :=
  let! now := time_now in
  let! u := get_part in
  (if negb (lastSendTime u =? now) then
     let! now := time_now in mod_part (fun u => set_throttle now 0 u)
   else ret tt) ;;;
  mod_part (fun u => set_throttle (lastSendTime u) (wrap_s 32 (sendBytes u + slen message)) u) ;;;
  let! u := get_part in
  if MAX_BYTES_PER_SECOND <? sendBytes u then ret tt
  else for_each (seq 0 (if doubleSends u then 2 else 1)) (fun _ => sendCopy message).

(** ** Properties *)
Lemma keeps_drawDelay {T} (f : Rpc -> T) n : keeps f (drawDelay n).
Proof using. induction n; simpl; unfold o_delay_reading; keeps_tac. Qed.
#[local] Hint Resolve keeps_drawDelay : keeps.
Lemma keeps_sendCopy {T} (f : Rpc -> T) m : keeps f (sendCopy m).
Proof using. unfold sendCopy, _send. keeps_tac. Qed.
#[local] Hint Resolve keeps_sendCopy : keeps.
Lemma keeps_udp_send {T} (f : Rpc -> T) m : keeps f (udp_send m).
Proof using. unfold udp_send, time_now. keeps_tac. Qed.

Definition posted_bytes (l : list (Z * string)) : Z := foldr (fun p n => slen p.2 + n) 0 l.
Lemma posted_bytes_app l1 l2 : posted_bytes (l1 ++ l2) = posted_bytes l1 + posted_bytes l2.
Proof using. induction l1 as [|p l1 IH]; simpl; [done|]. rewrite IH. lia. Qed.

Definition udp_of (s : St X) : UdpState := part (sub s).

Lemma read_world_udp {A} (f : World -> A * World) s a s' :
  read_world f s = Ok (a, s') -> udp_of s' = udp_of s.
Proof using. unfold read_world. destruct (f _). by intros [= _ <-]. Qed.
Lemma drawDelay_udp n s d s' : drawDelay n s = Ok (d, s') -> udp_of s' = udp_of s.
Proof using.
  revert s. induction n as [|n IH]; intros s E; simpl in E; [done|].
  apply bind_ok in E as (z & s1 & E1 & E). apply read_world_udp in E1. rewrite <- E1.
  destruct (_ && _); [by run E|by apply IH].
Qed.
Lemma mod_part_udp f s s' : mod_part f s = Ok (tt, s') -> udp_of s' = f (udp_of s).
Proof using. unfold mod_part. intros E. run E. apply part_set. Qed.
Lemma get_part_udp s u s' : get_part s = Ok (u, s') -> u = udp_of s /\ s' = s.
Proof using. unfold get_part, gets. by intros [= <- <-]. Qed.
Lemma _send_udp d m s s' :
  _send d m s = Ok (tt, s') ->
  udp_of s' = set_posted (postedSends (udp_of s) ++ [(d, m)]) (udp_of s).
Proof using. intros E. by apply mod_part_udp in E. Qed.
Lemma sendCopy_udp m s s' :
  sendCopy m s = Ok (tt, s') -> exists d,
  udp_of s' = set_posted (postedSends (udp_of s) ++ [(d, m)]) (udp_of s).
Proof using.
  unfold sendCopy. intros (r & s1 & E1 & E)%bind_ok. run E1.
  apply bind_ok in E as (d & s2 & E2 & E).
  assert (udp_of s2 = udp_of s) as Hu.
  { destruct (flaky _); [by apply drawDelay_udp in E2|by run E2]. }
  rewrite <- Hu. destruct (negb _); eauto using _send_udp.
Qed.
Lemma sendCopies_udp m l s s' :
  for_each l (fun _ : nat => sendCopy m) s = Ok (tt, s') -> exists q,
  udp_of s' = set_posted (postedSends (udp_of s) ++ q) (udp_of s) /\ map snd q = map (fun _ => m) l.
Proof using.
  revert s. induction l as [|x l IH]; intros s E; simpl in E.
  - run E. exists []. rewrite app_nil_r. by destruct (udp_of s).
  - apply bind_ok in E as ([] & s1 & E1 & E). apply sendCopy_udp in E1 as (d & E1).
    apply IH in E as (q & E & Hq). exists ((d, m) :: q). rewrite E, E1. simpl.
    rewrite <- app_assoc, Hq. done.
Qed.

(** One [send]: the counter is restarted when the clock's second has changed, then
    charged; the message is posted once or twice if the charge fits. *)
Lemma udp_send_spec m s s' :
  udp_send m s = Ok (tt, s') ->
  exists t1 t2 q,
    let u := udp_of s in
    let fresh := negb (lastSendTime u =? t1) in
    let bytes := wrap_s 32 ((if fresh then 0 else sendBytes u) + slen m) in
    t1 = o_time (tick (world s)) /\
    udp_of s' = set_posted (postedSends u ++ q)
                  (set_throttle (if fresh then t2 else lastSendTime u) bytes u) /\
    map snd q = (if MAX_BYTES_PER_SECOND <? bytes then []
                 else if doubleSends u then [m; m] else [m]).
Proof using.
  unfold udp_send. intros (t1 & s1 & E1 & E)%bind_ok.
  assert (t1 = o_time (tick (world s)) /\ udp_of s1 = udp_of s) as [-> Hu1].
  { unfold time_now, read_world, reading in E1. by injection E1 as <- <-. }
  apply bind_ok in E as (u & s2 & E2 & E). apply get_part_udp in E2 as [-> ->].
  rewrite Hu1 in E. apply bind_ok in E as ([] & s3 & E3 & E).
  assert (exists t2, udp_of s3 = if negb (lastSendTime (udp_of s) =? o_time (tick (world s)))
    then set_throttle t2 0 (udp_of s) else udp_of s) as (t2 & Hu3).
  { destruct (negb _).
    - apply bind_ok in E3 as (t2 & s4 & E4 & E5). apply read_world_udp in E4. exists t2.
      apply mod_part_udp in E5. by rewrite E5, E4, Hu1.
    - exists 0. by run E3. }
  apply bind_ok in E as ([] & s4 & E4 & E). apply mod_part_udp in E4.
  apply bind_ok in E as (u & s5 & E5 & E). apply get_part_udp in E5 as [-> ->].
  exists (o_time (tick (world s))), t2. rewrite E4, Hu3 in E. simpl.
  set (fresh := negb _) in *.
  assert (udp_of s4 = set_throttle (if fresh then t2 else lastSendTime (udp_of s))
    (wrap_s 32 ((if fresh then 0 else sendBytes (udp_of s)) + slen m)) (udp_of s)) as Hu4.
  { rewrite E4, Hu3. by destruct fresh. }
  assert (udp_of s4 = set_throttle (lastSendTime (if fresh then set_throttle t2 0 (udp_of s)
    else udp_of s)) (wrap_s 32 (sendBytes (if fresh then set_throttle t2 0 (udp_of s)
    else udp_of s) + slen m)) (if fresh then set_throttle t2 0 (udp_of s) else udp_of s)) as Hu5
    by (by rewrite E4, Hu3).
  rewrite <- Hu5, Hu4 in E. simpl in E.
  destruct (MAX_BYTES_PER_SECOND <? _).
  - run E. exists []. rewrite app_nil_r, Hu4. by destruct (udp_of s).
  - apply sendCopies_udp in E as (q & E & Hq). exists q. rewrite E, Hu4, Hq.
    by destruct (doubleSends _).
Qed.

Definition total_bytes (ms : list string) : Z := foldr (fun m n => slen m + n) 0 ms.
Lemma total_bytes_nonneg ms : 0 <= total_bytes ms.
Proof using. induction ms as [|m ms IH]; simpl; [lia|]. pose proof (slen_nonneg m). lia. Qed.

Lemma posted_bytes_map q : posted_bytes q = total_bytes (map snd q).
Proof using. induction q as [|p q IH]; simpl; [done|]. by rewrite IH. Qed.

Definition copies (u : UdpState) : Z := if doubleSends u then 2 else 1.

(** The throttle.  While [time(NULL)] stays in the second of the last restart,
    any number of sends hands the network thread at most twice what is left of the
    20480 bytes counted per second (once with [doubleSends] off): the messages that
    do not fit are dropped, and a message that fits is posted in every copy. *)
Theorem throttle_bounds ms s s' :
  (forall n, o_time n = lastSendTime (udp_of s)) ->
  0 <= sendBytes (udp_of s) -> sendBytes (udp_of s) + total_bytes ms < 2 ^ 31 ->
  for_each ms udp_send s = Ok (tt, s') ->
  exists q, postedSends (udp_of s') = postedSends (udp_of s) ++ q /\
    sendBytes (udp_of s') = sendBytes (udp_of s) + total_bytes ms /\
    posted_bytes q <= copies (udp_of s) * Z.max 0 (MAX_BYTES_PER_SECOND - sendBytes (udp_of s)) /\
    (sendBytes (udp_of s') <= MAX_BYTES_PER_SECOND ->
       posted_bytes q = copies (udp_of s) * total_bytes ms).
Proof using.
  revert s. induction ms as [|m ms IH]; intros s Ht Hb Hmax E; simpl in E, Hmax.
  { run E. exists []. rewrite app_nil_r. split; [done|]. unfold copies, posted_bytes, total_bytes.
    destruct (doubleSends _); simpl; repeat split; lia. }
  apply bind_ok in E as ([] & s1 & E1 & E).
  pose proof (slen_nonneg m). pose proof (total_bytes_nonneg ms).
  apply udp_send_spec in E1 as (t1 & t2 & q & Ht1 & Hu & Hq).
  rewrite Ht1, Ht in Hu, Hq. rewrite Z.eqb_refl in Hu, Hq. simpl in Hu, Hq.
  rewrite wrap_s_id in Hu, Hq by (unfold in_s; lia).
  assert (lastSendTime (udp_of s1) = lastSendTime (udp_of s) /\
    sendBytes (udp_of s1) = sendBytes (udp_of s) + slen m /\ copies (udp_of s1) = copies (udp_of s) /\
    postedSends (udp_of s1) = postedSends (udp_of s) ++ q) as (G1 & G2 & G3 & G4)
    by (by rewrite Hu).
  apply IH in E as (q2 & Hp & Hs & Hle & Heq); [|by rewrite G1|lia|lia].
  exists (q ++ q2). rewrite Hp, G4, <- app_assoc. split; [done|]. split; [simpl; lia|].
  rewrite posted_bytes_app. rewrite G2, G3 in Hle. rewrite G3 in Heq.
  assert (posted_bytes q = if MAX_BYTES_PER_SECOND <? sendBytes (udp_of s) + slen m then 0
    else copies (udp_of s) * slen m) as Hpq.
  { rewrite posted_bytes_map, Hq.
    unfold copies. destruct (_ <? _); [done|]. destruct (doubleSends _); simpl; lia. }
  rewrite Hpq, Hs, G2 in *. simpl.
  assert (1 <= copies (udp_of s) <= 2) as Hc by (unfold copies; destruct (doubleSends _); lia).
  destruct (Z.ltb_spec MAX_BYTES_PER_SECOND (sendBytes (udp_of s) + slen m)); nia.
Qed.
End UdpRpc.
#[export] Hint Resolve keeps_udp_send : keeps.

(** ** Three messages of 10240 bytes in one second *)
Fixpoint zeros (n : nat) : string :=
  match n with O => "" | S n' => String "0"%char (zeros n') end.
Definition udp0 : St UdpState :=
  mkSt (Rpc_init false true) (Udp_init (mkEndpoint "10.0.0.1" 7000)) world0.
Definition three_messages : list string := repeat (zeros (Z.to_nat 10240)) 3.
Abbreviation three_sent := (for_each three_messages (@udp_send _ _ (frozen_Oracle 0) _ 1) udp0).

(** 40960 bytes leave in one second. *)
Example three_sent_bytes :
  (let? (_, s) := three_sent in Ok (posted_bytes (postedSends (sub s)), length (postedSends (sub s))))
  = Ok (40960, 4%nat).
Proof. vm_compute. reflexivity. Qed.

Lemma throttle_bounds_witness :
  exists s' q, three_sent = Ok (tt, s') /\ postedSends (udp_of s') = q /\
    posted_bytes q <= 2 * MAX_BYTES_PER_SECOND.
Proof.
  assert (is_ok three_sent = true) as Hok by (vm_compute; reflexivity).
  destruct three_sent as [[[] s']|] eqn:E; [|discriminate Hok].
  destruct (@throttle_bounds _ _ (frozen_Oracle 0) _ 1 three_messages udp0 s')
    as (q & Hq & _ & Hle & _).
  - intros n. reflexivity.
  - discriminate.
  - vm_compute. reflexivity.
  - exact E.
  - exists s', q. split; [reflexivity|]. split; [exact Hq|]. exact Hle.
Defined.
