(* ===== verification/MultiEndpoint.v ===== *)
(** * MultiEndpoint

    [wga::MultiEndpointHandler] (src/peer/src/base/MultiEndpointHandler.cpp and
    .hpp): a handler that knows several endpoints of its peer, talks to one of
    them, and moves to another when replies stop coming. *)
From S2P Require Import Prelude.
From S2P Require Import RpcId.
From S2P Require Import TimeHandler.
From S2P Require Import RpcState.
From S2P Require Import Message.
From S2P Require Import Instances.
From S2P Require Import BiDirectionalRpc.
From S2P Require Import RpcVirtuals.
From S2P Require Import UdpRpc.

Record MultiState : Type := mkMulti {
  udp : UdpState;
  lastUpdateTime : Z;
  lastUnrepliedSendTime : Z;
  lastUnrepliedSendOrKillTime : Z;
  alternativeEndpoints : gset endpoint;
  deadEndpoints : gset endpoint;
  bannedEndpoints : gset endpoint
}.
Definition set_udp u m :=
  mkMulti u (lastUpdateTime m) (lastUnrepliedSendTime m) (lastUnrepliedSendOrKillTime m)
    (alternativeEndpoints m) (deadEndpoints m) (bannedEndpoints m).
Definition set_lastUpdate t m :=
  mkMulti (udp m) t (lastUnrepliedSendTime m) (lastUnrepliedSendOrKillTime m)
    (alternativeEndpoints m) (deadEndpoints m) (bannedEndpoints m).
Definition set_unreplied t m :=
  mkMulti (udp m) (lastUpdateTime m) t t
    (alternativeEndpoints m) (deadEndpoints m) (bannedEndpoints m).
Definition set_killTime t m :=
  mkMulti (udp m) (lastUpdateTime m) (lastUnrepliedSendTime m) t
    (alternativeEndpoints m) (deadEndpoints m) (bannedEndpoints m).
(** The active endpoint and the three sets. *)
Definition set_endpoints act alt dead ban m :=
  mkMulti (set_activeEndpoint act (udp m)) (lastUpdateTime m) (lastUnrepliedSendTime m)
    (lastUnrepliedSendOrKillTime m) alt dead ban.
Definition active (m : MultiState) : endpoint := activeEndpoint (udp m).

#[export] Instance multi_udp_part {X : Type} (PX : Part X MultiState) : Part X UdpState | 20.
Proof.
  refine (Build_Part X UdpState (fun x => udp (@part _ _ PX x))
    (fun u x => @set_part _ _ PX (set_udp u (@part _ _ PX x)) x) _ _ _).
  - intros u x. by rewrite (@part_set _ _ PX).
  - intros u v x. by rewrite (@part_set _ _ PX), (@set_set _ _ PX).
  - intros x. transitivity (@set_part _ _ PX (@part _ _ PX x) x); [|apply (@set_same _ _ PX)].
    f_equal. by destruct (@part _ _ PX x).
Defined.

(** The constructor; an empty list of endpoints aborts.  [now] is [time(NULL)]. *)
Definition Multi_init (now : Z) (endpoints : list endpoint) : outcome MultiState :=
  match endpoints with
  | [] => Err LogFatal
  | e :: es => Ok (mkMulti (Udp_init e) now 0 0 (list_to_set es) ∅ ∅)
  end.

Definition hasEndpointAndResurrectIfFound (e : endpoint) (m : MultiState) : bool * MultiState :=
  if bool_decide (e ∈ bannedEndpoints m) then (false, m)
  else if bool_decide (e = active m) then (true, m)
  else if bool_decide (e ∈ alternativeEndpoints m) then
    (true, set_endpoints e (({[active m]} ∪ alternativeEndpoints m) ∖ {[e]}) (deadEndpoints m)
             (bannedEndpoints m) m)
  else if bool_decide (e ∈ deadEndpoints m) then
    (true, set_endpoints e ({[active m]} ∪ alternativeEndpoints m) (deadEndpoints m ∖ {[e]})
             (bannedEndpoints m) m)
  else (false, m).

Definition addEndpoint (m : MultiState) (e : endpoint) : MultiState :=
  if bool_decide (e ∈ bannedEndpoints m) then m
  else if bool_decide (active m = e) then m
  else if bool_decide (e ∈ alternativeEndpoints m) then m
  else if bool_decide (e ∈ deadEndpoints m) then m
  else set_endpoints (active m) ({[e]} ∪ alternativeEndpoints m) (deadEndpoints m)
         (bannedEndpoints m) m.
Definition addEndpoints (es : list endpoint) (m : MultiState) : MultiState :=
  foldl addEndpoint m es.

(** [DRAW_FROM_UNORDERED] on a set walked as [l]; drawing from an empty set is
    undefined. *)
Definition draw_from (rnd : Z) (l : list endpoint) : outcome endpoint :=
  match l !! Z.to_nat (rnd mod Z.of_nat (length l)) with
  | Some e => Ok e
  | None => Err Undefined
  end.

(** [killEndpoint], given the order [walk] of the set it draws from, the value of
    [rand()] and the value of [time(NULL)]. *)
Definition killEndpoint (walk : gset endpoint -> list endpoint) (rnd now : Z) (m : MultiState) :
    outcome MultiState :=
  let dead := {[active m]} ∪ deadEndpoints m in
  if negb (bool_decide (alternativeEndpoints m = ∅)) then
    let? e := draw_from rnd (walk (alternativeEndpoints m)) in
    Ok (set_killTime now
         (set_endpoints e (alternativeEndpoints m ∖ {[e]}) dead (bannedEndpoints m) m))
  else
    let? e := draw_from rnd (walk dead) in
    Ok (set_killTime now
         (set_endpoints e (alternativeEndpoints m) (dead ∖ {[e]}) (bannedEndpoints m) m)).

Definition banEndpoint (walk : gset endpoint -> list endpoint) (rnd now : Z) (e : endpoint)
    (m : MultiState) : outcome MultiState :=
  let m := set_endpoints (active m) (alternativeEndpoints m) (deadEndpoints m)
             ({[e]} ∪ bannedEndpoints m) m in
  let? m := (if bool_decide (active m = e) then killEndpoint walk rnd now m else Ok m) in
  Ok (set_endpoints (active m) (alternativeEndpoints m ∖ {[e]}) (deadEndpoints m ∖ {[e]})
        (bannedEndpoints m) m).

Definition isEndpointBanned (e : endpoint) (m : MultiState) : bool :=
  bool_decide (e ∈ bannedEndpoints m).
Definition hasEndpoint (e : endpoint) (m : MultiState) : bool :=
  bool_decide (e ∈ bannedEndpoints m) || bool_decide (active m = e) ||
  bool_decide (e ∈ alternativeEndpoints m) || bool_decide (e ∈ deadEndpoints m).
Definition aliveEndpoints (m : MultiState) : gset endpoint :=
  {[active m]} ∪ alternativeEndpoints m.
Definition isConnectionDead (now : Z) (m : MultiState) : bool :=
  lastUnrepliedSendTime m + 5 <? now.
Definition multi_hasWork `{LruCache} (now : Z) (r : Rpc) (m : MultiState) : bool :=
  if isConnectionDead now m then false else hasWork r.

(** ** The endpoint sets *)
Definition known (m : MultiState) : gset endpoint :=
  {[active m]} ∪ alternativeEndpoints m ∪ deadEndpoints m.

(** An endpoint is active, an alternative or dead, and only one of them. *)
Record endpoints_inv (m : MultiState) : Prop := {
  ei_active_alt : active m ∉ alternativeEndpoints m;
  ei_active_dead : active m ∉ deadEndpoints m;
  ei_alt_dead : alternativeEndpoints m ## deadEndpoints m
}.

Lemma Multi_init_inv now e es m :
  e ∉ es -> Multi_init now (e :: es) = Ok m ->
  endpoints_inv m /\ known m = list_to_set (e :: es) /\ bannedEndpoints m = ∅.
Proof.
  intros Hn [= <-]. unfold known, active. simpl. split; [|set_solver].
  split; unfold active; simpl; set_solver.
Qed.

Lemma draw_from_total (X : gset endpoint) walk rnd :
  walk X ≡ₚ elements X -> X ≠ ∅ -> exists e, draw_from rnd (walk X) = Ok e /\ e ∈ X.
Proof.
  intros Hw Hne. unfold draw_from. set (l := walk X) in *.
  assert (length l <> O) as Hl.
  { rewrite Hw. intros Hz%length_zero_iff_nil%elements_empty_inv. by apply Hne, leibniz_equiv. }
  destruct (l !! Z.to_nat (rnd mod Z.of_nat (length l))) as [e|] eqn:E.
  - exists e. split; [done|]. apply elem_of_elements. rewrite <- Hw.
    by apply list_elem_of_lookup_2 in E.
  - apply lookup_ge_None in E. pose proof (Z.mod_pos_bound rnd (Z.of_nat (length l))). lia.
Qed.

(** What one endpoint operation does to the endpoints known. *)
Inductive endpoint_step : MultiState -> MultiState -> Prop :=
  | step_add : forall e m, endpoint_step m (addEndpoint m e)
  | step_resurrect : forall e m, endpoint_step m (hasEndpointAndResurrectIfFound e m).2
  | step_kill : forall walk rnd now m m', (forall X, walk X ≡ₚ elements X) ->
      killEndpoint walk rnd now m = Ok m' -> endpoint_step m m'
  | step_ban : forall walk rnd now e m m', (forall X, walk X ≡ₚ elements X) ->
      banEndpoint walk rnd now e m = Ok m' -> endpoint_step m m'
  | step_other : forall u t1 t2 t3 m, activeEndpoint u = active m ->
      endpoint_step m (mkMulti u t1 t2 t3 (alternativeEndpoints m) (deadEndpoints m)
                         (bannedEndpoints m)).

Lemma addEndpoint_spec m e :
  endpoints_inv m ->
  endpoints_inv (addEndpoint m e) /\ bannedEndpoints (addEndpoint m e) = bannedEndpoints m /\
  active (addEndpoint m e) = active m /\
  known (addEndpoint m e) = if bool_decide (e ∈ bannedEndpoints m) then known m
                            else {[e]} ∪ known m.
Proof.
  destruct m as [[a ? ? ? ? ?] ? ? ? alt dead ban]. intros [Ha Hd Hs].
  unfold addEndpoint, known, active in *. simpl in *.
  repeat case_bool_decide; simpl; (split; [by split; unfold active; simpl; set_solver|]);
    (split; [done|]); (split; [done|]); set_solver.
Qed.

Lemma resurrect_spec m e :
  endpoints_inv m ->
  let (b, m') := hasEndpointAndResurrectIfFound e m in
  endpoints_inv m' /\ bannedEndpoints m' = bannedEndpoints m /\ known m' = known m /\
  (b = true <-> e ∈ known m /\ e ∉ bannedEndpoints m) /\ (b = true -> active m' = e).
Proof.
  destruct m as [[a ? ? ? ? ?] ? ? ? alt dead ban]. intros [Ha Hd Hs].
  unfold hasEndpointAndResurrectIfFound, known, active in *. simpl in *.
  destruct (decide (e ∈ ban)) as [Hb|Hb]; [rewrite bool_decide_true by done|
    rewrite bool_decide_false by done].
  { split; [by split|]. split; [done|]. split; [done|]. naive_solver. }
  destruct (decide (e = a)) as [->|Hea]; [rewrite bool_decide_true by done|
    rewrite bool_decide_false by done].
  { split; [by split|]. split; [done|]. split; [done|]. simpl. split; [|done].
    split; [|done]. intros _. split; [set_solver|done]. }
  destruct (decide (e ∈ alt)) as [He|He]; [rewrite bool_decide_true by done|
    rewrite bool_decide_false by done].
  { split; [split; unfold active; simpl; set_solver|]. split; [done|]. simpl.
    split; [|split; [|done]].
    - apply leibniz_equiv. intros x. destruct (decide (x = e)); set_solver.
    - split; [|done]. intros _. split; [set_solver|done]. }
  destruct (decide (e ∈ dead)) as [Hx|Hx]; [rewrite bool_decide_true by done|
    rewrite bool_decide_false by done].
  { split; [split; unfold active; simpl; set_solver|]. split; [done|]. simpl.
    split; [|split; [|done]].
    - apply leibniz_equiv. intros x. destruct (decide (x = e)); set_solver.
    - split; [|done]. intros _. split; [set_solver|done]. }
  split; [by split|]. split; [done|]. split; [done|]. split; [|done].
  split; [done|]. intros [Hk _]. set_solver.
Qed.

(** What is left of the known endpoints once [e] is taken off the lists. *)
Lemma forget_spec m e :
  endpoints_inv m ->
  let m' := set_endpoints (active m) (alternativeEndpoints m ∖ {[e]}) (deadEndpoints m ∖ {[e]})
              (bannedEndpoints m) m in
  endpoints_inv m' /\ active m' = active m /\
  known m' = if bool_decide (active m = e) then known m else known m ∖ {[e]}.
Proof.
  destruct m as [[a ? ? ? ? ?] ? ? ? alt dead ban]. intros [Ha Hd Hs].
  unfold known, active in *. simpl in *. split; [split; unfold active; simpl; set_solver|].
  split; [done|]. case_bool_decide; apply leibniz_equiv; intros x;
    destruct (decide (x = e)); set_solver.
Qed.

Section Kill.
Variable walk : gset endpoint -> list endpoint.
Hypothesis walk_perm : forall X, walk X ≡ₚ elements X.

Lemma killEndpoint_spec rnd now m :
  endpoints_inv m -> exists m', killEndpoint walk rnd now m = Ok m' /\
  endpoints_inv m' /\ bannedEndpoints m' = bannedEndpoints m /\ known m' = known m /\
  (alternativeEndpoints m <> ∅ -> active m' ∈ alternativeEndpoints m) /\
  (alternativeEndpoints m = ∅ -> active m' = active m \/ active m' ∈ deadEndpoints m).
Proof using walk_perm.
  destruct m as [[a ? ? ? ? ?] ? ? ? alt dead ban]. intros [Ha Hd Hs].
  unfold killEndpoint, known, active in *. simpl in *.
  destruct (decide (alt = ∅)) as [Halt|Halt].
  - rewrite bool_decide_true by done. simpl.
    destruct (draw_from_total ({[a]} ∪ dead) walk rnd) as (e & -> & He); [done|set_solver|].
    simpl. eexists. split; [reflexivity|]. unfold active. simpl.
    split; [split; unfold active; simpl; set_solver|]. split; [done|].
    split; [apply leibniz_equiv; intros x; destruct (decide (x = e)); set_solver|].
    split; [done|]. intros _. set_solver.
  - rewrite bool_decide_false by done. simpl.
    destruct (draw_from_total alt walk rnd) as (e & -> & He); [done|done|].
    simpl. eexists. split; [reflexivity|]. unfold active. simpl.
    split; [split; unfold active; simpl; set_solver|]. split; [done|].
    split; [apply leibniz_equiv; intros x; destruct (decide (x = e)); set_solver|].
    split; [done|]. done.
Qed.

(** The endpoint that was active is dead afterwards, unless it was drawn again. *)
Lemma killEndpoint_buries rnd now m m' :
  killEndpoint walk rnd now m = Ok m' -> active m' <> active m -> active m ∈ deadEndpoints m'.
Proof using walk_perm.
  destruct m as [[a ? ? ? ? ?] ? ? ? alt dead ban]. unfold killEndpoint, active. simpl.
  destruct (negb _); destruct (draw_from _ _) as [e|]; try done;
    cbn [obind]; intros [= <-]; simpl; set_solver.
Qed.
Lemma killEndpoint_sole rnd now m m' :
  killEndpoint walk rnd now m = Ok m' -> alternativeEndpoints m = ∅ -> active m ∉ deadEndpoints m ->
  active m' = active m -> deadEndpoints m' = deadEndpoints m.
Proof using walk_perm.
  destruct m as [[a ? ? ? ? ?] ? ? ? alt dead ban]. unfold killEndpoint, active. simpl.
  intros E -> Hd. rewrite bool_decide_true in E by done. simpl in E. destruct (draw_from _ _) as [e|]; [|done]. injection E as <-. simpl.
  intros ->. apply leibniz_equiv. set_solver.
Qed.

Lemma banEndpoint_spec rnd now e m :
  endpoints_inv m -> exists m', banEndpoint walk rnd now e m = Ok m' /\
  endpoints_inv m' /\ bannedEndpoints m' = {[e]} ∪ bannedEndpoints m /\
  known m' ⊆ known m /\ known m ⊆ {[e]} ∪ known m' /\
  (active m <> e \/ alternativeEndpoints m <> ∅ -> e ∉ known m').
Proof using walk_perm.
  intros Hi. unfold banEndpoint.
  set (m1 := set_endpoints (active m) (alternativeEndpoints m) (deadEndpoints m) _ m).
  assert (endpoints_inv m1 /\ known m1 = known m /\ active m1 = active m /\
    alternativeEndpoints m1 = alternativeEndpoints m /\
    bannedEndpoints m1 = {[e]} ∪ bannedEndpoints m) as (Hi1 & Hk1 & Ha1 & Halt1 & Hb1)
    by (unfold m1; destruct m as [[a ? ? ? ? ?] ? ? ? alt dead ban];
        split; [destruct Hi; by split|done]).
  assert (exists m2, (if bool_decide (active m1 = e) then killEndpoint walk rnd now m1 else Ok m1)
    = Ok m2 /\ endpoints_inv m2 /\ bannedEndpoints m2 = bannedEndpoints m1 /\
    known m2 = known m1 /\ (active m1 <> e \/ alternativeEndpoints m1 <> ∅ -> active m2 <> e))
    as (m2 & -> & Hi2 & Hb2 & Hk2 & Ha2).
  { destruct (decide (active m1 = e)) as [He|He];
      [rewrite bool_decide_true by done|rewrite bool_decide_false by done].
    - destruct (killEndpoint_spec rnd now m1 Hi1) as (m2 & -> & Hi2 & Hb2 & Hk2 & Hn & _).
      exists m2. repeat (split; [done|]). intros [?|Halt]; [done|]. intros Hm2.
      destruct Hi1 as [Hx _ _]. apply Hx. rewrite He, <- Hm2. by apply Hn.
    - exists m1. by repeat (split; [done|]). }
  simpl. destruct (forget_spec m2 e Hi2) as (Hi3 & Ha3 & Hk3).
  eexists. split; [reflexivity|]. split; [done|]. split; [simpl; congruence|].
  rewrite Hk3, Hk2, Hk1. rewrite Halt1, Ha1 in Ha2. split; [|split].
  - case_bool_decide; [done|]. set_solver.
  - case_bool_decide; [set_solver|]. intros x Hx. destruct (decide (x = e)); set_solver.
  - intros Hor. rewrite bool_decide_false by auto. set_solver.
Qed.
End Kill.

Lemma endpoint_step_inv m m' : endpoints_inv m -> endpoint_step m m' -> endpoints_inv m'.
Proof.
  intros Hi Hs. destruct Hs as [e m|e m|walk rnd now m m' Hw E|walk rnd now e m m' Hw E|u t1 t2 t3 m Hu].
  - by apply addEndpoint_spec.
  - pose proof (resurrect_spec m e Hi) as Hr. destruct (hasEndpointAndResurrectIfFound e m).
    by apply Hr.
  - destruct (killEndpoint_spec walk Hw rnd now m Hi) as (m2 & E2 & Hi2 & _). congruence.
  - destruct (banEndpoint_spec walk Hw rnd now e m Hi) as (m2 & E2 & Hi2 & _). congruence.
  - destruct Hi. by split; unfold active; simpl; rewrite ?Hu.
Qed.

(** The states the operations reach from the constructor. *)
Inductive endpoints_reachable : MultiState -> Prop :=
  | er_init : forall now e es m, e ∉ es -> Multi_init now (e :: es) = Ok m -> endpoints_reachable m
  | er_step : forall m m', endpoints_reachable m -> endpoint_step m m' -> endpoints_reachable m'.

(** C21: Endpoint bookkeeping.  From a constructor call whose first endpoint is not
    repeated, whatever endpoints are added, resurrected, killed and banned, every
    endpoint is active, an alternative or dead and never two of these.  Killing the active
    endpoint always leaves one active and forgets none: with alternatives it moves to one of
    them and the old one is dead; without, it draws from the dead ones with the one just
    killed among them, so the old one may stay (and does when it is the only one). *)
Theorem endpoints_partition m :
  endpoints_reachable m ->
  (active m ∉ alternativeEndpoints m) /\ (active m ∉ deadEndpoints m) /\
  (alternativeEndpoints m ## deadEndpoints m) /\
  forall walk rnd now, (forall X, walk X ≡ₚ elements X) ->
    exists m', killEndpoint walk rnd now m = Ok m' /\ known m' = known m /\
      bannedEndpoints m' = bannedEndpoints m /\
      if decide (alternativeEndpoints m = ∅)
      then (active m' = active m /\ deadEndpoints m' = deadEndpoints m) \/
           (active m' ∈ deadEndpoints m /\ active m ∈ deadEndpoints m')
      else active m' ∈ alternativeEndpoints m /\ active m ∈ deadEndpoints m' /\
           active m ∉ alternativeEndpoints m'.
Proof.
  intros Hr. assert (endpoints_inv m) as Hi.
  { induction Hr as [now e es m Hn E|m m' _ IH Hs]; [by eapply Multi_init_inv|].
    by eapply endpoint_step_inv. }
  pose proof Hi as [Ha Hd Hs]. repeat (split; [done|]). intros walk rnd now Hw.
  destruct (killEndpoint_spec walk Hw rnd now m Hi) as (m' & E & Hi' & Hb & Hk & Hne & Hem).
  exists m'. split; [done|]. split; [done|]. split; [done|].
  pose proof (killEndpoint_buries walk Hw rnd now m m' E) as Hbury.
  case_decide as Halt.
  - destruct (Hem Halt) as [Hact|Hact].
    + left. split; [done|]. by apply (killEndpoint_sole walk Hw rnd now m m' E).
    + right. split; [done|]. apply Hbury. intros Heq. by rewrite Heq in Hact.
  - specialize (Hne Halt). split; [done|]. assert (active m' <> active m) as Hd'
      by (intros Heq; by rewrite Heq in Hne).
    split; [by apply Hbury|]. intros Hin. destruct Hi' as [_ _ Hs']. specialize (Hbury Hd').
    by destruct (Hs' (active m)).
Qed.

(** Banning takes the endpoint out of use.  When the banned endpoint is not the
    active one, or there is an alternative to move to, it is afterwards neither
    active nor an alternative nor dead, every other endpoint is still known, and
    it can be neither added nor resurrected again. *)
Theorem ban_removes_endpoint walk rnd now e m m' :
  (forall X, walk X ≡ₚ elements X) -> endpoints_inv m ->
  active m <> e \/ alternativeEndpoints m <> ∅ ->
  banEndpoint walk rnd now e m = Ok m' ->
  known m' = known m ∖ {[e]} /\ isEndpointBanned e m' = true /\
  addEndpoint m' e = m' /\ hasEndpointAndResurrectIfFound e m' = (false, m').
Proof.
  intros Hw Hi Hor E.
  destruct (banEndpoint_spec walk Hw rnd now e m Hi) as (m2 & E2 & Hi2 & Hb & Hs1 & Hs2 & Hn).
  assert (m2 = m') as -> by congruence. specialize (Hn Hor).
  assert (e ∈ bannedEndpoints m') as Hin by (rewrite Hb; set_solver).
  split; [|split; [|split]].
  - clear -Hs1 Hs2 Hn. revert Hs1 Hs2 Hn. generalize (known m), (known m'). intros K K' H1 H2 H3.
    apply leibniz_equiv. intros x. destruct (decide (x = e)); set_solver.
  - unfold isEndpointBanned. by rewrite bool_decide_true.
  - unfold addEndpoint. by rewrite bool_decide_true.
  - unfold hasEndpointAndResurrectIfFound. by rewrite bool_decide_true.
Qed.

(** Banning the only endpoint does not stop its use.  A handler that knows one
    endpoint and bans it keeps it as the active endpoint, so everything it sends
    still goes there. *)
Theorem ban_sole_endpoint_stays walk rnd now m m' :
  (forall X, walk X ≡ₚ elements X) ->
  alternativeEndpoints m = ∅ -> deadEndpoints m = ∅ ->
  banEndpoint walk rnd now (active m) m = Ok m' ->
  active m' = active m /\ isEndpointBanned (active m') m' = true.
Proof.
  intros Hw Halt Hdead E.
  assert (endpoints_inv m) as Hi by (split; rewrite ?Halt, ?Hdead; set_solver).
  destruct (banEndpoint_spec walk Hw rnd now (active m) m Hi)
    as (m2 & E2 & Hi2 & Hb & Hs1 & Hs2 & _).
  assert (m2 = m') as -> by congruence.
  assert (active m' = active m) as Ha.
  { assert (active m' ∈ known m') as Hin by (unfold known; set_solver).
    apply Hs1 in Hin. unfold known in Hin. rewrite Halt, Hdead in Hin. set_solver. }
  split; [done|]. unfold isEndpointBanned. rewrite Ha. apply bool_decide_eq_true.
  rewrite Hb. set_solver.
Qed.

(** ** The methods that send and receive *)
Section Methods.
Context `{LruCache} {X : Type} `{Oracle} `{Msgpack} {PX : Part X MultiState}.
Variable delay_fuel : nat.

Definition get_multi : M (St X) MultiState := @get_part _ X MultiState PX.
Definition mod_multi (f : MultiState -> MultiState) : M (St X) unit :=
  @mod_part _ X MultiState PX f.
Definition set_walk : M (St X) (gset endpoint -> list endpoint) :=
  read_world (reading (fun n => o_set_order n)).

Definition multi_killEndpoint : M (St X) unit :=
  let! m := get_multi in
  let! walk := set_walk in
  let! rnd := rand in
  let! now := time_now in
  match killEndpoint walk rnd now m with
  | Ok m' => mod_multi (fun _ => m')
  | Err f => fail f
  end.

Definition update : M (St X) unit :=
  let! m := get_multi in
  if lastUnrepliedSendTime m =? 0 then ret tt
  else
    let! now := time_now in
    if lastUnrepliedSendOrKillTime m + 5 <? now then multi_killEndpoint else ret tt.

(** The lines that start the clock of the first send without a reply. *)
Definition startUnreplied : M (St X) unit :=
  let! m := get_multi in
  if lastUnrepliedSendTime m =? 0 then
    let! now := time_now in mod_multi (set_unreplied now)
  else ret tt.

Definition multi_send (message : string) : M (St X) unit :=
  startUnreplied ;;;
  let! now := time_now in
  let! m := get_multi in
  (if negb (now =? lastUpdateTime m) then
     let! now := time_now in mod_multi (set_lastUpdate now) ;;; update
   else ret tt) ;;;
  udp_send delay_fuel message ;;;
  startUnreplied.

Definition multi_handleReply (v_sendAcknowledge : RpcId -> M (St X) unit)
    (v_addIncomingReply : RpcId -> string -> M (St X) unit) (v_send : string -> M (St X) unit)
    (i : RpcId) (payload : string) (requestReceiveTime replySendTime : Z) : M (St X) unit :=
  mod_multi (set_unreplied 0) ;;;
  handleReply v_send v_sendAcknowledge v_addIncomingReply i payload requestReceiveTime replySendTime.

(** [banEndpoint], reading the environment where the code does. *)
Definition multi_banEndpoint (e : endpoint) : M (St X) unit :=
  let! m := get_multi in
  let! walk := set_walk in
  let! rnd := rand in
  let! now := time_now in
  match banEndpoint walk rnd now e m with
  | Ok m' => mod_multi (fun _ => m')
  | Err f => fail f
  end.

Definition multi_of (s : St X) : MultiState := @part _ _ PX (sub s).

Lemma keeps_get_multi {T} (f : Rpc -> T) : keeps f get_multi.
Proof using. apply keeps_get_part. Qed.
Lemma keeps_mod_multi {T} (f : Rpc -> T) g : keeps f (mod_multi g).
Proof using. apply keeps_mod_part. Qed.
Lemma keeps_set_walk {T} (f : Rpc -> T) : keeps f set_walk.
Proof using. apply keeps_read_world. Qed.
#[local] Hint Resolve keeps_get_multi keeps_mod_multi keeps_set_walk : keeps.
Lemma keeps_killEndpoint {T} (f : Rpc -> T) : keeps f multi_killEndpoint.
Proof using. unfold multi_killEndpoint, time_now. keeps_tac. Qed.
#[local] Hint Resolve keeps_killEndpoint : keeps.
Lemma keeps_update {T} (f : Rpc -> T) : keeps f update.
Proof using. unfold update, time_now. keeps_tac. Qed.
Lemma keeps_startUnreplied {T} (f : Rpc -> T) : keeps f startUnreplied.
Proof using. unfold startUnreplied, time_now. keeps_tac. Qed.
#[local] Hint Resolve keeps_update keeps_startUnreplied : keeps.
Lemma keeps_multi_send {T} (f : Rpc -> T) m : keeps f (multi_send m).
Proof using. unfold multi_send, time_now. keeps_tac. Qed.

Lemma mod_multi_of f s s' : mod_multi f s = Ok (tt, s') -> multi_of s' = f (multi_of s).
Proof using. unfold mod_multi, mod_part. intros E. run E. apply (@part_set _ _ PX). Qed.
Lemma get_multi_of s m s' : get_multi s = Ok (m, s') -> m = multi_of s /\ s' = s.
Proof using. unfold get_multi, get_part, gets. by intros [= <- <-]. Qed.
Lemma reading_multi {A} (f : N -> A) s a s' :
  read_world (reading f) s = Ok (a, s') -> a = f (tick (world s)) /\ multi_of s' = multi_of s.
Proof using. unfold read_world, reading. by intros [= <- <-]. Qed.

(** [m] relates the states before and after it by [R]. *)
Definition respects {A} (R : St X -> St X -> Prop) (m : M (St X) A) : Prop :=
  forall s a s', m s = Ok (a, s') -> R s s'.
Lemma respects_bind {A B} R `{!Transitive R} (m : M (St X) A) (k : A -> M (St X) B) :
  respects R m -> (forall a, respects R (k a)) -> respects R (bind m k).
Proof using.
  intros Hm Hk s b s' (a & s1 & E1 & E2)%bind_ok. transitivity s1; [by eapply Hm|by eapply Hk].
Qed.
Lemma respects_ret {A} R `{!Reflexive R} (a : A) : respects R (ret a).
Proof using. intros s x s' E. by run E. Qed.

(** Only the base class's counters and queue moved. *)
Definition same_endpoints (s s' : St X) : Prop :=
  exists u, multi_of s' = set_udp u (multi_of s) /\ activeEndpoint u = active (multi_of s).
#[local] Instance same_endpoints_refl : Reflexive same_endpoints.
Proof using. intros s. exists (udp (multi_of s)). by destruct (multi_of s). Qed.
#[local] Instance same_endpoints_trans : Transitive same_endpoints.
Proof using.
  intros s1 s2 s3 (u & E1 & H1') (v & E2 & H2'). exists v. rewrite E1 in H2'.
  split; [by rewrite E2, E1|]. unfold active in *. simpl in *. congruence.
Qed.
Lemma same_endpoints_reading {A} (f : N -> A) : respects same_endpoints (read_world (reading f)).
Proof using.
  intros s a s' E. apply reading_multi in E as [_ E]. exists (udp (multi_of s)). rewrite E.
  by destruct (multi_of s).
Qed.
Lemma same_endpoints_get {A} (f : St X -> A) : respects same_endpoints (gets f).
Proof using. intros s a s' E. by run E. Qed.
Lemma same_endpoints_mod f :
  (forall u, activeEndpoint (f u) = activeEndpoint u) ->
  respects same_endpoints (@mod_part _ X UdpState _ f).
Proof using.
  intros Hf s [] s' E. unfold mod_part in E. run E. exists (f (udp (multi_of s))).
  unfold multi_of. simpl. rewrite (@part_set _ _ PX). split; [done|]. apply Hf.
Qed.
Lemma same_endpoints_drawDelay n : respects same_endpoints (drawDelay n).
Proof using.
  induction n as [|n IH]; [by intros s a s' E|]. simpl.
  apply respects_bind; [apply _|apply same_endpoints_reading|]. intros z.
  destruct (_ && _); [apply respects_ret, _|apply IH].
Qed.
Lemma same_endpoints_sendCopy m : respects same_endpoints (sendCopy delay_fuel m).
Proof using.
  unfold sendCopy, get_rpc, _send. apply respects_bind; [apply _|apply same_endpoints_get|].
  intros r. apply respects_bind; [apply _| |].
  - destruct (flaky r); [apply same_endpoints_drawDelay|apply respects_ret, _].
  - intros d. destruct (negb _); by apply same_endpoints_mod.
Qed.
Lemma same_endpoints_udp_send m : respects same_endpoints (udp_send delay_fuel m).
Proof using.
  unfold udp_send, time_now. apply respects_bind; [apply _|apply same_endpoints_reading|].
  intros t. apply respects_bind; [apply _|apply same_endpoints_get|]. intros u.
  apply respects_bind; [apply _| |].
  { destruct (negb _); [|apply respects_ret, _].
    apply respects_bind; [apply _|apply same_endpoints_reading|]. intros t'.
    by apply same_endpoints_mod. }
  intros []. apply respects_bind; [apply _|by apply same_endpoints_mod|]. intros [].
  apply respects_bind; [apply _|apply same_endpoints_get|]. intros u'.
  destruct (_ <? _); [apply respects_ret, _|].
  generalize (seq 0 (if doubleSends u' then 2 else 1)) as l. intros l.
  induction l as [|x l IH]; [apply respects_ret, _|]. simpl.
  apply respects_bind; [apply _|apply same_endpoints_sendCopy|]. intros _. exact IH.
Qed.

(** What was posted for the network thread since: copies of [message] only. *)
Definition posted (s : St X) : list (Z * string) := postedSends (udp (multi_of s)).
Definition posts (message : string) (s s' : St X) : Prop :=
  exists q, posted s' = posted s ++ q /\ Forall (fun x => x.2 = message) q.
#[local] Instance posts_refl m : Reflexive (posts m).
Proof using. intros s. exists []. by rewrite app_nil_r. Qed.
#[local] Instance posts_trans m : Transitive (posts m).
Proof using.
  intros s1 s2 s3 (q & E1 & H1') (r & E2 & H2'). exists (q ++ r). rewrite E2, E1, <- app_assoc.
  split; [done|]. by apply Forall_app.
Qed.
Lemma posts_same m s s' : posted s' = posted s -> posts m s s'.
Proof using. intros E. exists []. by rewrite app_nil_r. Qed.
Lemma posts_reading {A} m (f : N -> A) : respects (posts m) (read_world (reading f)).
Proof using.
  intros s a s' E. apply reading_multi in E as [_ E]. apply posts_same. unfold posted. by rewrite E.
Qed.
Lemma posts_get {A} m (f : St X -> A) : respects (posts m) (gets f).
Proof using. intros s a s' E. run E. by apply posts_same. Qed.
Lemma posts_mod m f :
  (forall x, postedSends (udp (f x)) = postedSends (udp x)) -> respects (posts m) (mod_multi f).
Proof using.
  intros Hf s [] s' E. apply mod_multi_of in E. apply posts_same. unfold posted. by rewrite E, Hf.
Qed.
Lemma killEndpoint_posted walk rnd now m m' :
  killEndpoint walk rnd now m = Ok m' -> postedSends (udp m') = postedSends (udp m).
Proof using.
  unfold killEndpoint. destruct (negb _); destruct (draw_from _ _) as [e|]; try done;
    cbn [obind]; by intros [= <-].
Qed.
Ltac posts_tac :=
  repeat first
    [ apply respects_bind; [apply _| |intros]
    | apply posts_reading | apply posts_get | by apply posts_mod | apply respects_ret, _
    | match goal with |- respects _ (if ?b then _ else _) => destruct b end ].
Lemma posts_startUnreplied m : respects (posts m) startUnreplied.
Proof using. unfold startUnreplied, time_now, get_multi, get_part. posts_tac. Qed.
Lemma posts_update m : respects (posts m) update.
Proof using.
  unfold update, time_now, get_multi, get_part.
  apply respects_bind; [apply _|apply posts_get|intros u].
  destruct (_ =? _); [apply respects_ret, _|].
  apply respects_bind; [apply _|apply posts_reading|intros now].
  destruct (_ <? _); [|apply respects_ret, _]. intros s [] s' E. unfold multi_killEndpoint in E. apply bind_ok in E as (x & s1 & E1 & E).
  apply get_multi_of in E1 as [-> ->]. apply bind_ok in E as (w & s1 & E1 & E).
  apply reading_multi in E1 as [_ E1]. apply bind_ok in E as (r & s2 & E2 & E).
  apply reading_multi in E2 as [_ E2]. apply bind_ok in E as (t & s3 & E3 & E).
  apply reading_multi in E3 as [_ E3]. destruct (killEndpoint _ _ _ _) as [m'|] eqn:Ek; [|done].
  apply mod_multi_of in E. apply killEndpoint_posted in Ek. apply posts_same. unfold posted.
  by rewrite E, Ek.
Qed.
Lemma multi_send_posts m : respects (posts m) (multi_send m).
Proof using.
  unfold multi_send, time_now, get_multi, get_part.
  apply respects_bind; [apply _|apply posts_startUnreplied|intros _].
  apply respects_bind; [apply _|apply posts_reading|intros t].
  apply respects_bind; [apply _|apply posts_get|intros u].
  apply respects_bind; [apply _| |intros _].
  { destruct (negb _); [|apply respects_ret, _]. apply respects_bind; [apply _|apply posts_reading|intros t'].
    apply respects_bind; [apply _|by apply posts_mod|intros _]. apply posts_update. }
  apply respects_bind; [apply _| |intros _; apply posts_startUnreplied].
  intros s [] s' (t1 & t2 & q & _ & Hu & Hq)%udp_send_spec. exists q.
  assert (posted s' = posted s ++ q) as -> by (exact (f_equal postedSends Hu)). split; [done|].
  apply Forall_forall. intros x Hx. apply (list_elem_of_fmap_2 snd) in Hx. unfold fmap in Hx.
  change (list_fmap _ _ snd q) with (map snd q) in Hx. rewrite Hq in Hx.
  destruct (_ <? _); [by apply elem_of_nil in Hx|]. destruct (doubleSends _); set_solver.
Qed.

Context {OL : OracleLaws}.

Lemma multi_killEndpoint_of s s' :
  endpoints_inv (multi_of s) -> multi_killEndpoint s = Ok (tt, s') ->
  endpoints_inv (multi_of s') /\ bannedEndpoints (multi_of s') = bannedEndpoints (multi_of s) /\
  known (multi_of s') = known (multi_of s) /\
  (alternativeEndpoints (multi_of s) <> ∅ ->
     active (multi_of s') ∈ alternativeEndpoints (multi_of s)).
Proof using OL.
  intros Hi E. unfold multi_killEndpoint in E.
  apply bind_ok in E as (m & s1 & E1 & E). apply get_multi_of in E1 as [-> ->].
  apply bind_ok in E as (w & s1 & E1 & E). apply reading_multi in E1 as [-> E1].
  apply bind_ok in E as (r & s2 & E2 & E). apply reading_multi in E2 as [-> E2].
  apply bind_ok in E as (t & s3 & E3 & E). apply reading_multi in E3 as [-> E3].
  destruct (killEndpoint_spec (o_set_order (tick (world s))) (fun X => o_set_order_perm _ _ X)
    (o_rand (tick (world s1))) (o_time (tick (world s2))) (multi_of s) Hi)
    as (m' & Em & Hi' & Hb & Hk & Ha & _).
  rewrite Em in E. apply mod_multi_of in E. rewrite E. auto.
Qed.

Lemma startUnreplied_of s s' :
  startUnreplied s = Ok (tt, s') ->
  (lastUnrepliedSendTime (multi_of s) <> 0 /\ multi_of s' = multi_of s) \/
  (lastUnrepliedSendTime (multi_of s) = 0 /\
    exists n, multi_of s' = set_unreplied (o_time n) (multi_of s)).
Proof using.
  unfold startUnreplied. intros (m & s1 & E1 & E)%bind_ok. apply get_multi_of in E1 as [-> ->].
  destruct (Z.eqb_spec (lastUnrepliedSendTime (multi_of s)) 0); [|run E; left; by split].
  apply bind_ok in E as (t & s1 & E1 & E). apply reading_multi in E1 as [-> E1].
  apply mod_multi_of in E. right. split; [done|]. exists (tick (world s)). by rewrite E, E1.
Qed.

Lemma update_of s s' :
  endpoints_inv (multi_of s) -> update s = Ok (tt, s') ->
  multi_of s' = multi_of s \/
  (lastUnrepliedSendTime (multi_of s) <> 0 /\
   (exists n, lastUnrepliedSendOrKillTime (multi_of s) + 5 < o_time n) /\
   endpoints_inv (multi_of s') /\ bannedEndpoints (multi_of s') = bannedEndpoints (multi_of s) /\
   known (multi_of s') = known (multi_of s) /\
   (alternativeEndpoints (multi_of s) <> ∅ ->
      active (multi_of s') ∈ alternativeEndpoints (multi_of s))).
Proof using OL.
  intros Hi. unfold update. intros (m & s1 & E1 & E)%bind_ok. apply get_multi_of in E1 as [-> ->].
  destruct (Z.eqb_spec (lastUnrepliedSendTime (multi_of s)) 0); [run E; by left|].
  apply bind_ok in E as (t & s1 & E1 & E). apply reading_multi in E1 as [-> E1].
  destruct (Z.ltb_spec (lastUnrepliedSendOrKillTime (multi_of s) + 5) (o_time (tick (world s))));
    [|run E; by left].
  right. apply multi_killEndpoint_of in E as (Hi' & Hb & Hk & Ha); [|by rewrite E1].
  rewrite E1 in *. split; [done|]. split; [by eexists|]. auto.
Qed.

Lemma endpoints_inv_same m m' :
  active m' = active m -> alternativeEndpoints m' = alternativeEndpoints m ->
  deadEndpoints m' = deadEndpoints m -> endpoints_inv m ->
  endpoints_inv m' /\ known m' = known m.
Proof using.
  unfold known. intros Ha Hb Hd []. split; [split|]; rewrite ?Ha, ?Hb, ?Hd; done.
Qed.

(** Failover.  Sending keeps the endpoints known and their bookkeeping.  While
    the clock reads [t], it changes the endpoint in use only when a send has been
    without a reply, the endpoint has been in use for more than five seconds of
    it, and the second is a new one; it then moves to an alternative if there is
    one. *)
Theorem failover msg t s s' :
  (forall n, o_time n = t) -> endpoints_inv (multi_of s) -> multi_send msg s = Ok (tt, s') ->
  endpoints_inv (multi_of s') /\ known (multi_of s') = known (multi_of s) /\
  bannedEndpoints (multi_of s') = bannedEndpoints (multi_of s) /\
  (active (multi_of s') <> active (multi_of s) ->
     lastUnrepliedSendTime (multi_of s) <> 0 /\ lastUpdateTime (multi_of s) <> t /\
     lastUnrepliedSendOrKillTime (multi_of s) + 5 < t /\
     (alternativeEndpoints (multi_of s) <> ∅ ->
        active (multi_of s') ∈ alternativeEndpoints (multi_of s))).
Proof using OL.
  intros Ht Hi E. unfold multi_send in E.
  apply bind_ok in E as ([] & s1 & E1 & E). apply startUnreplied_of in E1.
  apply bind_ok in E as (now & s2 & E2 & E). apply reading_multi in E2 as [-> E2].
  apply bind_ok in E as (m & s3 & E3 & E). apply get_multi_of in E3 as [-> ->].
  apply bind_ok in E as ([] & s3 & E3 & E). apply bind_ok in E as ([] & s4 & E4 & E5).
  apply same_endpoints_udp_send in E4 as (u & E4 & Hu). apply startUnreplied_of in E5.
  (* the last two steps leave the endpoints alone *)
  assert (active (multi_of s') = active (multi_of s3) /\
    alternativeEndpoints (multi_of s') = alternativeEndpoints (multi_of s3) /\
    deadEndpoints (multi_of s') = deadEndpoints (multi_of s3) /\
    bannedEndpoints (multi_of s') = bannedEndpoints (multi_of s3)) as (A1 & A2 & A3 & A4).
  { destruct E5 as [(_ & ->)|(_ & n & ->)]; rewrite E4; unfold active; by simpl. }
  (* so does the first *)
  assert (active (multi_of s2) = active (multi_of s) /\
    alternativeEndpoints (multi_of s2) = alternativeEndpoints (multi_of s) /\
    deadEndpoints (multi_of s2) = deadEndpoints (multi_of s) /\
    bannedEndpoints (multi_of s2) = bannedEndpoints (multi_of s) /\
    lastUpdateTime (multi_of s2) = lastUpdateTime (multi_of s) /\
    (lastUnrepliedSendTime (multi_of s) <> 0 -> multi_of s2 = multi_of s) /\
    (lastUnrepliedSendTime (multi_of s) = 0 -> lastUnrepliedSendOrKillTime (multi_of s2) = t))
    as (B1 & B2 & B3 & B4 & B5 & B6 & B7).
  { rewrite E2. destruct E1 as [(Hz & ->)|(Hz & n & ->)]; repeat (split; [done|]); [done|].
    intros _. simpl. apply Ht. }
  destruct (endpoints_inv_same _ _ B1 B2 B3 Hi) as [Hi2 Hk2].
  (* the step in between moves on or leaves the endpoints alone *)
  assert (endpoints_inv (multi_of s3) /\ known (multi_of s3) = known (multi_of s2) /\
    bannedEndpoints (multi_of s3) = bannedEndpoints (multi_of s2) /\
    (active (multi_of s3) <> active (multi_of s2) ->
      lastUpdateTime (multi_of s2) <> t /\ lastUnrepliedSendOrKillTime (multi_of s2) + 5 < t /\
      (alternativeEndpoints (multi_of s2) <> ∅ ->
         active (multi_of s3) ∈ alternativeEndpoints (multi_of s2))))
    as (Hi3 & Hk3 & Hb3 & Ha3).
  { rewrite Ht in E3. destruct (Z.eqb_spec t (lastUpdateTime (multi_of s2))) as [Hl|Hl]; simpl in E3.
    { run E3. by repeat (split; [done|]). }
    apply bind_ok in E3 as (t' & s5 & E6 & E3). apply reading_multi in E6 as [-> E6].
    apply bind_ok in E3 as ([] & s6 & E7 & E3). apply mod_multi_of in E7. rewrite E6 in E7.
    assert (endpoints_inv (multi_of s6)) as Hi6 by (rewrite E7; by destruct Hi2).
    apply update_of in E3; [|done]. rewrite E7 in E3.
    destruct E3 as [-> |(Hz & (n & Hn) & Hi3 & Hb3 & Hk3 & Ha3)].
    - split; [by destruct Hi2|]. by repeat (split; [done|]).
    - split; [done|]. split; [done|]. split; [done|]. intros _. rewrite (Ht n) in Hn.
      split; [congruence|]. split; [exact Hn|exact Ha3]. }
  destruct (endpoints_inv_same _ _ A1 A2 A3 Hi3) as [Hi' Hk'].
  split; [done|]. split; [congruence|]. split; [congruence|]. rewrite A1, <- B1, <- B2, <- B5.
  intros Hne. destruct (Ha3 Hne) as (Hn1 & Hn2 & Hn3).
  destruct (Z.eq_dec (lastUnrepliedSendTime (multi_of s)) 0) as [Hz|Hz].
  - rewrite B7 in Hn2 by done. lia.
  - split; [done|]. split; [done|]. rewrite <- (B6 Hz). by split.
Qed.
End Methods.

(** ** Concrete runs *)
Definition ep (n : Z) : endpoint := mkEndpoint "10.0.0.1" n.
Definition multi0 : MultiState :=
  match Multi_init 100 [ep 1; ep 2; ep 3] with Ok m => m | Err _ => mkMulti (Udp_init (ep 0)) 0 0 0 ∅ ∅ ∅ end.
(** Two seconds into the second 110, last heard of at 100. *)
Definition silent : St MultiState :=
  mkSt (Rpc_init false true) (mkMulti (udp multi0) 105 100 100 (alternativeEndpoints multi0) ∅ ∅) world0.

Lemma multi0_reachable : endpoints_reachable multi0.
Proof. apply (er_init 100 (ep 1) [ep 2; ep 3]); [by_compute|reflexivity]. Qed.
Lemma multi0_inv : endpoints_inv multi0.
Proof. split; by_compute. Qed.
Lemma elements_perm (X : gset endpoint) : elements X ≡ₚ elements X.
Proof. reflexivity. Qed.

Lemma endpoints_partition_witness :
  exists m', killEndpoint elements 0 110 multi0 = Ok m' /\ known m' = known multi0 /\
    active m' ∈ alternativeEndpoints multi0 /\ active multi0 ∈ deadEndpoints m'.
Proof.
  destruct (endpoints_partition multi0 multi0_reachable) as (_ & _ & _ & H).
  destruct (H elements 0 110 elements_perm) as (m' & E & Hk & _ & Ha).
  exists m'. split; [exact E|]. split; [exact Hk|].
  destruct (decide (alternativeEndpoints multi0 = ∅)) as [He|_]; [|destruct Ha as (Ha1 & Ha2 & _); by split].
  exfalso. revert He. by_compute.
Defined.

Lemma ban_removes_endpoint_witness :
  exists m', banEndpoint elements 0 110 (ep 1) multi0 = Ok m' /\
    known m' = known multi0 ∖ {[ep 1]} /\ addEndpoint m' (ep 1) = m'.
Proof.
  destruct (banEndpoint elements 0 110 (ep 1) multi0) as [m'|] eqn:E;
    [|vm_compute in E; discriminate E].
  destruct (ban_removes_endpoint elements 0 110 (ep 1) multi0 m') as (H1 & _ & H2 & _).
  - exact elements_perm.
  - exact multi0_inv.
  - right. by_compute.
  - exact E.
  - exists m'. split; [reflexivity|]. split; [exact H1|exact H2].
Defined.

Lemma ban_sole_endpoint_stays_witness :
  let m := mkMulti (Udp_init (ep 1)) 100 0 0 ∅ ∅ ∅ in
  exists m', banEndpoint elements 0 110 (ep 1) m = Ok m' /\ active m' = ep 1.
Proof.
  intros m. destruct (banEndpoint elements 0 110 (ep 1) m) as [m'|] eqn:E;
    [|vm_compute in E; discriminate E].
  destruct (ban_sole_endpoint_stays elements 0 110 m m' elements_perm eq_refl eq_refl E)
    as [H1 _].
  exists m'. split; [reflexivity|exact H1].
Defined.

Lemma failover_witness :
  let _ := frozen_Oracle 110 in
  exists s', @multi_send _ _ (frozen_Oracle 110) _ 1 "hello" silent = Ok (tt, s') /\
    active (sub s') <> active (sub silent) /\
    active (sub s') ∈ alternativeEndpoints (sub silent).
Proof.
  intros O. destruct (@multi_send _ _ (frozen_Oracle 110) _ 1 "hello" silent) as [[[] s']|] eqn:E;
    [|vm_compute in E; discriminate E].
  exists s'. split; [reflexivity|].
  assert (active (sub s') <> active (sub silent)) as Hne.
  { vm_compute in E. injection E as <-. vm_compute. discriminate. }
  split; [exact Hne|].
  destruct (@failover _ _ (frozen_Oracle 110) _ 1 (frozen_OracleLaws 110) "hello" 110 silent s')
    as (_ & _ & _ & H).
  - reflexivity.
  - split; by_compute.
  - exact E.
  - destruct (H Hne) as (_ & _ & _ & Ha). apply Ha. by_compute.
Defined.
