(* ===== verification/Base64.v ===== *)
(** * Base64

    [b64::Base64] (src/peer/src/base/Base64.hpp) on byte lists.  [data[i]] is a
    signed [char]; reading the terminator is allowed and gives 0, reading past it
    or writing past the buffer is undefined. *)
From S2P Require Import Prelude.

Definition sEncodingTable : list Z :=
  bytes_of "ABCDEFGHIJKLMNOPQRSTUVWXYZabcdefghijklmnopqrstuvwxyz0123456789+/".
Definition kDecodingTable : list Z :=
  repeat 64 43 ++ [62] ++ repeat 64 3 ++ [63] ++ map Z.of_nat (seq 52 10) ++ repeat 64 7 ++
  map Z.of_nat (seq 0 26) ++ repeat 64 6 ++ map Z.of_nat (seq 26 26) ++ repeat 64 133.

(** [data[i]] as a [char] *)
Definition char_at (data : list Z) (i : Z) : outcome Z :=
  match data !! Z.to_nat i with
  | Some z => Ok (wrap_s 8 z)
  | None => if i =? Z.of_nat (length data) then Ok 0 else Err Undefined
  end.
Definition sextet (n : Z) : outcome Z :=
  match sEncodingTable !! Z.to_nat n with Some c => Ok c | None => Err Undefined end.

(** The four table indices of a group of three characters. *)
Definition e1 (a : Z) : Z := Z.land (Z.shiftr a 2) 63.
Definition e2 (a b : Z) : Z :=
  Z.lor (Z.shiftl (Z.land a 3) 4) (Z.shiftr (Z.land b 240) 4).
Definition e3 (b c : Z) : Z :=
  Z.lor (Z.shiftl (Z.land b 15) 2) (Z.shiftr (Z.land c 192) 6).
Definition e4 (c : Z) : Z := Z.land c 63.

(** [*p++ = c], in a buffer of [out_len] characters *)
Definition put_char (out_len : Z) (out : list Z) (c : Z) : outcome (list Z) :=
  if Z.of_nat (length out) <? out_len then Ok (out ++ [c]) else Err Undefined.
Definition put_sextet (out_len : Z) (out : list Z) (n : Z) : outcome (list Z) :=
  let? c := sextet n in put_char out_len out c.

Fixpoint encodeLoop (fuel : nat) (data : list Z) (out_len i : Z) (out : list Z) :
    outcome (Z * list Z) :=
  match fuel with
  | O => Err Undefined
  | S fuel' =>
      if i <? wrap_u 64 (Z.of_nat (length data) - 2) then
        let? a := char_at data i in
        let? out := put_sextet out_len out (e1 a) in
        let? b := char_at data (i + 1) in
        let? out := put_sextet out_len out (e2 a b) in
        let? c := char_at data (i + 2) in
        let? out := put_sextet out_len out (e3 b c) in
        let? out := put_sextet out_len out (e4 c) in
        encodeLoop fuel' data out_len (i + 3) out
      else Ok (i, out)
  end.

Definition Encode (data : list Z) : outcome (list Z) :=
  let in_len := Z.of_nat (length data) in
  let out_len := 4 * ((in_len + 2) / 3) in
  let? (i, out) := encodeLoop (S (length data)) data out_len 0 [] in
  if i <? in_len then
    let? a := char_at data i in
    let? out := put_sextet out_len out (e1 a) in
    let? out :=
      (if i =? in_len - 1 then
         let? out := put_sextet out_len out (Z.shiftl (Z.land a 3) 4) in
         put_char out_len out 61
       else
         let? b := char_at data (i + 1) in
         let? out := put_sextet out_len out (e2 a b) in
         put_sextet out_len out (Z.shiftl (Z.land b 15) 2)) in
    put_char out_len out 61
  else Ok out.

(** One character of the input; a negative [char] indexes before the table. *)
Definition decode_char (c : Z) : outcome Z :=
  if c =? 61 then Ok 0
  else if wrap_s 8 c <? 0 then Err Undefined
  else match kDecodingTable !! Z.to_nat c with Some v => Ok v | None => Err Undefined end.

(** [if (j < out_len) out[j++] = v] *)
Definition put_byte (out_len : Z) (out : list Z) (v : Z) : list Z :=
  if Z.of_nat (length out) <? out_len then out ++ [v] else out.

Fixpoint decodeLoop (input : list Z) (out_len : Z) (out : list Z) : outcome (list Z) :=
  match input with
  | c1 :: c2 :: c3 :: c4 :: rest =>
      let? a := decode_char c1 in
      let? b := decode_char c2 in
      let? c := decode_char c3 in
      let? d := decode_char c4 in
      let triple := wrap_u 32 (Z.shiftl a 18 + Z.shiftl b 12 + Z.shiftl c 6 + d) in
      let out := put_byte out_len out (Z.land (Z.shiftr triple 16) 255) in
      let out := put_byte out_len out (Z.land (Z.shiftr triple 8) 255) in
      let out := put_byte out_len out (Z.land triple 255) in
      decodeLoop rest out_len out
  | _ => Ok out
  end.

Definition Decode (input : list Z) : outcome (list Z) :=
  let in_len := length input in
  if negb (Z.of_nat in_len mod 4 =? 0) then
    Ok (bytes_of "Input data size is not a multiple of 4")
  else
    match input !! (in_len - 1)%nat, input !! (in_len - 2)%nat with
    | Some last1, Some last2 =>
        let out_len := Z.of_nat in_len / 4 * 3 in
        let out_len := if last1 =? 61 then out_len - 1 else out_len in
        let out_len := if last2 =? 61 then out_len - 1 else out_len in
        let? out := decodeLoop input out_len [] in
        Ok (out ++ repeat 0 (Z.to_nat out_len - length out))
    | _, _ => Err Undefined
    end.

(** ** The groups of three bytes *)
Lemma all_bytes (P : Z -> bool) :
  forallb P (map Z.of_nat (seq 0 256)) = true -> forall z, is_byte z = true -> P z = true.
Proof.
  rewrite forallb_forall. intros HP z Hz. apply HP. unfold is_byte in Hz.
  apply in_map_iff. exists (Z.to_nat z). split; [lia|]. apply in_seq. lia.
Qed.

(** The characters of the table, and what decoding them gives. *)
Definition enc (n : Z) : Z := nth (Z.to_nat n) sEncodingTable 0.
Lemma enc_ok n : 0 <= n < 64 ->
  sextet n = Ok (enc n) /\ decode_char (enc n) = Ok n /\ (enc n =? 61) = false.
Proof.
  intros Hn.
  assert (forallb (fun k => let n := Z.of_nat k in
    bool_decide (sextet n = Ok (enc n) /\ decode_char (enc n) = Ok n /\ (enc n =? 61) = false))
    (seq 0 64) = true) as H by (vm_compute; reflexivity).
  rewrite forallb_forall in H. specialize (H (Z.to_nat n)). rewrite Z2Nat.id in H by lia.
  apply bool_decide_eq_true in H; [done|]. apply in_seq. lia.
Qed.

Definition c1 (a : Z) : Z := a / 4.
Definition c2 (a b : Z) : Z := (a mod 4) * 16 + b / 16.
Definition c3 (b c : Z) : Z := (b mod 16) * 4 + c / 64.
Definition c4 (c : Z) : Z := c mod 64.

Lemma e1_c1 a : is_byte a = true -> e1 (wrap_s 8 a) = c1 a.
Proof.
  intros Ha. apply Z.eqb_eq. revert a Ha. apply all_bytes. vm_compute. reflexivity.
Qed.
Lemma e4_c4 a : is_byte a = true -> e4 (wrap_s 8 a) = c4 a.
Proof.
  intros Ha. apply Z.eqb_eq. revert a Ha. apply all_bytes. vm_compute. reflexivity.
Qed.
Lemma e2_c2 a b : is_byte a = true -> is_byte b = true -> e2 (wrap_s 8 a) (wrap_s 8 b) = c2 a b.
Proof.
  intros Ha Hb. apply Z.eqb_eq. revert b Hb.
  apply all_bytes. revert a Ha. apply all_bytes. vm_compute. reflexivity.
Qed.
Lemma e3_c3 a b : is_byte a = true -> is_byte b = true -> e3 (wrap_s 8 a) (wrap_s 8 b) = c3 a b.
Proof.
  intros Ha Hb. apply Z.eqb_eq. revert b Hb.
  apply all_bytes. revert a Ha. apply all_bytes. vm_compute. reflexivity.
Qed.
Lemma e2_half a : is_byte a = true -> Z.shiftl (Z.land (wrap_s 8 a) 3) 4 = c2 a 0.
Proof.
  intros Ha. apply Z.eqb_eq. revert a Ha. apply all_bytes. vm_compute. reflexivity.
Qed.
Lemma e3_half a : is_byte a = true -> Z.shiftl (Z.land (wrap_s 8 a) 15) 2 = c3 a 0.
Proof.
  intros Ha. apply Z.eqb_eq. revert a Ha. apply all_bytes. vm_compute. reflexivity.
Qed.

Lemma c_range a b : is_byte a = true -> is_byte b = true ->
  0 <= c1 a < 64 /\ 0 <= c2 a b < 64 /\ 0 <= c3 a b < 64 /\ 0 <= c4 a < 64.
Proof.
  unfold is_byte, c1, c2, c3, c4. intros Ha Hb.
  pose proof (Z.mod_pos_bound a 4). pose proof (Z.mod_pos_bound a 16).
  pose proof (Z.mod_pos_bound a 64). repeat split; try lia.
  - apply Z.div_pos; lia.
  - apply Z.div_lt_upper_bound; lia.
  - pose proof (Z.div_pos b 16). lia.
  - assert (b / 16 < 16) by (apply Z.div_lt_upper_bound; lia). lia.
  - pose proof (Z.div_pos b 64). lia.
  - assert (b / 64 < 4) by (apply Z.div_lt_upper_bound; lia). lia.
Qed.

(** The reference encoding, a group at a time. *)
Fixpoint enc_ref (l : list Z) : list Z :=
  match l with
  | a :: b :: c :: r => enc (c1 a) :: enc (c2 a b) :: enc (c3 b c) :: enc (c4 c) :: enc_ref r
  | [a; b] => [enc (c1 a); enc (c2 a b); enc (c3 b 0); 61]
  | [a] => [enc (c1 a); enc (c2 a 0); 61; 61]
  | [] => []
  end.

Lemma char_at_pre pre a r :
  char_at (pre ++ a :: r) (Z.of_nat (length pre)) = Ok (wrap_s 8 a).
Proof. unfold char_at. by rewrite Nat2Z.id, list_lookup_middle. Qed.
Lemma char_at_pre1 pre a b r :
  char_at (pre ++ a :: b :: r) (Z.of_nat (length pre) + 1) = Ok (wrap_s 8 b).
Proof.
  rewrite cons_middle, app_assoc. rewrite <- (char_at_pre (pre ++ [a]) b r). f_equal.
  rewrite length_app. simpl. lia.
Qed.
Lemma char_at_pre2 pre a b c r :
  char_at (pre ++ a :: b :: c :: r) (Z.of_nat (length pre) + 2) = Ok (wrap_s 8 c).
Proof.
  rewrite cons_middle, app_assoc. rewrite <- (char_at_pre1 (pre ++ [a]) b c r). f_equal.
  rewrite length_app. simpl. lia.
Qed.

Lemma put_sextet_ok out_len out n :
  0 <= n < 64 -> Z.of_nat (length out) < out_len ->
  put_sextet out_len out n = Ok (out ++ [enc n]).
Proof.
  intros Hn Ho. unfold put_sextet. destruct (enc_ok n Hn) as (-> & _). simpl. unfold put_char.
  destruct (Z.ltb_spec (Z.of_nat (length out)) out_len); [done|lia].
Qed.
Lemma put_char_ok out_len out c :
  Z.of_nat (length out) < out_len -> put_char out_len out c = Ok (out ++ [c]).
Proof.
  intros Ho. unfold put_char. destruct (Z.ltb_spec (Z.of_nat (length out)) out_len); [done|lia].
Qed.

Lemma enc_ref_length l : Z.of_nat (length (enc_ref l)) = 4 * ((Z.of_nat (length l) + 2) / 3).
Proof.
  induction l as [l IH] using (induction_ltof1 _ (@length Z)). unfold ltof in IH.
  destruct l as [|a [|b [|c r]]]; [done..|].
  cbn [enc_ref length]. rewrite !Nat2Z.inj_succ, IH by (simpl; lia).
  replace (Z.succ (Z.succ (Z.succ (Z.of_nat (length r)))) + 2)
    with (Z.of_nat (length r) + 2 + 1 * 3) by lia.
  rewrite Z.div_add by lia. lia.
Qed.

(** One turn of the loop: three bytes become four characters. *)
Lemma encodeLoop_turn fuel pre a b c r out_len out :
  forallb is_byte (a :: b :: c :: r) = true ->
  Z.of_nat (length (pre ++ a :: b :: c :: r)) < 2 ^ 64 ->
  Z.of_nat (length out) + 4 <= out_len ->
  encodeLoop (S fuel) (pre ++ a :: b :: c :: r) out_len (Z.of_nat (length pre)) out =
  encodeLoop fuel ((pre ++ [a; b; c]) ++ r) out_len (Z.of_nat (length (pre ++ [a; b; c])))
    (out ++ [enc (c1 a); enc (c2 a b); enc (c3 b c); enc (c4 c)]).
Proof.
  intros Hb Hl Ho. cbn [forallb] in Hb.
  apply andb_prop in Hb as [Ha Hb]. apply andb_prop in Hb as [Hb Hc].
  apply andb_prop in Hc as [Hc _].
  destruct (c_range a b Ha Hb) as (R1 & R2 & _ & _). destruct (c_range c c Hc Hc) as (_ & _ & _ & R4).
  destruct (c_range b c Hb Hc) as (_ & _ & R3 & _).
  assert (0 <= c3 b c < 64) as R3'.
  { unfold c3. unfold is_byte in Hb, Hc. pose proof (Z.mod_pos_bound b 16). pose proof (Z.div_pos c 64).
    assert (c / 64 < 4) by (apply Z.div_lt_upper_bound; lia). lia. }
  cbn [encodeLoop]. rewrite length_app in *. simpl length in *.
  rewrite wrap_u_id by (unfold in_u; apply andb_true_intro; split; [apply Z.leb_le|apply Z.ltb_lt]; lia).
  destruct (Z.ltb_spec (Z.of_nat (length pre)) (Z.of_nat (length pre + S (S (S (length r)))) - 2));
    [|lia].
  rewrite char_at_pre. cbn [obind]. rewrite e1_c1 by done.
  rewrite put_sextet_ok by (done || lia). cbn [obind]. rewrite char_at_pre1. cbn [obind].
  rewrite e2_c2 by done. rewrite put_sextet_ok by (done || rewrite length_app; simpl; lia).
  cbn [obind]. rewrite char_at_pre2. cbn [obind]. rewrite e3_c3 by done.
  rewrite put_sextet_ok by (done || rewrite !length_app; simpl; lia). cbn [obind].
  rewrite e4_c4 by done. rewrite put_sextet_ok by (done || rewrite !length_app; simpl; lia).
  cbn [obind]. rewrite <- !app_assoc. simpl.
  replace (Z.of_nat (length pre) + 3) with (Z.of_nat (length (pre ++ [a; b; c])));
    [done|rewrite length_app; simpl; lia].
Qed.

(** The characters for the one or two bytes left over. *)
Lemma encode_tail pre l out_len out :
  forallb is_byte l = true -> (length l <= 2)%nat ->
  Z.of_nat (length out + length (enc_ref l)) <= out_len ->
  let in_len := Z.of_nat (length (pre ++ l)) in
  let data := pre ++ l in
  let i := Z.of_nat (length pre) in
  (if i <? in_len then
    let? a := char_at data i in
    let? out := put_sextet out_len out (e1 a) in
    let? out :=
      (if i =? in_len - 1 then
         let? out := put_sextet out_len out (Z.shiftl (Z.land a 3) 4) in
         put_char out_len out 61
       else
         let? b := char_at data (i + 1) in
         let? out := put_sextet out_len out (e2 a b) in
         put_sextet out_len out (Z.shiftl (Z.land b 15) 2)) in
    put_char out_len out 61
  else Ok out) = Ok (out ++ enc_ref l).
Proof.
  intros Hb Hl Ho. destruct l as [|a [|b [|c r]]]; cbn [forallb] in Hb; simpl in Hl; [..|lia].
  - simpl. rewrite !app_nil_r. destruct (Z.ltb_spec (Z.of_nat (length pre)) (Z.of_nat (length pre))); [lia|done].
  - apply andb_prop in Hb as [Ha _]. destruct (c_range a 0 Ha eq_refl) as (R1 & R2 & _ & _).
    simpl in Ho. cbv zeta. rewrite length_app. simpl length.
    destruct (Z.ltb_spec (Z.of_nat (length pre)) (Z.of_nat (length pre + 1))); [|lia].
    rewrite char_at_pre. cbn [obind]. rewrite e1_c1 by done.
    rewrite put_sextet_ok by (done || lia). cbn [obind].
    destruct (Z.eqb_spec (Z.of_nat (length pre)) (Z.of_nat (length pre + 1) - 1)); [|lia].
    rewrite e2_half by done. rewrite put_sextet_ok by (done || rewrite !length_app; simpl; lia).
    cbn [obind]. rewrite put_char_ok by (rewrite !length_app; simpl; lia). cbn [obind].
    rewrite put_char_ok by (rewrite !length_app; simpl; lia). by rewrite <- !app_assoc.
  - apply andb_prop in Hb as [Ha Hb]. apply andb_prop in Hb as [Hb _].
    destruct (c_range a b Ha Hb) as (R1 & R2 & _ & _).
    assert (0 <= c3 b 0 < 64) as R3.
    { unfold c3. change (0 / 64) with 0. pose proof (Z.mod_pos_bound b 16). lia. }
    simpl in Ho. cbv zeta. rewrite length_app. simpl length.
    destruct (Z.ltb_spec (Z.of_nat (length pre)) (Z.of_nat (length pre + 2))); [|lia].
    rewrite char_at_pre. cbn [obind]. rewrite e1_c1 by done.
    rewrite put_sextet_ok by (done || lia). cbn [obind].
    destruct (Z.eqb_spec (Z.of_nat (length pre)) (Z.of_nat (length pre + 2) - 1)); [lia|].
    rewrite char_at_pre1. cbn [obind]. rewrite e2_c2 by done.
    rewrite put_sextet_ok by (done || rewrite !length_app; simpl; lia). cbn [obind].
    rewrite e3_half by done. rewrite put_sextet_ok by (done || rewrite !length_app; simpl; lia).
    cbn [obind]. rewrite put_char_ok by (rewrite !length_app; simpl; lia).
    by rewrite <- !app_assoc.
Qed.

Lemma encodeLoop_spec fuel pre l out_len out :
  forallb is_byte l = true -> (length l < fuel)%nat ->
  2 <= Z.of_nat (length (pre ++ l)) < 2 ^ 64 ->
  Z.of_nat (length out + length (enc_ref l)) <= out_len ->
  exists pre' tail, pre ++ l = pre' ++ tail /\ (length tail <= 2)%nat /\
    forallb is_byte tail = true /\ exists out', out' ++ enc_ref tail = out ++ enc_ref l /\
    encodeLoop fuel (pre ++ l) out_len (Z.of_nat (length pre)) out =
      Ok (Z.of_nat (length pre'), out').
Proof.
  revert pre l out. induction fuel as [|fuel IH]; intros pre l out Hb Hf Hlen Ho; [lia|].
  assert ((length l <= 2)%nat -> exists pre' tail, pre ++ l = pre' ++ tail /\ (length tail <= 2)%nat /\
    forallb is_byte tail = true /\ exists out', out' ++ enc_ref tail = out ++ enc_ref l /\
    encodeLoop (S fuel) (pre ++ l) out_len (Z.of_nat (length pre)) out =
      Ok (Z.of_nat (length pre'), out')) as Hstop.
  { intros Hl. exists pre, l. split; [done|]. split; [done|]. split; [done|]. exists out.
    split; [done|]. cbn [encodeLoop]. rewrite length_app in *.
    rewrite wrap_u_id by (unfold in_u; apply andb_true_intro; split; [apply Z.leb_le|apply Z.ltb_lt]; lia).
    destruct (Z.ltb_spec (Z.of_nat (length pre)) (Z.of_nat (length pre + length l) - 2)); [lia|done]. }
  destruct l as [|a [|b [|c r]]]; [apply Hstop; simpl; lia..|]. clear Hstop.
  cbn [enc_ref length] in Ho, Hf. rewrite encodeLoop_turn by (done || lia).
  cbn [forallb] in Hb. apply andb_prop in Hb as [_ Hb]. apply andb_prop in Hb as [_ Hb].
  apply andb_prop in Hb as [_ Hb].
  assert (pre ++ a :: b :: c :: r = (pre ++ [a; b; c]) ++ r) as Heq by (by rewrite <- app_assoc).
  rewrite Heq in Hlen |- *.
  destruct (IH (pre ++ [a; b; c]) r (out ++ [enc (c1 a); enc (c2 a b); enc (c3 b c); enc (c4 c)]))
    as (pre' & tail & E & Ht & Hbt & out' & Eo & El); [done|lia|done| |].
  { rewrite length_app. simpl. lia. }
  exists pre', tail. split; [done|]. split; [done|]. split; [done|]. exists out'. split; [|done].
  rewrite Eo. rewrite <- app_assoc. done.
Qed.

Lemma Encode_ref data :
  forallb is_byte data = true -> 2 <= Z.of_nat (length data) < 2 ^ 64 ->
  Encode data = Ok (enc_ref data).
Proof.
  intros Hb Hlen. unfold Encode.
  destruct (encodeLoop_spec (S (length data)) [] data (4 * ((Z.of_nat (length data) + 2) / 3)) [])
    as (pre' & tail & E & Ht & Hbt & out' & Eo & El); [done|lia|done| |].
  { pose proof (enc_ref_length data). cbn [length]. lia. }
  cbn [app length] in El, E, Eo. change (Z.of_nat 0) with 0 in El. rewrite El. cbn [obind].
  rewrite E. rewrite (encode_tail pre' tail); [by rewrite Eo, E|done|done|].
  rewrite <- E, <- length_app, Eo. pose proof (enc_ref_length data). lia.
Qed.

(** ** Decoding *)
Lemma put_byte_in out_len out v :
  Z.of_nat (length out) < out_len -> put_byte out_len out v = out ++ [v].
Proof.
  intros Ho. unfold put_byte. destruct (Z.ltb_spec (Z.of_nat (length out)) out_len); [done|lia].
Qed.
Lemma put_byte_full out_len out v :
  out_len <= Z.of_nat (length out) -> put_byte out_len out v = out.
Proof.
  intros Ho. unfold put_byte. destruct (Z.ltb_spec (Z.of_nat (length out)) out_len); [lia|done].
Qed.

Definition triple (w x y z : Z) : Z := wrap_u 32 (Z.shiftl w 18 + Z.shiftl x 12 + Z.shiftl y 6 + z).
Lemma triple_bytes a b c :
  is_byte a = true -> is_byte b = true -> is_byte c = true ->
  let t := triple (c1 a) (c2 a b) (c3 b c) (c4 c) in
  Z.land (Z.shiftr t 16) 255 = a /\ Z.land (Z.shiftr t 8) 255 = b /\ Z.land t 255 = c.
Proof.
  unfold is_byte, triple, c1, c2, c3, c4. intros Ha Hb Hc. cbv zeta.
  rewrite !Z.shiftl_mul_pow2, !Z.shiftr_div_pow2 by lia.
  change (2 ^ 18) with 262144. change (2 ^ 12) with 4096. change (2 ^ 6) with 64.
  change (2 ^ 16) with 65536. change (2 ^ 8) with 256.
  change 255 with (Z.ones 8). rewrite !Z.land_ones by lia. change (2 ^ 8) with 256.
  assert (a / 4 * 262144 + ((a mod 4) * 16 + b / 16) * 4096 + ((b mod 16) * 4 + c / 64) * 64 +
    c mod 64 = a * 65536 + b * 256 + c) as ->.
  { pose proof (Z.div_mod a 4). pose proof (Z.div_mod b 16). pose proof (Z.div_mod c 64). lia. }
  rewrite wrap_u_id by (unfold in_u; apply andb_true_intro; split; [apply Z.leb_le|apply Z.ltb_lt]; lia).
  split; [|split].
  - replace (a * 65536 + b * 256 + c) with (b * 256 + c + a * 65536) by lia.
    rewrite Z.div_add, Z.div_small by lia. rewrite Z.mod_small by lia. lia.
  - replace (a * 65536 + b * 256 + c) with (c + (a * 256 + b) * 256) by lia.
    rewrite Z.div_add, Z.div_small by lia. rewrite Z.add_0_l.
    replace (a * 256 + b) with (b + a * 256) by lia. rewrite Z.mod_add, Z.mod_small by lia. lia.
  - replace (a * 65536 + b * 256 + c) with (c + (a * 256 + b) * 256) by lia.
    rewrite Z.mod_add, Z.mod_small by lia. lia.
Qed.

Lemma decode_enc n : 0 <= n < 64 -> decode_char (enc n) = Ok n.
Proof. intros Hn. apply enc_ok, Hn. Qed.
Lemma c3_range b c : is_byte b = true -> is_byte c = true -> 0 <= c3 b c < 64.
Proof.
  unfold c3, is_byte. intros Hb Hc. pose proof (Z.mod_pos_bound b 16). pose proof (Z.div_pos c 64).
  assert (c / 64 < 4) by (apply Z.div_lt_upper_bound; lia). lia.
Qed.

Lemma decodeLoop_enc l out out_len :
  forallb is_byte l = true -> out_len = Z.of_nat (length out + length l) ->
  decodeLoop (enc_ref l) out_len out = Ok (out ++ l).
Proof.
  revert out. induction l as [l IH] using (induction_ltof1 _ (@length Z)). unfold ltof in IH.
  intros out Hb Hlen. destruct l as [|a [|b [|c r]]]; cbn [enc_ref decodeLoop forallb length] in *.
  - by rewrite app_nil_r.
  - apply andb_prop in Hb as [Ha _]. destruct (c_range a 0 Ha eq_refl) as (R1 & R2 & _ & _).
    rewrite !decode_enc by done. change (decode_char 61) with (@Ok Z 0). cbn [obind].
    pose proof (triple_bytes a 0 0 Ha eq_refl eq_refl) as (T1 & T2 & T3). unfold triple in *.
    change (c3 0 0) with 0 in *. change (c4 0) with 0 in *. rewrite T1, T2, T3.
    rewrite (put_byte_in _ out) by lia.
    rewrite !(put_byte_full _ (out ++ [a])) by (rewrite ?length_app; simpl; lia). done.
  - apply andb_prop in Hb as [Ha Hb]. apply andb_prop in Hb as [Hb _].
    destruct (c_range a b Ha Hb) as (R1 & R2 & _ & _). pose proof (c3_range b 0 Hb eq_refl) as R3.
    rewrite !decode_enc by done. change (decode_char 61) with (@Ok Z 0). cbn [obind].
    pose proof (triple_bytes a b 0 Ha Hb eq_refl) as (T1 & T2 & T3). unfold triple in *.
    change (c4 0) with 0 in *. rewrite T1, T2, T3.
    rewrite (put_byte_in _ out) by lia.
    rewrite (put_byte_in _ (out ++ [a])) by (rewrite length_app; simpl; lia).
    rewrite put_byte_full by (rewrite !length_app; simpl; lia). by rewrite <- app_assoc.
  - apply andb_prop in Hb as [Ha Hb]. apply andb_prop in Hb as [Hb Hc].
    apply andb_prop in Hc as [Hc Hr]. destruct (c_range a b Ha Hb) as (R1 & R2 & _ & _).
    pose proof (c3_range b c Hb Hc) as R3. destruct (c_range c c Hc Hc) as (_ & _ & _ & R4).
    rewrite !decode_enc by done. cbn [obind].
    pose proof (triple_bytes a b c Ha Hb Hc) as (T1 & T2 & T3). unfold triple in *.
    rewrite T1, T2, T3. rewrite (put_byte_in _ out) by lia.
    rewrite (put_byte_in _ (out ++ [a])) by (rewrite length_app; simpl; lia).
    rewrite (put_byte_in _ ((out ++ [a]) ++ [b])) by (rewrite !length_app; simpl; lia).
    rewrite IH; [by rewrite <- !app_assoc|simpl; lia|done|].
    rewrite !length_app. simpl. lia.
Qed.

Lemma enc_ref_last l :
  forallb is_byte l = true -> l <> [] ->
  exists front x y, enc_ref l = front ++ [x; y] /\
    Z.of_nat (length (enc_ref l)) mod 4 = 0 /\
    Z.of_nat (length (enc_ref l)) / 4 * 3 - (if y =? 61 then 1 else 0) - (if x =? 61 then 1 else 0)
      = Z.of_nat (length l).
Proof.
  induction l as [l IH] using (induction_ltof1 _ (@length Z)). unfold ltof in IH.
  intros Hb Hne. destruct l as [|a [|b [|c r]]]; cbn [enc_ref forallb] in *; [done|..].
  - by exists [enc (c1 a); enc (c2 a 0)], 61, 61.
  - apply andb_prop in Hb as [Ha Hb]. apply andb_prop in Hb as [Hb _].
    pose proof (c3_range b 0 Hb eq_refl) as R3.
    exists [enc (c1 a); enc (c2 a b)], (enc (c3 b 0)), 61. split; [done|]. split; [done|].
    destruct (enc_ok _ R3) as (_ & _ & ->). done.
  - apply andb_prop in Hb as [Ha Hb]. apply andb_prop in Hb as [Hb Hc].
    apply andb_prop in Hc as [Hc Hr]. pose proof (c3_range b c Hb Hc) as R3.
    destruct (c_range c c Hc Hc) as (_ & _ & _ & R4).
    destruct (decide (r = [])) as [->|Hrn].
    + exists [enc (c1 a); enc (c2 a b)], (enc (c3 b c)), (enc (c4 c)). split; [done|].
      split; [done|]. destruct (enc_ok _ R3) as (_ & _ & ->). destruct (enc_ok _ R4) as (_ & _ & ->).
      done.
    + destruct (IH r) as (front & x & y & E & Hm & Hn); [simpl; lia|done|done|].
      exists (enc (c1 a) :: enc (c2 a b) :: enc (c3 b c) :: enc (c4 c) :: front), x, y.
      split; [by rewrite E|]. cbn [length].
      replace (Z.of_nat (S (S (S (S (length (enc_ref r)))))))
        with (Z.of_nat (length (enc_ref r)) + 1 * 4) by lia.
      rewrite Z.mod_add, Z.div_add by lia. lia.
Qed.

(** Base64 round trip.  [Encode] of two bytes or more gives four characters for
    every three bytes begun, and [Decode] gives the bytes back. *)
Theorem base64_roundtrip data :
  forallb is_byte data = true -> 2 <= Z.of_nat (length data) < 2 ^ 64 ->
  exists text, Encode data = Ok text /\
    Z.of_nat (length text) = 4 * ((Z.of_nat (length data) + 2) / 3) /\
    Decode text = Ok data.
Proof.
  intros Hb Hlen. exists (enc_ref data). split; [by apply Encode_ref|].
  split; [apply enc_ref_length|]. unfold Decode.
  destruct (enc_ref_last data Hb) as (front & x & y & E & Hm & Hn). { intros ->. simpl in Hlen. lia. }
  rewrite Hm. simpl negb. cbv iota.
  assert (enc_ref data !! (length (enc_ref data) - 1)%nat = Some y) as ->.
  { rewrite E, length_app. simpl.
    replace (length front + 2 - 1)%nat with (length (front ++ [x])) by (rewrite length_app; simpl; lia).
    change [x; y] with ([x] ++ [y]). rewrite app_assoc. by apply list_lookup_middle. }
  assert (enc_ref data !! (length (enc_ref data) - 2)%nat = Some x) as ->.
  { rewrite E, length_app. simpl.
    replace (length front + 2 - 2)%nat with (length front) by lia.
    by apply list_lookup_middle. }
  assert ((if x =? 61 then (if y =? 61 then Z.of_nat (length (enc_ref data)) / 4 * 3 - 1
      else Z.of_nat (length (enc_ref data)) / 4 * 3) - 1
    else if y =? 61 then Z.of_nat (length (enc_ref data)) / 4 * 3 - 1
      else Z.of_nat (length (enc_ref data)) / 4 * 3) = Z.of_nat (length data)) as ->.
  { destruct (x =? 61), (y =? 61); lia. }
  rewrite (decodeLoop_enc data []) by done. cbn [obind app].
  rewrite Nat2Z.id, Nat.sub_diag. by rewrite app_nil_r.
Qed.

(** [Encode] of fewer than two bytes is undefined: [in_len - 2] wraps round, the
    loop that needs three bytes runs, and it reads past the data. *)
Theorem base64_short_undefined data :
  (length data < 2)%nat -> Encode data = Err Undefined.
Proof.
  intros Hl. destruct data as [|a [|b r]]; [reflexivity| |simpl in Hl; lia].
  assert (wrap_u 64 (Z.of_nat (length [a]) - 2) = 2 ^ 64 - 1) as Hw by reflexivity.
  unfold Encode. cbn [encodeLoop]. rewrite Hw. change (0 <? 2 ^ 64 - 1) with true. cbv iota.
  change (char_at [a] 0) with (Ok (wrap_s 8 a)). cbn [obind].
  assert (put_sextet (4 * ((Z.of_nat (length [a]) + 2) / 3)) [] (e1 (wrap_s 8 a)) = Err Undefined \/
    exists o, put_sextet (4 * ((Z.of_nat (length [a]) + 2) / 3)) [] (e1 (wrap_s 8 a)) = Ok o)
    as [->|(o & ->)]; [|done|].
  { unfold put_sextet, sextet. destruct (_ !! _); [|by left]. right. by eexists. }
  cbn [obind]. change (char_at [a] (0 + 1)) with (@Ok Z 0). cbn [obind].
  unfold put_sextet at 1, sextet. destruct (_ !! _); [|done]. cbn [obind].
  unfold put_char. destruct (_ <? _); reflexivity.
Qed.

Lemma base64_roundtrip_witness :
  exists text, Encode (bytes_of "hello, world") = Ok text /\ Decode text = Ok (bytes_of "hello, world").
Proof.
  destruct (base64_roundtrip (bytes_of "hello, world")) as (t & H1 & _ & H2).
  - reflexivity.
  - split; [discriminate|reflexivity].
  - exists t. split; [exact H1|exact H2].
Defined.
Lemma base64_short_undefined_witness : Encode (bytes_of "x") = Err Undefined.
Proof. apply base64_short_undefined. simpl. lia. Defined.
Example base64_example : Encode (bytes_of "Ma") = Ok (bytes_of "TWE=").
Proof. reflexivity. Qed.
