(* ===== verification/CryptoHandler.v ===== *)
(** * CryptoHandler

    [wga::CryptoHandler] (src/peer/src/base/CryptoHandler.cpp and .hpp).  libsodium
    and cppcodec are third-party code, so they are an interface, [Sodium], with the
    documented laws: opening what was sealed with the same nonce and key gives the
    message back, and the two sides of a box agree.  Byte strings of a fixed
    length stand for the [std::array] types. *)
From S2P Require Import Prelude.
From S2P Require Import Base64.

Definition NONCEBYTES : Z := 24.
Definition KEYBYTES : Z := 32.
Definition MACBYTES : Z := 16.

Class Sodium : Type := {
  scalarmult_base : string -> string;
  (** message, nonce, public key, secret key *)
  box_easy : string -> string -> string -> string -> string;
  box_open_easy : string -> string -> string -> string -> option string;
  (** message, nonce, key *)
  secretbox_easy : string -> string -> string -> string;
  secretbox_open_easy : string -> string -> string -> option string;
  hash_sha256 : string -> string;
  (** message, secret key; signed message, public key *)
  crypto_sign : string -> string -> string;
  crypto_sign_open : string -> string -> option string;
  (** [base64::encode] and [base64::decode] of cppcodec, which throws *)
  b64_encode : string -> string;
  b64_decode : string -> option string
}.

Class SodiumLaws `{Sodium} : Prop := {
  secretbox_open_seal : forall m n k, secretbox_open_easy (secretbox_easy m n k) n k = Some m;
  secretbox_length : forall m n k, slen (secretbox_easy m n k) = slen m + MACBYTES;
  box_open_seal : forall m n ska skb,
    box_open_easy (box_easy m n (scalarmult_base skb) ska) n (scalarmult_base ska) skb = Some m;
  box_length : forall m n pk sk, slen (box_easy m n pk sk) = slen m + MACBYTES;
  scalarmult_length : forall sk, slen (scalarmult_base sk) = KEYBYTES;
  b64_decode_encode : forall s, b64_decode (b64_encode s) = Some s
}.

Section CryptoHandler.
Context `{Sodium}.

Record CryptoHandler : Type := mkCrypto {
  myPublicKey : string;
  myPrivateKey : string;
  otherPublicKey : string;
  outgoingSessionKey : string;
  incomingSessionKey : string
}.
Definition emptySessionKey : string := string_of (repeat 0 32).

(** The constructor. *)
Definition Crypto_init (_myPrivateKey _otherPublicKey : string) : CryptoHandler :=
  mkCrypto (scalarmult_base _myPrivateKey) _myPrivateKey _otherPublicKey emptySessionKey
    emptySessionKey.

Definition set_outgoingKey k c :=
  mkCrypto (myPublicKey c) (myPrivateKey c) (otherPublicKey c) k (incomingSessionKey c).
Definition set_incomingKey k c :=
  mkCrypto (myPublicKey c) (myPrivateKey c) (otherPublicKey c) (outgoingSessionKey c) k.

(** ** The static methods *)
Definition makePrivateKeyFromB64 (b64PrivateKey : string) : outcome string :=
  let? decodedKey := Decode (bytes_of b64PrivateKey) in
  if negb (Z.of_nat (length decodedKey) =? KEYBYTES) then Err RuntimeError
  else Ok (string_of decodedKey).
Definition makePrivateKeyFromPassword (password : string) : string := hash_sha256 password.
Definition makePublicFromPrivate (privateKey : string) : string := scalarmult_base privateKey.
Definition sign (privateKey s : string) : string := crypto_sign s privateKey.
Definition unsign (publicKey s : string) : option string := crypto_sign_open s publicKey.
(** [generateKey], given the random secret key [crypto_box_keypair] picks. *)
Definition generateKey (secret : string) : string * string := (scalarmult_base secret, secret).

Definition keyToString (key : string) : string := b64_encode key.
(** [stringToKey] for a key type of [size] bytes. *)
Definition stringToKey (size : Z) (s : string) : outcome string :=
  match b64_decode s with
  | None => Err RuntimeError
  | Some v => if negb (slen v =? size) then Err LogFatal else Ok v
  end.

(** ** The session keys *)
(** [generateOutgoingSessionKey], given the 32 and then the 24 bytes of the two
    calls of [randombytes_buf]. *)
Definition generateOutgoingSessionKey (key nonce : string) (c : CryptoHandler) :
    outcome (string * CryptoHandler) :=
  if negb (bool_decide (outgoingSessionKey c = emptySessionKey)) then Err LogFatal
  else Ok (nonce +:+ box_easy key nonce (otherPublicKey c) (myPrivateKey c), set_outgoingKey key c).

Definition ENCRYPTED_KEY_BYTES : Z := NONCEBYTES + MACBYTES + KEYBYTES.

(** A box that does not open leaves the key as it was. *)
Definition receiveIncomingSessionKey (otherSessionKey : string) (c : CryptoHandler) :
    outcome (bool * CryptoHandler) :=
  if negb (bool_decide (incomingSessionKey c = emptySessionKey)) then Err LogFatal
  else
    let nonce := str_take (Z.to_nat NONCEBYTES) otherSessionKey in
    match box_open_easy (str_drop (Z.to_nat NONCEBYTES) otherSessionKey) nonce (otherPublicKey c)
            (myPrivateKey c) with
    | None => Ok (false, c)
    | Some key => Ok (true, set_incomingKey key c)
    end.

Definition canDecrypt (c : CryptoHandler) : bool :=
  negb (bool_decide (incomingSessionKey c = emptySessionKey)).
Definition canEncrypt (c : CryptoHandler) : bool :=
  negb (bool_decide (outgoingSessionKey c = emptySessionKey)).

(** [encrypt], given the nonce [randombytes_buf] fills in. *)
Definition encrypt (nonce buffer : string) (c : CryptoHandler) : outcome string :=
  if bool_decide (outgoingSessionKey c = emptySessionKey) then Err LogFatal
  else Ok (nonce +:+ secretbox_easy buffer nonce (outgoingSessionKey c)).

Definition decrypt (buffer : string) (c : CryptoHandler) : outcome (option string) :=
  if bool_decide (incomingSessionKey c = emptySessionKey) then Err LogFatal
  else if slen buffer <? NONCEBYTES + MACBYTES then Ok None
  else Ok (secretbox_open_easy (str_drop (Z.to_nat NONCEBYTES) buffer)
             (str_take (Z.to_nat NONCEBYTES) buffer) (incomingSessionKey c)).

(** ** Properties *)
Context {SL : SodiumLaws}.

Lemma slen_nat s n : 0 <= n -> slen s = n -> String.length s = Z.to_nat n.
Proof using. unfold slen. lia. Qed.

Lemma stringToKey_keyToString size k : slen k = size -> stringToKey size (keyToString k) = Ok k.
Proof using SL.
  intros <-. unfold stringToKey, keyToString. by rewrite b64_decode_encode, Z.eqb_refl.
Qed.

(** C24: The session-key handshake.  When two handlers are built on each other's
    public keys, the session key one generates is, carried as the bytes
    [generateOutgoingSessionKey] returns, exactly the incoming key of the other,
    and every message the first encrypts the second then decrypts. *)
Theorem session_key_handshake ska skb key nonce bytes a :
  slen key = KEYBYTES -> slen nonce = NONCEBYTES -> key <> emptySessionKey ->
  generateOutgoingSessionKey key nonce (Crypto_init ska (scalarmult_base skb)) = Ok (bytes, a) ->
  slen bytes = ENCRYPTED_KEY_BYTES /\ canEncrypt a = true /\
  exists b, receiveIncomingSessionKey bytes (Crypto_init skb (scalarmult_base ska)) = Ok (true, b) /\
    incomingSessionKey b = outgoingSessionKey a /\ canDecrypt b = true /\
    forall n m, slen n = NONCEBYTES -> exists c, encrypt n m a = Ok c /\ decrypt c b = Ok (Some m).
Proof using SL.
  intros Hk Hn Hne E. unfold generateOutgoingSessionKey in E. rewrite bool_decide_true in E by done.
  simpl in E. injection E as <- <-.
  assert (String.length nonce = Z.to_nat NONCEBYTES) as Hnl by (by apply slen_nat).
  split; [rewrite slen_app, box_length, Hn, Hk; reflexivity|].
  unfold canEncrypt. simpl. rewrite bool_decide_false by done. split; [done|].
  unfold receiveIncomingSessionKey. rewrite bool_decide_true by done. cbn [negb].
  cbv zeta. rewrite str_take_app', str_drop_app' by done. simpl otherPublicKey. simpl myPrivateKey.
  rewrite box_open_seal. eexists. split; [reflexivity|]. split; [done|]. unfold canDecrypt. simpl.
  rewrite bool_decide_false by done. split; [done|]. intros n m Hnm.
  assert (String.length n = Z.to_nat NONCEBYTES) as Hnl' by (by apply slen_nat).
  unfold encrypt, decrypt.
  cbn [outgoingSessionKey incomingSessionKey set_incomingKey set_outgoingKey Crypto_init].
  rewrite !bool_decide_false by done. eexists. split; [reflexivity|].
  rewrite slen_app, secretbox_length, Hnm. pose proof (slen_nonneg m).
  destruct (Z.ltb_spec (NONCEBYTES + (slen m + MACBYTES)) (NONCEBYTES + MACBYTES)); [lia|].
  rewrite str_drop_app', str_take_app' by done. by rewrite secretbox_open_seal.
Qed.

(** Decrypting never reads past a packet.  A buffer too short to hold a nonce and
    a tag is turned down, whatever the key, and encryption adds exactly that many
    bytes. *)
Theorem encryption_overhead n m c d :
  slen n = NONCEBYTES -> encrypt n m c = Ok d -> slen d = slen m + NONCEBYTES + MACBYTES /\
  forall buffer b, canDecrypt b = true -> slen buffer < NONCEBYTES + MACBYTES ->
    decrypt buffer b = Ok None.
Proof using SL.
  intros Hn E. unfold encrypt in E. case_bool_decide; [done|]. injection E as <-.
  split; [rewrite slen_app, secretbox_length; lia|]. intros buffer b Hb Hl. unfold decrypt.
  unfold canDecrypt in Hb. case_bool_decide; [done|].
  destruct (Z.ltb_spec (slen buffer) (NONCEBYTES + MACBYTES)); [done|lia].
Qed.
End CryptoHandler.

(** ** A library to run the theorems on: the tag is the beginning of the key *)
Definition toy_tag (k : string) : string := str_take 16 (k +:+ string_of (repeat 0 16)).
Definition toy_open (c k : string) : option string :=
  if bool_decide (str_take 16 c = toy_tag k) then Some (str_drop 16 c) else None.
#[export] Instance toy_Sodium : Sodium := {|
  scalarmult_base := fun _ => string_of (repeat 9 32);
  box_easy := fun m n pk sk => toy_tag pk +:+ m;
  box_open_easy := fun c n pk sk => toy_open c pk;
  secretbox_easy := fun m n k => toy_tag k +:+ m;
  secretbox_open_easy := fun c n k => toy_open c k;
  hash_sha256 := fun _ => string_of (repeat 7 32);
  crypto_sign := fun m _ => m;
  crypto_sign_open := fun m _ => Some m;
  b64_encode := fun s => s;
  b64_decode := Some
|}.
Lemma toy_tag_length k : String.length (toy_tag k) = 16%nat.
Proof.
  unfold toy_tag. do 16 (destruct k as [|? k]; [reflexivity|]).
  change (16%nat = 16%nat). done.
Qed.
Lemma toy_open_seal m k : toy_open (toy_tag k +:+ m) k = Some m.
Proof.
  unfold toy_open. rewrite str_take_app', str_drop_app' by apply toy_tag_length.
  by rewrite bool_decide_true.
Qed.
#[export] Instance toy_SodiumLaws : SodiumLaws.
Proof.
  constructor; simpl; intros; try done.
  - apply toy_open_seal.
  - rewrite slen_app. unfold slen at 1. rewrite toy_tag_length. unfold MACBYTES. lia.
  - rewrite slen_app. unfold slen at 1. rewrite toy_tag_length. unfold MACBYTES. lia.
Qed.

Definition key1 : string := string_of (repeat 1 32).
Definition nonce1 : string := string_of (repeat 2 24).

Lemma session_key_handshake_witness :
  exists bytes a b, generateOutgoingSessionKey key1 nonce1 (Crypto_init "a" (scalarmult_base "b")) =
      Ok (bytes, a) /\
    receiveIncomingSessionKey bytes (Crypto_init "b" (scalarmult_base "a")) = Ok (true, b) /\
    exists c, encrypt nonce1 "hi" a = Ok c /\ decrypt c b = Ok (Some "hi").
Proof.
  destruct (generateOutgoingSessionKey key1 nonce1 (Crypto_init "a" (scalarmult_base "b")))
    as [[bytes a]|] eqn:E; [|vm_compute in E; discriminate E].
  destruct (session_key_handshake "a" "b" key1 nonce1 bytes a)
    as (_ & _ & b & H1 & _ & _ & H2); try reflexivity.
  - by_compute.
  - exact E.
  - exists bytes, a, b. split; [reflexivity|]. split; [exact H1|]. apply H2. reflexivity.
Defined.
Lemma encryption_overhead_witness :
  exists d, encrypt nonce1 "hi" (set_outgoingKey key1 (Crypto_init "a" "b")) = Ok d /\ slen d = 42.
Proof.
  destruct (encrypt nonce1 "hi" (set_outgoingKey key1 (Crypto_init "a" "b"))) as [d|] eqn:E;
    [|vm_compute in E; discriminate E].
  destruct (encryption_overhead nonce1 "hi" _ d eq_refl E) as [H _].
  exists d. split; [reflexivity|exact H].
Defined.
