(* ===== verification/EncryptedRpc.v ===== *)
(** * EncryptedRpc

    [wga::EncryptedMultiEndpointHandler]
    (src/peer/src/base/EncryptedMultiEndpointHandler.cpp and .hpp): the derived
    class whose payloads are encrypted with session keys exchanged in a first,
    unencrypted request, and whose packets carry a magic header. *)
From S2P Require Import Prelude.
From S2P Require Import StdMap.
From S2P Require Import RpcId.
From S2P Require Import Message.
From S2P Require Import TimeHandler.
From S2P Require Import ClockSynchronizer.
From S2P Require Import RpcState.
From S2P Require Import Instances.
From S2P Require Import BiDirectionalRpc.
From S2P Require Import RpcVirtuals.
From S2P Require Import RpcDelivery.
From S2P Require Import RpcRoundTrip.
From S2P Require Import UdpRpc.
From S2P Require Import MultiEndpoint.
From S2P Require Import CryptoHandler.

Definition WGA_MAGIC : string := "WGAMAGIC".

Record EncState : Type := mkEnc { multi : MultiState; crypto : CryptoHandler }.
Definition set_crypto c e := mkEnc (multi e) c.

#[export] Instance enc_multi_part : Part EncState MultiState.
Proof.
  refine (Build_Part EncState MultiState multi (fun m e => mkEnc m (crypto e)) _ _ _);
    [by intros|by intros|by intros []].
Defined.

Section EncryptedRpc.
Context `{LruCache} `{Oracle} `{Msgpack} `{Sodium}.
Variable delay_fuel : nat.
Abbreviation MS := (M (St EncState)).

(** The constructor; a handler that already has a session key aborts. *)
Definition Enc_init (now : Z) (endpoints : list endpoint) (c : CryptoHandler) : outcome EncState :=
  let? m := Multi_init now endpoints in
  if canDecrypt c || canEncrypt c then Err LogFatal else Ok (mkEnc m c).

Definition get_crypto : MS CryptoHandler := gets (fun s => crypto (sub s)).
Definition mod_crypto (c : CryptoHandler) : MS unit := mod_sub (set_crypto c).
Definition randombytes (n : Z) : MS string :=
  read_world (reading (fun t => string_of (o_bytes t (Z.to_nat n)))).
Definition lift {A} (o : outcome A) : MS A := fun s =>
  match o with Ok a => Ok (a, s) | Err f => Err f end.

Definition enc_encrypt (buffer : string) : MS string :=
  let! c := get_crypto in
  let! nonce := randombytes NONCEBYTES in
  lift (encrypt nonce buffer c).

Definition readyToReceive : MS bool :=
  let! c := get_crypto in ret (canDecrypt c && canEncrypt c).
Definition readyToSend : MS bool :=
  let! r := get_rpc in
  if bool_decide (is_Some (outgoingRequests r !! SESSION_KEY_RPCID)) then ret false
  else if bool_decide (is_Some (outgoingReplies r !! SESSION_KEY_RPCID)) then ret false
  else readyToReceive.

Definition enc_send (message : string) : MS unit := multi_send delay_fuel (WGA_MAGIC +:+ message).

Definition enc_requestWithId (p : IdPayload) : MS unit :=
  let! ready := readyToSend in
  if negb ready then fail LogFatal
  else
    let! encrypted := enc_encrypt (ip_payload p) in
    requestWithId enc_send (mkIdPayload (ip_id p) encrypted).

Definition enc_reply (i : RpcId) (payload : string) : MS unit :=
  let! ready := readyToReceive in
  if negb ready then fail LogFatal
  else
    let! encrypted := enc_encrypt payload in
    reply enc_send i encrypted.

Definition sendSessionKey : MS unit :=
  let! c := get_crypto in
  let! key := randombytes KEYBYTES in
  let! nonce := randombytes NONCEBYTES in
  let! (bytes, c') := lift (generateOutgoingSessionKey key nonce c) in
  mod_crypto c' ;;;
  let payload :=
    (finish (writePrimitive (MStr (keyToString bytes))
              (writePrimitive (MStr (keyToString (myPublicKey c))) writer_start))).1 in
  mod_rpc (fun r => set_oneWay ({[SESSION_KEY_RPCID]} ∪ oneWayRequests r) r) ;;;
  requestWithId enc_send (mkIdPayload SESSION_KEY_RPCID payload).

(** The handshake branch of [addIncomingRequest]. *)
Definition receiveHandshake (p : IdPayload) : MS unit :=
  let! c := get_crypto in
  if canDecrypt c then ret tt
  else
    let! (key64, buffer) := reading_with readPrimitive_string (ip_payload p) in
    let! publicKey := lift (stringToKey KEYBYTES key64) in
    if negb (bool_decide (publicKey = otherPublicKey c)) then ret tt
    else
      let! (session64, _) := reading_with readPrimitive_string buffer in
      let! encryptedSessionKey := lift (stringToKey ENCRYPTED_KEY_BYTES session64) in
      let! (result, c') := lift (receiveIncomingSessionKey encryptedSessionKey c) in
      mod_crypto c' ;;;
      if negb result then ret tt
      else
        addIncomingRequest p ;;;
        enc_reply (ip_id p) "OK".

Definition enc_addIncomingRequest (p : IdPayload) : MS unit :=
  if bool_decide (ip_id p = SESSION_KEY_RPCID) then receiveHandshake p
  else
    let! ready := readyToReceive in
    if negb ready then ret tt
    else
      let! c := get_crypto in
      let! decrypted := lift (decrypt (ip_payload p) c) in
      match decrypted with
      | None => ret tt
      | Some payload => addIncomingRequest (mkIdPayload (ip_id p) payload)
      end.

Definition enc_addIncomingReply (i : RpcId) (payload : string) : MS unit :=
  let! ready := readyToSend in
  if negb ready then ret tt
  else
    let! c := get_crypto in
    let! decrypted := lift (decrypt payload c) in
    match decrypted with
    | None => ret tt
    | Some payload => addIncomingReply i payload
    end.

Definition enc_sendAcknowledge (i : RpcId) : MS unit :=
  let! encrypted := enc_encrypt "ACK_OK" in
  enc_send (finish (writePrimitive (MStr encrypted)
                     (writeClass_RpcId i (writePrimitive (MInt ACKNOWLEDGE) writer_start)))).1.

(** Declared in the derived class, but [receive] calls the base class's one. *)
Definition enc_validatePacket (i : RpcId) (payload : string) : MS bool :=
  if bool_decide (i = SESSION_KEY_RPCID) then ret true
  else
    let! c := get_crypto in
    if negb (canDecrypt c) then ret false
    else
      let! decrypted := lift (decrypt payload c) in
      ret (match decrypted with Some _ => true | None => false end).

Definition enc_handleReply : RpcId -> string -> Z -> Z -> MS unit :=
  multi_handleReply enc_sendAcknowledge enc_addIncomingReply enc_send.

Definition enc_virtuals : RpcVirtuals EncState := {|
  v_send := enc_send;
  v_requestWithId := enc_requestWithId;
  v_reply := enc_reply;
  v_sendAcknowledge := enc_sendAcknowledge;
  v_addIncomingRequest := enc_addIncomingRequest;
  v_addIncomingReply := enc_addIncomingReply;
  v_readyToSend := readyToSend;
  v_handleReply := enc_handleReply
|}.

(** ** The class implements the interface *)
Lemma keeps_get_crypto {T} (f : Rpc -> T) : keeps f get_crypto.
Proof using. intros s c s' E. unfold get_crypto in E. by run E. Qed.
Lemma keeps_mod_crypto {T} (f : Rpc -> T) c : keeps f (mod_crypto c).
Proof using. apply keeps_mod_sub. Qed.
Lemma keeps_randombytes {T} (f : Rpc -> T) n : keeps f (randombytes n).
Proof using. apply keeps_read_world. Qed.
Lemma keeps_lift {A T} (f : Rpc -> T) (o : outcome A) : keeps f (lift o).
Proof using. intros s a s' E. unfold lift in E. destruct o; by run E. Qed.
#[local] Hint Resolve keeps_get_crypto keeps_mod_crypto keeps_randombytes keeps_lift : keeps.
Lemma keeps_enc_encrypt {T} (f : Rpc -> T) b : keeps f (enc_encrypt b).
Proof using. unfold enc_encrypt. keeps_tac. Qed.
Lemma keeps_readyToReceive {T} (f : Rpc -> T) : keeps f readyToReceive.
Proof using. unfold readyToReceive. keeps_tac. Qed.
#[local] Hint Resolve keeps_enc_encrypt keeps_readyToReceive : keeps.
Lemma keeps_enc_readyToSend {T} (f : Rpc -> T) : keeps f readyToSend.
Proof using. unfold readyToSend. keeps_tac. Qed.
Lemma keeps_enc_send {T} (f : Rpc -> T) m : keeps f (enc_send m).
Proof using. unfold enc_send. apply keeps_multi_send. Qed.
#[local] Hint Resolve keeps_enc_readyToSend keeps_enc_send : keeps.
Lemma keeps_enc_sendAcknowledge {T} (f : Rpc -> T) i : keeps f (enc_sendAcknowledge i).
Proof using. unfold enc_sendAcknowledge. keeps_tac. Qed.
Lemma keeps_enc_reply i p : keeps req_part (enc_reply i p).
Proof using.
  unfold enc_reply. keeps_tac. apply keeps_base_reply. intros m. apply keeps_enc_send.
Qed.
#[local] Hint Resolve keeps_enc_sendAcknowledge keeps_enc_reply keeps_base_addIncomingRequest
  keeps_base_addIncomingReply : keeps.
Lemma keeps_enc_reading_with {A T} (f : Rpc -> T) (m : M string A) b :
  keeps f (reading_with m b : MS (A * string)).
Proof using. unfold reading_with. keeps_tac. Qed.
#[local] Hint Resolve keeps_enc_reading_with : keeps.
Lemma keeps_enc_addIncomingRequest p : keeps req_part (enc_addIncomingRequest p).
Proof using. unfold enc_addIncomingRequest, receiveHandshake. keeps_tac. Qed.
Lemma keeps_enc_addIncomingReply i p : keeps req_part (enc_addIncomingReply i p).
Proof using. unfold enc_addIncomingReply. keeps_tac. Qed.
#[local] Hint Resolve keeps_enc_addIncomingRequest keeps_enc_addIncomingReply : keeps.

Context {OL : OracleLaws}.

#[export] Instance enc_virtuals_laws : RpcVirtualsLaws enc_virtuals.
Proof using OL.
  constructor; simpl; auto using keeps_enc_send, keeps_enc_sendAcknowledge,
    keeps_enc_reply, keeps_enc_addIncomingRequest, keeps_enc_addIncomingReply, keeps_enc_readyToSend.
  - intros foreign p s s' Hb Hi E. unfold enc_requestWithId in E.
    apply bind_ok in E as (ready & s1 & E1 & E).
    pose proof (keeps_enc_readyToSend (fun r => r) _ _ _ E1) as K1. simpl in K1.
    destruct ready; [|done]. cbn [negb] in E. apply bind_ok in E as (e & s2 & E2 & E).
    pose proof (keeps_enc_encrypt (fun r => r) _ _ _ _ E2) as K2. simpl in K2.
    eapply (requestWithId_inv enc_send (fun m => keeps_enc_send _ m) foreign); [| |exact E].
    + rewrite K2, K1. exact Hb.
    + by rewrite K2, K1.
  - intros foreign i p t1 t2 s s' Hi E. unfold enc_handleReply, multi_handleReply in E.
    apply bind_ok in E as ([] & s1 & E1 & E).
    pose proof (keeps_mod_multi (fun r => r) _ _ _ _ E1) as K1. simpl in K1.
    eapply handleReply_inv; [..|exact E];
      auto using keeps_enc_send, keeps_enc_sendAcknowledge, keeps_enc_addIncomingReply.
    congruence.
Qed.

(** ** What is stored and sent is encrypted *)
Lemma lift_ok {A} (o : outcome A) s a s' : lift o s = Ok (a, s') -> o = Ok a /\ s' = s.
Proof using. unfold lift. destruct o; [|done]. by intros [= -> ->]. Qed.

Lemma enc_encrypt_spec b s c s' :
  enc_encrypt b s = Ok (c, s') ->
  exists nonce, slen nonce = NONCEBYTES /\ encrypt nonce b (crypto (sub s)) = Ok c /\ same s s'.
Proof using OL.
  unfold enc_encrypt. intros (k & s1 & E1 & E)%bind_ok. unfold get_crypto, gets in E1.
  injection E1 as <- <-. apply bind_ok in E as (n & s2 & E2 & E).
  apply same_reading in E2 as [-> Hs]. apply lift_ok in E as [E ->].
  eexists. split; [|split; [exact E|done]].
  unfold slen. by rewrite length_string_of, o_bytes_length.
Qed.

Lemma readyToSend_spec s b s' :
  readyToSend s = Ok (b, s') ->
  s' = s /\ (b = true <-> outgoingRequests (rpc s) !! SESSION_KEY_RPCID = None /\
    outgoingReplies (rpc s) !! SESSION_KEY_RPCID = None /\
    canDecrypt (crypto (sub s)) = true /\ canEncrypt (crypto (sub s)) = true).
Proof using.
  unfold readyToSend. intros (r & s1 & E1 & E)%bind_ok. run E1.
  case_bool_decide as H1'; [run E; split; [done|]; destruct H1' as [? ->]; naive_solver|].
  case_bool_decide as H2'; [run E; split; [done|]; destruct H2' as [? ->]; naive_solver|].
  unfold readyToReceive, get_crypto in E. apply bind_ok in E as (c & s1 & E1 & E). run E1. run E.
  apply eq_None_not_Some in H1', H2'. split; [done|]. rewrite andb_true_iff. naive_solver.
Qed.

Lemma map_begin_sub {X'} (m : gmap RpcId string) (s : St X') it s' :
  map_begin m s = Ok (it, s') -> sub s' = sub s.
Proof using.
  unfold map_begin. intros (l & s1 & E1 & E)%bind_ok. unfold walk, read_world, reading in E1.
  injection E1 as _ <-. destruct l; by run E.
Qed.
Lemma clock_createRequest_sub {X'} i (s : St X') s' :
  clock_createRequest i s = Ok (tt, s') -> sub s' = sub s.
Proof using.
  unfold clock_createRequest, stamp. intros (now & s1 & E1 & E)%bind_ok.
  unfold read_world in E1. destruct (world_stamp _). injection E1 as _ <-.
  apply bind_ok in E as (r & s2 & E2 & E). run E2. destruct (createRequest _ _ _) as [[]|]; by run E.
Qed.
(** A request that goes out at once is a packet of its own. *)
Lemma sendRequest_one {X'} (send : string -> M (St X') unit) i p s s' :
  sendRequest send i p false s = Ok (tt, s') -> send (request_packet [(i, p)]) s = Ok (tt, s').
Proof using.
  unfold sendRequest. intros (r & s1 & E1 & E)%bind_ok. run E1. apply bind_ok in E as (w & s1 & E1 & E).
  run E1. unfold finish, writePrimitive, writeClass_RpcId, writer_start in E. cbn [fst] in E.
  unfold request_packet, request_entry, pack_id. cbn [map str_concat fst snd].
  by rewrite str_app_nil_r, <- str_app_assoc.
Qed.

(** C25: Requests are stored and sent encrypted.  A request the encrypted handler
    accepts goes into the base class's maps as a nonce and a secretbox of its
    payload under the session key, and nothing else is added.  When it may go out at once,
    all that is handed to the network is copies of one packet, the magic header and a
    request record of its id and that ciphertext; when it has to wait, nothing is.  Before
    the key exchange is complete the handler aborts instead of sending. *)
Theorem requests_are_encrypted p s s' :
  enc_requestWithId p s = Ok (tt, s') ->
  (canDecrypt (crypto (sub s)) = true /\ canEncrypt (crypto (sub s)) = true /\
   outgoingRequests (rpc s) !! SESSION_KEY_RPCID = None) /\
  exists nonce c, slen nonce = NONCEBYTES /\
    c = nonce +:+ secretbox_easy (ip_payload p) nonce (outgoingSessionKey (crypto (sub s))) /\
    ((outgoingRequests (rpc s') = <[ip_id p := c]> (outgoingRequests (rpc s)) /\
      delayedRequests (rpc s') = delayedRequests (rpc s) /\
      exists q, posted s' = posted s ++ q /\
        Forall (fun x => x.2 = WGA_MAGIC +:+ request_packet [(ip_id p, c)]) q) \/
     (outgoingRequests (rpc s') = outgoingRequests (rpc s) /\
      delayedRequests (rpc s') = <[ip_id p := c]> (delayedRequests (rpc s)) /\
      posted s' = posted s)).
Proof using OL.
  unfold enc_requestWithId. intros (ready & s1 & E1 & E)%bind_ok.
  apply readyToSend_spec in E1 as [-> Hready]. destruct ready; [|done]. cbn [negb] in E.
  destruct Hready as [Hready _]. destruct (Hready eq_refl) as (Ho & _ & Hd & He).
  split; [done|]. apply bind_ok in E as (c & s1 & E1 & E).
  apply enc_encrypt_spec in E1 as (nonce & Hn & Hc & Hs & Hs' & _).
  unfold encrypt in Hc. case_bool_decide; [done|]. injection Hc as <-.
  exists nonce, (nonce +:+ secretbox_easy (ip_payload p) nonce (outgoingSessionKey (crypto (sub s)))).
  split; [done|]. split; [done|]. unfold requestWithId in E.
  apply bind_ok in E as (r & s2 & E2 & E). run E2. apply bind_ok in E as (b & s2 & E2 & E).
  assert (rpc s2 = rpc s /\ sub s2 = sub s) as [Hr Hsub].
  { rewrite <- Hs, <- Hs'. split; [revert E2; apply (keeps_if (fun r => r)); keeps_tac|].
    case_bool_decide; [by run E2|]. apply bind_ok in E2 as (it & s3 & E2 & E3). run E3.
    by apply map_begin_sub in E2. }
  destruct b.
  - left. apply bind_ok in E as ([] & s3 & E3 & E). run E3.
    apply bind_ok in E as ([] & s4 & E4 & E5).
    pose proof (keeps_sendRequest enc_send (fun m => keeps_enc_send _ m) req_part _ _ _ _ _ _ E5) as K5.
    pose proof (keeps_clock_createRequest _ _ _ _ E4) as K4. apply clock_createRequest_sub in E4.
    rewrite K4 in K5. unfold req_part in K5. simpl in K5. injection K5 as -> -> _. rewrite Hr.
    split; [done|]. split; [done|]. apply sendRequest_one in E5. unfold enc_send in E5.
    pose proof (multi_send_posts delay_fuel _ _ _ _ E5) as Hq. unfold posts in Hq.
    replace (posted s) with (posted s4); [exact Hq|].
    unfold posted, multi_of. rewrite E4. cbn [sub]. by rewrite Hsub.
  - right. run E. simpl. rewrite Hr. split; [done|]. split; [done|].
    unfold posted, multi_of. cbn [sub]. by rewrite Hsub.
Qed.

(** ** What arrives *)
Lemma enc_addIncomingRequest_plain i c t :
  i <> SESSION_KEY_RPCID -> canDecrypt (crypto (sub t)) = true ->
  canEncrypt (crypto (sub t)) = true ->
  enc_addIncomingRequest (mkIdPayload i c) t =
  match decrypt c (crypto (sub t)) with
  | Ok None => Ok (tt, t)
  | Ok (Some p) => addIncomingRequest (mkIdPayload i p) t
  | Err f => Err f
  end.
Proof using.
  intros Hi Hd He. unfold enc_addIncomingRequest. rewrite bool_decide_false by done.
  unfold readyToReceive, get_crypto, gets, ret, bind. rewrite Hd, He. cbn [andb negb].
  unfold lift. cbn [ip_payload ip_id]. by destruct (decrypt c (crypto (sub t))) as [[p|]|].
Qed.

(** A corrupt request changes nothing.  A request packet whose payload does not
    decrypt under the session key leaves the whole handler as it was. *)
Theorem corrupt_request_ignored i c t :
  i <> SESSION_KEY_RPCID -> canDecrypt (crypto (sub t)) = true ->
  canEncrypt (crypto (sub t)) = true -> outgoingReplies (rpc t) !! i = None ->
  decrypt c (crypto (sub t)) = Ok None ->
  do_handleRequest enc_virtuals i c t = Ok (tt, t).
Proof using.
  intros Hi Hd He Ho Hc. unfold do_handleRequest, handleRequest, get_rpc, gets, bind at 1.
  destruct (bool_decide (is_Some (incomingRequests (rpc t) !! i)) ||
    lru_exists i (processedRequests (rpc t))) eqn:Hk; [done|].
  rewrite Ho. unfold ret at 1, bind at 1. cbn [v_addIncomingRequest enc_virtuals].
  unfold bind at 1. rewrite enc_addIncomingRequest_plain, Hc by done.
  unfold bind. apply orb_false_iff in Hk as [Hk _]. apply bool_decide_eq_false in Hk.
  destruct (incomingRequests (rpc t) !! i) eqn:Hin; [by destruct Hk|done].
Qed.

Context {SL : SodiumLaws} {ML : MsgpackLaws}.

(** What was encrypted under the key opens under it. *)
Lemma sealed_opens nonce p c (ca cb : CryptoHandler) :
  slen nonce = NONCEBYTES -> encrypt nonce p ca = Ok c ->
  incomingSessionKey cb = outgoingSessionKey ca -> canDecrypt cb = true ->
  decrypt c cb = Ok (Some p).
Proof using SL.
  intros Hn Hc Hkey Hd. unfold encrypt in Hc. case_bool_decide; [done|]. injection Hc as <-. unfold decrypt.
  unfold canDecrypt in Hd. case_bool_decide; [done|]. rewrite slen_app, secretbox_length, Hn.
  pose proof (slen_nonneg p).
  destruct (Z.ltb_spec (NONCEBYTES + (slen p + MACBYTES)) (NONCEBYTES + MACBYTES)); [lia|].
  rewrite str_drop_app', str_take_app' by (by apply slen_nat). by rewrite Hkey, secretbox_open_seal.
Qed.

(** Encrypted requests reach the other side.  When the receiver's incoming key is
    the sender's outgoing key, a ciphertext the sender stored becomes the plaintext
    request at the receiver. *)
Theorem encrypted_request_delivered i nonce p c (ca : CryptoHandler) t t' :
  i <> SESSION_KEY_RPCID -> p <> "PING" -> p <> "SHUTDOWN" -> slen nonce = NONCEBYTES ->
  encrypt nonce p ca = Ok c -> incomingSessionKey (crypto (sub t)) = outgoingSessionKey ca ->
  canDecrypt (crypto (sub t)) = true -> canEncrypt (crypto (sub t)) = true ->
  ~ request_known i (rpc t) -> outgoingReplies (rpc t) !! i = None ->
  do_handleRequest enc_virtuals i c t = Ok (tt, t') ->
  incomingRequests (rpc t') = <[i := p]> (incomingRequests (rpc t)) /\ sub t' = sub t.
Proof using SL.
  intros Hi Hp1 Hp2 Hn Hc Hkey Hd He Hk Ho E.
  unfold do_handleRequest, handleRequest, get_rpc, gets, bind at 1 in E.
  assert (incomingRequests (rpc t) !! i = None) as Hin.
  { destruct (incomingRequests (rpc t) !! i) eqn:Hx; [|done]. exfalso. apply Hk. left. by rewrite Hx. }
  assert (lru_exists i (processedRequests (rpc t)) = false) as Hl.
  { apply not_true_is_false. intros ?. apply Hk. by right. }
  rewrite Hin, Hl, Ho in E. rewrite bool_decide_false in E by (by intros []).
  unfold bind at 1, ret at 1 in E. cbn [orb v_addIncomingRequest enc_virtuals] in E.
  apply bind_ok in E as ([] & t1 & E1 & E).
  pose proof (sealed_opens _ _ _ _ _ Hn Hc Hkey Hd) as Hdec.
  rewrite enc_addIncomingRequest_plain, Hdec in E1 by done.
  apply addIncomingRequest_fresh in E1 as (Hs & Hi1 & _); [|done]. simpl in Hi1.
  apply bind_ok in E as (r & t2 & E2 & E). run E2. rewrite Hi1, lookup_insert_eq in E.
  rewrite !bool_decide_false in E by done. by run E.
Qed.

(** The state once a sealed request was handled. *)
Definition with_request i p t0 w (t : St EncState) : St EncState :=
  mkSt (set_incoming (<[i := p]> (incomingRequests (rpc t)))
          (set_clock (set_receiveTimes (<[i := t0]> (requestReceiveTimeMap (clockSynchronizer (rpc t))))
                        (clockSynchronizer (rpc t))) (rpc t))) (sub t) w.
Definition unheard i (t : St EncState) : Prop :=
  i <> SESSION_KEY_RPCID /\ ~ request_known i (rpc t) /\ outgoingReplies (rpc t) !! i = None /\
  requestReceiveTimeMap (clockSynchronizer (rpc t)) !! i = None.
Lemma handleRequest_sealed i p c t :
  unheard i t -> p <> "PING" -> p <> "SHUTDOWN" ->
  canDecrypt (crypto (sub t)) = true -> canEncrypt (crypto (sub t)) = true ->
  decrypt c (crypto (sub t)) = Ok (Some p) ->
  exists t0 w, do_handleRequest enc_virtuals i c t = Ok (tt, with_request i p t0 w t).
Proof using.
  intros (Hi & Hk & Ho & Hr) Hp1 Hp2 Hd He Hdec.
  assert (incomingRequests (rpc t) !! i = None) as Hin.
  { destruct (incomingRequests (rpc t) !! i) eqn:Hx; [|done]. exfalso. apply Hk. left. by rewrite Hx. }
  assert (lru_exists i (processedRequests (rpc t)) = false) as Hl.
  { apply not_true_is_false. intros ?. apply Hk. by right. }
  unfold do_handleRequest, handleRequest, get_rpc, gets, bind at 1.
  rewrite Hin, Hl, Ho, bool_decide_false by (by intros []). cbn [orb].
  unfold ret at 1, bind at 1. cbn [v_addIncomingRequest enc_virtuals].
  unfold bind at 1. rewrite enc_addIncomingRequest_plain, Hdec by done.
  unfold addIncomingRequest, clock_receiveRequest, stamp, read_world, get_rpc, gets, bind.
  destruct (world_stamp (world t)) as [now w]. unfold receiveRequest. cbn [rpc ip_id ip_payload].
  rewrite Hr. unfold mod_rpc, modify. cbn [rpc sub world ip_id ip_payload].
  change (incomingRequests (set_clock _ (rpc t))) with (incomingRequests (rpc t)). rewrite Hin.
  cbn [rpc sub world]. change (incomingRequests (set_incoming ?m _)) with m.
  rewrite lookup_insert_eq, !bool_decide_false by done. by exists now, w.
Qed.

(** C29: Encryption does not stop a replay.  The id of a request travels outside of the
    secretbox: whoever recorded a request packet can send the same ciphertext under any
    fresh id, any time later in the session, and it is decrypted and delivered once
    more.  So "delivered once" holds of the ids the network repeats, not of the requests. *)
Theorem ciphertext_replayed i j nonce p c (ca : CryptoHandler) t :
  i <> j -> unheard i t -> unheard j t -> p <> "PING" -> p <> "SHUTDOWN" -> flaky (rpc t) = false ->
  slen nonce = NONCEBYTES -> encrypt nonce p ca = Ok c ->
  incomingSessionKey (crypto (sub t)) = outgoingSessionKey ca ->
  canDecrypt (crypto (sub t)) = true -> canEncrypt (crypto (sub t)) = true ->
  request_wf (i, c) -> request_wf (j, c) ->
  exists t1, do_receive enc_virtuals (request_packet [(i, c)]) t = Ok (true, t1) /\
    incomingRequests (rpc t1) = <[i := p]> (incomingRequests (rpc t)) /\
  exists t2, do_receive enc_virtuals (request_packet [(j, c)]) t1 = Ok (true, t2) /\
    incomingRequests (rpc t2) = <[j := p]> (<[i := p]> (incomingRequests (rpc t))).
Proof using SL ML.
  intros Hne Hui Huj Hp1 Hp2 Hf Hn Hc Hkey Hd He Hwi Hwj.
  pose proof (sealed_opens _ _ _ _ _ Hn Hc Hkey Hd) as Hdec.
  destruct (handleRequest_sealed i p c t Hui Hp1 Hp2 Hd He Hdec) as (t0 & w & E).
  exists (with_request i p t0 w t). split.
  { rewrite receive_request_packet by (done || by apply Forall_singleton). unfold for_each, bind.
    cbn [fst snd]. by rewrite E. }
  split; [done|]. destruct Huj as (Hj & Hkj & Hoj & Hrj).
  assert (unheard j (with_request i p t0 w t)) as Huj'.
  { split; [done|]. split; [|split; [done|]].
    - intros [Hx|Hx]; apply Hkj; [left|by right]. cbn in Hx. by rewrite lookup_insert_ne in Hx.
    - cbn. by rewrite lookup_insert_ne. }
  destruct (handleRequest_sealed j p c _ Huj' Hp1 Hp2 Hd He Hdec) as (t0' & w' & E').
  exists (with_request j p t0' w' (with_request i p t0 w t)). split; [|done].
  rewrite receive_request_packet by (done || by apply Forall_singleton). unfold for_each, bind.
  cbn [fst snd]. by rewrite E'.
Qed.

Lemma enc_addIncomingReply_corrupt i c s s' :
  decrypt c (crypto (sub s)) = Ok None -> enc_addIncomingReply i c s = Ok (tt, s') -> s' = s.
Proof using.
  intros Hc E. unfold enc_addIncomingReply in E. apply bind_ok in E as (b & s1 & E1 & E).
  apply readyToSend_spec in E1 as [-> _]. destruct b; cbn [negb] in E; [|by run E].
  apply bind_ok in E as (k & s1 & E1 & E). unfold get_crypto in E1. run E1.
  apply bind_ok in E as (d & s1 & E1 & E). apply lift_ok in E1 as [E1 ->].
  rewrite Hc in E1. injection E1 as <-. by run E.
Qed.

(** The cryptographic part of the state is the handler's own. *)
Definition same_crypto (s s' : St EncState) : Prop := crypto (sub s') = crypto (sub s).
#[local] Instance same_crypto_refl : Reflexive same_crypto.
Proof using. by intros s. Qed.
#[local] Instance same_crypto_trans : Transitive same_crypto.
Proof using. unfold same_crypto. intros s1 s2 s3. congruence. Qed.
Lemma same_crypto_multi f : respects same_crypto (mod_multi f : MS unit).
Proof using. intros s [] s' E. unfold mod_multi, mod_part in E. by run E. Qed.
Lemma same_crypto_rpc f : respects same_crypto (mod_rpc f : MS unit).
Proof using. intros s [] s' E. by run E. Qed.
Lemma same_crypto_reading {A} (f : World -> A * World) : respects same_crypto (read_world f : MS A).
Proof using. intros s a s' E. unfold read_world in E. destruct (f _). by run E. Qed.
Lemma same_crypto_gets {A} (f : St EncState -> A) : respects same_crypto (gets f).
Proof using. intros s a s' E. by run E. Qed.
Lemma same_crypto_fail {A} e : respects same_crypto (fail e : MS A).
Proof using. by intros s a s' E. Qed.
Lemma same_crypto_udp (f : UdpState -> UdpState) : respects same_crypto (mod_part f : MS unit).
Proof using. intros s [] s' E. unfold mod_part in E. by run E. Qed.
Lemma same_crypto_lift {A} (o : outcome A) : respects same_crypto (lift o).
Proof using. intros s a s' E. by apply lift_ok in E as [_ ->]. Qed.
Lemma same_crypto_for_each {A} (l : list A) (body : A -> MS unit) :
  (forall x, respects same_crypto (body x)) -> respects same_crypto (for_each l body).
Proof using.
  intros Hb. induction l as [|x l IH]; [apply respects_ret, _|]. simpl.
  apply respects_bind; [apply _|apply Hb|]. intros _. exact IH.
Qed.

Ltac same_crypto_tac :=
  repeat first
    [ match goal with
      | |- forall _, _ => intros ?
      | |- respects _ (bind _ _) => apply respects_bind; [apply _| |]
      | |- respects _ (for_each _ _) => apply same_crypto_for_each
      | |- respects _ (match ?x with _ => _ end) => destruct x
      | |- respects _ (ret _) => apply respects_ret, _
      end
    | apply same_crypto_rpc | apply same_crypto_multi | apply same_crypto_udp
    | apply same_crypto_gets | apply same_crypto_reading | apply same_crypto_fail
    | apply same_crypto_lift ].

Lemma same_crypto_drawDelay n : respects same_crypto (drawDelay n : MS Z).
Proof using. induction n; simpl; unfold o_delay_reading; same_crypto_tac. exact IHn. Qed.
Lemma same_crypto_udp_send m : respects same_crypto (udp_send delay_fuel m : MS unit).
Proof using.
  unfold udp_send, sendCopy, _send, time_now, get_part, get_rpc.
  same_crypto_tac; apply same_crypto_drawDelay.
Qed.
Lemma same_crypto_multi_send m : respects same_crypto (multi_send delay_fuel m : MS unit).
Proof using.
  unfold multi_send, startUnreplied, update, multi_killEndpoint, get_multi, get_part, set_walk,
    time_now, rand.
  same_crypto_tac; apply same_crypto_udp_send.
Qed.
Lemma same_crypto_stamp : respects same_crypto (stamp : MS Z).
Proof using. apply same_crypto_reading. Qed.
Lemma same_crypto_draw m : respects same_crypto (draw m : MS (RpcId * string)).
Proof using. unfold draw, walk, rand. same_crypto_tac. Qed.
Lemma same_crypto_batchRequests n sent w : respects same_crypto (batchRequests n sent w : MS string).
Proof using.
  revert sent w. induction n as [|n IH]; intros sent w; simpl; [apply respects_ret, _|].
  unfold get_rpc. same_crypto_tac; [apply same_crypto_draw|apply IH].
Qed.
Lemma same_crypto_sendRequest i p b : respects same_crypto (sendRequest enc_send i p b).
Proof using.
  unfold sendRequest, get_rpc. same_crypto_tac;
    [apply same_crypto_batchRequests|apply same_crypto_multi_send].
Qed.
Lemma same_crypto_createRequest i : respects same_crypto (clock_createRequest i : MS unit).
Proof using. unfold clock_createRequest, get_rpc. same_crypto_tac. Qed.
Lemma same_crypto_tryToSendBarrier : respects same_crypto (tryToSendBarrier enc_send).
Proof using.
  unfold tryToSendBarrier, sendDelayed, map_begin, walk, get_rpc. same_crypto_tac;
    first [apply same_crypto_createRequest | apply same_crypto_sendRequest].
Qed.

(** A corrupt reply loses the request.  A reply packet that names a request in
    flight but whose payload does not decrypt retires the request for good: nothing
    is delivered, the request is no longer resent, and every later copy of the
    genuine reply is only acknowledged. *)
Theorem corrupt_reply_loses_request i c t1 t2 s s' :
  is_Some (outgoingRequests (rpc s) !! i) -> delayedRequests (rpc s) !! i = None ->
  i ∉ oneWayRequests (rpc s) -> ~ reply_known i (rpc s) ->
  decrypt c (crypto (sub s)) = Ok None ->
  enc_handleReply i c t1 t2 s = Ok (tt, s') ->
  outgoingRequests (rpc s') !! i = None /\ incomingReplies (rpc s') = incomingReplies (rpc s) /\
  forall p t1' t2', enc_handleReply i p t1' t2' s' =
    (mod_multi (set_unreplied 0) ;;; enc_sendAcknowledge i) s'.
Proof using OL.
  intros [q Hq] Hd Hw Hk Hc E. unfold enc_handleReply, multi_handleReply in E.
  apply bind_ok in E as ([] & s0 & E0 & E).
  pose proof (keeps_mod_multi (fun r => r) _ _ _ _ E0) as K0. simpl in K0.
  pose proof (same_crypto_multi _ _ _ _ E0) as C0. rewrite <- K0 in Hq, Hd, Hw, Hk |- *.
  unfold handleReply in E. apply bind_ok in E as (r & s2 & E1 & E). run E1.
  assert (bool_decide (is_Some (incomingReplies (rpc s0) !! i)) ||
    lru_exists i (processedReplies (rpc s0)) = false) as Hskip.
  { apply orb_false_iff. split.
    - apply bool_decide_eq_false. intros ?. by apply Hk; left.
    - apply not_true_is_false. intros ?. by apply Hk; right. }
  rewrite Hskip, Hq in E. apply bind_ok in E as ([] & s2 & E1 & E).
  pose proof (same_crypto_rpc _ _ _ _ E1) as C1. run E1.
  apply bind_ok in E as ([] & s2 & E1 & E).
  pose proof (keeps_tryToSendBarrier enc_send (fun m => keeps_enc_send _ m) _ _ _ E1) as K1.
  pose proof (same_crypto_tryToSendBarrier _ _ _ E1) as C2.
  assert (gone i (rpc s2)) as Hg.
  { eapply tryToSendBarrier_gone; [intros m; apply keeps_enc_send| |exact E1].
    split; simpl; [apply lookup_delete_eq|done]. }
  unfold reply_part in K1. simpl in K1. injection K1 as K1a K1b K1c.
  apply bind_ok in E as (r & s3 & E2 & E). run E2. apply bind_ok in E as ([] & s3 & E2 & E).
  rewrite bool_decide_false in E2 by (by rewrite K1a).
  apply enc_addIncomingReply_corrupt in E2 as ->; [|unfold same_crypto in *; congruence].
  apply bind_ok in E as ([] & s4 & E3 & E).
  pose proof (keeps_enc_sendAcknowledge (fun r => r) _ _ _ _ E3) as K3. simpl in K3.
  unfold clock_handleReply in E. apply bind_ok in E as (now & s5 & E4 & E).
  pose proof (keeps_stamp (fun r => r) _ _ _ E4) as K4. simpl in K4.
  destruct (ClockSynchronizer.handleReply _ _ _ _ _ _) as [[cl h]|]; [|done]. run E. simpl.
  rewrite K4, K3. destruct Hg as [Hg _]. split; [done|]. split; [done|].
  intros p t1' t2'. unfold enc_handleReply, multi_handleReply, bind.
  destruct (mod_multi (set_unreplied 0) _) as [[[] s6]|] eqn:E6; [|done].
  apply handleReply_known. right. exact Hg.
Qed.
End EncryptedRpc.

(** ** Concrete runs, with the clock stopped *)
#[local] Instance frozen : Oracle := frozen_Oracle 110.
#[local] Instance frozen_laws : OracleLaws := frozen_OracleLaws 110.
Definition crypto0 : CryptoHandler :=
  set_incomingKey key1 (set_outgoingKey key1 (Crypto_init "a" (scalarmult_base "b"))).
Definition enc_multi0 : MultiState :=
  mkMulti (Udp_init (ep 1)) 110 0 0 ∅ ∅ ∅.
Definition enc0 : St EncState :=
  mkSt (Rpc_init false false) (mkEnc enc_multi0 crypto0) world0.
Definition id7 : RpcId := mkRpcId 7 7.
Definition sealed : string := nonce1 +:+ secretbox_easy "hello" nonce1 key1.
Definition enc_asked : St EncState :=
  match enc_requestWithId 1 (mkIdPayload id7 "hello") enc0 with
  | Ok (_, s) => s | Err _ => enc0 end.

Lemma requests_are_encrypted_witness :
  exists s' nonce, enc_requestWithId 1 (mkIdPayload id7 "hello") enc0 = Ok (tt, s') /\
    outgoingRequests (rpc s') !! id7 =
      Some (nonce +:+ secretbox_easy "hello" nonce (outgoingSessionKey crypto0)) /\
    Forall (fun x => x.2 = WGA_MAGIC +:+ request_packet
      [(id7, nonce +:+ secretbox_easy "hello" nonce (outgoingSessionKey crypto0))]) (posted s').
Proof.
  destruct (enc_requestWithId 1 (mkIdPayload id7 "hello") enc0) as [[[] s']|] eqn:E;
    [|vm_compute in E; discriminate E].
  destruct (requests_are_encrypted 1 _ _ _ E)
    as (_ & nonce & c & _ & Hc & [(H & _ & Hq)|[H _]]); exists s', nonce; (split; [reflexivity|]).
  - cbn [ip_id ip_payload] in *. change (crypto (sub enc0)) with crypto0 in Hc. rewrite <- Hc.
    split; [rewrite H; apply lookup_insert_eq|]. destruct Hq as (q & -> & Hq). exact Hq.
  - exfalso. assert (outgoingRequests (rpc s') !! id7 <> None) as Hn.
    { clear -E. vm_compute in E. injection E as <-. vm_compute. discriminate. }
    apply Hn. rewrite H. reflexivity.
Defined.

Lemma corrupt_request_ignored_witness :
  do_handleRequest (enc_virtuals 1) id7 (nonce1 +:+ "this is not a secretbox") enc0 =
  Ok (tt, enc0).
Proof.
  apply (corrupt_request_ignored 1); try reflexivity. by_compute.
Defined.

Lemma encrypted_request_delivered_witness :
  exists t', do_handleRequest (enc_virtuals 1) id7 sealed enc0 = Ok (tt, t') /\
    incomingRequests (rpc t') !! id7 = Some "hello".
Proof.
  destruct (do_handleRequest (enc_virtuals 1) id7 sealed enc0) as [[[] t']|] eqn:E;
    [|vm_compute in E; discriminate E].
  exists t'. split; [reflexivity|].
  destruct (encrypted_request_delivered 1 id7 nonce1 "hello" sealed crypto0 enc0 t')
    as [H _]; try exact E; try reflexivity; try by_compute.
  rewrite H. apply lookup_insert_eq.
Defined.

Lemma corrupt_reply_loses_request_witness :
  is_Some (outgoingRequests (rpc enc_asked) !! id7) /\
  exists s', enc_handleReply 1 id7 (nonce1 +:+ "this is not a secretbox") 1 2 enc_asked =
      Ok (tt, s') /\ outgoingRequests (rpc s') !! id7 = None /\
    incomingReplies (rpc s') = incomingReplies (rpc enc_asked).
Proof.
  assert (is_Some (outgoingRequests (rpc enc_asked) !! id7)) as Hq by (eexists; vm_compute; reflexivity).
  split; [exact Hq|].
  destruct (enc_handleReply 1 id7 (nonce1 +:+ "this is not a secretbox") 1 2 enc_asked)
    as [[[] s']|] eqn:E; [|vm_compute in E; discriminate E].
  exists s'. split; [reflexivity|].
  destruct (corrupt_reply_loses_request 1 id7 (nonce1 +:+ "this is not a secretbox") 1 2 enc_asked s')
    as (H1 & H2 & _); try exact E; try exact Hq; try (vm_compute; reflexivity).
  - by_compute.
  - intros [[? Hk]|Hk]; vm_compute in Hk; discriminate Hk.
  - split; [exact H1|exact H2].
Defined.

Definition id8 : RpcId := mkRpcId 7 8.
Lemma ciphertext_replayed_witness :
  exists t1 t2, do_receive (enc_virtuals 1) (request_packet [(id7, sealed)]) enc0 = Ok (true, t1) /\
    do_receive (enc_virtuals 1) (request_packet [(id8, sealed)]) t1 = Ok (true, t2) /\
    incomingRequests (rpc t2) !! id7 = Some "hello" /\ incomingRequests (rpc t2) !! id8 = Some "hello".
Proof.
  assert (forall i, i = id7 \/ i = id8 -> unheard i enc0 /\ request_wf (i, sealed)) as Hu.
  { intros i [-> | ->]; (split; [|by split; vm_compute]); (split; [discriminate|]); (split; [|by split]);
      intros [[? Hk]|Hk]; vm_compute in Hk; discriminate Hk. }
  destruct (ciphertext_replayed 1 id7 id8 nonce1 "hello" sealed crypto0 enc0)
    as (t1 & E1 & _ & t2 & E2 & Hi); try (by apply Hu; auto); try reflexivity; try discriminate; try by_compute.
  exists t1, t2. split; [exact E1|]. split; [exact E2|]. rewrite Hi. split; reflexivity.
Defined.
