(* ===== verification/RpcAuthenticity.v ===== *)
(** * RpcAuthenticity

    What the encryption of [EncryptedMultiEndpointHandler] achieves against an attacker who
    can send any datagram: once the session key of the other side is known, the application
    finds only payloads that the other side encrypted. *)
From S2P Require Import Prelude.
From S2P Require Import StdMap.
From S2P Require Import RpcId.
From S2P Require Import Message.
From S2P Require Import TimeHandler.
From S2P Require Import ClockSynchronizer.
From S2P Require Import RpcState.
From S2P Require Import Instances.
From S2P Require Import BiDirectionalRpc.
From S2P Require Import RpcVirtuals.
From S2P Require Import RpcDelivery.
From S2P Require Import UdpRpc.
From S2P Require Import MultiEndpoint.
From S2P Require Import CryptoHandler.
From S2P Require Import EncryptedRpc.

(** ** What can be read out of a datagram *)
Section Reads.
Context `{Msgpack} `{Sodium}.

(** [c] is one of the strings read from [b], object by object. *)
Inductive reads : string -> string -> Prop :=
  | reads_here b c rest : mp_next b = Some (MStr c, rest) -> reads b c
  | reads_later b o rest c : mp_next b = Some (o, rest) -> reads rest c -> reads b c.

(** Every string of the datagram that opens under the session key is the encryption of a
    payload the other side made, [Said]: nobody else can make one. *)
Definition genuine (Said : string -> Prop) (k : CryptoHandler) (b : string) : Prop :=
  forall c p, reads b c -> decrypt c k = Ok (Some p) -> Said p.

Variables (Said : string -> Prop) (k : CryptoHandler).
Lemma genuine_next b o rest : mp_next b = Some (o, rest) -> genuine Said k b -> genuine Said k rest.
Proof using. intros E Hb c p Hr. apply Hb. by eapply reads_later. Qed.
Lemma next_or_inv f b o rest : next_or f b = Ok (o, rest) -> mp_next b = Some (o, rest).
Proof using. unfold next_or. destruct (mp_next b) as [[]|]; [|done]. by intros [= -> ->]. Qed.
Lemma genuine_string b c rest :
  readPrimitive_string b = Ok (c, rest) -> genuine Said k b ->
  genuine Said k rest /\ forall p, decrypt c k = Ok (Some p) -> Said p.
Proof using.
  intros E Hb. unfold readPrimitive_string in E. apply bind_ok in E as (o & b1 & E1 & E).
  apply next_or_inv in E1. destruct o as [z|x|l]; try done. unfold ret in E. injection E as -> ->.
  split; [by eapply genuine_next|]. intros p. apply Hb. by eapply reads_here.
Qed.
Lemma genuine_i64 b z rest :
  readPrimitive_i64 b = Ok (z, rest) -> genuine Said k b -> genuine Said k rest.
Proof using.
  intros E Hb. unfold readPrimitive_i64 in E. apply bind_ok in E as (o & b1 & E1 & E).
  apply next_or_inv in E1. destruct o as [x|x|l]; try done. destruct (in_s 64 x); [|done].
  unfold ret in E. injection E as -> ->. by eapply genuine_next.
Qed.
Lemma genuine_u8 b z rest :
  readPrimitive_u8 b = Ok (z, rest) -> genuine Said k b -> genuine Said k rest.
Proof using.
  intros E Hb. unfold readPrimitive_u8 in E. apply bind_ok in E as (o & b1 & E1 & E).
  apply next_or_inv in E1. destruct o as [x|x|l]; try done. destruct (in_u 8 x); [|done].
  unfold ret in E. injection E as -> ->. by eapply genuine_next.
Qed.
Lemma genuine_RpcId b i rest :
  readClass_RpcId b = Ok (i, rest) -> genuine Said k b -> genuine Said k rest.
Proof using.
  intros E Hb. unfold readClass_RpcId in E. apply bind_ok in E as (c & b1 & E1 & E).
  apply genuine_string in E1 as [Hb1 _]; [|done]. destruct (negb _); [done|].
  unfold ret in E. by injection E as _ ->.
Qed.
End Reads.

Create HintDb guards.

(** ** The session *)
Section Authenticity.
Context `{LruCache} `{Oracle} {OL : OracleLaws} `{Msgpack} `{Sodium}.
Variable delay_fuel : nat.
Variables (Said : string -> Prop) (k : CryptoHandler).
Hypothesis k_ready : canDecrypt k = true.
Abbreviation MS := (M (St EncState)).
Abbreviation enc_send := (enc_send delay_fuel).

(** The key has not changed, and what the application finds was said. *)
Definition said (m : gmap RpcId string) : Prop := map_Forall (fun _ p => Said p) m.
Lemma said_sub m m' : m' ⊆ m -> said m -> said m'.
Proof using. intros Hsub Hm i p Hp. eapply Hm, lookup_weaken; [exact Hp|done]. Qed.
Record secure (s : St EncState) : Prop := {
  se_crypto : crypto (sub s) = k;
  se_requests : said (incomingRequests (rpc s));
  se_replies : said (incomingReplies (rpc s))
}.
Definition guards {A} (m : MS A) : Prop := forall s a s', secure s -> m s = Ok (a, s') -> secure s'.

Lemma guards_ret {A} (a : A) : guards (ret a).
Proof using. intros s x s' Hs E. by run E. Qed.
Lemma guards_fail {A} e : guards (fail e : MS A).
Proof using. by intros s x s'. Qed.
Lemma guards_bind {A B} (m : MS A) (f : A -> MS B) :
  guards m -> (forall a, guards (f a)) -> guards (bind m f).
Proof using. intros Hm Hf s b s' Hs (a & s1 & E1 & E)%bind_ok. eapply Hf; [|exact E]. by eapply Hm. Qed.
Lemma guards_gets {A} (f : St EncState -> A) : guards (gets f).
Proof using. intros s x s' Hs E. by run E. Qed.
Lemma guards_lift {A} (o : outcome A) : guards (lift o).
Proof using. intros s x s' Hs [_ ->]%lift_ok. done. Qed.
Lemma guards_reading_with {A} (m : M string A) b : guards (reading_with m b : MS (A * string)).
Proof using. intros s x s' Hs E. unfold reading_with in E. destruct (m b) as [[]|]; by run E. Qed.
Lemma guards_for_each {A} (l : list A) (body : A -> MS unit) :
  (forall x, guards (body x)) -> guards (for_each l body).
Proof using.
  intros Hb. induction l as [|x l IH]; [apply guards_ret|]. simpl. by apply guards_bind; [|intros _].
Qed.
(** What leaves the key and the two maps alone. *)
Definition found (r : Rpc) : gmap RpcId string * gmap RpcId string := (incomingRequests r, incomingReplies r).
Lemma guards_keeps {A} (m : MS A) : keeps found m -> respects same_crypto m -> guards m.
Proof using.
  intros Hk Hc s a s' [Hs1 Hs2 Hs3] E. pose proof (Hk _ _ _ E) as Hf. unfold found in Hf. injection Hf as E1 E2.
  pose proof (Hc _ _ _ E) as E3. unfold same_crypto in E3. split; [congruence|by rewrite E1|by rewrite E2].
Qed.
Lemma guards_read_world {A} (f : World -> A * World) : guards (read_world f).
Proof using. apply guards_keeps; [apply keeps_read_world|apply same_crypto_reading]. Qed.
Lemma guards_mod_multi f : guards (mod_multi f).
Proof using. apply guards_keeps; [apply keeps_mod_multi|apply same_crypto_multi]. Qed.
Lemma guards_mod_rpc f :
  (forall r, incomingRequests (f r) ⊆ incomingRequests r) ->
  (forall r, incomingReplies (f r) ⊆ incomingReplies r) -> guards (mod_rpc f).
Proof using.
  intros H1' H2' s [] s' [Hs1 Hs2 Hs3] E. run E. split; simpl; [done| |].
  - by apply (said_sub (incomingRequests (rpc s))).
  - by apply (said_sub (incomingReplies (rpc s))).
Qed.
Lemma guards_send m : guards (enc_send m).
Proof using. apply guards_keeps; [apply keeps_enc_send|apply same_crypto_multi_send]. Qed.

#[local] Hint Resolve guards_ret guards_fail guards_gets guards_lift guards_reading_with guards_read_world
  guards_mod_multi guards_send : guards.
Ltac guards_tac :=
  repeat first
    [ progress intros
    | match goal with
      | |- guards (bind _ _) => apply guards_bind
      | |- guards (for_each _ _) => apply guards_for_each
      | |- guards (match ?x with _ => _ end) => destruct x
      | |- guards (mod_rpc _) => apply guards_mod_rpc; intros; [done|done]
      end
    | solve [eauto 3 with guards] ].

(** *** Sending *)
Lemma guards_walk m : guards (walk m). Proof using. apply guards_read_world. Qed.
Lemma guards_stamp : guards stamp. Proof using. apply guards_read_world. Qed.
Lemma guards_rand : guards rand. Proof using. apply guards_read_world. Qed.
Lemma guards_uuid4 : guards uuid4. Proof using. apply guards_read_world. Qed.
Lemma guards_get_rpc : guards get_rpc. Proof using. apply guards_gets. Qed.
Lemma guards_get_crypto : guards get_crypto. Proof using. apply guards_gets. Qed.
Lemma guards_randombytes n : guards (randombytes n). Proof using. apply guards_read_world. Qed.
#[local] Hint Resolve guards_walk guards_stamp guards_rand guards_uuid4 guards_get_rpc guards_get_crypto
  guards_randombytes : guards.
Lemma guards_map_begin m : guards (map_begin m).
Proof using. unfold map_begin. guards_tac. Qed.
Lemma guards_draw m : guards (draw m).
Proof using. unfold draw. guards_tac. Qed.
Lemma guards_getReplyDuration i : guards (clock_getReplyDuration i).
Proof using. unfold clock_getReplyDuration. guards_tac. Qed.
Lemma guards_createRequest i : guards (clock_createRequest i).
Proof using. unfold clock_createRequest. guards_tac. Qed.
Lemma guards_eraseReceiveTime i : guards (clock_eraseRequestRecieveTime i).
Proof using. unfold clock_eraseRequestRecieveTime. guards_tac. Qed.
#[local] Hint Resolve guards_map_begin guards_draw guards_getReplyDuration guards_createRequest
  guards_eraseReceiveTime : guards.
Lemma guards_clock_handleReply i t1 t2 : guards (clock_handleReply i t1 t2).
Proof using.
  unfold clock_handleReply. apply guards_bind; [apply guards_stamp|]. intros now s [] s' [] E.
  destruct (ClockSynchronizer.handleReply _ _ _ _ _ _) as [[c t]|]; [|done]. by run E.
Qed.
Lemma guards_batchRequests n sent w : guards (batchRequests n sent w).
Proof using. revert sent w. induction n; intros; simpl; guards_tac. Qed.
Lemma guards_writeReply i p w : guards (writeReply i p w).
Proof using. unfold writeReply. guards_tac. Qed.
#[local] Hint Resolve guards_clock_handleReply guards_batchRequests guards_writeReply : guards.
Lemma guards_batchReplies n sent w : guards (batchReplies n sent w).
Proof using. revert sent w. induction n; intros; simpl; guards_tac. Qed.
#[local] Hint Resolve guards_batchReplies : guards.
Lemma guards_sendRequest i p b : guards (sendRequest enc_send i p b).
Proof using. unfold sendRequest. guards_tac. Qed.
Lemma guards_sendReply i p b : guards (sendReply enc_send i p b).
Proof using. unfold sendReply. guards_tac. Qed.
Lemma guards_encrypt b : guards (enc_encrypt b).
Proof using. unfold enc_encrypt. guards_tac. Qed.
Lemma guards_readyToReceive : guards readyToReceive.
Proof using. unfold readyToReceive. guards_tac. Qed.
#[local] Hint Resolve guards_sendRequest guards_sendReply guards_encrypt guards_readyToReceive : guards.
Lemma guards_readyToSend : guards readyToSend.
Proof using. unfold readyToSend. guards_tac. Qed.
Lemma guards_resend : guards (resendRandomOutgoingMessage enc_send).
Proof using. unfold resendRandomOutgoingMessage. guards_tac. Qed.
Lemma guards_sendAcknowledge i : guards (enc_sendAcknowledge delay_fuel i).
Proof using. unfold enc_sendAcknowledge. guards_tac. Qed.
Lemma guards_tryToSendBarrier : guards (tryToSendBarrier enc_send).
Proof using. unfold tryToSendBarrier, sendDelayed. guards_tac. Qed.
#[local] Hint Resolve guards_readyToSend guards_resend guards_sendAcknowledge guards_tryToSendBarrier : guards.
Lemma guards_requestWithId x : guards (enc_requestWithId delay_fuel x).
Proof using. unfold enc_requestWithId, requestWithId. guards_tac. Qed.
Lemma guards_reply i q : guards (enc_reply delay_fuel i q).
Proof using.
  unfold enc_reply, reply. guards_tac. apply guards_mod_rpc; intros; [apply delete_subseteq|done].
Qed.
#[local] Hint Resolve guards_requestWithId guards_reply : guards.

(** *** What arrives *)
Lemma guards_addRequest x : Said (ip_payload x) -> guards (addIncomingRequest x).
Proof using.
  intros Hx. unfold addIncomingRequest, clock_receiveRequest. guards_tac.
  intros s [] s' [] E. run E. cbn [rpc sub]. destruct (incomingRequests (rpc s) !! ip_id x); [done|].
  split; simpl; [done| |done]. by apply map_Forall_insert_2.
Qed.
Lemma guards_addReply i q : Said q -> guards (addIncomingReply i q).
Proof using.
  intros Hq. unfold addIncomingReply. intros s [] s' [] E. run E. cbn [rpc sub].
  destruct (incomingReplies (rpc s) !! i); [done|].
  split; simpl; [done|done|]. by apply map_Forall_insert_2.
Qed.
(** A payload that is only what the other side made, when it opens. *)
Definition opens_said (c : string) : Prop := forall p, decrypt c k = Ok (Some p) -> Said p.

Lemma guards_enc_addRequest x :
  opens_said (ip_payload x) -> guards (enc_addIncomingRequest delay_fuel x).
Proof using k_ready.
  intros Hc s [] s' Hs E. unfold enc_addIncomingRequest in E. case_bool_decide.
  - unfold receiveHandshake in E. apply bind_ok in E as (c & s1 & E1 & E). unfold get_crypto in E1. run E1.
    destruct Hs as [Hk Hq Hr]. rewrite Hk, k_ready in E. run E. by split.
  - apply bind_ok in E as (b & s1 & E1 & E). apply guards_readyToReceive in E1; [|done].
    destruct (negb b); [by run E|]. apply bind_ok in E as (c & s2 & E2 & E). unfold get_crypto in E2. run E2.
    apply bind_ok in E as (d & s2 & E2 & E). apply lift_ok in E2 as [E2 ->].
    destruct d as [p|]; [|by run E]. rewrite (se_crypto _ E1) in E2.
    revert E. apply guards_addRequest; [by apply Hc|done].
Qed.
Lemma guards_enc_addReply i c : opens_said c -> guards (enc_addIncomingReply i c).
Proof using.
  intros Hc s [] s' Hs E. unfold enc_addIncomingReply in E.
  apply bind_ok in E as (b & s1 & E1 & E). apply guards_readyToSend in E1; [|done].
  destruct (negb b); [by run E|]. apply bind_ok in E as (d & s2 & E2 & E). unfold get_crypto in E2. run E2.
  apply bind_ok in E as (d & s2 & E2 & E). apply lift_ok in E2 as [E2 ->].
  destruct d as [p|]; [|by run E]. rewrite (se_crypto _ E1) in E2.
  revert E. apply guards_addReply; [by apply Hc|done].
Qed.
Lemma guards_handleRequest i c :
  opens_said c -> guards (do_handleRequest (enc_virtuals delay_fuel) i c).
Proof using k_ready.
  intros Hc. unfold do_handleRequest, handleRequest, shutdown. simpl.
  pose proof (guards_enc_addRequest (mkIdPayload i c) Hc). guards_tac.
Qed.
Lemma guards_handleReply i c t1 t2 :
  opens_said c -> guards (enc_handleReply delay_fuel i c t1 t2).
Proof using.
  intros Hc. unfold enc_handleReply, multi_handleReply, handleReply.
  pose proof (guards_enc_addReply i c Hc). guards_tac.
Qed.

(** *** A datagram *)
Lemma reading_inv {A} (m : M string A) b a b' (s s' : St EncState) :
  reading_with m b s = Ok ((a, b'), s') -> m b = Ok (a, b') /\ s' = s.
Proof using. unfold reading_with. destruct (m b) as [[]|]; intros E; by run E. Qed.

Lemma receiveRequests_secure fuel b s r s' :
  secure s -> genuine Said k b ->
  receiveRequests enc_send (enc_reply delay_fuel) (enc_addIncomingRequest delay_fuel) fuel b s = Ok (r, s') ->
  secure s'.
Proof using k_ready.
  revert b s. induction fuel as [|fuel IH]; intros b s Hs Hb E; [done|]. cbn [receiveRequests] in E.
  destruct (_ =? 0); [by run E|]. apply bind_ok in E as ([i b1] & s1 & E1 & E).
  apply reading_inv in E1 as [E1 ->]. eapply genuine_RpcId in E1; [|exact Hb].
  apply bind_ok in E as ([c b2] & s1 & E2 & E). apply reading_inv in E2 as [E2 ->].
  eapply genuine_string in E2 as [Hb2 Hc]; [|exact E1]. cbn [negb validatePacket] in E.
  apply bind_ok in E as ([] & s1 & E3 & E).
  apply (guards_handleRequest i c Hc) in E3; [|done]. by eapply IH.
Qed.
Lemma receiveReplies_secure fuel b s r s' :
  secure s -> genuine Said k b -> receiveReplies (enc_handleReply delay_fuel) fuel b s = Ok (r, s') ->
  secure s'.
Proof using.
  revert b s. induction fuel as [|fuel IH]; intros b s Hs Hb E; [done|]. cbn [receiveReplies] in E.
  destruct (_ =? 0); [by run E|]. apply bind_ok in E as ([i b1] & s1 & E1 & E).
  apply reading_inv in E1 as [E1 ->]. eapply genuine_RpcId in E1; [|exact Hb].
  apply bind_ok in E as ([t1 b2] & s1 & E2 & E). apply reading_inv in E2 as [E2 ->].
  eapply genuine_i64 in E2; [|exact E1].
  apply bind_ok in E as ([t2 b3] & s1 & E3 & E). apply reading_inv in E3 as [E3 ->].
  eapply genuine_i64 in E3; [|exact E2].
  apply bind_ok in E as ([c b4] & s1 & E4 & E). apply reading_inv in E4 as [E4 ->].
  eapply genuine_string in E4 as [Hb4 Hc]; [|exact E3]. cbn [negb validatePacket] in E.
  apply bind_ok in E as ([] & s1 & E5 & E).
  apply (guards_handleReply i c t1 t2 Hc) in E5; [|done]. by eapply IH.
Qed.
Lemma receive_secure m s r s' :
  secure s -> genuine Said k m -> do_receive (enc_virtuals delay_fuel) m s = Ok (r, s') -> secure s'.
Proof using k_ready.
  intros Hs Hm E. unfold do_receive, receive in E. apply bind_ok in E as ([h b] & s1 & E1 & E).
  apply reading_inv in E1 as [E1 ->]. eapply genuine_u8 in E1; [|exact Hm].
  apply bind_ok in E as (q & s1 & E2 & E). run E2. apply bind_ok in E as (flake & s1 & E2 & E).
  assert (secure s1) as Hs1.
  { destruct (flaky (rpc s)); [|by run E2]. apply bind_ok in E2 as (n & s2 & E2 & E3). run E3.
    by apply guards_rand in E2. }
  destruct flake; [by run E|]. destruct (h =? REQUEST); [by eapply receiveRequests_secure|].
  destruct (h =? REPLY); [by eapply receiveReplies_secure|]. destruct (h =? ACKNOWLEDGE); [|done].
  revert E. enough (guards (let! (i, buffer) := reading_with readClass_RpcId b in
    let! (payload, _) := reading_with readPrimitive_string buffer in
    if negb (validatePacket i payload) then ret false else handleAcknowledge i ;;; ret true)) as Hg
    by (by apply Hg).
  unfold handleAcknowledge. guards_tac.
Qed.

(** The handler once the key of the other side is known, with anything its application and
    its process call and any datagram that arrives; the rest of the process may change the
    world and the other fields of the object, not the key. *)
Inductive session : St EncState -> Prop :=
  | session_start s :
      crypto (sub s) = k -> incomingRequests (rpc s) = ∅ -> incomingReplies (rpc s) = ∅ -> session s
  | session_call c s s' :
      session s -> (forall m, c = CallReceive m -> genuine Said k m) ->
      run_call (enc_virtuals delay_fuel) c s = Ok (tt, s') -> session s'
  | session_requestWithId x s s' :
      session s -> enc_requestWithId delay_fuel x s = Ok (tt, s') -> session s'
  | session_other s e w : session s -> crypto e = k -> session (mkSt (rpc s) e w).

Lemma guards_quiet c : (forall m, c <> CallReceive m) -> guards (run_call (enc_virtuals delay_fuel) c).
Proof using.
  intros Hc. destruct c as [p|p|i q|i| | | | | |m| |i|b]; [..|by destruct (Hc m)| | |]; simpl;
    unfold request, do_requestOneWay, replyOneWay, barrier_, shutdown, sendShutdown,
      heartbeat, getFirstIncomingReply, consumeIncomingReplyWithId, setFlaky, requestOneWay; guards_tac.
  all: apply guards_mod_rpc; intros; [done|apply delete_subseteq].
Qed.
Lemma run_call_secure c s s' :
  secure s -> (forall m, c = CallReceive m -> genuine Said k m) ->
  run_call (enc_virtuals delay_fuel) c s = Ok (tt, s') -> secure s'.
Proof using k_ready.
  intros Hs Hm E. assert ((exists m, c = CallReceive m) \/ ~ exists m, c = CallReceive m) as [[m ->]|Hc]
    by (destruct c; (right; intros [? [=]]; fail) || (left; by eexists)).
  - simpl in E. apply bind_ok in E as (r & s1 & E1 & E). run E.
    eapply receive_secure; [exact Hs| |exact E1]. by apply Hm.
  - eapply guards_quiet; [|exact Hs|exact E]. intros m ->. apply Hc. by exists m.
Qed.

(** C8: The application of an encrypted handler finds nothing but what the other side
    encrypted.  Once the other side's session key is known, whatever datagrams arrive from
    anybody, forged, torn, repeated or recombined, and whatever the process calls: as long
    as nobody else can make a ciphertext that opens under the key, every request and every
    reply that waits for the application is a payload of the other side. *)
Theorem only_said_found s :
  session s ->
  (forall i p, incomingRequests (rpc s) !! i = Some p -> Said p) /\
  (forall i p, incomingReplies (rpc s) !! i = Some p -> Said p).
Proof using k_ready.
  intros Hs. assert (secure s) as [_ Hq Hr]; [|by split; intros i p Hp; [apply (Hq i)|apply (Hr i)]].
  induction Hs as [s Hk E1 E2|c s s' _ IH Hm E|x s s' _ IH E|s e w _ [] He].
  - split; [done| |]; rewrite ?E1, ?E2; apply map_Forall_empty.
  - by eapply run_call_secure.
  - by eapply guards_requestWithId.
  - by split.
Qed.
End Authenticity.

(** ** A forged request, then a real one *)
#[local] Instance frozen : Oracle := frozen_Oracle 110.
#[local] Instance frozen_laws : OracleLaws := frozen_OracleLaws 110.

(** All the strings of a datagram. *)
Fixpoint strings_in (fuel : nat) (b : string) : list string :=
  match fuel with
  | O => []
  | S fuel' =>
      match mp_next b with
      | Some (MStr c, rest) => c :: strings_in fuel' rest
      | Some (_, rest) => strings_in fuel' rest
      | None => []
      end
  end.
Lemma reads_strings_in b c fuel : reads b c -> (String.length b < fuel)%nat -> c ∈ strings_in fuel b.
Proof.
  intros Hr. revert fuel. induction Hr as [b c rest E|b o rest c E Hr IH]; intros [|fuel] Hf; try lia;
    cbn [strings_in]; rewrite E; [left|]. apply mp_next_shrinks in E.
  destruct o; [apply IH; lia|right; apply IH; lia|apply IH; lia].
Qed.
Lemma genuine_check q k b :
  forallb (fun c => match decrypt c k with Ok (Some p) => String.eqb p q | _ => true end)
    (strings_in (S (String.length b)) b) = true -> genuine (fun p => p = q) k b.
Proof.
  intros Hall c p Hr Hp. rewrite forallb_forall in Hall.
  specialize (Hall c (proj1 (list_elem_of_In _ _) (reads_strings_in b c (S (String.length b)) Hr ltac:(lia)))).
  rewrite Hp in Hall. by apply String.eqb_eq.
Qed.

Definition forged : string := request_packet [(id7, nonce1 +:+ "this is not a secretbox")].
Definition real : string := request_packet [(id8, sealed)].

Lemma only_said_found_witness :
  exists s, session 1 (fun p => p = "hello") crypto0 s /\
    incomingRequests (rpc s) !! id7 = None /\ incomingRequests (rpc s) !! id8 = Some "hello" /\
    (forall i p, incomingRequests (rpc s) !! i = Some p -> p = "hello").
Proof.
  destruct (run_call (enc_virtuals 1) (CallReceive forged) enc0) as [[[] s1]|] eqn:E1;
    [|vm_compute in E1; discriminate E1].
  destruct (run_call (enc_virtuals 1) (CallReceive real) s1) as [[[] s2]|] eqn:E2;
    [|vm_compute in E1; injection E1 as <-; vm_compute in E2; discriminate E2].
  assert (session 1 (fun p => p = "hello") crypto0 s2) as Hs.
  { assert (session 1 (fun p => p = "hello") crypto0 enc0) as H0 by (apply session_start; reflexivity).
    assert (session 1 (fun p => p = "hello") crypto0 s1) as H1.
    { eapply session_call; [exact H0| |exact E1]. intros m [= <-]. apply genuine_check. vm_compute. reflexivity. }
    eapply session_call; [exact H1| |exact E2]. intros m [= <-]. apply genuine_check. vm_compute. reflexivity. }
  exists s2. split; [exact Hs|].
  assert (incomingRequests (rpc s2) !! id7 = None /\ incomingRequests (rpc s2) !! id8 = Some "hello")
    as [H7 H8].
  { clear Hs. vm_compute in E1. injection E1 as <-. vm_compute in E2. injection E2 as <-. by split. }
  split; [exact H7|]. split; [exact H8|].
  apply (only_said_found 1 (fun p => p = "hello") crypto0 eq_refl s2 Hs).
Defined.
