(* ===== verification/CStr.v ===== *)
(** * CStr

    What the C sources use of the C library's strings, on the little-endian
    LP64 machines the program targets.  A [char *] that points to a string is the
    [string] of its bytes before the terminating NUL; a buffer with a length is
    the [string] of all its bytes. *)
From S2P Require Import Prelude.

Definition NUL : ascii := Ascii.zero.
Definition chr (n : N) : ascii := ascii_of_N n.
Definition TAB : ascii := chr 9.
Definition LF : ascii := chr 10.
Definition CR : ascii := chr 13.
Definition SP : ascii := chr 32.

(** The string a [char] array holds once [s] and a NUL are stored in it. *)
Fixpoint c_str (s : string) : string :=
  match s with
  | EmptyString => EmptyString
  | String c s' => if Ascii.eqb c NUL then EmptyString else String c (c_str s')
  end.

(** [s[i]] for a string: the terminator is a readable character, nothing after
    it is. *)
Definition c_at (s : string) (i : Z) : outcome ascii :=
  if (i <? 0) || (slen s <? i) then Err Undefined
  else Ok (default NUL (String.get (Z.to_nat i) s)).

(** [l] bytes from offset [o] of a buffer. *)
Definition substr (o l : Z) (s : string) : string :=
  str_take (Z.to_nat l) (str_drop (Z.to_nat o) s).

Fixpoint starts_with (p s : string) : bool :=
  match p, s with
  | EmptyString, _ => true
  | String a p', String b s' => Ascii.eqb a b && starts_with p' s'
  | _, _ => false
  end.

(** [strchr(s + i, c) - s]. *)
Fixpoint index_of (c : ascii) (s : string) : option nat :=
  match s with
  | EmptyString => None
  | String a s' => if Ascii.eqb a c then Some O else option_map S (index_of c s')
  end.
Definition strchr_from (s : string) (i : Z) (c : ascii) : option Z :=
  match index_of c (str_drop (Z.to_nat i) s) with
  | Some n => Some (i + Z.of_nat n)
  | None => None
  end.
(** [strstr(s, p) - s]. *)
Fixpoint index_str (p s : string) : option nat :=
  if starts_with p s then Some O
  else match s with
       | EmptyString => None
       | String _ s' => option_map S (index_str p s')
       end.
Definition strstr (s p : string) : option Z := option_map Z.of_nat (index_str p s).

(** [strncpy(dst, s, n); dst[n - 1] = 0] *)
Definition strncpy_term (n : Z) (s : string) : string := str_take (Z.to_nat (n - 1)) s.

Definition is_digit (c : ascii) : bool :=
  (48 <=? byte_of_ascii c) && (byte_of_ascii c <=? 57).
Definition digit_value (c : ascii) : Z := byte_of_ascii c - 48.
Definition is_space (c : ascii) : bool :=
  (byte_of_ascii c =? 32) || ((9 <=? byte_of_ascii c) && (byte_of_ascii c <=? 13)).
Definition to_lower (c : ascii) : ascii :=
  if (65 <=? byte_of_ascii c) && (byte_of_ascii c <=? 90)
  then ascii_of_byte (byte_of_ascii c + 32) else c.
Definition is_xdigit (c : ascii) : bool :=
  is_digit c || ((97 <=? byte_of_ascii (to_lower c)) && (byte_of_ascii (to_lower c) <=? 102)).

(** [strncasecmp(a, b, n) == 0] *)
Fixpoint strncasecmp_eq (n : nat) (a b : string) : bool :=
  match n with
  | O => true
  | S n' =>
      match a, b with
      | String x a', String y b' =>
          Ascii.eqb (to_lower x) (to_lower y) &&
          (Ascii.eqb x NUL || strncasecmp_eq n' a' b')
      | String x _, EmptyString | EmptyString, String x _ => Ascii.eqb x NUL
      | EmptyString, EmptyString => true
      end
  end.

Fixpoint skip_space (s : string) : string :=
  match s with
  | String c s' => if is_space c then skip_space s' else s
  | EmptyString => EmptyString
  end.
(** The digits at the beginning of [s] in base [b], onto [acc]; [None] without
    any. *)
Definition digit_in (b : Z) (c : ascii) : option Z :=
  let v := if is_digit c then digit_value c
           else let l := byte_of_ascii (to_lower c) in
                if (97 <=? l) && (l <=? 122) then l - 97 + 10 else 36 in
  if v <? b then Some v else None.
Fixpoint digits (b : Z) (s : string) (acc : Z) : Z :=
  match s with
  | String c s' => match digit_in b c with Some v => digits b s' (acc * b + v) | None => acc end
  | EmptyString => acc
  end.
Definition has_digit (b : Z) (s : string) : bool :=
  match s with String c _ => bool_decide (is_Some (digit_in b c)) | EmptyString => false end.
(** Sign, then the rest. *)
Definition signed (s : string) : bool * string :=
  match s with
  | String c s' =>
      if Ascii.eqb c "-" then (true, s') else if Ascii.eqb c "+" then (false, s') else (false, s)
  | EmptyString => (false, s)
  end.

(** [strtol(s, NULL, 10)]: the value, and whether there was a number. *)
Definition clamp (lo hi z : Z) : Z := Z.max lo (Z.min hi z).
Definition strtol (s : string) : option Z :=
  let (neg, t) := signed (skip_space s) in
  if has_digit 10 t
  then Some (clamp (- 2 ^ 63) (2 ^ 63 - 1) (if neg then - digits 10 t 0 else digits 10 t 0))
  else None.
Definition atoi (s : string) : Z := wrap_s 32 (default 0 (strtol s)).
(** [sscanf(s, "%d", &r)]: [None] leaves [r] as it was. *)
Definition scan_d (s : string) : option Z := wrap_s 32 <$> strtol s.

(** [strtoull(s, NULL, base)], which accepts a sign. *)
Definition strtoull (base : Z) (s : string) : Z :=
  let (neg, t) := signed (skip_space s) in
  let hex := starts_with "0x" t || starts_with "0X" t in
  let hex := hex && has_digit 16 (str_drop 2 t) in
  let '(b, u) :=
    if ((base =? 0) || (base =? 16)) && hex then (16, str_drop 2 t)
    else if (base =? 0) && starts_with "0" t then (8, t)
    else if base =? 0 then (10, t) else (base, t) in
  let v := digits b u 0 in
  if 2 ^ 64 <=? v then 2 ^ 64 - 1 else if neg then wrap_u 64 (- v) else v.
(** [sscanf(s, "%u", &r)] *)
Definition scan_u (s : string) : option Z :=
  let (neg, t) := signed (skip_space s) in
  if has_digit 10 t then Some (wrap_u 32 (strtoull 10 s)) else None.

(** ["%d"] and ["%u"] of a value *)
Fixpoint dec_digits (fuel : nat) (z : Z) : string :=
  match fuel with
  | O => EmptyString
  | S fuel' =>
      let d := String (ascii_of_byte (48 + z mod 10)) EmptyString in
      if z <? 10 then d else dec_digits fuel' (z / 10) +:+ d
  end.
Definition dec (z : Z) : string :=
  if z <? 0 then String "-" (dec_digits 20 (- z)) else dec_digits 20 z.
(** Hexadecimal, lower case. *)
Definition hex_char (z : Z) : ascii := ascii_of_byte (if z <? 10 then 48 + z else 87 + z).
Fixpoint hex_digits (fuel : nat) (z : Z) : string :=
  match fuel with
  | O => EmptyString
  | S fuel' =>
      let d := String (hex_char (z mod 16)) EmptyString in
      if z <? 16 then d else hex_digits fuel' (z / 16) +:+ d
  end.
Definition hex (z : Z) : string := hex_digits 16 z.

Fixpoint join (l : list string) : string :=
  match l with [] => EmptyString | s :: l' => s +:+ join l' end.

(** ** Parts of a string *)
Lemma str_take_drop n s : str_take n s +:+ str_drop n s = s.
Proof.
  revert s. induction n as [|n IH]; intros [|c s]; try done. simpl.
  change (String c (str_take n s) +:+ ?x) with (String c (str_take n s +:+ x)). by rewrite IH.
Qed.
Lemma str_take_all n s : (String.length s <= n)%nat -> str_take n s = s.
Proof.
  revert s. induction n as [|n IH]; intros [|c s] Hl; simpl in *; try done; [lia|].
  f_equal. apply IH. lia.
Qed.

(** ** Numbers written and read back *)
Fixpoint digits_only (s : string) : bool :=
  match s with EmptyString => true | String c s' => is_digit c && digits_only s' end.
Definition digit_char (d : Z) : ascii := ascii_of_byte (48 + d).
Lemma digit_char_spec d : 0 <= d < 10 ->
  is_digit (digit_char d) = true /\ digit_in 10 (digit_char d) = Some d.
Proof.
  intros Hd. unfold digit_in, is_digit, digit_value, digit_char.
  rewrite byte_of_ascii_of_byte by (unfold is_byte; lia).
  replace ((48 <=? 48 + d) && (48 + d <=? 57)) with true by lia.
  replace (48 + d - 48) with d by lia. by destruct (Z.ltb_spec d 10); [|lia].
Qed.
Lemma digits_app s d acc :
  0 <= d < 10 -> digits_only s = true ->
  digits 10 (s +:+ String (digit_char d) "") acc = digits 10 s acc * 10 + d.
Proof.
  intros Hd. revert acc. induction s as [|c s IH]; intros acc Hs.
  - change ("" +:+ ?x) with x. simpl. by rewrite (proj2 (digit_char_spec d Hd)).
  - change (String c s +:+ ?x) with (String c (s +:+ x)). simpl in *. apply andb_prop in Hs as [Hc Hs].
    assert (exists v, digit_in 10 c = Some v) as [v ->].
    { unfold digit_in. rewrite Hc. unfold is_digit, digit_value in *.
      destruct (Z.ltb_spec (byte_of_ascii c - 48) 10); [by eexists|lia]. }
    by apply IH.
Qed.
Lemma dec_digits_spec fuel z :
  0 <= z < 10 ^ Z.of_nat fuel -> (0 < fuel)%nat ->
  digits_only (dec_digits fuel z) = true /\ dec_digits fuel z <> "" /\ digits 10 (dec_digits fuel z) 0 = z.
Proof.
  revert z. induction fuel as [|fuel IH]; intros z Hz Hf; [lia|]. cbn [dec_digits].
  pose proof (Z.mod_pos_bound z 10 ltac:(lia)) as Hm. fold (digit_char (z mod 10)).
  pose proof (digit_char_spec _ Hm) as [Hd Hv]. destruct (Z.ltb_spec z 10).
  - simpl. rewrite Hd, Hv. rewrite Z.mod_small by lia. done.
  - rewrite Nat2Z.inj_succ, Z.pow_succ_r in Hz by lia.
    assert (0 < fuel)%nat as Hf' by (destruct fuel; [simpl in Hz; lia|lia]).
    destruct (IH (z / 10)) as (H1 & H2 & H3);
      [split; [apply Z.div_pos; lia|apply Z.div_lt_upper_bound; lia]|done|].
    split; [|split].
    + clear -H1 Hd. induction (dec_digits fuel (z / 10)) as [|c s IH]; [simpl; by rewrite Hd|].
      simpl in *. apply andb_prop in H1 as [-> H1]. by apply IH.
    + by destruct (dec_digits fuel (z / 10)).
    + rewrite digits_app, H3 by done. pose proof (Z.div_mod z 10). lia.
Qed.
Lemma is_digit_first c : is_digit c = true ->
  is_space c = false /\ Ascii.eqb c "-" = false /\ Ascii.eqb c "+" = false.
Proof.
  unfold is_digit, is_space. intros H. split; [lia|].
  split; apply Ascii.eqb_neq; intros ->; vm_compute in H; discriminate.
Qed.
Lemma strtol_dec z : 0 <= z < 2 ^ 63 -> strtol (dec z) = Some z.
Proof.
  intros Hz. unfold dec. destruct (Z.ltb_spec z 0); [lia|].
  destruct (dec_digits_spec 20 z) as (H1 & H2 & H3); [simpl; lia|lia|].
  destruct (dec_digits 20 z) as [|c s]; [done|]. pose proof H1 as [Hc _]%andb_prop.
  unfold strtol. destruct (is_digit_first c Hc) as (Es & Em & Ep).
  cbn [skip_space]. rewrite Es. cbn [signed]. rewrite Em, Ep.
  assert (has_digit 10 (String c s) = true) as ->.
  { unfold has_digit, digit_in. rewrite Hc. unfold is_digit, digit_value in *.
    destruct (Z.ltb_spec (byte_of_ascii c - 48) 10); [done|lia]. }
  rewrite H3. unfold clamp. f_equal. lia.
Qed.
Lemma atoi_dec z : 0 <= z < 2 ^ 31 -> atoi (dec z) = z.
Proof.
  intros Hz. unfold atoi. rewrite strtol_dec by lia. simpl. apply wrap_s_id; [lia|]. unfold in_s. simpl. lia.
Qed.
