(* ===== verification/Headers.v ===== *)
(** * Headers

    The helpers of src/peer/src/base/Headers.hpp that reach outside the program or copy
    memory: the output of a shell command, the array made of a container and the sleep.
    The string functions of the header are in Json. *)
From S2P Require Import Prelude.
From S2P Require Import CStr.

(** [fgets(buf, size, f)] on the rest of a stream: what it stores, what is left, and whether
    it met the end; [None] for a null pointer. *)
Definition fgets (size : nat) (rest : string) : option string * string * bool :=
  match rest with
  | EmptyString => (None, EmptyString, true)
  | _ =>
      let n := match index_of LF rest with
               | Some i => Nat.min (size - 1) (S i)
               | None => size - 1
               end%nat in
      (Some (str_take n rest), str_drop n rest,
       bool_decide (index_of LF rest = None) && (String.length rest <? size - 1)%nat)
  end.

(** The loop of [SystemToStr]: while the end was not met, what was read is appended as a C
    string. *)
Fixpoint read_all (fuel : nat) (rest result : string) : outcome string :=
  match fuel with
  | O => Err Undefined
  | S fuel' =>
      let '(chunk, rest, eof) := fgets 128 rest in
      let result := match chunk with Some b => result +:+ c_str b | None => result end in
      if (eof : bool) then Ok result else read_all fuel' rest result
  end.
(** [popen] gives the command's whole output, or nothing when it fails. *)
Definition SystemToStr (popen : string -> option string) (cmd : string) : outcome string :=
  match popen cmd with
  | None => Err RuntimeError
  | Some out => read_all (S (S (String.length out))) out ""
  end.

(** [stringToArray<T, N>]; the [assert] ends the process. *)
Definition stringToArray {T : Type} (N : nat) (v : list T) : outcome (list T) :=
  if (length v =? N)%nat then Ok v else Err LogFatal.

(** [microsleep] is given to the clock of the system; a negative time is none. *)
Definition microsleep {S : Type} (sleep : Z -> S -> S) (usec : Z) : M S unit :=
  modify (sleep (Z.max 0 usec)).

Lemma length_str_drop_eq n s : String.length (str_drop n s) = (String.length s - n)%nat.
Proof. revert s. induction n as [|n IH]; intros [|c s]; simpl; done. Qed.
Lemma no_nul_c_str s : index_of NUL s = None -> c_str s = s.
Proof.
  induction s as [|c s IH]; simpl; [done|]. destruct (Ascii.eqb c NUL); [done|].
  destruct (index_of NUL s); [done|]. intros _. by rewrite IH.
Qed.
Lemma no_nul_app s t :
  index_of NUL (s +:+ t) = None -> index_of NUL s = None /\ index_of NUL t = None.
Proof.
  induction s as [|c s IH]; [done|]. change (String c s +:+ t) with (String c (s +:+ t)). simpl.
  destruct (Ascii.eqb c NUL); [done|]. destruct (index_of NUL (s +:+ t)); [done|].
  intros _. destruct IH as [-> ->]; done.
Qed.

(** Every turn but the last takes a byte. *)
Lemma read_all_text fuel rest result :
  (String.length rest + 1 < fuel)%nat -> index_of NUL rest = None ->
  read_all fuel rest result = Ok (result +:+ rest).
Proof.
  revert rest result. induction fuel as [|fuel IH]; intros rest result Hf Hn; [lia|]. cbn [read_all].
  destruct rest as [|c rest]; [by rewrite str_app_nil_r|]. cbn [fgets].
  set (s := String c rest) in *. set (n := match index_of LF s with Some i => _ | None => _ end).
  assert (0 < n)%nat as Hpos by (unfold n; destruct (index_of LF s); lia).
  rewrite <- (str_take_drop n s) in Hn. apply no_nul_app in Hn as [Ht Hd].
  rewrite (no_nul_c_str (str_take n s)) by done.
  destruct (bool_decide _ && _) eqn:E.
  - apply andb_prop in E as [E1%bool_decide_eq_true_1 E2%Nat.ltb_lt].
    unfold n. rewrite E1. by rewrite str_take_all by (simpl in *; lia).
  - rewrite IH; [by rewrite str_app_assoc, str_take_drop| |done].
    rewrite length_str_drop_eq. unfold s in *. simpl in *. lia.
Qed.

(** The output of a command without zero bytes comes back whole, however its lines are
    cut into pieces of 127 bytes. *)
Theorem system_output popen cmd out :
  popen cmd = Some out -> index_of NUL out = None -> SystemToStr popen cmd = Ok out.
Proof. intros E Hn. unfold SystemToStr. rewrite E. by apply read_all_text; [lia|]. Qed.
(** A zero byte hides the rest of its piece. *)
Example zero_byte_truncates :
  SystemToStr (fun _ => Some ("ab" +:+ String NUL ("cd" +:+ String LF "ef"))) "x" = Ok "abef".
Proof. reflexivity. Qed.
