(* ===== verification/CSys.v ===== *)
(** * CSys

    The operating system as the C sources use it: every call goes to an
    interface that answers it, and is recorded with its answer.  [errno] is what
    the last failing call left. *)
From S2P Require Import Prelude.

(** The calls, with the arguments that matter.  An address is the text
    [getnameinfo] would give for it. *)
Inductive call : Type :=
  | Malloc (size : Z)
  | Socket (family : Z)
  | Close (fd : Z)
  | FcntlGetfl (fd : Z)
  | FcntlSetfl (fd flags : Z)
  | Setsockopt (fd : Z) (name : string)
  | GetSockoptError (fd : Z)
  | Connect (fd : Z) (addr : string) (port scope_id : Z)
  | Select (fd sec : Z)
  | SelectTimeout (fd sec usec : Z)
  | Time
  | Poll (fd timeout : Z)
  | Send (fd : Z) (data : string)
  | Recv (fd length : Z)
  | Getsockname (fd : Z)
  | Getnameinfo (addr : string) (length : Z)
  | Getaddrinfo (host service : string)
  | Gettimeofday
  | ReadFile (path : string)
  | IfNametoindex (name : string)
  | IfIndextoname (index : Z)
  | Bind (fd port : Z) (addr : string)
  | Sendto (fd : Z) (data addr : string)
  | InetAddr (text : string).

(** What a call returns: its value, [errno] when it fails, the bytes it stores
    (with the address they came from and the scope of that address), two numbers
    (seconds and microseconds of a time, for [SelectTimeout] of what is left of the
    timeout), a list of addresses with their families. *)
Record Answer : Type := mkAnswer {
  a_ret : Z;
  a_errno : Z;
  a_data : string;
  a_from : Z;
  a_num1 : Z;
  a_num2 : Z;
  a_list : list (Z * string)
}.
Definition answer0 : Answer := mkAnswer 0 0 "" 0 0 0 [].
Definition failed : Answer := mkAnswer (-1) 0 "" 0 0 0 [].

(** The environment answers from what happened before. *)
Class Os : Type := os : list (call * Answer) -> call -> Answer.

Record Sys : Type := mkSys { trace : list (call * Answer); errno : Z }.
Definition sys0 : Sys := mkSys [] 0.

Definition sys `{Os} (c : call) : M Sys Answer := fun s =>
  let a := os (trace s) c in
  Ok (a, mkSys (trace s ++ [(c, a)]) (if a_ret a <? 0 then a_errno a else errno s)).
Lemma sys_ok `{Os} c st a st' : sys c st = Ok (a, st') ->
  a = os (trace st) c /\ trace st' = trace st ++ [(c, a)].
Proof. unfold sys. by intros [= <- <-]. Qed.
Definition get_errno : M Sys Z := gets errno.
Definition set_errno (e : Z) : M Sys unit := modify (fun s => mkSys (trace s) e).
Definition lift_out {S A} (o : outcome A) : M S A := fun s =>
  match o with Ok a => Ok (a, s) | Err f => Err f end.

(** Whether an allocation succeeds. *)
Definition malloc `{Os} (size : Z) : M Sys bool :=
  let! a := sys (Malloc size) in ret (negb (a_ret a =? 0)).

(** Run a computation on one component of a pair. *)
Definition on_fst {S T A} (m : M S A) : M (S * T) A := fun st =>
  match m st.1 with Ok (a, s') => Ok (a, (s', st.2)) | Err f => Err f end.
Definition on_snd {S T A} (m : M T A) : M (S * T) A := fun st =>
  match m st.2 with Ok (a, t') => Ok (a, (st.1, t')) | Err f => Err f end.

Definition EINTR : Z := 4.
Definition EWOULDBLOCK : Z := 11.
Definition ECONNREFUSED : Z := 111.
Definition EINPROGRESS : Z := 115.
Definition ETIMEDOUT : Z := 110.

(** Descriptors opened and not closed. *)
Fixpoint open_after (t : list (call * Answer)) (l : list Z) : list Z :=
  match t with
  | [] => l
  | (Socket _, a) :: t' => open_after t' (if a_ret a <? 0 then l else a_ret a :: l)
  | (Close fd, _) :: t' => open_after t' (filter (fun x => x <> fd) l)
  | _ :: t' => open_after t' l
  end.

(** Documented behaviour: [recv] stores no more than it was given room for, and
    as much as it says; [send] takes no more than it was given. *)
Class OsLaws `{Os} : Prop := {
  recv_length : forall t fd len, let a := os t (Recv fd len) in
    0 <= a_ret a -> a_ret a = slen (a_data a) /\ a_ret a <= len;
  send_length : forall t fd data, a_ret (os t (Send fd data)) <= slen data
}.

(** ** Memory

    A block of memory is the string of its bytes.  Fresh memory holds what the
    environment left there. *)
Fixpoint zeros (n : nat) : string :=
  match n with O => EmptyString | S n' => String Ascii.zero (zeros n') end.
Definition fit (n : nat) (s : string) : string :=
  str_take n (s +:+ zeros n).

Definition alloc `{Os} (size : Z) : M Sys (option string) :=
  let! a := sys (Malloc size) in
  ret (if a_ret a =? 0 then None else Some (fit (Z.to_nat size) (a_data a))).
(** The old bytes stay, as many as fit. *)
Definition realloc `{Os} (old : string) (size : Z) : M Sys (option string) :=
  let! m := alloc size in
  ret (match m with
       | None => None
       | Some m => Some (str_take (Z.to_nat size) (old +:+ str_drop (String.length old) m))
       end).
(** [memcpy(m + off, s, strlen(s))] *)
Definition overwrite (off : Z) (s m : string) : outcome string :=
  if (off <? 0) || (slen m <? off + slen s) then Err Undefined
  else Ok (str_take (Z.to_nat off) m +:+ s +:+ str_drop (Z.to_nat off + String.length s) m).

(** Bounds the turns of loops that only the environment can end. *)
Class Patience : Type := patience : nat.
