(* ===== verification/MiniXml.v ===== *)
(** * MiniXml

    [parsexml] (src/peer/external/miniupnpc-2.1.20190408/minixml.c): the little
    XML parser that reads the descriptions and replies of a gateway.

    A [const char *] into the buffer is the rest of the buffer from there on, as
    far as the memory behind the buffer is readable; [xmlend] is the number of
    readable bytes from the end of the document on.  Reading past the readable
    memory is [Undefined]. *)
From S2P Require Import Prelude.
From S2P Require Import CStr.

Definition IS_WHITE_SPACE (c : ascii) : bool :=
  Ascii.eqb c SP || Ascii.eqb c TAB || Ascii.eqb c CR || Ascii.eqb c LF.

Definition rd (p : string) : outcome ascii :=
  match p with String c _ => Ok c | EmptyString => Err Undefined end.
Definition inc (p : string) : string := str_drop 1 p.
(** [p + k >= p->xmlend] *)
Definition past (xmlend k : nat) (p : string) : bool := (String.length p <=? xmlend + k)%nat.

Section Parser.
Context {S : Type}.

(** The callbacks; a null pointer is [None].  A name or value is the bytes
    between the pointer and the length the code passes. *)
Record xmlparser : Type := mkParser {
  starteltfunc : option (string -> M S unit);
  endeltfunc : option (string -> M S unit);
  datafunc : option (string -> M S unit);
  attfunc : option (string -> string -> M S unit)
}.

Definition call1 (f : option (string -> M S unit)) (a : string) : M S unit :=
  match f with Some g => g a | None => ret tt end.
Definition call2 (f : option (string -> string -> M S unit)) (a b : string) : M S unit :=
  match f with Some g => g a b | None => ret tt end.
Definition of_outcome {A} (o : outcome A) : M S A := fun s =>
  match o with Ok a => Ok (a, s) | Err f => Err f end.

(** [while(c( *p->xml)) { n++; p->xml++; if(p->xml + k >= p->xmlend) return; }]:
    [None] when the function returns, else the number of turns and the pointer. *)
Fixpoint skip_while (fuel : nat) (xmlend k : nat) (c : ascii -> bool) (n : nat) (p : string) :
    outcome (option (nat * string)) :=
  match fuel with
  | O => Err Undefined
  | Datatypes.S fuel' =>
      let? x := rd p in
      if negb (c x) then Ok (Some (n, p))
      else if past xmlend k (inc p) then Ok None
      else skip_while fuel' xmlend k c (Datatypes.S n) (inc p)
  end.

Definition is_quote (c : ascii) : bool := Ascii.eqb c "'" || Ascii.eqb c (Ascii.Ascii false true false false false true false false).

(** The value of an attribute, from the pointer at its separator. *)
Definition attvalue (fuel xmlend : nat) (p : string) : outcome (option (string * string)) :=
  let? sep := rd p in
  if is_quote sep then
    let v := inc p in
    if past xmlend 0 v then Ok None
    else
      let? r := skip_while fuel xmlend 0 (fun x => negb (Ascii.eqb x sep)) 0 v in
      Ok (match r with Some (n, q) => Some (str_take n v, q) | None => None end)
  else
    let? r := skip_while fuel xmlend 0
      (fun x => negb (IS_WHITE_SPACE x) && negb (Ascii.eqb x ">") && negb (Ascii.eqb x "/")) 0 p in
    Ok (match r with Some (n, q) => Some (str_take n p, q) | None => None end).

(** One attribute, from the pointer at its name: name, value and the pointer
    behind it. *)
Definition attribute (fuel xmlend : nat) (p : string) :
    outcome (option (string * string * string)) :=
  let? r := skip_while fuel xmlend 0
    (fun x => negb (Ascii.eqb x "=") && negb (IS_WHITE_SPACE x)) 0 p in
  match r with
  | None => Ok None
  | Some (attnamelen, p1) =>
      let? r := skip_while fuel xmlend 0 (fun x => negb (Ascii.eqb x "=")) 0 p1 in
      match r with
      | None => Ok None
      | Some (_, p2) =>
          let? r := skip_while fuel xmlend 0 IS_WHITE_SPACE 0 (inc p2) in
          match r with
          | None => Ok None
          | Some (_, p3) =>
              let? r := attvalue fuel xmlend p3 in
              Ok (match r with
                  | Some (v, q) => Some (str_take attnamelen p, v, q)
                  | None => None
                  end)
          end
      end
  end.

(** [parseatt]: [Some] the pointer where it returned 0, [None] for -1. *)
Fixpoint parseatt (fuel : nat) (xp : xmlparser) (xmlend : nat) (p : string) :
    M S (option string) :=
  match fuel with
  | O => fail Undefined
  | Datatypes.S fuel' =>
      if past xmlend 0 p then ret None
      else
        let! x := of_outcome (rd p) in
        if Ascii.eqb x "/" || Ascii.eqb x ">" then ret (Some p)
        else if negb (IS_WHITE_SPACE x) then
          let! r := of_outcome (attribute fuel xmlend p) in
          match r with
          | None => ret None
          | Some (name, value, q) =>
              call2 (attfunc xp) name value ;;;
              parseatt fuel' xp xmlend (inc q)
          end
        else parseatt fuel' xp xmlend (inc p)
  end.

(** The name of an element: the number of its bytes, where they begin and the
    pointer behind them.  A colon starts the name afresh. *)
Fixpoint eltname (fuel xmlend : nat) (i : nat) (elementname p : string) :
    outcome (option (nat * string * string)) :=
  match fuel with
  | O => Err Undefined
  | Datatypes.S fuel' =>
      let? x := rd p in
      if IS_WHITE_SPACE x || Ascii.eqb x ">" || Ascii.eqb x "/" then Ok (Some (i, elementname, p))
      else if past xmlend 0 (inc p) then Ok None
      else
        let? y := rd (inc p) in
        if Ascii.eqb y ":" then eltname fuel' xmlend 0 (inc (inc p)) (inc (inc p))
        else eltname fuel' xmlend (Datatypes.S i) elementname (inc p)
  end.

(** [memcmp(p, pat, n) == 0] for the [n] bytes of [pat]: all [n] are read. *)
Definition memcmp_eq (pat p : string) : outcome bool :=
  if (String.length p <? String.length pat)%nat then Err Undefined else Ok (starts_with pat p).

(** [do p->xml++; while(memcmp(p->xml, "-->", 3) != 0)] *)
Fixpoint skip_comment (fuel xmlend : nat) (p : string) : outcome (option string) :=
  match fuel with
  | O => Err Undefined
  | Datatypes.S fuel' =>
      let q := inc p in
      if past xmlend 3 q then Ok None
      else
        let? found := memcmp_eq "-->" q in
        if found then Ok (Some (str_drop 3 q)) else skip_comment fuel' xmlend q
  end.
(** [while(memcmp(p->xml, "]]>", 3) != 0)] *)
Fixpoint skip_cdata (fuel xmlend : nat) (i : nat) (p : string) : outcome (option (nat * string)) :=
  match fuel with
  | O => Err Undefined
  | Datatypes.S fuel' =>
      let? found := memcmp_eq "]]>" p in
      if found then Ok (Some (i, p))
      else if past xmlend 3 (inc p) then Ok None
      else skip_cdata fuel' xmlend (Datatypes.S i) (inc p)
  end.

(** What follows the start tag of an element, from the pointer at its [>]. *)
Definition content (fuel : nat) (xp : xmlparser) (xmlend : nat) (p : string) :
    M S (option string) :=
  let data := inc p in
  if past xmlend 0 data then ret None
  else
    let! r := of_outcome (skip_while fuel xmlend 0 IS_WHITE_SPACE 0 data) in
    match r with
    | None => ret None
    | Some (i, q) =>
        let! cdata := of_outcome
          (if negb (String.length q <? xmlend + (9 + 3))%nat then memcmp_eq "<![CDATA[" q
           else Ok false) in
        if cdata then
          let data := str_drop 9 q in
          let! r := of_outcome (skip_cdata fuel xmlend 0 data) in
          match r with
          | None => ret None
          | Some (i, q) =>
              (if (0 <? i)%nat then call1 (datafunc xp) (str_take i data) else ret tt) ;;;
              let! r := of_outcome (skip_while fuel xmlend 0 (fun x => negb (Ascii.eqb x "<")) 0 q) in
              ret (snd <$> r)
          end
        else
          let! r := of_outcome (skip_while fuel xmlend 1 (fun x => negb (Ascii.eqb x "<")) i q) in
          match r with
          | None => ret None
          | Some (i, q) =>
              (if (0 <? i)%nat && bool_decide (is_Some (datafunc xp)) then
                 let! y := of_outcome (rd (inc q)) in
                 if Ascii.eqb y "/" then call1 (datafunc xp) (str_take i data) else ret tt
               else ret tt) ;;;
              ret (Some q)
          end
    end.

(** One turn of the loop of [parseelt]: the next pointer, or [None] when the
    function returns. *)
Definition parseelt_turn (fuel : nat) (xp : xmlparser) (xmlend : nat) (p : string) :
    M S (option string) :=
  let! x := of_outcome (rd p) in
  let! y := of_outcome (rd (inc p)) in
  let! comment := of_outcome
    (if negb (String.length p <? xmlend + 4)%nat then memcmp_eq "<!--" p else Ok false) in
  if comment then
    of_outcome (skip_comment fuel xmlend (str_drop 3 p))
  else if Ascii.eqb x "<" && negb (Ascii.eqb y "?") then
    let! r := of_outcome (eltname fuel xmlend 0 (inc p) (inc p)) in
    match r with
    | None => ret None
    | Some (i, elementname, q) =>
        let! x := of_outcome (rd q) in
        if (0 <? i)%nat then
          call1 (starteltfunc xp) (str_take i elementname) ;;;
          let! r := parseatt fuel xp xmlend q in
          match r with
          | None => ret None
          | Some q =>
              let! x := of_outcome (rd q) in
              if negb (Ascii.eqb x "/") then content fuel xp xmlend q else ret (Some q)
          end
        else if Ascii.eqb x "/" then
          let elementname := inc q in
          if past xmlend 0 elementname then ret None
          else
            let! r := of_outcome
              (skip_while fuel xmlend 0 (fun x => negb (Ascii.eqb x ">")) 0 elementname) in
            match r with
            | None => ret None
            | Some (i, q) => call1 (endeltfunc xp) (str_take i elementname) ;;; ret (Some (inc q))
            end
        else ret (Some q)
    end
  else ret (Some (inc p)).

Fixpoint parseelt (fuel : nat) (xp : xmlparser) (xmlend : nat) (p : string) : M S unit :=
  match fuel with
  | O => fail Undefined
  | Datatypes.S fuel' =>
      if past xmlend 1 p then ret tt
      else
        let! r := parseelt_turn fuel xp xmlend p in
        match r with
        | None => ret tt
        | Some q => parseelt fuel' xp xmlend q
        end
  end.

(** [parsexml] on the first [xmlsize] bytes at [buffer]; the loops take no more
    turns than the buffer has bytes. *)
Definition parsexml (xp : xmlparser) (buffer : string) (xmlsize : nat) : M S unit :=
  parseelt (Datatypes.S (String.length buffer)) xp (String.length buffer - xmlsize) buffer.
End Parser.
Arguments xmlparser : clear implicits.

(** ** No input makes the parser read outside its buffer *)
Lemma length_inc p : String.length (inc p) = (String.length p - 1)%nat.
Proof. unfold inc. destruct p; simpl; [done|]. destruct p; simpl; lia. Qed.
Lemma length_drop n p : String.length (str_drop n p) = (String.length p - n)%nat.
Proof. revert p. induction n as [|n IH]; intros [|c p]; simpl; try lia. rewrite IH. lia. Qed.
Lemma past_spec e k p : past e k p = true <-> (String.length p <= e + k)%nat.
Proof. apply Nat.leb_le. Qed.
Lemma past_false e k p : past e k p = false <-> (e + k < String.length p)%nat.
Proof. unfold past. rewrite Nat.leb_gt. lia. Qed.
Lemma rd_ok p : (0 < String.length p)%nat -> exists x, rd p = Ok x.
Proof. destruct p; simpl; [lia|]. intros _. by eexists. Qed.

(** Case analysis on the reads and end tests of the goal. *)
Ltac rd_tac :=
  match goal with
  | |- context [rd ?p] =>
      let x := fresh "x" in let E := fresh "E" in
      destruct (rd_ok p) as [x E]; [rewrite ?length_inc, ?length_drop; simpl in *; lia|rewrite E; clear E; simpl]
  end.
Ltac past_tac :=
  match goal with
  | |- context [past ?e ?k ?p] =>
      let E := fresh "Hp" in
      destruct (past e k p) eqn:E;
      [apply past_spec in E|apply past_false in E]; rewrite ?length_inc, ?length_drop in E; cbv iota
  end.

Lemma skip_while_total fuel e k c n p :
  (0 < String.length p)%nat -> (String.length p <= fuel)%nat ->
  exists r, skip_while fuel e k c n p = Ok r /\
    forall m q, r = Some (m, q) ->
      (n = m /\ q = p \/ (n < m)%nat /\ (e + k < String.length q)%nat) /\
      (0 < String.length q <= String.length p)%nat /\
      exists x, rd q = Ok x /\ c x = false.
Proof.
  revert n p. induction fuel as [|fuel IH]; intros n p Hp Hf; [lia|]. simpl.
  destruct (rd_ok p Hp) as [x Ex]. rewrite Ex. simpl. destruct (c x) eqn:Ec; simpl.
  - past_tac; [eexists; split; [done|]; discriminate|].
    destruct (IH (S n) (inc p)) as (r & -> & Hr); try (rewrite length_inc; lia).
    exists r. split; [done|]. intros m q ->. destruct (Hr m q eq_refl) as (H1 & H2 & H3).
    rewrite length_inc in H2. split; [|split; [lia|done]]. right.
    destruct H1 as [[<- ->]|[? ?]]; [rewrite length_inc|]; lia.
  - eexists. split; [done|]. intros m q [= <- <-]. split; [by left|]. split; [lia|]. by exists x.
Qed.

(** Run a [skip_while] of the goal, with what it leaves. *)
Ltac skip_tac :=
  match goal with
  | |- context [skip_while ?f ?e ?k ?c ?n ?p] =>
      let r := fresh "r" in let E := fresh "E" in let H := fresh "Hs" in
      destruct (skip_while_total f e k c n p) as (r & E & H);
      [rewrite ?length_inc, ?length_drop; simpl in *; lia
      |rewrite ?length_inc, ?length_drop; simpl in *; lia|];
      rewrite E; clear E; simpl; destruct r as [[? ?]|]; simpl;
      [specialize (H _ _ eq_refl); destruct H as (? & ? & ?); rewrite ?length_inc, ?length_drop in *|]
  end.

Lemma memcmp_total pat p :
  (String.length pat <= String.length p)%nat -> memcmp_eq pat p = Ok (starts_with pat p).
Proof. intros Hl. unfold memcmp_eq. destruct (Nat.ltb_spec (String.length p) (String.length pat)); [lia|done]. Qed.
Lemma memcmp_if (guard : bool) pat p :
  (guard = true -> String.length pat <= String.length p)%nat ->
  (if guard then memcmp_eq pat p else Ok false) = Ok (guard && starts_with pat p).
Proof. destruct guard; [|done]. intros H. by rewrite memcmp_total by auto. Qed.
Lemma negb_lt n m : negb (n <? m)%nat = true -> (m <= n)%nat.
Proof. intros H%negb_true_iff%Nat.ltb_ge. exact H. Qed.

Section Safety.
Variable e : nat.
Hypothesis He : (1 <= e)%nat.

Lemma attvalue_total fuel p :
  (0 < String.length p)%nat -> (String.length p <= fuel)%nat ->
  exists r, attvalue fuel e p = Ok r /\
    forall v q, r = Some (v, q) -> (0 < String.length q <= String.length p)%nat.
Proof.
  intros Hp Hf. unfold attvalue. rd_tac. destruct (is_quote x).
  - past_tac; [eexists; split; [done|]; discriminate|]. skip_tac.
    + eexists. split; [done|]. intros v q [= _ <-]. lia.
    + eexists. split; [done|]. discriminate.
  - skip_tac.
    + eexists. split; [done|]. intros v q [= _ <-]. lia.
    + eexists. split; [done|]. discriminate.
Qed.

Lemma attribute_total fuel p :
  (e < String.length p)%nat -> (String.length p <= fuel)%nat ->
  exists r, attribute fuel e p = Ok r /\
    forall n v q, r = Some (n, v, q) -> (0 < String.length q < String.length p)%nat.
Proof.
  intros Hp Hf. unfold attribute. skip_tac; [|eexists; split; [done|]; discriminate].
  assert (e < String.length s)%nat as Hs1 by (destruct H as [[_ ->]|?]; lia).
  skip_tac; [|eexists; split; [done|]; discriminate].
  assert (e < String.length s0)%nat as Hs2 by (destruct H2 as [[_ ->]|?]; lia).
  skip_tac; [|eexists; split; [done|]; discriminate].
  destruct (attvalue_total fuel s1) as (r & -> & Hr); [lia..|]. simpl.
  eexists. split; [done|]. destruct r as [[v q]|]; [|discriminate].
  intros a b c [= <- <- <-]. specialize (Hr _ _ eq_refl). lia.
Qed.

Lemma eltname_total fuel i n p :
  (0 < String.length p)%nat -> (String.length p <= fuel)%nat ->
  (i = 0%nat \/ (e < String.length p)%nat) ->
  exists r, eltname fuel e i n p = Ok r /\
    forall m n' q, r = Some (m, n', q) -> (0 < String.length q <= String.length p)%nat /\
      (m = 0%nat \/ (e < String.length q)%nat).
Proof.
  revert i n p. induction fuel as [|fuel IH]; intros i n p Hp Hf Hi; [lia|]. simpl. rd_tac.
  destruct (_ || _); [eexists; split; [done|]; intros m n' q [= <- <- <-]; lia|].
  past_tac; [eexists; split; [done|]; discriminate|]. rd_tac.
  destruct (Ascii.eqb _ _).
  - destruct (IH 0%nat (inc (inc p)) (inc (inc p))) as (r & -> & Hr);
      try (rewrite ?length_inc; lia). eexists. split; [done|]. intros m n' q ->.
    specialize (Hr _ _ _ eq_refl). rewrite !length_inc in Hr. lia.
  - destruct (IH (S i) n (inc p)) as (r & -> & Hr);
      try (rewrite ?length_inc; lia). eexists. split; [done|]. intros m n' q ->.
    specialize (Hr _ _ _ eq_refl). rewrite !length_inc in Hr. lia.
Qed.

Lemma skip_comment_total fuel p :
  (String.length p < fuel)%nat ->
  exists r, skip_comment fuel e p = Ok r /\
    forall q, r = Some q -> (String.length q < String.length p)%nat.
Proof.
  revert p. induction fuel as [|fuel IH]; intros p Hf; [lia|]. cbn [skip_comment].
  past_tac; [eexists; split; [done|]; discriminate|].
  rewrite memcmp_total by (rewrite length_inc; simpl; lia). cbn [obind].
  destruct (starts_with _ _).
  - eexists. split; [done|]. intros q Hq.
    assert (q = str_drop 3 (inc p)) as -> by congruence. rewrite length_drop, length_inc. lia.
  - destruct (IH (inc p)) as (r & -> & Hr); [rewrite length_inc; lia|].
    eexists. split; [done|]. intros q ->. specialize (Hr _ eq_refl). rewrite length_inc in Hr. lia.
Qed.

Lemma starts_with_length a p : starts_with a p = true -> (String.length a <= String.length p)%nat.
Proof.
  revert p. induction a as [|x a IH]; intros [|y p]; simpl; try (done || lia).
  intros [_ H]%andb_prop. specialize (IH _ H). lia.
Qed.

Lemma skip_cdata_total fuel i p :
  (3 <= String.length p)%nat -> (String.length p < fuel)%nat ->
  exists r, skip_cdata fuel e i p = Ok r /\
    forall m q, r = Some (m, q) -> (0 < String.length q <= String.length p)%nat.
Proof.
  revert i p. induction fuel as [|fuel IH]; intros i p H3 Hf; [lia|]. cbn [skip_cdata].
  rewrite memcmp_total by (simpl; lia). cbn [obind]. destruct (starts_with _ _).
  - eexists. split; [done|]. intros m q [= <- <-]. lia.
  - past_tac; [eexists; split; [done|]; discriminate|].
    destruct (IH (S i) (inc p)) as (r & -> & Hr); [rewrite length_inc; lia..|].
    eexists. split; [done|]. intros m q ->. specialize (Hr _ _ eq_refl).
    rewrite length_inc in Hr. lia.
Qed.
(** A computation that returns whatever the state, with a result in [P]. *)
Definition totally {S A} (m : M S A) (P : A -> Prop) : Prop :=
  forall s, exists a s', m s = Ok (a, s') /\ P a.
Lemma totally_ret {S A} (a : A) (P : A -> Prop) : P a -> totally (ret a : M S A) P.
Proof using. intros Ha s. by exists a, s. Qed.
Lemma totally_bind {S A B} (m : M S A) (k : A -> M S B) (P : A -> Prop) (Q : B -> Prop) :
  totally m P -> (forall a, P a -> totally (k a) Q) -> totally (bind m k) Q.
Proof using.
  intros Hm Hk s. destruct (Hm s) as (a & s1 & E & Ha). unfold bind. rewrite E. by apply Hk.
Qed.
Lemma totally_outcome {S A} (o : outcome A) (P : A -> Prop) :
  (exists a, o = Ok a /\ P a) -> totally (of_outcome o : M S A) P.
Proof using. intros (a & -> & Ha) s. by exists a, s. Qed.

Context {St : Type} (xp : xmlparser St).
(** The callbacks always return. *)
Record callbacks_return : Prop := {
  start_returns : forall f a, starteltfunc xp = Some f -> totally (f a) (fun _ => True);
  end_returns : forall f a, endeltfunc xp = Some f -> totally (f a) (fun _ => True);
  data_returns : forall f a, datafunc xp = Some f -> totally (f a) (fun _ => True);
  att_returns : forall f a b, attfunc xp = Some f -> totally (f a b) (fun _ => True)
}.
Hypothesis Hxp : callbacks_return.

Lemma call1_returns (f : option (string -> M St unit)) a :
  (forall g, f = Some g -> totally (g a) (fun _ => True)) -> totally (call1 f a) (fun _ => True).
Proof using.
  intros Hf. destruct f as [g|]; [by apply Hf|]. by apply totally_ret.
Qed.
Lemma call2_returns (f : option (string -> string -> M St unit)) a b :
  (forall g, f = Some g -> totally (g a b) (fun _ => True)) ->
  totally (call2 f a b) (fun _ => True).
Proof using.
  intros Hf. destruct f as [g|]; [by apply Hf|]. by apply totally_ret.
Qed.
Lemma totally_rd p : (0 < String.length p)%nat -> totally (of_outcome (rd p) : M St _) (fun _ => True).
Proof using. intros Hp. apply totally_outcome. destruct (rd_ok p Hp) as [x ->]. by exists x. Qed.

Lemma parseatt_total fuel p :
  (String.length p < fuel)%nat ->
  totally (parseatt fuel xp e p)
    (fun r => forall q, r = Some q -> (e < String.length q <= String.length p)%nat).
Proof using He Hxp.
  revert p. induction fuel as [|fuel IH]; intros p Hf; [lia|]. cbn [parseatt].
  past_tac; [by apply totally_ret|].
  eapply totally_bind; [apply totally_rd; lia|]. intros x _.
  destruct (_ || _); [apply totally_ret; intros q [= <-]; lia|].
  destruct (IS_WHITE_SPACE x); cbn [negb].
  - intros s. destruct (IH (inc p)) with (s := s) as (r & s' & E & Hr); [rewrite length_inc; lia|].
    exists r, s'. split; [done|]. intros q ->. specialize (Hr _ eq_refl). rewrite length_inc in Hr. lia.
  - eapply (totally_bind _ _ (fun r => forall n v q, r = Some (n, v, q) ->
      (0 < String.length q < String.length p)%nat)).
    { apply totally_outcome.
      destruct (attribute_total (Datatypes.S fuel) p) as (r & E & Hr); [lia..|]. by exists r. }
    intros [[[n v] q]|] Hq; [|by apply totally_ret]. specialize (Hq _ _ _ eq_refl).
    eapply totally_bind; [apply call2_returns; intros; by eapply att_returns|]. intros _ _ s.
    destruct (IH (inc q)) with (s := s) as (r' & s' & E' & Hr'); [rewrite length_inc; lia|].
    exists r', s'. split; [done|]. intros q' ->. specialize (Hr' _ eq_refl).
    rewrite length_inc in Hr'. lia.
Qed.

Lemma totally_skip fuel k c n p (P : option (nat * string) -> Prop) :
  (0 < String.length p)%nat -> (String.length p <= fuel)%nat ->
  P None ->
  (forall m q, (n = m /\ q = p \/ (n < m)%nat /\ (e + k < String.length q)%nat) ->
     (0 < String.length q <= String.length p)%nat -> P (Some (m, q))) ->
  totally (of_outcome (skip_while fuel e k c n p) : M St _) P.
Proof using.
  intros Hp Hf H0 H1. apply totally_outcome.
  destruct (skip_while_total fuel e k c n p Hp Hf) as (r & -> & Hr). exists r. split; [done|].
  destruct r as [[m q]|]; [|done]. destruct (Hr _ _ eq_refl) as (? & ? & _). by apply H1.
Qed.

Lemma content_total fuel p :
  (e < String.length p)%nat -> (String.length p < fuel)%nat ->
  totally (content fuel xp e p)
    (fun r => forall q, r = Some q -> (String.length q < String.length p)%nat).
Proof using He Hxp.
  intros Hp Hf. unfold content. past_tac; [by apply totally_ret|].
  eapply totally_bind.
  { eapply (totally_skip _ _ _ _ _ (fun r => forall i q, r = Some (i, q) ->
      (e < String.length q < String.length p)%nat)); rewrite ?length_inc; try lia; [done|].
    intros m q [[_ ->]|?] ? i q' [= <- <-]; rewrite ?length_inc in *; lia. }
  intros [[i q]|] Hq; [|by apply totally_ret]. specialize (Hq _ _ eq_refl).
  rewrite memcmp_if by (intros ?%negb_lt; simpl; lia).
  eapply (totally_bind _ _ (fun b => b = true -> (e + (9 + 3) <= String.length q)%nat)).
  { apply totally_outcome. eexists. split; [reflexivity|]. by intros [?%negb_lt _]%andb_prop. }
  intros cdata Ec. destruct cdata.
  - specialize (Ec eq_refl).
    eapply (totally_bind _ _ (fun r => forall m q1, r = Some (m, q1) ->
      (0 < String.length q1 <= String.length q - 9)%nat)).
    { apply totally_outcome. destruct (skip_cdata_total fuel 0 (str_drop 9 q)) as (r & E & Hr);
        [rewrite length_drop; lia..|]. exists r. split; [exact E|].
      rewrite length_drop in Hr. exact Hr. }
    intros [[m q1]|] Hq1; [|by apply totally_ret]. specialize (Hq1 _ _ eq_refl).
    eapply (totally_bind _ _ (fun _ => True)).
    { destruct (0 <? m)%nat; [|by apply totally_ret].
      apply call1_returns. intros. by eapply data_returns. }
    intros _ _. eapply totally_bind.
    { eapply (totally_skip _ _ _ _ _ (fun r => forall i q, r = Some (i, q) ->
        (String.length q <= String.length q1)%nat)); try lia; [done|].
      intros m' q' _ ? i' q2 [= <- <-]. lia. }
    intros [[m' q2]|] Hq2; apply totally_ret; simpl; [|done]. intros q' [= <-].
    specialize (Hq2 _ _ eq_refl). lia.
  - eapply totally_bind.
    { eapply (totally_skip _ _ _ _ _ (fun r => forall i q', r = Some (i, q') ->
        (e < String.length q' <= String.length q)%nat)); try lia; [done|].
      intros m q' [[_ ->]|?] ? i' q2 [= <- <-]; lia. }
    intros [[m q1]|] Hq1; [|by apply totally_ret]. specialize (Hq1 _ _ eq_refl).
    eapply (totally_bind _ _ (fun _ => True)).
    + clear Ec. destruct (_ && _); [|by apply totally_ret].
      eapply totally_bind; [apply totally_rd; rewrite length_inc; lia|]. intros y _.
      destruct (Ascii.eqb y "/"); [|by apply totally_ret].
      apply call1_returns. intros. by eapply data_returns.
    + intros _ _. apply totally_ret. intros q' [= <-]. lia.
Qed.

Lemma turn_total fuel p :
  (e + 1 < String.length p)%nat -> (String.length p < fuel)%nat ->
  totally (parseelt_turn fuel xp e p)
    (fun r => forall q, r = Some q -> (String.length q < String.length p)%nat).
Proof using He Hxp.
  intros Hp Hf. unfold parseelt_turn.
  eapply totally_bind; [apply totally_rd; lia|]. intros x _.
  eapply totally_bind; [apply totally_rd; rewrite length_inc; lia|]. intros y _.
  rewrite memcmp_if by (intros ?%negb_lt; simpl; lia).
  eapply (totally_bind _ _ (fun b => b = true -> (e + 4 <= String.length p)%nat)).
  { apply totally_outcome. eexists. split; [reflexivity|]. by intros [?%negb_lt _]%andb_prop. }
  intros comment Ec. destruct comment; [specialize (Ec eq_refl)|clear Ec; destruct (Ascii.eqb x "<" && _)].
  - apply totally_outcome.
    destruct (skip_comment_total fuel (str_drop 3 p)) as (r & -> & Hr);
      [rewrite length_drop; lia|]. rewrite length_drop in Hr.
    exists r. split; [done|]. intros q Hq. specialize (Hr _ Hq). lia.
  - eapply (totally_bind _ _ (fun r => forall m n q, r = Some (m, n, q) ->
      (0 < String.length q < String.length p)%nat /\ (m = 0%nat \/ (e < String.length q)%nat))).
    { apply totally_outcome.
      destruct (eltname_total fuel 0 (inc p) (inc p)) as (r & E & Hr); rewrite ?length_inc;
        try lia. exists r. split; [exact E|]. intros m n q Hq. specialize (Hr _ _ _ Hq).
      rewrite length_inc in Hr. lia. }
    intros [[[i name] q]|] Hq; [|by apply totally_ret].
    destruct (Hq _ _ _ eq_refl) as [Hq1 Hq2]. clear Hq.
    eapply totally_bind; [apply totally_rd; lia|]. intros z _.
    destruct (Nat.ltb_spec 0 i); [|destruct (Ascii.eqb z "/")].
    + eapply (totally_bind _ _ (fun _ => True)).
      { apply call1_returns. intros. by eapply start_returns. }
      intros _ _. eapply totally_bind; [apply parseatt_total; lia|].
      intros [q1|] Ha; [|by apply totally_ret]. specialize (Ha _ eq_refl).
      eapply totally_bind; [apply totally_rd; lia|]. intros z' _.
      destruct (negb _); [|apply totally_ret; intros ? [= <-]; lia].
      intros s. destruct (content_total fuel q1) with (s := s) as (r & s' & E & Hr); [lia..|].
      exists r, s'. split; [done|]. intros q2 Hq3. specialize (Hr _ Hq3). lia.
    + past_tac; [by apply totally_ret|]. eapply totally_bind.
      { eapply (totally_skip _ _ _ _ _ (fun r => forall i q', r = Some (i, q') ->
          (String.length q' <= String.length q)%nat)); rewrite ?length_inc; try lia; [done|].
        intros m q' _ ? i' q2 [= <- <-]. lia. }
      intros [[i' q1]|] Hr; [|by apply totally_ret]. specialize (Hr _ _ eq_refl).
      eapply (totally_bind _ _ (fun _ => True)).
      { apply call1_returns. intros. by eapply end_returns. }
      intros _ _. apply totally_ret. intros ? [= <-]. rewrite length_inc. lia.
    + apply totally_ret. intros ? [= <-]. lia.
  - apply totally_ret. intros ? [= <-]. rewrite length_inc. lia.
Qed.

Lemma parseelt_total fuel p :
  (String.length p < fuel)%nat -> totally (parseelt fuel xp e p) (fun _ => True).
Proof using He Hxp.
  revert p. induction fuel as [|fuel IH]; intros p Hf; [lia|]. cbn [parseelt].
  past_tac; [by apply totally_ret|].
  eapply totally_bind; [apply turn_total; lia|]. intros [q|] Hq; [|by apply totally_ret].
  apply IH. specialize (Hq _ eq_refl). lia.
Qed.
End Safety.

(** C23: The XML parser stays in its buffer and returns.  Whatever the bytes, it
    makes no access outside a buffer that is readable for one byte more than the
    document, and every loop ends. *)
Theorem parsexml_memory_safe {S} (xp : xmlparser S) buffer xmlsize s :
  callbacks_return xp -> (xmlsize < String.length buffer)%nat ->
  exists s', parsexml xp buffer xmlsize s = Ok (tt, s').
Proof.
  intros Hxp Hn. unfold parsexml.
  destruct (parseelt_total (String.length buffer - xmlsize) ltac:(lia) xp Hxp
    (Datatypes.S (String.length buffer)) buffer ltac:(lia) s) as ([] & s' & E & _).
  by exists s'.
Qed.

(** The events of a document, as a list. *)
Inductive event : Type :=
  | StartElt (name : string)
  | EndElt (name : string)
  | Data (data : string)
  | Att (name value : string).
Definition log_event (x : event) : M (list event) unit := modify (fun l => l ++ [x]).
Definition collect : xmlparser (list event) :=
  mkParser (Some (fun n => log_event (StartElt n))) (Some (fun n => log_event (EndElt n)))
    (Some (fun d => log_event (Data d))) (Some (fun n v => log_event (Att n v))).
Lemma collect_returns : callbacks_return collect.
Proof. split; simpl; intros; simplify_eq; intros s; by eexists _, _. Qed.

(** The byte after the document is read.  When a buffer is readable for exactly
    the document's bytes, a document cut off behind an equals sign, a colon or
    a second opening bracket makes the parser read one byte past it. *)
Theorem parsexml_reads_past_end :
  parsexml collect "<a b=" 5 [] = Err Undefined /\
  parsexml collect "<a:" 3 [] = Err Undefined /\
  parsexml collect "<a> <" 5 [] = Err Undefined.
Proof. repeat split; vm_compute; reflexivity. Qed.

Lemma parsexml_memory_safe_witness :
  exists s', parsexml collect ("<a b=" +:+ String NUL "") 5 [] = Ok (tt, s').
Proof. apply parsexml_memory_safe; [exact collect_returns|]. simpl. lia. Defined.

Definition small_document : string :=
  "<?xml v='1'?><s:a x='1' y=2 ><!-- c --><b> t</b>" +:+ "<c><![CDATA[<>]]></c><d/></s:a>".
Example collect_example :
  parsexml collect (small_document +:+ String NUL "") (String.length small_document) [] =
  Ok (tt, [StartElt "a"; Att "x" "1"; Att "y" "2"; StartElt "b"; Data " t"; EndElt "b";
           StartElt "c"; Data "<>"; EndElt "c"; StartElt "d"; EndElt "s:a"]).
Proof. vm_compute. reflexivity. Qed.

(** An unquoted value right before the end of its tag swallows the [>], and with
    it everything up to the next equals sign. *)
Example unquoted_value_swallows_tag_end :
  parsexml collect ("<a y=2><b>t</b></a>" +:+ String NUL "") 19 [] =
  Ok (tt, [StartElt "a"; Att "y" "2"]).
Proof. vm_compute. reflexivity. Qed.
