(* ===== verification/XmlDocument.v ===== *)
(** * XmlDocument

    What [parsexml] of MiniXml makes of a well-formed document: the abstract
    documents, how they are written down, the events they stand for, and the
    theorem that the parser calls its callbacks with exactly these events. *)
From S2P Require Import Prelude.
From S2P Require Import CStr.
From S2P Require Import MiniXml.

(** ** Documents *)
Record qname : Type := mkName { prefix : string; local : string }.
Definition print_name (n : qname) : string :=
  if bool_decide (prefix n = "") then local n else prefix n +:+ String ":" (local n).

(** A sequence of elements, each with its attributes and the text behind it.  A
    [Leaf] has text only, a [Node] text before its first child. *)
Inductive doc : Type :=
  | Empty
  | Leaf (n : qname) (atts : list (string * string)) (text after : string) (rest : doc)
  | Node (n : qname) (atts : list (string * string)) (before : string) (children : doc)
      (after : string) (rest : doc).

Definition quote : ascii := (Ascii.Ascii false true false false false true false false).
Definition print_att (a : string * string) : string :=
  String SP (a.1 +:+ String "=" (String quote (a.2 +:+ String quote ""))).
Definition print_atts (l : list (string * string)) : string := join (map print_att l).
Definition start_tag (n : qname) (atts : list (string * string)) : string :=
  String "<" (print_name n +:+ print_atts atts +:+ ">").
Definition end_tag (n : qname) : string := "</" +:+ print_name n +:+ ">".
Fixpoint print (d : doc) : string :=
  match d with
  | Empty => ""
  | Leaf n atts text after rest =>
      start_tag n atts +:+ text +:+ end_tag n +:+ after +:+ print rest
  | Node n atts before children after rest =>
      start_tag n atts +:+ before +:+ print children +:+ end_tag n +:+ after +:+ print rest
  end.

Definition att_events (l : list (string * string)) : list event :=
  map (fun a => Att a.1 a.2) l.
Definition data_event (text : string) : list event :=
  if bool_decide (text = "") then [] else [Data text].
Fixpoint events (d : doc) : list event :=
  match d with
  | Empty => []
  | Leaf n atts text _ rest =>
      StartElt (local n) :: att_events atts ++ data_event text ++ EndElt (print_name n) :: events rest
  | Node n atts _ children _ rest =>
      StartElt (local n) :: att_events atts ++ events children ++
        EndElt (print_name n) :: events rest
  end.

Fixpoint str_all (f : ascii -> bool) (s : string) : bool :=
  match s with EmptyString => true | String c s' => f c && str_all f s' end.
Definition name_char (c : ascii) : bool :=
  negb (IS_WHITE_SPACE c) && negb (Ascii.eqb c ">") && negb (Ascii.eqb c "/") &&
  negb (Ascii.eqb c ":") && negb (Ascii.eqb c "?") && negb (Ascii.eqb c "!").
Definition att_char (c : ascii) : bool :=
  negb (IS_WHITE_SPACE c) && negb (Ascii.eqb c ">") && negb (Ascii.eqb c "/") &&
  negb (Ascii.eqb c "=").
Definition text_char (c : ascii) : bool := negb (Ascii.eqb c "<").
Definition value_char (c : ascii) : bool := negb (Ascii.eqb c quote).
Definition name_ok (n : qname) : bool :=
  str_all name_char (prefix n) && str_all name_char (local n) && bool_decide (local n <> "").
Definition atts_ok (l : list (string * string)) : bool :=
  forallb (fun a => str_all att_char a.1 && bool_decide (a.1 <> "") && str_all value_char a.2) l.
Definition is_empty (d : doc) : bool := match d with Empty => true | _ => false end.
Fixpoint doc_ok (d : doc) : bool :=
  match d with
  | Empty => true
  | Leaf n atts text after rest =>
      name_ok n && atts_ok atts && str_all text_char text && str_all text_char after && doc_ok rest
  | Node n atts before children after rest =>
      name_ok n && atts_ok atts && str_all text_char before && negb (is_empty children) &&
      doc_ok children && str_all text_char after && doc_ok rest
  end.

(** ** The callbacks of a list of events *)
Definition run_event {S} (xp : xmlparser S) (x : event) : M S unit :=
  match x with
  | StartElt n => call1 (starteltfunc xp) n
  | EndElt n => call1 (endeltfunc xp) n
  | Data d => call1 (datafunc xp) d
  | Att n v => call2 (attfunc xp) n v
  end.
Definition run_events {S} (xp : xmlparser S) (l : list event) : M S unit :=
  for_each l (run_event xp).

Lemma length_app_str (s t : string) :
  String.length (s +:+ t) = (String.length s + String.length t)%nat.
Proof. rewrite <- !length_bytes_of, bytes_of_app, length_app. done. Qed.
Lemma app_cons c (s t : string) : String c s +:+ t = String c (s +:+ t).
Proof. done. Qed.
Lemma nil_app_str (t : string) : "" +:+ t = t.
Proof. done. Qed.
Ltac len :=
  repeat (progress (rewrite ?length_inc, ?length_drop, ?length_app_str in *;
                    cbn [String.length] in *)); lia.
Lemma bind_outcome {S A B} (a : A) (k : A -> M S B) s : bind (of_outcome (Ok a)) k s = k a s.
Proof. done. Qed.
Lemma str_all_impl f g s : (forall c, f c = true -> g c = true) -> str_all f s = true -> str_all g s = true.
Proof.
  intros Hfg. induction s as [|c s IH]; simpl; [done|]. intros [Hc Hs]%andb_prop.
  by rewrite Hfg, IH.
Qed.

Section Exact.
Variable e : nat.

Lemma skip_while_exact fuel k c n s x r :
  str_all c s = true -> c x = false -> (e + k < String.length (String x r))%nat ->
  (String.length s < fuel)%nat ->
  skip_while fuel e k c n (s +:+ String x r) = Ok (Some ((n + String.length s)%nat, String x r)).
Proof.
  revert fuel n. induction s as [|y s IH]; intros fuel n Hs Hx Hr Hf.
  - destruct fuel; [simpl in Hf; lia|]. rewrite nil_app_str. cbn [skip_while rd obind].
    rewrite Hx. cbn [negb String.length]. by rewrite Nat.add_0_r.
  - simpl in Hs. apply andb_prop in Hs as [Hy Hs]. destruct fuel; [simpl in Hf; lia|].
    rewrite app_cons. cbn [skip_while rd obind]. rewrite Hy. cbn [negb].
    change (inc (String y (s +:+ String x r))) with (s +:+ String x r).
    rewrite (proj2 (past_false e k _)) by len. rewrite IH; [|done..|simpl in Hf; lia].
    cbn [String.length]. do 3 f_equal. lia.
Qed.

Lemma skip_while_stop fuel k c n x r :
  c x = false -> (0 < fuel)%nat ->
  skip_while fuel e k c n (String x r) = Ok (Some (n, String x r)).
Proof.
  intros Hx Hf. destruct fuel; [lia|]. cbn [skip_while rd obind]. by rewrite Hx.
Qed.

Lemma eltname_plain fuel i nm l x r :
  str_all name_char l = true -> IS_WHITE_SPACE x || Ascii.eqb x ">" || Ascii.eqb x "/" = true ->
  Ascii.eqb x ":" = false -> (e < String.length (String x r))%nat -> (String.length l < fuel)%nat ->
  eltname fuel e i nm (l +:+ String x r) = Ok (Some ((i + String.length l)%nat, nm, String x r)).
Proof.
  intros Hl Hx Hx' Hr. revert fuel i Hl. induction l as [|y l IH]; intros fuel i Hl Hf.
  - destruct fuel; [simpl in Hf; lia|]. rewrite nil_app_str. cbn [eltname rd obind].
    rewrite Hx. cbn [String.length]. by rewrite Nat.add_0_r.
  - simpl in Hl. apply andb_prop in Hl as [Hy Hl]. destruct fuel; [simpl in Hf; lia|].
    rewrite app_cons. cbn [eltname rd obind].
    replace (IS_WHITE_SPACE y || Ascii.eqb y ">" || Ascii.eqb y "/") with false.
    2:{ unfold name_char in Hy. destruct (IS_WHITE_SPACE y), (Ascii.eqb y ">"), (Ascii.eqb y "/");
        done. }
    change (inc (String y (l +:+ String x r))) with (l +:+ String x r).
    rewrite (proj2 (past_false e 0 _)) by len.
    assert (exists z t, l +:+ String x r = String z t /\ Ascii.eqb z ":" = false) as (z & t & Ez & Hz).
    { destruct l as [|z l]; [by exists x, r|]. exists z, (l +:+ String x r). split; [done|].
      simpl in Hl. apply andb_prop in Hl as [Hl _]. unfold name_char in Hl.
      destruct (Ascii.eqb z ":"); [|done]. by rewrite !andb_false_r in Hl. }
    rewrite Ez. cbn [rd obind]. rewrite Hz, <- Ez, IH; [|done|simpl in Hf; lia].
    cbn [String.length]. do 4 f_equal. lia.
Qed.

Lemma eltname_prefix fuel i nm p l x r :
  str_all name_char p = true -> p <> "" -> str_all name_char l = true ->
  IS_WHITE_SPACE x || Ascii.eqb x ">" || Ascii.eqb x "/" = true -> Ascii.eqb x ":" = false ->
  (e < String.length (String x r))%nat -> (String.length p + String.length l < fuel)%nat ->
  eltname fuel e i nm (p +:+ String ":" (l +:+ String x r)) =
  Ok (Some (String.length l, l +:+ String x r, String x r)).
Proof.
  intros Hp Hne Hl Hx Hx' Hr. revert fuel i Hp Hne.
  induction p as [|y p IH]; intros fuel i Hp Hne Hf; [done|].
  simpl in Hp. apply andb_prop in Hp as [Hy Hp]. destruct fuel; [simpl in Hf; lia|].
  rewrite app_cons. cbn [eltname rd obind].
  replace (IS_WHITE_SPACE y || Ascii.eqb y ">" || Ascii.eqb y "/") with false.
  2:{ unfold name_char in Hy. destruct (IS_WHITE_SPACE y), (Ascii.eqb y ">"), (Ascii.eqb y "/");
      done. }
  change (inc (String y (p +:+ String ":" (l +:+ String x r)))) with
    (p +:+ String ":" (l +:+ String x r)).
  rewrite (proj2 (past_false e 0 _)) by len.
  destruct p as [|z p].
  - rewrite nil_app_str. cbn [rd obind Ascii.eqb Bool.eqb].
    change (inc (String ":" (l +:+ String x r))) with (l +:+ String x r).
    by rewrite eltname_plain by (done || (simpl in Hf; lia)).
  - rewrite app_cons. cbn [rd obind]. pose proof Hp as Hp'. simpl in Hp'.
    apply andb_prop in Hp' as [Hz _].
    replace (Ascii.eqb z ":") with false.
    2:{ unfold name_char in Hz. destruct (Ascii.eqb z ":"); [|done]. by rewrite !andb_false_r in Hz. }
    rewrite <- app_cons. apply IH; [done..|simpl in Hf |- *; lia].
Qed.

(** The name of a start tag, and what it is reported as. *)
Lemma eltname_exact fuel n x r :
  name_ok n = true -> IS_WHITE_SPACE x || Ascii.eqb x ">" || Ascii.eqb x "/" = true ->
  Ascii.eqb x ":" = false -> (e < String.length (String x r))%nat ->
  (String.length (print_name n) < fuel)%nat ->
  exists nm i, eltname fuel e 0 (print_name n +:+ String x r) (print_name n +:+ String x r) =
    Ok (Some (i, nm, String x r)) /\ (0 < i)%nat /\ str_take i nm = local n.
Proof.
  unfold name_ok, print_name. intros [[Hp Hl]%andb_prop Hne]%andb_prop Hx Hx' Hr Hf.
  apply bool_decide_eq_true in Hne. assert (0 < String.length (local n))%nat as Hpos.
  { destruct (local n); [done|simpl; lia]. }
  case_bool_decide as Hpre.
  - rewrite eltname_plain by done. eexists _, _. split; [done|]. split; [done|].
    apply str_take_app.
  - rewrite str_app_assoc, app_cons. rewrite eltname_prefix; try done; [|len].
    eexists _, _. split; [done|]. split; [done|]. apply str_take_app.
Qed.

Lemma attribute_exact fuel n v r :
  str_all att_char n = true -> str_all value_char v = true ->
  (e < String.length (String quote r))%nat ->
  let p := n +:+ String "=" (String quote (v +:+ String quote r)) in
  (String.length p < fuel)%nat ->
  attribute fuel e p = Ok (Some (n, v, String quote r)).
Proof.
  intros Hn Hv Hr p Hf. unfold attribute, p in *.
  rewrite skip_while_exact; [|eapply str_all_impl, Hn|reflexivity|len..].
  2:{ intros c. unfold att_char.
      destruct (IS_WHITE_SPACE c), (Ascii.eqb c "="); rewrite ?andb_false_r; done. }
  cbn [obind Nat.add].
  rewrite skip_while_stop by (done || len). cbn [obind].
  change (inc (String "=" ?t)) with t.
  rewrite skip_while_stop by (done || len). cbn [obind].
  unfold attvalue. cbn [rd obind]. change (is_quote quote) with true. cbn iota zeta.
  change (inc (String quote ?t)) with t. rewrite (proj2 (past_false e 0 _)) by len.
  rewrite skip_while_exact; [|done|by vm_compute|len..].
  cbn [obind Nat.add]. by rewrite !str_take_app.
Qed.

Lemma att_char_name c : att_char c = true ->
  Ascii.eqb c "/" || Ascii.eqb c ">" = false /\ IS_WHITE_SPACE c = false.
Proof.
  unfold att_char. destruct (IS_WHITE_SPACE c), (Ascii.eqb c "/"), (Ascii.eqb c ">"); done.
Qed.

Lemma parseatt_exact {S} (xp : xmlparser S) fuel atts r s :
  atts_ok atts = true -> (e < String.length (String ">" r))%nat ->
  (String.length (print_atts atts +:+ String ">" r) < fuel)%nat ->
  parseatt fuel xp e (print_atts atts +:+ String ">" r) s =
  (run_events xp (att_events atts) ;;; ret (Some (String ">" r))) s.
Proof.
  intros Hok Hr. revert fuel s. induction atts as [|[n v] atts IH]; intros fuel s Hf.
  - destruct fuel; [simpl in Hf; lia|].
    change (print_atts [] +:+ String ">" r) with (String ">" r). cbn [parseatt].
    by rewrite (proj2 (past_false e 0 _)) by len.
  - simpl in Hok. apply andb_prop in Hok as [[[Hn Hne]%andb_prop Hv]%andb_prop Hok].
    apply bool_decide_eq_true in Hne.
    unfold print_atts in *. cbn [map join] in *. rewrite str_app_assoc in *.
    set (q := join (map print_att atts) +:+ String ">" r) in *.
    assert (e < String.length q)%nat as Hq by (unfold q; len).
    unfold print_att in *. cbn [fst snd] in *. rewrite app_cons in *. rewrite !str_app_assoc in *.
    rewrite !app_cons in *. rewrite !str_app_assoc in *. rewrite app_cons in *.
    change ("" +:+ q) with q in *.
    set (p := n +:+ String "=" (String quote (v +:+ String quote q))) in *.
    destruct fuel as [|[|fuel]]; [simpl in Hf; lia|unfold p in Hf; len|].
    cbn [parseatt]. rewrite (proj2 (past_false e 0 _)) by (unfold p; len).
    cbn [rd]. rewrite bind_outcome. change (Ascii.eqb SP "/" || Ascii.eqb SP ">") with false.
    change (IS_WHITE_SPACE SP) with true. cbn [negb].
    change (inc (String SP p)) with p. rewrite (proj2 (past_false e 0 _)) by (unfold p; len).
    destruct n as [|c n]; [done|]. change (rd p) with (Ok c). rewrite bind_outcome.
    assert (att_char c = true) as Hc by (simpl in Hn; by apply andb_prop in Hn as [? _]).
    destruct (att_char_name c Hc) as [-> ->]. cbn [negb].
    unfold p at 1. rewrite attribute_exact by (done || (unfold p in Hf; len)).
    rewrite bind_outcome. change (inc (String quote q)) with q.
    cbn [att_events map run_events for_each run_event]. unfold bind.
    destruct (call2 _ _ _ s) as [[[] s1]|]; [|done].
    rewrite IH by (done || (unfold p in Hf; len)). done.
Qed.

Lemma split_space t :
  exists w u, t = w +:+ u /\ str_all IS_WHITE_SPACE w = true /\
    forall x u', u = String x u' -> IS_WHITE_SPACE x = false.
Proof.
  induction t as [|c t (w & u & -> & Hw & Hu)]; [by exists "", ""|].
  destruct (IS_WHITE_SPACE c) eqn:Hc.
  - exists (String c w), u. split; [done|]. split; [simpl; by rewrite Hc|done].
  - exists "", (String c (w +:+ u)). split; [done|]. split; [done|]. by intros x u' [= <- _].
Qed.
Lemma str_all_app f a b : str_all f (a +:+ b) = str_all f a && str_all f b.
Proof.
  induction a as [|c a IH]; [done|]. rewrite app_cons. simpl. by rewrite IH, andb_assoc.
Qed.

(** Text up to the next tag is reported when that tag is an end tag. *)
Lemma content_exact {S} (xp : xmlparser S) fuel t y r s :
  str_all text_char t = true -> Ascii.eqb y "!" = false -> (e < String.length (String y r))%nat ->
  let q := String "<" (String y r) in
  (String.length (String ">" (t +:+ q)) < fuel)%nat ->
  content fuel xp e (String ">" (t +:+ q)) s =
  ((if Ascii.eqb y "/" then run_events xp (data_event t) else ret tt) ;;; ret (Some q)) s.
Proof.
  intros Ht Hy Hr q Hf. unfold content. change (inc (String ">" (t +:+ q))) with (t +:+ q).
  rewrite (proj2 (past_false e 0 _)) by (unfold q; len).
  destruct (split_space t) as (w & u & -> & Hw & Hu). rewrite str_all_app in Ht.
  apply andb_prop in Ht as [_ Ht]. rewrite str_app_assoc.
  assert (exists x v, u +:+ q = String x v /\ IS_WHITE_SPACE x = false) as (x & v & Ex & Hx).
  { destruct u as [|x u]; [by exists "<"%char, (String y r)|].
    exists x, (u +:+ q). split; [done|]. by apply (Hu x u). }
  rewrite Ex at 1. assert (e + 1 < String.length (u +:+ q))%nat as Hlen by (unfold q; len).
  rewrite skip_while_exact; [|done..|rewrite <- Ex; lia|len]. rewrite bind_outcome. rewrite <- Ex.
  rewrite memcmp_if by (intros ?%negb_lt; simpl; lia).
  replace (starts_with "<![CDATA[" (u +:+ q)) with false.
  2:{ destruct u as [|z u].
      - change (false = Ascii.eqb "!" y && starts_with "[CDATA[" r).
        by rewrite Ascii.eqb_sym, Hy.
      - simpl in Ht. apply andb_prop in Ht as [Ht _]. unfold text_char in Ht.
        change (false = Ascii.eqb "<" z && starts_with "![CDATA[" (u +:+ q)).
        rewrite Ascii.eqb_sym. by destruct (Ascii.eqb z "<"). }
  rewrite andb_false_r, bind_outcome. unfold q at 1.
  rewrite skip_while_exact; [|done|done|len|unfold q in Hf; len].
  rewrite bind_outcome. cbn [Nat.add]. rewrite <- length_app_str.
  change (inc (String "<" (String y r))) with (String y r). cbn [rd].
  unfold data_event. destruct (w +:+ u) as [|c l] eqn:Et.
  - cbn [String.length Nat.ltb Nat.leb andb]. rewrite bool_decide_true by done.
    by destruct (Ascii.eqb y "/").
  - rewrite <- Et. assert (0 < String.length (w +:+ u))%nat as Hpos by (rewrite Et; simpl; lia).
    rewrite (proj2 (Nat.ltb_lt _ _) Hpos). rewrite (bool_decide_false (w +:+ u = "")) by (by rewrite Et).
    rewrite <- (str_app_assoc w u q), str_take_app. cbn [andb run_events for_each run_event].
    unfold call1. destruct (datafunc xp) as [g|]; cbn [bool_decide is_Some]; [|by destruct (Ascii.eqb y "/")].
    rewrite bool_decide_true by by eexists. unfold bind at 1. rewrite bind_outcome.
    destruct (Ascii.eqb y "/"); [|done]. unfold bind. by destruct (g _ s) as [[[] s1]|].
Qed.

Lemma bind_assoc {S A B C} (m : M S A) (k : A -> M S B) (h : B -> M S C) s :
  bind (bind m k) h s = bind m (fun a => bind (k a) h) s.
Proof. unfold bind. by destruct (m s) as [[a s1]|]. Qed.
Lemma bind_cong {S A B} (m : M S A) (k1 k2 : A -> M S B) s :
  (forall a s', k1 a s' = k2 a s') -> bind m k1 s = bind m k2 s.
Proof. intros Hk. unfold bind. destruct (m s) as [[a s1]|]; [apply Hk|done]. Qed.
Lemma bind_run {S A B} (m m' : M S A) (k : A -> M S B) s :
  m s = m' s -> bind m k s = bind m' k s.
Proof. intros E. unfold bind. by rewrite E. Qed.
Lemma bind_ret {S A B} (a : A) (k : A -> M S B) s : bind (ret a) k s = k a s.
Proof. done. Qed.
Lemma run_events_app {S} (xp : xmlparser S) l1 l2 s :
  run_events xp (l1 ++ l2) s = (run_events xp l1 ;;; run_events xp l2) s.
Proof. apply for_each_app. Qed.

Lemma run_app {S A} (xp : xmlparser S) l1 l2 (k : M S A) s :
  (run_events xp (l1 ++ l2) ;;; k) s = (run_events xp l1 ;;; run_events xp l2 ;;; k) s.
Proof.
  unfold bind at 1. rewrite run_events_app. unfold bind.
  by destruct (run_events xp l1 s) as [[[] s1]|].
Qed.
Lemma run_cons {S A} (xp : xmlparser S) x l (k : M S A) s :
  (run_events xp (x :: l) ;;; k) s = (run_event xp x ;;; run_events xp l ;;; k) s.
Proof. apply bind_assoc. Qed.

Lemma run_step {S} (xp : xmlparser S) x l st st' :
  run_event xp x st = Ok (tt, st') -> run_events xp (x :: l) st = run_events xp l st'.
Proof. intros E. unfold run_events. cbn [for_each]. unfold bind. by rewrite E. Qed.
Lemma run_steps {S} (xp : xmlparser S) l1 l2 st st' :
  run_events xp l1 st = Ok (tt, st') -> run_events xp (l1 ++ l2) st = run_events xp l2 st'.
Proof. intros E. rewrite run_events_app. unfold bind. by rewrite E. Qed.

Lemma name_head n t :
  name_ok n = true -> exists c u, print_name n +:+ t = String c u /\ name_char c = true.
Proof.
  unfold name_ok, print_name. intros [[Hp Hl]%andb_prop Hne]%andb_prop.
  apply bool_decide_eq_true in Hne. case_bool_decide as Hpre.
  - destruct (local n) as [|c l]; [done|]. exists c, (l +:+ t). split; [done|].
    simpl in Hl. by apply andb_prop in Hl as [? _].
  - destruct (prefix n) as [|c l]; [done|]. eexists c, _. split; [done|].
    simpl in Hp. by apply andb_prop in Hp as [? _].
Qed.
Lemma atts_head atts r :
  exists x u, print_atts atts +:+ String ">" r = String x u /\
    IS_WHITE_SPACE x || Ascii.eqb x ">" || Ascii.eqb x "/" = true /\ Ascii.eqb x ":" = false /\
    (String.length r <= String.length u)%nat.
Proof.
  destruct atts as [|a atts]; [by exists ">"%char, r|]. exists SP. eexists. split; [done|].
  split; [done|]. split; [done|]. len.
Qed.

Lemma turn_not_comment {S} (xp : xmlparser S) fuel y u s :
  Ascii.eqb y "!" = false -> Ascii.eqb y "?" = false ->
  parseelt_turn fuel xp e (String "<" (String y u)) s =
  (let! r := of_outcome (eltname fuel e 0 (String y u) (String y u)) in
   match r with
   | None => ret None
   | Some (i, elementname, q) =>
       let! x := of_outcome (rd q) in
       if (0 <? i)%nat then
         call1 (starteltfunc xp) (str_take i elementname) ;;;
         let! r := parseatt fuel xp e q in
         match r with
         | None => ret None
         | Some q =>
             let! x := of_outcome (rd q) in
             if negb (Ascii.eqb x "/") then content fuel xp e q else ret (Some q)
         end
       else if Ascii.eqb x "/" then
         let elementname := inc q in
         if past e 0 elementname then ret None
         else
           let! r := of_outcome
             (skip_while fuel e 0 (fun x => negb (Ascii.eqb x ">")) 0 elementname) in
           match r with
           | None => ret None
           | Some (i, q) => call1 (endeltfunc xp) (str_take i elementname) ;;; ret (Some (inc q))
           end
       else ret (Some q)
   end) s.
Proof.
  intros H1 H2. unfold parseelt_turn. cbn [rd]. rewrite bind_outcome.
  change (inc (String "<" ?t)) with t. cbn [rd]. rewrite bind_outcome.
  rewrite memcmp_if by (intros ?%negb_lt; simpl in *; lia).
  replace (starts_with "<!--" (String "<" (String y u))) with false.
  2:{ change (false = Ascii.eqb "!" y && starts_with "--" u). by rewrite Ascii.eqb_sym, H1. }
  rewrite andb_false_r, bind_outcome, H2. done.
Qed.

Lemma turn_start {S} (xp : xmlparser S) fuel n atts t y r s :
  name_ok n = true -> atts_ok atts = true -> str_all text_char t = true ->
  Ascii.eqb y "!" = false -> (e < String.length (String y r))%nat ->
  let q := String "<" (String y r) in
  (String.length (start_tag n atts +:+ t +:+ q) < fuel)%nat ->
  parseelt_turn fuel xp e (start_tag n atts +:+ t +:+ q) s =
  (run_events xp (StartElt (local n) :: att_events atts ++
     (if Ascii.eqb y "/" then data_event t else [])) ;;; ret (Some q)) s.
Proof.
  intros Hn Ha Ht Hy Hr q Hf. unfold start_tag in *. rewrite app_cons, !str_app_assoc in *.
  set (z := t +:+ q) in *. change (">" +:+ z) with (String ">" z) in *.
  assert (e < String.length z)%nat as Hz by (unfold z, q; len).
  destruct (name_head n (print_atts atts +:+ String ">" z) Hn) as (c & u & Ec & Hc).
  rewrite Ec. unfold name_char in Hc.
  rewrite turn_not_comment by
    (destruct (Ascii.eqb c "?"), (Ascii.eqb c "!"); rewrite ?andb_false_r in Hc; done).
  rewrite <- Ec. destruct (atts_head atts z) as (x & v & Ex & Hx & Hx' & Hv). rewrite Ex.
  destruct (eltname_exact fuel n x v Hn Hx Hx') as (nm & i & -> & Hi & Hloc);
    [len|rewrite Ex in Hf; len|].
  rewrite bind_outcome. cbn [rd]. rewrite bind_outcome, (proj2 (Nat.ltb_lt _ _) Hi), Hloc.
  rewrite run_cons. apply bind_cong. intros [] s1. rewrite run_app, <- Ex.
  rewrite (bind_run _ _ _ _ (parseatt_exact xp fuel atts z s1 Ha ltac:(len) ltac:(len))).
  rewrite bind_assoc. apply bind_cong. intros [] s2. rewrite bind_ret. cbn [rd].
  rewrite bind_outcome. cbn [Ascii.eqb Bool.eqb negb].
  unfold z, q. rewrite content_exact by (done || (unfold z, q in *; len)).
  apply bind_run. by destruct (Ascii.eqb y "/").
Qed.

Lemma print_name_no_gt n : name_ok n = true -> str_all (fun x => negb (Ascii.eqb x ">")) (print_name n) = true.
Proof.
  unfold name_ok, print_name. intros [[Hp Hl]%andb_prop Hne]%andb_prop.
  assert (forall c, name_char c = true -> negb (Ascii.eqb c ">") = true) as Himp.
  { intros c. unfold name_char. destruct (Ascii.eqb c ">"); [|done]. by rewrite !andb_false_r. }
  destruct (decide (prefix n = "")) as [Hd|Hd].
  { rewrite bool_decide_true by done. by apply (str_all_impl _ _ _ Himp). }
  rewrite bool_decide_false by done.
  rewrite str_all_app. rewrite (str_all_impl _ _ _ Himp Hp). simpl.
  by rewrite (str_all_impl _ _ _ Himp Hl).
Qed.

Lemma turn_end {S} (xp : xmlparser S) fuel n r s :
  name_ok n = true -> (e <= String.length r)%nat ->
  (String.length (end_tag n +:+ r) < fuel)%nat ->
  parseelt_turn fuel xp e (end_tag n +:+ r) s =
  (run_events xp [EndElt (print_name n)] ;;; ret (Some r)) s.
Proof.
  intros Hn Hr Hf. unfold end_tag in *. rewrite str_app_assoc in *.
  change ("</" +:+ ?t) with (String "<" (String "/" t)) in *. rewrite str_app_assoc in *.
  change (">" +:+ r) with (String ">" r) in *.
  rewrite turn_not_comment by done. destruct fuel as [|fuel]; [lia|].
  set (u := print_name n +:+ String ">" r) in *.
  assert (eltname (Datatypes.S fuel) e 0 (String "/" u) (String "/" u) =
    Ok (Some (0%nat, String "/" u, String "/" u))) as -> by done.
  rewrite bind_outcome. cbn [rd]. rewrite bind_outcome. cbn [Nat.ltb Nat.leb].
  change (Ascii.eqb "/" "/") with true. cbv iota zeta. unfold u in *.
  change (inc (String "/" ?t)) with t.
  destruct (name_head n (String ">" r) Hn) as (c & v & Ec & _).
  rewrite (proj2 (past_false e 0 _)) by (apply f_equal with (f := String.length) in Ec; len).
  rewrite skip_while_exact; [|by apply print_name_no_gt|done|len|len]. rewrite bind_outcome.
  rewrite run_cons. cbn [Nat.add]. rewrite str_take_app.
  change (inc (String ">" r)) with r. done.
Qed.

(** From [p] the loop of [parseelt] comes to [q], having run [m]. *)
Definition goes {S} (xp : xmlparser S) (p q : string) (l : list event) : Prop :=
  forall fuel, (String.length p < fuel)%nat ->
    exists fuel', (String.length q < fuel')%nat /\
      forall s, parseelt fuel xp e p s = (run_events xp l ;;; parseelt fuel' xp e q) s.

Lemma goes_refl {S} (xp : xmlparser S) p : goes xp p p [].
Proof. intros fuel Hf. by exists fuel. Qed.
Lemma goes_trans {S} (xp : xmlparser S) p q r l1 l2 :
  goes xp p q l1 -> goes xp q r l2 -> goes xp p r (l1 ++ l2).
Proof.
  intros H1 H2 fuel Hf. destruct (H1 fuel Hf) as (f1 & Hf1 & E1).
  destruct (H2 f1 Hf1) as (f2 & Hf2 & E2). exists f2. split; [done|]. intros s.
  rewrite E1, run_app. apply bind_cong. intros [] s'. apply E2.
Qed.
Lemma goes_turn {S} (xp : xmlparser S) p q l :
  (e + 1 < String.length p)%nat -> (String.length q < String.length p)%nat ->
  (forall fuel s, (String.length p < fuel)%nat ->
     parseelt_turn fuel xp e p s = (run_events xp l ;;; ret (Some q)) s) ->
  goes xp p q l.
Proof.
  intros Hp Hq Ht fuel Hf. destruct fuel as [|fuel]; [lia|]. exists fuel. split; [lia|].
  intros s. cbn [parseelt]. rewrite (proj2 (past_false e 1 _)) by lia.
  rewrite (bind_run _ _ _ _ (Ht (Datatypes.S fuel) s Hf)), bind_assoc. done.
Qed.
(** Text between tags is passed over. *)
Lemma goes_text {S} (xp : xmlparser S) t r :
  str_all text_char t = true -> (e <= String.length r)%nat -> goes xp (t +:+ r) r [].
Proof.
  intros Ht Hr. induction t as [|c t IH]; [apply goes_refl|].
  simpl in Ht. apply andb_prop in Ht as [Hc Ht]. rewrite app_cons.
  destruct (decide (e + 1 < String.length (String c (t +:+ r)))%nat) as [Hl|Hl].
  - apply (goes_trans _ _ (t +:+ r) _ [] []); [|by apply IH].
    apply goes_turn; [done|len|]. intros fuel s Hf. unfold parseelt_turn. cbn [rd].
    rewrite bind_outcome. change (inc (String c ?u)) with u.
    destruct (rd_ok (t +:+ r)) as [y ->]; [len|]. rewrite bind_outcome.
    unfold text_char in Hc. destruct (Ascii.eqb c "<") eqn:Ec; [done|].
    rewrite memcmp_if by (intros ?%negb_lt; len).
    replace (starts_with "<!--" (String c (t +:+ r))) with false.
    2:{ change (false = Ascii.eqb "<" c && starts_with "!--" (t +:+ r)).
        by rewrite Ascii.eqb_sym, Ec. }
    by rewrite andb_false_r, bind_outcome.
  - intros fuel Hf. exists fuel. split; [len|]. intros s. destruct fuel as [|fuel]; [lia|].
    unfold run_events. cbn [for_each]. rewrite bind_ret. cbn [parseelt]. rewrite !(proj2 (past_spec e 1 _)) by len. done.
Qed.

Lemma print_head d r :
  doc_ok d = true -> d <> Empty ->
  exists y u, print d +:+ r = String "<" (String y u) /\ Ascii.eqb y "!" = false /\
    Ascii.eqb y "/" = false /\ (String.length r < String.length (String y u))%nat.
Proof.
  intros Hd Hne.
  assert (exists n t, name_ok n = true /\ print d +:+ r = String "<" (print_name n +:+ t) /\
    (String.length r <= String.length t)%nat) as (n & t & Hn & -> & Hl).
  { destruct d as [|n atts text after rest|n atts b c after rest]; [done| |]; simpl in Hd;
      rewrite <- !andb_assoc in Hd; apply andb_prop in Hd as [Hn _]; exists n; unfold start_tag;
      cbn [print]; unfold start_tag; rewrite !app_cons, !str_app_assoc, ?app_cons, ?str_app_assoc;
      eexists; (split; [done|]); (split; [done|]); len. }
  destruct (name_head n t Hn) as (y & u & Eu & Hy). exists y, u. rewrite Eu. split; [done|].
  unfold name_char in Hy.
  destruct (Ascii.eqb y "!"), (Ascii.eqb y "/"); rewrite ?andb_false_r in Hy; try done.
  split; [done|]. split; [done|]. apply f_equal with (f := String.length) in Eu.
  unfold name_ok, print_name in *. apply andb_prop in Hn as [_ Hn].
  apply bool_decide_eq_true in Hn. destruct (local n) as [|a l] eqn:El; [done|].
  destruct (bool_decide (prefix n = "")); len.
Qed.

Lemma goes_doc {S} (xp : xmlparser S) d r :
  doc_ok d = true -> (e <= String.length r)%nat -> goes xp (print d +:+ r) r (events d).
Proof.
  revert r. induction d as [|n atts text after rest IH|n atts b c IHc after rest IH];
    intros r Hd Hr; [apply goes_refl| |].
  - simpl in Hd. apply andb_prop in Hd as [[[[Hn Ha]%andb_prop Ht]%andb_prop Hf]%andb_prop Hd].
    cbn [print events]. rewrite !str_app_assoc.
    set (r2 := print rest +:+ r). set (q2 := after +:+ r2). set (q1 := end_tag n +:+ q2).
    assert (q1 = String "<" (String "/" (print_name n +:+ ">" +:+ q2))) as Eq1.
    { unfold q1, end_tag. by rewrite str_app_assoc, str_app_assoc. }
    assert (e <= String.length q2)%nat as Hq2 by (unfold q2, r2; len).
    rewrite app_comm_cons, app_assoc.
    apply (goes_trans _ _ q1); [|apply (goes_trans _ _ q2 _ [_]); [|apply (goes_trans _ _ r2 _ [])]].
    + apply goes_turn; [rewrite Eq1; unfold start_tag; len..|].
      intros fuel s Hfu. rewrite Eq1, turn_start by (done || (rewrite Eq1 in Hfu; len) || len). done.
    + apply goes_turn; [rewrite Eq1; len..|]. intros fuel s Hfu. by apply turn_end.
    + apply goes_text; [done|]. unfold r2. len.
    + by apply IH.
  - simpl in Hd. apply andb_prop in Hd as
      [[[[[[Hn Ha]%andb_prop Hb]%andb_prop Hne]%andb_prop Hc]%andb_prop Hf]%andb_prop Hd].
    cbn [print events]. rewrite !str_app_assoc.
    set (r2 := print rest +:+ r). set (q2 := after +:+ r2). set (q1 := end_tag n +:+ q2).
    set (q0 := print c +:+ q1).
    assert (q1 = String "<" (String "/" (print_name n +:+ ">" +:+ q2))) as Eq1.
    { unfold q1, end_tag. by rewrite str_app_assoc, str_app_assoc. }
    assert (e <= String.length q2)%nat as Hq2 by (unfold q2, r2; len).
    assert (e <= String.length q1)%nat as Hq1 by (rewrite Eq1; len).
    destruct (print_head c q1 Hc) as (y & u & Ey & Hy1 & Hy2 & Hlen); [by destruct c|].
    rewrite app_comm_cons.
    apply (goes_trans _ _ q0); [|apply (goes_trans _ _ q1);
      [|apply (goes_trans _ _ q2 _ [_]); [|apply (goes_trans _ _ r2 _ [])]]].
    + unfold q0. rewrite Ey. apply goes_turn; [unfold start_tag; len..|].
      intros fuel s Hfu. rewrite turn_start by (done || len). by rewrite Hy2, app_nil_r.
    + by apply IHc.
    + apply goes_turn; [rewrite Eq1; len..|]. intros fuel s Hfu. by apply turn_end.
    + apply goes_text; [done|]. unfold r2. len.
    + by apply IH.
Qed.
End Exact.

(** The [<?xml ... ?>] a document may begin with. *)
Definition prolog_ok (p : string) : bool :=
  bool_decide (p = "") || (starts_with "<?" p && str_all text_char (inc p)).

Lemma parsexml_print {S} (xp : xmlparser S) prolog d tail s :
  prolog_ok prolog = true -> doc_ok d = true ->
  parsexml xp (prolog +:+ print d +:+ tail) (String.length (prolog +:+ print d)) s =
  run_events xp (events d) s.
Proof.
  intros Hp Hd. unfold parsexml.
  replace (_ - _)%nat with (String.length tail) by len. set (e := String.length tail).
  assert (goes e xp (prolog +:+ print d +:+ tail) tail (events d)) as Hg.
  { apply (goes_trans _ _ _ (print d +:+ tail) _ []); [|by apply goes_doc].
    unfold prolog_ok in Hp. apply orb_prop in Hp as [->%bool_decide_eq_true|Hp];
      [apply goes_refl|].
    apply andb_prop in Hp as [Hp1 Hp2]. destruct prolog as [|a [|b p]]; [done| |].
    { change (Ascii.eqb "<" a && false = true) in Hp1. by rewrite andb_false_r in Hp1. }
    change (Ascii.eqb "<" a && (Ascii.eqb "?" b && true) = true) in Hp1.
    apply andb_prop in Hp1 as [Ha [Hb _]%andb_prop]. apply Ascii.eqb_eq in Ha, Hb. subst a b.
    change (inc (String "<" (String "?" p))) with (String "?" p) in Hp2.
    rewrite app_cons. apply (goes_trans _ _ _ (String "?" p +:+ print d +:+ tail) _ [] []).
    - apply goes_turn; [unfold e; len..|]. intros fuel s1 Hf. unfold parseelt_turn. cbn [rd].
      rewrite bind_outcome. change (inc (String "<" ?t)) with t. rewrite app_cons. cbn [rd].
      rewrite memcmp_if by (intros ?%negb_lt; len). rewrite andb_false_r, !bind_outcome. done.
    - apply goes_text; [done|]. unfold e. len. }
  destruct (Hg (Datatypes.S (String.length (prolog +:+ print d +:+ tail)))) as (f & Hf & E); [lia|].
  rewrite E. destruct f as [|f]; [lia|]. unfold bind.
  destruct (run_events xp (events d) s) as [[[] s1]|]; [|done]. cbn [parseelt].
  by rewrite (proj2 (past_spec e 1 _)) by (unfold e; lia).
Qed.

(** C22: The parser reports a document of the shape gateways send.  The documents
    ([doc], [doc_ok]) are nested elements, each with a start and an end tag, attributes
    in double quotes, either a text (reported) or child elements with a text before the
    first (not reported), and text without ['<'] behind an element (not reported); they have no empty-element tags,
    comments, CDATA sections, single-quoted attributes or markup within text (what the
    parser makes of those is shown by [collect_example]).  On the text of such a
    document, with a [<?xml ... ?>] in front and any bytes behind the buffer, the callbacks
    are called with the start, attribute, data and end events of the document, in
    order, and with nothing else; names of starting elements lose their namespace
    prefix. *)
Theorem parsexml_document {S} (xp : xmlparser S) prolog d tail s :
  prolog_ok prolog = true -> doc_ok d = true ->
  parsexml xp (prolog +:+ print d +:+ tail) (String.length (prolog +:+ print d)) s =
  run_events xp (events d) s.
Proof. intros Hp Hd. by apply parsexml_print. Qed.

(** ** A reply of a gateway *)
Definition soap (body : doc) : doc :=
  Node (mkName "s" "Envelope") [("xmlns:s", "http://schemas.xmlsoap.org/soap/envelope/")] ""
    (Node (mkName "s" "Body") [] "" body "" Empty) (String CR (String LF "")) Empty.
Definition leaf (n text : string) (rest : doc) : doc := Leaf (mkName "" n) [] text "" rest.
Definition xml_declaration : string := "<?xml version='1.0'?>" +:+ String CR (String LF "").

Lemma parsexml_document_witness :
  let d := soap (Node (mkName "u" "GetExternalIPAddressResponse") [] ""
    (leaf "NewExternalIPAddress" "1.2.3.4" Empty) "" Empty) in
  parsexml collect (xml_declaration +:+ print d +:+ "x") (String.length (xml_declaration +:+ print d)) [] =
  Ok (tt, events d).
Proof.
  intros d. rewrite (parsexml_document collect xml_declaration d "x" []); reflexivity.
Defined.
