(* ===== verification/Natpmp.v ===== *)
(** * Natpmp

    libnatpmp (src/peer/external/libnatpmp-20150609/natpmp.c and getgateway.c, the
    Linux branches): the NAT-PMP requests, the answers of the gateway, the retries,
    and the lookup of the default gateway. *)
From S2P Require Import Prelude.
From S2P Require Import CStr.
From S2P Require Import CSys.

Definition NATPMP_PORT : Z := 5351.
Definition NATPMP_PROTOCOL_UDP : Z := 1.
Definition NATPMP_PROTOCOL_TCP : Z := 2.
Definition NATPMP_ERR_INVALIDARGS : Z := -1.
Definition NATPMP_ERR_SOCKETERROR : Z := -2.
Definition NATPMP_ERR_CANNOTGETGATEWAY : Z := -3.
Definition NATPMP_ERR_CLOSEERR : Z := -4.
Definition NATPMP_ERR_RECVFROM : Z := -5.
Definition NATPMP_ERR_NOPENDINGREQ : Z := -6.
Definition NATPMP_ERR_NOGATEWAYSUPPORT : Z := -7.
Definition NATPMP_ERR_CONNECTERR : Z := -8.
Definition NATPMP_ERR_WRONGPACKETSOURCE : Z := -9.
Definition NATPMP_ERR_SENDERR : Z := -10.
Definition NATPMP_ERR_FCNTLERROR : Z := -11.
Definition NATPMP_ERR_GETTIMEOFDAYERR : Z := -12.
Definition NATPMP_ERR_UNSUPPORTEDVERSION : Z := -14.
Definition NATPMP_ERR_UNSUPPORTEDOPCODE : Z := -15.
Definition NATPMP_ERR_UNDEFINEDERROR : Z := -49.
Definition NATPMP_ERR_NOTAUTHORIZED : Z := -51.
Definition NATPMP_ERR_NETWORKFAILURE : Z := -52.
Definition NATPMP_ERR_OUTOFRESOURCES : Z := -53.
Definition NATPMP_TRYAGAIN : Z := -100.

(** ** The default gateway *)
Definition gets_line (s : string) : string * string :=
  (* fgets(buf, 256, f): up to 255 bytes, or through a newline *)
  let n := match index_of LF s with Some i => Nat.min 255 (Datatypes.S i) | None => 255%nat end in
  (str_take n s, str_drop n s).
(** [sscanf(s, "%lx", &v)] and what it leaves of [s]. *)
Fixpoint drop_while (f : ascii -> bool) (s : string) : string :=
  match s with
  | String c s' => if f c then drop_while f s' else s
  | EmptyString => EmptyString
  end.
Definition scan_lx (s : string) : option (Z * string) :=
  let (neg, t) := signed (skip_space s) in
  let t := if (starts_with "0x" t || starts_with "0X" t) && has_digit 16 (str_drop 2 t)
           then str_drop 2 t else t in
  if has_digit 16 t then
    let v := digits 16 t 0 in
    Some (if 2 ^ 64 <=? v then 2 ^ 64 - 1 else if neg then wrap_u 64 (- v) else v,
          drop_while is_xdigit t)
  else None.
(** The body of the loop on one line: the gateway, when the line is the default
    route. *)
Definition route_line (buf : string) : option Z :=
  let p := drop_while is_space (drop_while (fun c => negb (is_space c)) (c_str buf)) in
  match scan_lx p with
  | Some (d, rest) =>
      match scan_lx rest with
      | Some (g, _) => if (d =? 0) && negb (g =? 0) then Some (wrap_u 32 g) else None
      | None => None
      end
  | None => None
  end.
Fixpoint route_lines (fuel : nat) (line : Z) (f : string) : option Z :=
  match fuel with
  | O => None
  | Datatypes.S fuel' =>
      if bool_decide (f = "") then None
      else
        let (buf, f') := gets_line f in
        match (if 0 <? line then route_line buf else None) with
        | Some g => Some g
        | None => route_lines fuel' (line + 1) f'
        end
  end.
(** Every line takes a byte of the file at least. *)
Definition find_gateway (f : string) : option Z := route_lines (Datatypes.S (String.length f)) 0 f.

Section Natpmp.
Context `{Os}.

Definition getdefaultgateway : M Sys (option Z) :=
  let! a := sys (ReadFile "/proc/net/route") in
  if a_ret a <? 0 then ret None else ret (find_gateway (a_data a)).

(** ** [natpmp_t] *)
Record natpmp_t : Type := mkNatpmp {
  s : Z;
  gateway : Z;
  has_pending_request : bool;
  pending_request : list Z;
  pending_request_len : Z;
  try_number : Z;
  retry_time : Z * Z
}.
Definition natpmp_zero : natpmp_t := mkNatpmp 0 0 false (repeat 0 12) 0 0 (0, 0).
Definition set_s v p := mkNatpmp v (gateway p) (has_pending_request p) (pending_request p)
  (pending_request_len p) (try_number p) (retry_time p).
Definition set_gateway v p := mkNatpmp (s p) v (has_pending_request p) (pending_request p)
  (pending_request_len p) (try_number p) (retry_time p).
Definition set_pending v p := mkNatpmp (s p) (gateway p) v (pending_request p)
  (pending_request_len p) (try_number p) (retry_time p).
(** The first bytes of [pending_request], whose length is set with them. *)
Definition set_request v p := mkNatpmp (s p) (gateway p) (has_pending_request p)
  (v ++ drop (length v) (pending_request p)) (Z.of_nat (length v)) (try_number p) (retry_time p).
Definition set_try v p := mkNatpmp (s p) (gateway p) (has_pending_request p) (pending_request p)
  (pending_request_len p) v (retry_time p).
Definition set_retry v p := mkNatpmp (s p) (gateway p) (has_pending_request p) (pending_request p)
  (pending_request_len p) (try_number p) v.

Definition O_NONBLOCK : Z := 2048.
Definition PF_INET : Z := 2.

(** [initnatpmp]; a null pointer is [None]. *)
Definition initnatpmp (p : option natpmp_t) (forcegw : bool) (forcedgw : Z) :
    M Sys (Z * option natpmp_t) :=
  match p with
  | None => ret (NATPMP_ERR_INVALIDARGS, None)
  | Some _ =>
      let! a := sys (Socket PF_INET) in
      let p := set_s (a_ret a) natpmp_zero in
      if a_ret a <? 0 then ret (NATPMP_ERR_SOCKETERROR, Some p)
      else
        let! f := sys (FcntlGetfl (s p)) in
        if a_ret f <? 0 then ret (NATPMP_ERR_FCNTLERROR, Some p)
        else
          let! g := sys (FcntlSetfl (s p) (Z.lor (a_ret f) O_NONBLOCK)) in
          if a_ret g <? 0 then ret (NATPMP_ERR_FCNTLERROR, Some p)
          else
            let! gw := (if forcegw then ret (Some forcedgw) else getdefaultgateway) in
            match gw with
            | None => ret (NATPMP_ERR_CANNOTGETGATEWAY, Some p)
            | Some gw =>
                let p := set_gateway gw p in
                let! c := sys (Connect (s p) (string_of (le_bytes 4 gw)) NATPMP_PORT 0) in
                if a_ret c <? 0 then ret (NATPMP_ERR_CONNECTERR, Some p) else ret (0, Some p)
            end
  end.

Definition closenatpmp (p : option natpmp_t) : M Sys Z :=
  match p with
  | None => ret NATPMP_ERR_INVALIDARGS
  | Some p =>
      let! a := sys (Close (s p)) in
      if a_ret a <? 0 then ret NATPMP_ERR_CLOSEERR else ret 0
  end.

Definition sendpendingrequest (p : natpmp_t) : M Sys Z :=
  let! a := sys (Send (s p) (string_of (take (Z.to_nat (pending_request_len p)) (pending_request p)))) in
  ret (if a_ret a <? 0 then NATPMP_ERR_SENDERR else a_ret a).

(** [tv_usec += us], with the carry the code propagates. *)
Definition add_usec (us : Z) (t : Z * Z) : Z * Z :=
  let u := t.2 + us in
  if 1000000 <=? u then (t.1 + 1, u - 1000000) else (t.1, u).

Definition sendnatpmprequest (p : natpmp_t) : M Sys (Z * natpmp_t) :=
  let p := set_try 1 (set_pending true p) in
  let! n := sendpendingrequest p in
  let! t := sys Gettimeofday in
  (* the result of gettimeofday is not looked at: a failing call leaves retry_time *)
  let now := if a_ret t <? 0 then retry_time p else (a_num1 t, a_num2 t) in
  ret (n, set_retry (add_usec 250000 now) p).

(** [getnatpmprequesttimeout]: the result and the timeout, when it is filled in. *)
Definition getnatpmprequesttimeout (p : option natpmp_t) (timeout_null : bool) :
    M Sys (Z * option (Z * Z)) :=
  match p with
  | None => ret (NATPMP_ERR_INVALIDARGS, None)
  | Some p =>
      if timeout_null then ret (NATPMP_ERR_INVALIDARGS, None)
      else if negb (has_pending_request p) then ret (NATPMP_ERR_NOPENDINGREQ, None)
      else
        let! t := sys Gettimeofday in
        if a_ret t <? 0 then ret (NATPMP_ERR_GETTIMEOFDAYERR, None)
        else
          let sec := (retry_time p).1 - a_num1 t in
          let usec := (retry_time p).2 - a_num2 t in
          ret (0, Some (if usec <? 0 then (sec - 1, usec + 1000000) else (sec, usec)))
  end.

Definition sendpublicaddressrequest (p : option natpmp_t) : M Sys (Z * option natpmp_t) :=
  match p with
  | None => ret (NATPMP_ERR_INVALIDARGS, None)
  | Some p =>
      let! (n, p) := sendnatpmprequest (set_request [0; 0] p) in ret (n, Some p)
  end.

(** The twelve bytes of a mapping request. *)
Definition mapping_request (protocol privateport publicport lifetime : Z) : list Z :=
  [0; protocol; 0; 0;
   byte_at 8 privateport; byte_at 0 privateport;
   byte_at 8 publicport; byte_at 0 publicport;
   byte_at 24 lifetime; byte_at 16 lifetime; byte_at 8 lifetime; byte_at 0 lifetime].
Definition sendnewportmappingrequest (p : option natpmp_t)
    (protocol privateport publicport lifetime : Z) : M Sys (Z * option natpmp_t) :=
  match p with
  | None => ret (NATPMP_ERR_INVALIDARGS, None)
  | Some q =>
      if negb (protocol =? NATPMP_PROTOCOL_TCP) && negb (protocol =? NATPMP_PROTOCOL_UDP)
      then ret (NATPMP_ERR_INVALIDARGS, p)
      else
        let! (n, q) := sendnatpmprequest
          (set_request (mapping_request protocol privateport publicport lifetime) q) in
        ret (n, Some q)
  end.

(** ** Answers *)
Inductive pnu : Type :=
  | publicaddress (addr : Z)
  | newportmapping (privateport mappedpublicport lifetime : Z).
Record natpmpresp_t : Type := mkResp {
  resp_type : Z;
  resultcode : Z;
  epoch : Z;
  resp_pnu : pnu
}.
(** [ntohs] and [ntohl] of the bytes at an offset, and the bytes as they are. *)
Definition ntoh (w : nat) (buf : list Z) (o : nat) : Z := be_value (take w (drop o buf)) 0.
Definition raw32 (buf : list Z) (o : nat) : Z := le_value (take 4 (drop o buf)).

Definition result_error (resultcode : Z) : Z :=
  match resultcode with
  | 1 => NATPMP_ERR_UNSUPPORTEDVERSION
  | 2 => NATPMP_ERR_NOTAUTHORIZED
  | 3 => NATPMP_ERR_NETWORKFAILURE
  | 4 => NATPMP_ERR_OUTOFRESOURCES
  | 5 => NATPMP_ERR_UNSUPPORTEDOPCODE
  | _ => NATPMP_ERR_UNDEFINEDERROR
  end.
(** What [readnatpmpresponse] makes of the sixteen bytes of [buf]. *)
Definition read_response (buf : list Z) (response : natpmpresp_t) : Z * natpmpresp_t :=
  let b0 := nth 0 buf 0 in
  let b1 := nth 1 buf 0 in
  let r := mkResp (resp_type response) (ntoh 2 buf 2) (ntoh 4 buf 4) (resp_pnu response) in
  if negb (b0 =? 0) then (NATPMP_ERR_UNSUPPORTEDVERSION, r)
  else if (b1 <? 128) || (130 <? b1) then (NATPMP_ERR_UNSUPPORTEDOPCODE, r)
  else if negb (resultcode r =? 0) then (result_error (resultcode r), r)
  else
    (0, mkResp (Z.land b1 127) (resultcode r) (epoch r)
          (if b1 =? 128 then publicaddress (raw32 buf 8)
           else newportmapping (ntoh 2 buf 8) (ntoh 2 buf 10) (ntoh 4 buf 12))).

(** [readnatpmpresponse]; [stack] is what the local array [buf] holds before
    [recvfrom] stores a datagram at its beginning. *)
Definition readnatpmpresponse (stack : list Z) (p : option natpmp_t) (response : natpmpresp_t) :
    M Sys (Z * natpmpresp_t) :=
  match p with
  | None => ret (NATPMP_ERR_INVALIDARGS, response)
  | Some p =>
      let! a := sys (Recv (s p) 16) in
      if a_ret a <? 0 then
        let! e := get_errno in
        ret (if e =? EWOULDBLOCK then NATPMP_TRYAGAIN
             else if e =? ECONNREFUSED then NATPMP_ERR_NOGATEWAYSUPPORT
             else NATPMP_ERR_RECVFROM, response)
      else if negb (a_from a =? gateway p) then ret (NATPMP_ERR_WRONGPACKETSOURCE, response)
      else
        let data := bytes_of (a_data a) in
        ret (read_response (data ++ drop (length data) stack) response)
  end.

Definition time_le (a b : Z * Z) : bool :=
  (a.1 <? b.1) || ((a.1 =? b.1) && (a.2 <=? b.2)).

(** The branch of [readnatpmpresponseorretry] for a request whose time is up. *)
Definition retry (p : natpmp_t) : M Sys (Z * natpmp_t) :=
  if 9 <=? try_number p then ret (NATPMP_ERR_NOGATEWAYSUPPORT, p)
  else
    let delay := 250 * Z.shiftl 1 (try_number p) in
    let t := (fst (retry_time p) + Z.quot delay 1000, snd (retry_time p)) in
    let p := set_try (try_number p + 1) (set_retry (add_usec (Z.rem delay 1000 * 1000) t) p) in
    let! r := sendpendingrequest p in
    ret (if r <? 0 then r else NATPMP_TRYAGAIN, p).

Definition readnatpmpresponseorretry (stack : list Z) (p : option natpmp_t)
    (response : option natpmpresp_t) : M Sys (Z * option natpmp_t * option natpmpresp_t) :=
  match p, response with
  | Some q, Some resp =>
      if negb (has_pending_request q) then ret (NATPMP_ERR_NOPENDINGREQ, p, response)
      else
        let! (n, resp) := readnatpmpresponse stack p resp in
        if n <? 0 then
          if n =? NATPMP_TRYAGAIN then
            let! t := sys Gettimeofday in
            (* the code reads an unset variable when gettimeofday fails *)
            if a_ret t <? 0 then fail Undefined
            else if time_le (retry_time q) (a_num1 t, a_num2 t) then
              let! (n, q) := retry q in ret (n, Some q, Some resp)
            else ret (n, p, Some resp)
          else ret (n, p, Some resp)
        else ret (n, Some (set_pending false q), Some resp)
  | _, _ => ret (NATPMP_ERR_INVALIDARGS, p, response)
  end.

Definition strnatpmperr (r : Z) : string :=
  if r =? NATPMP_ERR_INVALIDARGS then "invalid arguments"
  else if r =? NATPMP_ERR_SOCKETERROR then "socket() failed"
  else if r =? NATPMP_ERR_CANNOTGETGATEWAY then "cannot get default gateway ip address"
  else if r =? NATPMP_ERR_CLOSEERR then "close() failed"
  else if r =? NATPMP_ERR_RECVFROM then "recvfrom() failed"
  else if r =? NATPMP_ERR_NOPENDINGREQ then "no pending request"
  else if r =? NATPMP_ERR_NOGATEWAYSUPPORT then "the gateway does not support nat-pmp"
  else if r =? NATPMP_ERR_CONNECTERR then "connect() failed"
  else if r =? NATPMP_ERR_WRONGPACKETSOURCE then "packet not received from the default gateway"
  else if r =? NATPMP_ERR_SENDERR then "send() failed"
  else if r =? NATPMP_ERR_FCNTLERROR then "fcntl() failed"
  else if r =? NATPMP_ERR_GETTIMEOFDAYERR then "gettimeofday() failed"
  else if r =? NATPMP_ERR_UNSUPPORTEDVERSION then "unsupported nat-pmp version error from server"
  else if r =? NATPMP_ERR_UNSUPPORTEDOPCODE then "unsupported nat-pmp opcode error from server"
  else if r =? NATPMP_ERR_UNDEFINEDERROR then "undefined nat-pmp server error"
  else if r =? NATPMP_ERR_NOTAUTHORIZED then "not authorized"
  else if r =? NATPMP_ERR_NETWORKFAILURE then "network failure"
  else if r =? NATPMP_ERR_OUTOFRESOURCES then "nat-pmp server out of resources"
  else "Unknown libnatpmp error".
End Natpmp.

(** ** The wire format *)
(** The answer of RFC 6886 to a mapping request: result code 0, the epoch, the
    ports and the lifetime granted. *)
Definition mapping_answer (protocol epoch privateport publicport lifetime : Z) : list Z :=
  [0; 128 + protocol; 0; 0] ++ be_bytes32 epoch ++ be_bytes16 privateport ++
  be_bytes16 publicport ++ be_bytes32 lifetime.
(** What a gateway reads in a mapping request. *)
Definition request_fields (r : list Z) : Z * Z * Z * Z * Z :=
  (nth 0 r 0, nth 1 r 0, ntoh 2 r 4, ntoh 2 r 6, ntoh 4 r 8).

(** NAT-PMP messages carry their fields.  A mapping request is twelve bytes that
    hold version 0, the protocol, both ports and the lifetime in network order, and
    the gateway's answer to it is read back field for field as a success. *)
Theorem natpmp_wire_format protocol privateport publicport lifetime ep r :
  protocol = NATPMP_PROTOCOL_UDP \/ protocol = NATPMP_PROTOCOL_TCP ->
  0 <= privateport < 2 ^ 16 -> 0 <= publicport < 2 ^ 16 -> 0 <= lifetime < 2 ^ 32 ->
  0 <= ep < 2 ^ 32 ->
  length (mapping_request protocol privateport publicport lifetime) = 12%nat /\
  request_fields (mapping_request protocol privateport publicport lifetime) =
    (0, protocol, privateport, publicport, lifetime) /\
  read_response (mapping_answer protocol ep privateport publicport lifetime) r =
    (0, mkResp protocol 0 ep (newportmapping privateport publicport lifetime)).
Proof.
  intros Hp H1 H2 H3 H4. split; [done|]. split.
  - unfold request_fields, mapping_request, ntoh. cbn [nth drop take].
    by rewrite !be16, be32 by done.
  - unfold read_response, mapping_answer, ntoh.
    cbn [be_bytes32 be_bytes16 app nth drop take].
    rewrite !be16, !be32 by done. by destruct Hp as [-> | ->].
Qed.
Lemma natpmp_wire_format_witness :
  request_fields (mapping_request NATPMP_PROTOCOL_UDP 5351 443 3600) = (0, 1, 5351, 443, 3600).
Proof.
  destruct (natpmp_wire_format NATPMP_PROTOCOL_UDP 5351 443 3600 7 (mkResp 0 0 0 (publicaddress 0)))
    as (_ & H & _); [left; reflexivity|lia..|exact H].
Defined.

(** ** Polling for an answer *)
Section Polling.
Context `{Os}.

Definition micros (t : Z * Z) : Z := t.1 * 1000000 + t.2.
Definition is_send (c : call) : bool := match c with Send _ _ => true | _ => false end.
Definition sends (st : Sys) : Z :=
  Z.of_nat (length (filter (fun x => is_send x.1 = true) (trace st))).
(** [gettimeofday] works and keeps its microseconds below a second. *)
Class ClockLaws : Prop := {
  clock_ok : forall tr, let a := os tr Gettimeofday in 0 <= a_ret a /\ 0 <= a_num2 a < 1000000
}.

Lemma add_usec_spec us t :
  0 <= us <= 1000000 -> 0 <= t.2 < 1000000 ->
  micros (add_usec us t) = micros t + us /\ 0 <= (add_usec us t).2 < 1000000.
Proof.
  intros Hu Ht. unfold add_usec, micros. destruct (Z.leb_spec 1000000 (t.2 + us)); simpl; lia.
Qed.

Lemma sends_app st st' c a :
  trace st' = trace st ++ [(c, a)] ->
  sends st' = sends st + (if is_send c then 1 else 0).
Proof.
  intros E. unfold sends. rewrite E, filter_app, length_app.
  destruct (is_send c) eqn:Ec; [rewrite filter_cons_True by done|rewrite filter_cons_False by (simpl; congruence)];
    rewrite filter_nil; simpl; lia.
Qed.

(** What holds of a request that was first sent at time [t0], when [before]
    datagrams had been sent. *)
Definition on_schedule (t0 before : Z) (q : natpmp_t) (st : Sys) : Prop :=
  has_pending_request q = true /\ 1 <= try_number q <= 9 /\
  0 <= (retry_time q).2 < 1000000 /\
  micros (retry_time q) = t0 + 250000 * (2 ^ try_number q - 1) /\
  sends st = before + try_number q.

(** A poll that leaves the request pending. *)
Inductive polled : natpmp_t * Sys -> natpmp_t * Sys -> Prop :=
  | polled_refl x : polled x x
  | polled_step x q st stack resp n q' resp' st' :
      polled x (q, st) -> n < 0 ->
      readnatpmpresponseorretry stack (Some q) (Some resp) st = Ok (n, Some q', resp', st') ->
      polled x (q', st').

Lemma retry_schedule_step t0 before q st n q' st' :
  on_schedule t0 before q st -> retry q st = Ok (n, q', st') -> on_schedule t0 before q' st'.
Proof.
  intros (Hp & Ht & Hu & Hm & Hs) E. unfold retry in E.
  destruct (Z.leb_spec 9 (try_number q)); [by msteps|].
  apply bind_ok in E as (r & st1 & E1 & E). unfold sendpendingrequest in E1.
  apply bind_ok in E1 as (a & st2 & E1 & E2). apply sys_ok in E1 as [_ Etr]. msteps.
  set (k := try_number q) in *.
  assert (Z.shiftl 1 k = 2 ^ k) as Hsh by (rewrite Z.shiftl_mul_pow2 by lia; lia).
  assert (2 ^ (k + 1) = 2 * 2 ^ k) as Hpow by (rewrite Z.pow_add_r by lia; lia).
  assert (1 <= 2 ^ k) as Hpos by (pose proof (Z.pow_pos_nonneg 2 k); lia).
  rewrite Hsh. set (delay := 250 * 2 ^ k).
  assert (0 <= delay) as Hd by (unfold delay; lia).
  pose proof (Z.quot_rem' delay 1000). pose proof (Z.rem_bound_pos delay 1000 Hd ltac:(lia)).
  destruct (add_usec_spec (Z.rem delay 1000 * 1000)
    ((retry_time q).1 + Z.quot delay 1000, (retry_time q).2)) as [Hm' Hu']; [lia|done|].
  split; [done|]. split; [simpl; lia|]. split; [exact Hu'|]. split.
  - cbn [set_try set_retry retry_time try_number]. rewrite Hm', Hpow. unfold micros in *. simpl.
    unfold delay in *. lia.
  - rewrite (sends_app _ _ _ _ Etr). cbn [set_try try_number is_send]. unfold k in *. lia.
Qed.

Lemma sends_keep st c a st' : sys c st = Ok (a, st') -> is_send c = false -> sends st' = sends st.
Proof. intros E Hc. apply sys_ok in E as [_ E]. rewrite (sends_app _ _ _ _ E), Hc. lia. Qed.
Lemma errno_keep st e st' : get_errno st = Ok (e, st') -> st' = st.
Proof. unfold get_errno. intros E. by msteps. Qed.

Lemma readnatpmpresponse_sends stack p r st x st' :
  readnatpmpresponse stack p r st = Ok (x, st') -> sends st' = sends st.
Proof.
  unfold readnatpmpresponse. destruct p as [p|]; [|by intros; msteps].
  intros (a & st1 & E1 & E)%bind_ok. apply sends_keep in E1; [|done].
  destruct (a_ret a <? 0).
  - apply bind_ok in E as (e & st2 & E2 & E). apply errno_keep in E2 as ->. by msteps.
  - destruct (negb _); by msteps.
Qed.

Lemma poll_schedule t0 before q st stack resp n q' resp' st' :
  on_schedule t0 before q st -> n < 0 ->
  readnatpmpresponseorretry stack (Some q) (Some resp) st = Ok (n, Some q', resp', st') ->
  on_schedule t0 before q' st'.
Proof.
  intros Hq Hn E. unfold readnatpmpresponseorretry in E.
  assert (forall s1, sends s1 = sends st -> on_schedule t0 before q s1) as Hkeep.
  { intros s1 Hs. destruct Hq as (? & ? & ? & ? & ?). by rewrite <- Hs in *. }
  destruct Hq as [Hp _]. rewrite Hp in E. cbn [negb] in E.
  apply bind_ok in E as ([m r] & st1 & E1 & E). apply readnatpmpresponse_sends in E1.
  destruct (Z.ltb_spec m 0); [|by msteps; lia].
  destruct (m =? NATPMP_TRYAGAIN); [|by msteps; apply Hkeep].
  apply bind_ok in E as (t & st2 & E2 & E). apply sends_keep in E2; [|done].
  destruct (a_ret t <? 0); [done|]. destruct (time_le _ _); [|msteps; apply Hkeep; congruence].
  apply bind_ok in E as ([m' q1] & st3 & E3 & E). msteps.
  eapply retry_schedule_step; [|exact E3]. apply Hkeep. congruence.
Qed.

(** A new request is on schedule. *)
Lemma send_on_schedule `{!ClockLaws} p st n q st0 :
  sendnatpmprequest p st = Ok (n, q, st0) ->
  exists c a t, trace st0 = trace st ++ [(c, a); (Gettimeofday, t)] /\
  on_schedule (micros (a_num1 t, a_num2 t)) (sends st) q st0.
Proof.
  intros E. unfold sendnatpmprequest in E. apply bind_ok in E as (m & st1 & E1 & E).
  unfold sendpendingrequest in E1. apply bind_ok in E1 as (a & st2 & E1 & E2).
  unfold ret in E2. injection E2 as <- <-.
  apply sys_ok in E1 as [_ Etr]. pose proof (sends_app _ _ _ _ Etr) as Hs.
  apply bind_ok in E as (b & st3 & E2 & E). pose proof (sends_keep _ _ _ _ E2 eq_refl) as Hs2.
  apply sys_ok in E2 as [Eb Etr2]. destruct (clock_ok (trace st2)) as [Ht1 Ht2].
  subst b. destruct (Z.ltb_spec (a_ret (os (trace st2) Gettimeofday)) 0); [lia|]. msteps.
  eexists _, _, (os (trace st2) Gettimeofday). split; [by rewrite Etr2, Etr, <- app_assoc|].
  destruct (add_usec_spec 250000 (a_num1 (os (trace st2) Gettimeofday),
    a_num2 (os (trace st2) Gettimeofday))) as [Hm Hu]; [lia|done|].
  split; [done|]. cbn [set_retry retry_time try_number set_try set_pending is_send] in *.
  split; [lia|]. split; [done|]. split; [rewrite Hm; lia|lia].
Qed.

Lemma time_le_micros a b :
  0 <= a.2 < 1000000 -> 0 <= b.2 < 1000000 -> time_le a b = (micros a <=? micros b).
Proof.
  intros Ha Hb. unfold time_le, micros.
  destruct (Z.ltb_spec a.1 b.1), (Z.eqb_spec a.1 b.1), (Z.leb_spec a.2 b.2),
    (Z.leb_spec (a.1 * 1000000 + a.2) (b.1 * 1000000 + b.2)); (done || lia).
Qed.
(** What a poll does when no answer is there and the clock then shows [now]. *)
Definition poll_does (q : natpmp_t) (st : Sys) (now deadline : Z) (n : Z) (q' : natpmp_t) (st' : Sys) : Prop :=
  if now <? deadline then n = NATPMP_TRYAGAIN /\ q' = q /\ sends st' = sends st
  else if try_number q <? 9 then try_number q' = try_number q + 1 /\ sends st' = sends st + 1
  else n = NATPMP_ERR_NOGATEWAYSUPPORT /\ q' = q /\ sends st' = sends st.
Lemma poll_silent `{!ClockLaws} t0 before q st stack resp :
  on_schedule t0 before q st ->
  let r := os (trace st) (Recv (s q) 16) in
  let t := os (trace st ++ [(Recv (s q) 16, r)]) Gettimeofday in
  a_ret r < 0 -> a_errno r = EWOULDBLOCK ->
  exists n q' st', readnatpmpresponseorretry stack (Some q) (Some resp) st = Ok (n, Some q', Some resp, st') /\
    poll_does q st (micros (a_num1 t, a_num2 t)) (t0 + 250000 * (2 ^ try_number q - 1)) n q' st'.
Proof.
  intros (Hp & Ht & Hu & Hm & _) r t Hr He. destruct (clock_ok (trace st ++ [(Recv (s q) 16, r)])) as [Ht1 Ht2].
  fold t in Ht1, Ht2. unfold readnatpmpresponseorretry, readnatpmpresponse. rewrite Hp. cbn [negb].
  unfold bind, sys, get_errno, gets, ret. fold r. destruct (Z.ltb_spec (a_ret r) 0); [|lia].
  cbn [errno trace]. rewrite He. change (EWOULDBLOCK =? EWOULDBLOCK) with true. cbv iota.
  change (NATPMP_TRYAGAIN <? 0) with true. cbn [trace]. fold t.
  change (NATPMP_TRYAGAIN =? NATPMP_TRYAGAIN) with true. cbv iota.
  cbn [trace errno]. fold t.
  destruct (Z.ltb_spec (a_ret t) 0); [lia|]. rewrite time_le_micros by done. rewrite Hm. unfold poll_does.
  set (now := micros (a_num1 t, a_num2 t)). set (deadline := t0 + _).
  match goal with |- context [mkSys ((trace st ++ ?x) ++ ?y) ?e] => set (st2 := mkSys ((trace st ++ x) ++ y) e) end.
  assert (sends st2 = sends st) as Hs2.
  { unfold st2, sends. cbn [trace]. rewrite !filter_app, !filter_cons_False, filter_nil, !app_nil_r by done. done. }
  destruct (Z.leb_spec deadline now), (Z.ltb_spec now deadline); try lia.
  - unfold retry. destruct (Z.leb_spec 9 (try_number q)), (Z.ltb_spec (try_number q) 9); try lia.
    + eexists _, q, st2. split; [done|]. done.
    + unfold sendpendingrequest, bind, sys, ret. eexists _, _, _. split; [done|]. split; [done|].
      rewrite <- Hs2. unfold sends. cbn [trace].
      rewrite filter_app, filter_cons_True, filter_nil, length_app by done. cbn [length]. lia.
  - eexists _, q, st2. split; [done|]. done.
Qed.

(** C34: Retries follow the schedule and stop.  After a request first sent at [t0],
    however often and whenever it is polled, the next deadline is
    [t0 + 250 ms * (2^k - 1)] when [k] datagrams have been sent, and never more than
    nine are sent.  The next poll that finds no answer sends nothing before the deadline,
    sends the request once more behind it, and with nine datagrams out reports behind the
    last deadline that the gateway does not answer, and sends nothing. *)
Theorem retry_schedule `{!ClockLaws} p st n q st0 q' st' :
  sendnatpmprequest p st = Ok (n, q, st0) -> polled (q, st0) (q', st') ->
  exists c a t, trace st0 = trace st ++ [(c, a); (Gettimeofday, t)] /\
  let t0 := micros (a_num1 t, a_num2 t) in
  on_schedule t0 (sends st) q' st' /\
  sends st' <= sends st + 9 /\
  forall stack resp,
    let r := os (trace st') (Recv (s q') 16) in
    let now := os (trace st' ++ [(Recv (s q') 16, r)]) Gettimeofday in
    a_ret r < 0 -> a_errno r = EWOULDBLOCK ->
    exists m q2 st2, readnatpmpresponseorretry stack (Some q') (Some resp) st' = Ok (m, Some q2, Some resp, st2) /\
      poll_does q' st' (micros (a_num1 now, a_num2 now)) (t0 + 250000 * (2 ^ try_number q' - 1)) m q2 st2.
Proof.
  intros E Hpoll. destruct (send_on_schedule _ _ _ _ _ E) as (c & a & t & Htr & Hq).
  assert (on_schedule (micros (a_num1 t, a_num2 t)) (sends st) q' st') as Hq'.
  { remember (q, st0) as x. remember (q', st') as y. revert q' st' Heqy.
    induction Hpoll as [x|x q1 st1 stack resp m q2 resp' st2 Hpoll IH Hm E'];
      intros q3 st3 Heqy; subst; simplify_eq; [done|].
    eapply poll_schedule; [|exact Hm|exact E']. by apply IH. }
  exists c, a, t. split; [done|]. intros t0. split; [done|].
  split; [destruct Hq' as (_ & Ht & _ & _ & Hs); lia|].
  intros stack resp r now Hr He. by apply (poll_silent t0 (sends st)).
Qed.

(** A datagram shorter than the answer is not turned down: an empty one from the
    gateway is read out of what the local array held before. *)
Lemma empty_answer_reads_stack stack p r st :
  let a := os (trace st) (Recv (s p) 16) in
  a_ret a = 0 -> a_data a = "" -> a_from a = gateway p ->
  exists st', readnatpmpresponse stack (Some p) r st = Ok (read_response stack r, st').
Proof.
  intros a Ha Hd Hf. unfold readnatpmpresponse, sys, bind, ret. fold a.
  rewrite Ha, Hd, Hf, Z.eqb_refl. by eexists.
Qed.
End Polling.

(** ** A gateway that never answers *)
#[local] Instance silent_gateway : Os := fun tr c =>
  match c with
  | Recv _ _ => mkAnswer (-1) EWOULDBLOCK "" 0 0 0 []
  | Send _ d => mkAnswer (slen d) 0 "" 0 0 0 []
  | Gettimeofday => mkAnswer 0 0 "" 0 (if (length tr =? 1)%nat then 100 else 200) 900000 []
  | _ => answer0
  end.
#[local] Instance silent_gateway_laws : ClockLaws.
Proof. split. intros tr. simpl. lia. Qed.
Definition resp0 : natpmpresp_t := mkResp 0 0 0 (publicaddress 0).

Lemma retry_schedule_witness :
  exists q st0 q' st', sendnatpmprequest natpmp_zero sys0 = Ok (0, q, st0) /\
    polled (q, st0) (q', st') /\ try_number q' = 2 /\
    on_schedule 100900000 0 q' st' /\ retry_time q' = (101, 650000).
Proof.
  destruct (sendnatpmprequest natpmp_zero sys0) as [[[n q] st0]|] eqn:E;
    [|vm_compute in E; discriminate E].
  destruct (readnatpmpresponseorretry (repeat 0 16) (Some q) (Some resp0) st0)
    as [[[[m q1] r1] st1]|] eqn:E1;
    [|vm_compute in E; injection E as <- <- <-; vm_compute in E1; discriminate E1].
  assert (n = 0 /\ m = NATPMP_TRYAGAIN /\ exists q', q1 = Some q' /\ try_number q' = 2 /\
    retry_time q' = (101, 650000)) as (-> & -> & q' & -> & Ht & Hr).
  { vm_compute in E. injection E as <- <- <-. vm_compute in E1. injection E1 as <- <- <- <-.
    split; [reflexivity|]. split; [reflexivity|]. by eexists. }
  exists q, st0, q', st1. split; [reflexivity|].
  destruct r1 as [r1|]; [|vm_compute in E; injection E as <- <-; vm_compute in E1; discriminate E1].
  assert (polled (q, st0) (q', st1)) as Hp.
  { eapply polled_step; [apply polled_refl| |exact E1]. reflexivity. }
  split; [exact Hp|]. split; [exact Ht|]. split; [|exact Hr].
  destruct (retry_schedule natpmp_zero sys0 0 q st0 q' st1 E Hp) as (c & a & t & Htr & Hq & _).
  assert (micros (a_num1 t, a_num2 t) = 100900000) as Ht1; [|by rewrite Ht1 in Hq].
  vm_compute in E. injection E as <- <-. vm_compute in Htr. injection Htr as <- <- <-. done.
Defined.

Example find_gateway_example :
  find_gateway ("Iface Destination Gateway Flags" +:+ String LF ("eth0 0000FEA9 00000000 0001" +:+
    String LF ("wlan0 00000000 0101A8C0 0003" +:+ String LF ""))) = Some 16885952.
Proof. vm_compute. reflexivity. Qed.
