(* ===== verification/Console.v ===== *)
(** * Console

    What the command line tools of the two C libraries share: the two output
    streams, the conversions of [printf], [scanf] and <string.h> they use, and the
    vector of arguments. *)
From S2P Require Import Prelude.
From S2P Require Import CStr.
From S2P Require Import CSys.

(** ** Output

    Everything written, in order, beside the operating system. *)
Inductive stream : Type := Stdout | Stderr.
Definition Console : Type := list (stream * string).
Definition Tool (A : Type) : Type := M (Sys * Console) A.

Definition fprint (f : stream) (l : list string) : Tool unit :=
  on_snd (T := Console) (modify (fun c => c ++ [(f, join l)])).
Definition printf : list string -> Tool unit := fprint Stdout.
Definition eprintf : list string -> Tool unit := fprint Stderr.
(** A call of the library, which prints nothing. *)
Definition lib {A} (m : M Sys A) : Tool A := on_fst m.

Definition nl : string := String LF EmptyString.
Definition tab : string := String TAB EmptyString.
(** What is in quotes in the C source. *)
Definition quote : string := String (chr 34) EmptyString.
(** ["%s"] of a pointer, which glibc prints also when it is null. *)
Definition str (s : option string) : string := default "(null)" s.

(** ** Conversions *)
Fixpoint spaces (n : nat) : string :=
  match n with O => EmptyString | S n' => String SP (spaces n') end.
(** ["%ns"] and ["%-ns"] *)
Definition pad_left (n : nat) (s : string) : string := spaces (n - String.length s) +:+ s.
Definition pad_right (n : nat) (s : string) : string := s +:+ spaces (n - String.length s).

(** [sscanf(s, "%hu", &r)] *)
Definition scan_hu (s : string) : option Z := wrap_u 16 <$> scan_u s.
(** [strcasecmp(a, b) == 0] *)
Fixpoint strcasecmp_eq (a b : string) : bool :=
  match a, b with
  | EmptyString, EmptyString => true
  | String x a', String y b' => Ascii.eqb (to_lower x) (to_lower y) && strcasecmp_eq a' b'
  | _, _ => false
  end.
(** [inet_ntoa] of an address in network order *)
Definition inet_ntoa (addr : Z) : string :=
  match le_bytes 4 addr with
  | [a; b; c; d] => join [dec a; "."; dec b; "."; dec c; "."; dec d]
  | _ => EmptyString
  end.

(** ** Arguments

    [argv[argc]] is a null pointer; what is behind it is not the program's. *)
Definition argv_at (argv : list string) (i : nat) : outcome (option string) :=
  match argv !! i with
  | Some s => Ok (Some s)
  | None => if (i =? length argv)%nat then Ok None else Err Undefined
  end.
(** Character [i] of an argument; the terminating zero is one. *)
Definition arg_char (s : string) (i : nat) : ascii :=
  match String.get i s with Some c => c | None => NUL end.
Definition char_text (c : ascii) : string := String c EmptyString.

(** What went to the standard output. *)
Definition stdout_of (c : Console) : string :=
  join (map snd (filter (fun x => match x.1 with Stdout => true | Stderr => false end = true) c)).

(** ** Lemmas *)
Lemma fprint_ok f l x st : fprint f l st = Ok (x, (st.1, st.2 ++ [(f, join l)])) <-> x = tt.
Proof. unfold fprint, on_snd, modify. destruct x. done. Qed.
Lemma lib_ok {A} (m : M Sys A) st a st' :
  lib m st = Ok (a, st') <-> exists s', m st.1 = Ok (a, s') /\ st' = (s', st.2).
Proof.
  unfold lib, on_fst. destruct (m st.1) as [[b s']|]; [|by split; [|intros (? & ? & ?)]].
  split; [intros [= <- <-]; by exists s'|]. by intros (? & [= <- <-] & ->).
Qed.
Lemma argv_in argv i : (i < length argv)%nat -> exists s, argv_at argv i = Ok (Some s).
Proof.
  intros H. destruct (lookup_lt_is_Some_2 argv i H) as [s Hs].
  exists s. unfold argv_at. by rewrite Hs.
Qed.
Lemma argv_end argv : argv_at argv (length argv) = Ok None.
Proof. unfold argv_at. by rewrite lookup_ge_None_2, Nat.eqb_refl by lia. Qed.

(** ** Total correctness

    [runs m st Q]: from [st] the computation [m] comes to an end, and [Q] holds of its
    result and of the state it leaves. *)
Definition runs {S A} (m : M S A) (st : S) (Q : A -> S -> Prop) : Prop :=
  exists a st', m st = Ok (a, st') /\ Q a st'.

Lemma runs_ret {S A} (a : A) (st : S) (Q : A -> S -> Prop) : Q a st -> runs (ret a) st Q.
Proof. intros H. by exists a, st. Qed.
Lemma runs_bind {S A B} (m : M S A) (k : A -> M S B) st (Q : B -> S -> Prop) :
  runs m st (fun a st1 => runs (k a) st1 Q) -> runs (bind m k) st Q.
Proof. intros (a & st1 & E1 & b & st2 & E2 & H). exists b, st2. unfold bind. by rewrite E1. Qed.
Lemma runs_impl {S A} (m : M S A) st (P Q : A -> S -> Prop) :
  runs m st P -> (forall a st', P a st' -> Q a st') -> runs m st Q.
Proof. intros (a & st1 & E & H) HPQ. exists a, st1. auto. Qed.
Lemma runs_fprint f l (st : Sys * Console) (Q : unit -> Sys * Console -> Prop) :
  Q tt (st.1, st.2 ++ [(f, join l)]) -> runs (fprint f l) st Q.
Proof. intros H. by exists tt, (st.1, st.2 ++ [(f, join l)]). Qed.
Lemma runs_lib {A} (m : M Sys A) (st : Sys * Console) (Q : A -> Sys * Console -> Prop) :
  runs m st.1 (fun a s => Q a (s, st.2)) -> runs (lib m) st Q.
Proof. intros (a & s & E & H). exists a, (s, st.2). split; [|done]. apply lib_ok. by exists s. Qed.
Lemma runs_sys `{Os} c (s : Sys) (Q : Answer -> Sys -> Prop) :
  (let a := os (trace s) c in
   Q a (mkSys (trace s ++ [(c, a)]) (if a_ret a <? 0 then a_errno a else errno s))) ->
  runs (sys c) s Q.
Proof. intros HQ. by eexists _, _. Qed.
Lemma runs_gets {S A} (f : S -> A) st (Q : A -> S -> Prop) : Q (f st) st -> runs (gets f) st Q.
Proof. intros H. by exists (f st), st. Qed.

(** Evaluate a computation up to a choice, a call without a rule or its end. *)
Ltac run :=
  lazymatch goal with
  | |- runs (bind _ _) _ _ => apply runs_bind; run
  | |- runs (ret _) _ _ => apply runs_ret; cbv beta; run
  | |- runs (fprint _ _) _ _ => apply runs_fprint; cbv beta; cbn [fst snd]; run
  | |- runs (printf _) _ _ => unfold printf; run
  | |- runs (eprintf _) _ _ => unfold eprintf; run
  | |- runs (lib _) _ _ => apply runs_lib; cbn [fst snd]; run
  | |- runs (sys _) _ _ => apply runs_sys; cbv beta zeta; run
  | |- runs (gets _) _ _ => apply runs_gets; cbv beta; cbn [fst snd]; run
  | |- runs (match (_, _) with _ => _ end) _ _ => cbv beta iota; run
  | |- runs (if true then _ else _) _ _ => cbv iota; run
  | |- runs (if false then _ else _) _ _ => cbv iota; run
  | |- runs get_errno _ _ => unfold get_errno; run
  | |- _ => idtac
  end.

Example inet_ntoa_example : inet_ntoa 16885952 = "192.168.1.1".
Proof. vm_compute. reflexivity. Qed.
Example strcasecmp_example : strcasecmp_eq "Tcp" "tCP" = true.
Proof. reflexivity. Qed.
Example pad_example : (pad_left 5 "80", pad_right 5 "80", pad_left 2 "123") = ("   80", "80   ", "123").
Proof. reflexivity. Qed.
