(* ===== verification/NatpmpTool.v ===== *)
(** * NatpmpTool

    The command line tool of libnatpmp (src/peer/external/libnatpmp-20150609/natpmpc.c):
    the arguments, the public address, one port mapping, and the loops that wait for the
    gateway's answers. *)
From S2P Require Import Prelude.
From S2P Require Import CStr.
From S2P Require Import CSys.
From S2P Require Import Natpmp.
From S2P Require Import Console.

(** ** Arguments *)
Record options : Type := mkOptions {
  protocol : Z;
  privateport : Z;
  publicport : Z;
  lifetime : Z;
  command : bool;
  forcegw : bool;
  forced_gateway : Z
}.
Definition options0 : options := mkOptions 0 0 0 3600 false false 0.
Definition set_forced (gw : Z) (o : options) : options :=
  mkOptions (protocol o) (privateport o) (publicport o) (lifetime o) (command o) true gw.
Definition set_mapping (proto priv pub : Z) (o : options) : options :=
  mkOptions proto priv pub (lifetime o) true (forcegw o) (forced_gateway o).
Definition set_lifetime (l : Z) (o : options) : options :=
  mkOptions (protocol o) (privateport o) (publicport o) l (command o) (forcegw o) (forced_gateway o).

Definition usage (out : stream) (argv0 : string) : Tool unit :=
  fprint out ["Usage :"; nl] ;;;
  fprint out ["  "; argv0; " [options]"; nl] ;;;
  fprint out [tab; "display the public IP address."; nl] ;;;
  fprint out ["  "; argv0; " -h"; nl] ;;;
  fprint out [tab; "display this help screen."; nl] ;;;
  fprint out ["  "; argv0; " [options] -a <public port> <private port> <protocol> [lifetime]"; nl] ;;;
  fprint out [tab; "add a port mapping."; nl] ;;;
  fprint out [nl; "Option available :"; nl] ;;;
  fprint out ["  -g ipv4address"; nl] ;;;
  fprint out [tab; "force the gateway to be used as destination for NAT-PMP commands."; nl] ;;;
  fprint out [nl; "  In order to remove a mapping, set it with a lifetime of 0 seconds."; nl] ;;;
  fprint out ["  To remove all mappings for your machine, use 0 as private port and lifetime."; nl].

Definition protocol_of (s : string) : option Z :=
  if strcasecmp_eq s "tcp" then Some NATPMP_PROTOCOL_TCP
  else if strcasecmp_eq s "udp" then Some NATPMP_PROTOCOL_UDP
  else None.

Section NatpmpTool.
Context `{Os} `{Patience}.
(** [strerror], and what is in memory the tool reads without having stored there: the
    local array of [readnatpmpresponse], [response] before the first answer, and the bytes
    of the union [pnu] that the member last stored does not cover. *)
Context (strerror : Z -> string) (array : list (call * Answer) -> list Z)
  (response0 : natpmpresp_t) (uncovered : Z).

(** The optional argument behind the protocol [proto]. *)
Definition parse_lifetime (proto : string) (rest : list string) (o : options) :
    Tool (options * list string) :=
  match rest with
  | [] => ret (o, [])
  | l :: rest' =>
      match scan_u l with
      | None => eprintf [proto; " is not a correct 32bits unsigned integer"; nl] ;;; ret (o, rest)
      | Some v => ret (set_lifetime v o, rest')
      end
  end.

(** The loop over the arguments: the exit code, or the options.  [args] are those from
    [argv[i]] on. *)
Fixpoint parse_args (fuel : nat) (argv0 : string) (args : list string) (o : options) :
    Tool (Z + options) :=
  match fuel, args with
  | _, [] => ret (inr o)
  | O, _ => fail Undefined
  | Datatypes.S fuel', arg :: rest =>
      let unknown :=
        eprintf ["Unknown option "; arg; nl] ;;; usage Stderr argv0 ;;; ret (inl 1) in
      if negb (Ascii.eqb (arg_char arg 0) "-") then unknown
      else if Ascii.eqb (arg_char arg 1) "h" then usage Stdout argv0 ;;; ret (inl 0)
      else if Ascii.eqb (arg_char arg 1) "g" then
        match rest with
        | [] => fail Undefined   (* argc < i + 1 is false: inet_addr(NULL) *)
        | gw :: rest' =>
            let! a := lib (sys (InetAddr gw)) in
            parse_args fuel' argv0 rest' (set_forced (wrap_u 32 (a_ret a)) o)
        end
      else if Ascii.eqb (arg_char arg 1) "a" then
        match rest with
        | pub :: priv :: proto :: rest' =>
            let not_u16 s := eprintf [s; " is not a correct 16bits unsigned integer"; nl] ;;; ret (inl 1) in
            match scan_hu pub, scan_hu priv with
            | None, _ => not_u16 pub
            | _, None => not_u16 priv
            | Some pubport, Some privport =>
                match protocol_of proto with
                | None => eprintf [proto; " is not a valid protocol"; nl] ;;; ret (inl 1)
                | Some p =>
                    let! (o, rest'') := parse_lifetime proto rest' (set_mapping p privport pubport o) in
                    parse_args fuel' argv0 rest'' o
                end
            end
        | _ =>
            eprintf ["Not enough arguments for option -"; char_text (arg_char arg 1); nl] ;;; ret (inl 1)
        end
      else unknown
  end.

(** ** Waiting for an answer

    [select] leaves the rest of the timeout in its argument. *)
Definition read_result (r : Z) : string :=
  if r =? 0 then "OK" else if r =? NATPMP_TRYAGAIN then "TRY AGAIN" else "FAILED".
Definition print_read (r : Z) : Tool unit :=
  printf ["readnatpmpresponseorretry returned "; dec r; " ("; read_result r; ")"; nl].
(** Fill in the timeout and wait; the result of [select]. *)
Definition wait_readable (p : natpmp_t) (timeout : option (Z * Z)) : Tool (Z * option (Z * Z)) :=
  let! (_, t) := lib (getnatpmprequesttimeout (Some p) false) in
  match (match t with Some _ => t | None => timeout end) with
  | None => fail Undefined   (* the variable was never set *)
  | Some (sec, usec) =>
      let! a := lib (sys (SelectTimeout (s p) sec usec)) in
      ret (a_ret a, Some (a_num1 a, a_num2 a))
  end.
Definition read_or_retry (p : natpmp_t) (response : natpmpresp_t) :
    Tool (Z * natpmp_t * natpmpresp_t) :=
  let! tr := lib (gets trace) in
  let! (r, p', response') := lib (readnatpmpresponseorretry (array tr) (Some p) (Some response)) in
  ret (r, default p p', default response response').

(** The first loop; [None] when [select] failed, otherwise with what [timeout] holds. *)
Fixpoint wait_address (fuel : nat) (timeout : option (Z * Z)) (p : natpmp_t)
    (response : natpmpresp_t) : Tool (option (Z * natpmp_t * natpmpresp_t * option (Z * Z))) :=
  match fuel with
  | O => fail Undefined
  | Datatypes.S fuel' =>
      let! (n, timeout) := wait_readable p timeout in
      if n <? 0 then eprintf ["select()"] ;;; ret None
      else
        let! (r, p, response) := read_or_retry p response in
        let! sav_errno := lib get_errno in
        print_read r ;;;
        (if (r <? 0) && negb (r =? NATPMP_TRYAGAIN) then
           eprintf ["readnatpmpresponseorretry() failed : "; strnatpmperr r; nl] ;;;
           eprintf ["  errno="; dec sav_errno; " '"; strerror sav_errno; "'"; nl]
         else ret tt) ;;;
        if r =? NATPMP_TRYAGAIN then wait_address fuel' timeout p response
        else ret (Some (r, p, response, timeout))
  end.
(** The second loop, which does not look at the result of [select]. *)
Fixpoint wait_mapping (fuel : nat) (timeout : option (Z * Z)) (p : natpmp_t)
    (response : natpmpresp_t) : Tool (Z * natpmp_t * natpmpresp_t) :=
  match fuel with
  | O => fail Undefined
  | Datatypes.S fuel' =>
      let! (_, timeout) := wait_readable p timeout in
      let! (r, p, response) := read_or_retry p response in
      print_read r ;;;
      if r =? NATPMP_TRYAGAIN then wait_mapping fuel' timeout p response
      else ret (r, p, response)
  end.

(** The members of the union, whichever was stored last. *)
Definition as_address (u : pnu) : Z :=
  match u with
  | publicaddress addr => addr
  | newportmapping priv mapped _ => priv + 65536 * mapped
  end.
Definition as_mapping (u : pnu) : Z * Z * Z :=
  match u with
  | publicaddress addr => (addr mod 65536, addr / 65536, uncovered)
  | newportmapping priv mapped l => (priv, mapped, l)
  end.
Definition protocol_name (type : Z) : string :=
  if type =? 1 then "UDP" else if type =? 2 then "TCP" else "UNKNOWN".
Definition success_when (b : bool) : string := if b then "SUCCESS" else "FAILED".

Definition print_mapping (response : natpmpresp_t) : Tool unit :=
  let '(priv, mapped, l) := as_mapping (resp_pnu response) in
  printf ["Mapped public port "; dec mapped; " protocol "; protocol_name (resp_type response);
          " to local port "; dec priv; " liftime "; dec l; nl] ;;;
  printf ["epoch = "; dec (epoch response); nl].
(** The request for a mapping: [false] is the exit with 1. *)
Definition map_port (timeout : option (Z * Z)) (o : options) (p : natpmp_t)
    (response : natpmpresp_t) : Tool (bool * natpmp_t) :=
  let! (r, p') := lib (sendnewportmappingrequest (Some p) (protocol o) (privateport o) (publicport o)
                        (lifetime o)) in
  let p := default p p' in
  printf ["sendnewportmappingrequest returned "; dec r; " ("; success_when (r =? 12); ")"; nl] ;;;
  if r <? 0 then ret (false, p)
  else
    let! (r, p, response) := wait_mapping patience timeout p response in
    if r <? 0 then
      eprintf ["readnatpmpresponseorretry() failed : "; strnatpmperr r; nl] ;;; ret (false, p)
    else print_mapping response ;;; ret (true, p).

(** ** The tool, after the arguments *)
Definition run (o : options) : Tool Z :=
  let! (r, p) := lib (initnatpmp (Some natpmp_zero) (forcegw o) (forced_gateway o)) in
  let p := default natpmp_zero p in
  printf ["initnatpmp() returned "; dec r; " ("; success_when (r =? 0); ")"; nl] ;;;
  if r <? 0 then ret 1
  else
    printf ["using gateway : "; inet_ntoa (gateway p); nl] ;;;
    let! (r, p') := lib (sendpublicaddressrequest (Some p)) in
    let p := default p p' in
    printf ["sendpublicaddressrequest returned "; dec r; " ("; success_when (r =? 2); ")"; nl] ;;;
    if r <? 0 then ret 1
    else
      let! w := wait_address patience None p response0 in
      match w with
      | None => ret 1
      | Some (r, p, response, timeout) =>
          if r <? 0 then ret 1
          else
            printf ["Public IP address : "; inet_ntoa (as_address (resp_pnu response)); nl] ;;;
            printf ["epoch = "; dec (epoch response); nl] ;;;
            let! (ok, p) := (if command o then map_port timeout o p response else ret (true, p)) in
            if negb ok then ret 1
            else
              let! r := lib (closenatpmp (Some p)) in
              printf ["closenatpmp() returned "; dec r; " ("; success_when (r =? 0); ")"; nl] ;;;
              ret (if r <? 0 then 1 else 0)
      end.

Definition main (argv : list string) : Tool Z :=
  let! o := parse_args (length argv) (str (argv !! 0%nat)) (drop 1 argv) options0 in
  match o with
  | inl code => ret code
  | inr o => run o
  end.
End NatpmpTool.

(** ** The tool ends *)
Section Ends.
Context `{Os} `{Patience}.

(** The clock at a point of the history, in microseconds. *)
Definition now (tr : list (call * Answer)) : Z :=
  let a := os tr Gettimeofday in micros (a_num1 a, a_num2 a).
(** Documented behaviour: the clock does not run backwards; [select] with a valid timeout
    does not fail; it comes back empty-handed only when the timeout is over, and with a
    descriptor only when reading from it would not block. *)
Class WaitLaws : Prop := {
  wait_clock :: ClockLaws;
  time_passes : forall tr l, now tr <= now (tr ++ l);
  select_ok : forall tr fd sec usec,
    0 <= sec -> 0 <= usec < 1000000 -> 0 <= a_ret (os tr (SelectTimeout fd sec usec));
  select_waits : forall tr fd sec usec l, let a := os tr (SelectTimeout fd sec usec) in
    a_ret a = 0 -> now tr + micros (sec, usec) <= now (tr ++ (SelectTimeout fd sec usec, a) :: l);
  select_ready : forall tr fd sec usec len, let a := os tr (SelectTimeout fd sec usec) in
    0 < a_ret a -> let b := os (tr ++ [(SelectTimeout fd sec usec, a)]) (Recv fd len) in
    a_ret b < 0 -> a_errno b <> EWOULDBLOCK
}.
Context {WL : WaitLaws} (strerror : Z -> string) (array : list (call * Answer) -> list Z)
  (response0 : natpmpresp_t) (uncovered : Z).

(** One turn of a loop up to the answer: either the deadline of the request is over when
    the socket has nothing, or the socket has something. *)
Lemma wait_readable_ends p timeout st :
  has_pending_request p = true -> 0 <= (retry_time p).2 < 1000000 ->
  runs (wait_readable p timeout) st (fun '(n, t) st' => is_Some t /\ sends st'.1 = sends st.1 /\
    (let b := os (trace st'.1) (Recv (s p) 16) in a_ret b < 0 -> a_errno b = EWOULDBLOCK ->
     forall l, micros (retry_time p) <= now (trace st'.1 ++ l))).
Proof using WL.
  intros Hp Hu. unfold wait_readable. run. unfold getnatpmprequesttimeout. rewrite Hp. cbn [negb].
  run. destruct (clock_ok (trace st.1)) as [Hg Hn].
  destruct (Z.ltb_spec (a_ret (os (trace st.1) Gettimeofday)) 0); [lia|]. run.
  set (g := os (trace st.1) Gettimeofday) in *.
  set (tr := trace st.1 ++ [(Gettimeofday, g)]).
  assert (exists sec usec, (if (retry_time p).2 - a_num2 g <? 0
      then ((retry_time p).1 - a_num1 g - 1, (retry_time p).2 - a_num2 g + 1000000)
      else ((retry_time p).1 - a_num1 g, (retry_time p).2 - a_num2 g)) = (sec, usec) /\
    0 <= usec < 1000000 /\ micros (sec, usec) = micros (retry_time p) - now (trace st.1))
    as (sec & usec & -> & Husec & Hm).
  { unfold now, micros. fold g. destruct (Z.ltb_spec ((retry_time p).2 - a_num2 g) 0);
      eexists _, _; (split; [done|]); simpl; lia. }
  cbn [fst snd trace]. fold tr. run. set (a := os tr (SelectTimeout (s p) sec usec)).
  split; [by eexists|]. cbn [fst trace].
  assert (now (trace st.1) <= now tr) as Htr by apply time_passes.
  split.
  { unfold sends, tr. cbn [trace].
    by rewrite !filter_app, !filter_cons_False, !filter_nil, !app_nil_r by (simpl; congruence). }
  intros Hb He l. rewrite <- app_assoc. simpl. fold a in Hb, He |- *.
  destruct (Z.lt_trichotomy (a_ret a) 0) as [Ha|[Ha|Ha]].
  - assert (sec < 0) as Hs.
    { apply Z.nle_gt. intros Hs. pose proof (select_ok tr (s p) sec usec Hs Husec). unfold a in Ha. lia. }
    assert (micros (sec, usec) < 0) by (unfold micros; cbn [fst snd]; lia).
    pose proof (time_passes tr ((SelectTimeout (s p) sec usec, a) :: l)). lia.
  - pose proof (select_waits tr (s p) sec usec l Ha) as Hw. fold a in Hw. lia.
  - by destruct (select_ready tr (s p) sec usec 16 Ha Hb).
Qed.

(** What a turn leaves after [read_or_retry], when [k] datagrams were sent before it: the
    request is answered or given up, or one more datagram is sent. *)
Definition turn_done (t0 before k : Z) (r : Z) (q : natpmp_t) (st : Sys) : Prop :=
  if r =? NATPMP_TRYAGAIN then on_schedule t0 before q st /\ try_number q = k + 1
  else sends st <= before + 9.

Lemma retry_ends t0 before q st :
  on_schedule t0 before q st ->
  runs (retry q) st (fun '(n, q') st' => turn_done t0 before (try_number q) n q' st').
Proof using.
  intros Hq. destruct (retry q st) as [[[n q'] st']|f] eqn:E.
  - exists (n, q'), st'. split; [done|]. pose proof (retry_schedule_step _ _ _ _ _ _ _ Hq E) as Hq'.
    unfold turn_done. destruct (Z.eqb_spec n NATPMP_TRYAGAIN) as [->|].
    + split; [done|]. unfold retry in E. destruct (9 <=? try_number q); [by injection E|].
      apply bind_ok in E as (r & st1 & _ & E). by injection E as _ <- _.
    + destruct Hq' as (_ & ? & _ & _ & ->). lia.
  - unfold retry, sendpendingrequest, bind, sys, ret in E. by repeat case_match.
Qed.

Lemma read_response_not_again buf r : (read_response buf r).1 <> NATPMP_TRYAGAIN.
Proof using.
  unfold read_response. repeat case_match; try done. cbn [fst]. unfold result_error.
  by repeat case_match.
Qed.

(** Reading with nothing to read before the deadline does not happen. *)
Lemma read_or_retry_ends t0 before p response st :
  on_schedule t0 before p st.1 ->
  (let b := os (trace st.1) (Recv (s p) 16) in a_ret b < 0 -> a_errno b = EWOULDBLOCK ->
   forall l, micros (retry_time p) <= now (trace st.1 ++ l)) ->
  runs (read_or_retry array p response) st (fun '(r, q, _) st' =>
    turn_done t0 before (try_number p) r q st'.1).
Proof using WL.
  intros Hq Hd. unfold read_or_retry. run.
  unfold readnatpmpresponseorretry. pose proof Hq as (Hp & Ht & Hu & _ & Hs). rewrite Hp. cbn [negb].
  set (b := os (trace st.1) (Recv (s p) 16)) in *. cbv zeta in Hd.
  set (st1 := mkSys (trace st.1 ++ [(Recv (s p) 16, b)]) (if a_ret b <? 0 then a_errno b else errno st.1)).
  assert (sends st1 = sends st.1) as Hs1 by (erewrite sends_app by done; simpl; lia).
  apply runs_bind. apply (runs_impl _ _ (fun '(m, _) st' => st' = st1 /\
    (m = NATPMP_TRYAGAIN -> a_ret b < 0 /\ a_errno b = EWOULDBLOCK))).
  { unfold readnatpmpresponse. run. fold b. destruct (Z.ltb_spec (a_ret b) 0) as [Hb|Hb].
    - run. cbn [errno]. fold st1.
      split; [done|].
      destruct (Z.eqb_spec (a_errno b) EWOULDBLOCK); [done|]. by case_match.
    - destruct (negb _); run; [by split|].
      destruct (read_response _ _) as [x y] eqn:E. split; [done|].
      intros ->. by destruct (read_response_not_again _ _ (f_equal fst E)). }
  intros [m r] st' [-> Hm]. destruct (Z.ltb_spec m 0) as [Hneg|Hneg].
  - destruct (Z.eqb_spec m NATPMP_TRYAGAIN) as [->|Hn].
    + destruct (Hm eq_refl) as [Hb He]. run.
      destruct (clock_ok (trace st1)) as [Hg Hn].
      destruct (Z.ltb_spec (a_ret (os (trace st1) Gettimeofday)) 0); [unfold st1 in *; cbn [trace] in *; lia|].
      rewrite time_le_micros, (proj2 (Z.leb_le _ _)); [|apply (Hd Hb He [_])|done|done].
      run. eapply runs_impl.
      * apply (retry_ends t0 before). destruct Hq as (? & ? & ? & ? & ?).
        split; [done|]. split; [done|]. split; [done|]. split; [done|].
        erewrite sends_app by done. simpl. lia.
      * intros [n q'] st2 Hq'. run. exact Hq'.
    + run. unfold turn_done. cbn [fst]. destruct (Z.eqb_spec m NATPMP_TRYAGAIN); [done|lia].
  - run. unfold turn_done. cbn [fst]. destruct (Z.eqb_spec m NATPMP_TRYAGAIN) as [->|]; [done|lia].
Qed.

Lemma on_schedule_sends t0 before p s1 s2 :
  on_schedule t0 before p s1 -> sends s2 = sends s1 -> on_schedule t0 before p s2.
Proof using. intros (? & ? & ? & ? & ?) E. unfold on_schedule. by rewrite E. Qed.

Lemma wait_mapping_ends t0 before fuel timeout p response st :
  on_schedule t0 before p st.1 -> 10 - try_number p <= Z.of_nat fuel ->
  runs (wait_mapping array fuel timeout p response) st (fun _ st' => sends st'.1 <= before + 9).
Proof using WL.
  revert timeout p response st. induction fuel as [|fuel IH]; intros timeout p response st Hq Hf.
  { destruct Hq as (_ & ? & _). lia. }
  cbn [wait_mapping]. apply runs_bind. pose proof Hq as (Hp & _ & Hu & _).
  eapply runs_impl; [by apply wait_readable_ends|]. intros [n t] st1 (Ht & Hs & Hd).
  apply runs_bind. eapply runs_impl.
  { eapply read_or_retry_ends; [by eapply on_schedule_sends|exact Hd]. }
  intros [[r q] resp] st2 Hr. unfold print_read. run. unfold turn_done in Hr.
  destruct (r =? NATPMP_TRYAGAIN); [|by run]. destruct Hr as [Hq' Hk]. apply IH; [done|lia].
Qed.

Lemma wait_address_ends t0 before fuel timeout p response st :
  on_schedule t0 before p st.1 -> 10 - try_number p <= Z.of_nat fuel ->
  runs (wait_address strerror array fuel timeout p response) st (fun w st' =>
    sends st'.1 <= before + 9 /\ forall r q resp t, w = Some (r, q, resp, t) -> r <> NATPMP_TRYAGAIN).
Proof using WL.
  revert timeout p response st. induction fuel as [|fuel IH]; intros timeout p response st Hq Hf.
  { destruct Hq as (_ & ? & _). lia. }
  cbn [wait_address]. apply runs_bind. pose proof Hq as (Hp & Hk & Hu & _ & Hs0).
  eapply runs_impl; [by apply wait_readable_ends|]. intros [n t] st1 (Ht & Hs & Hd).
  destruct (n <? 0).
  { run. split; [|done]. cbn [fst]. clear Hd. lia. }
  apply runs_bind. eapply runs_impl.
  { eapply read_or_retry_ends; [by eapply on_schedule_sends|exact Hd]. }
  intros [[r q] resp] st2 Hr. run. unfold print_read. run. unfold turn_done in Hr.
  apply (runs_impl _ _ (fun _ st' => st'.1 = st2.1)); [by destruct (_ && _); run|].
  intros _ st3 E. destruct (Z.eqb_spec r NATPMP_TRYAGAIN) as [->|Hn].
  - destruct Hr as [Hq' Hk']. apply IH; [by rewrite E|lia].
  - run. rewrite E. split; [done|]. by intros ? ? ? ? [= <- <- <- <-].
Qed.

(** ** The parts around the loops *)
Lemma runs_quiet c (s : Sys) (Q : Answer -> Sys -> Prop) :
  is_send c = false -> (forall a s', sends s' = sends s -> Q a s') -> runs (sys c) s Q.
Proof using.
  intros Hc HQ. apply runs_sys. cbv zeta. apply HQ. erewrite sends_app by done. rewrite Hc. lia.
Qed.
Lemma initnatpmp_ends forced gw st :
  runs (initnatpmp (Some natpmp_zero) forced gw) st (fun _ st' => sends st' = sends st).
Proof using.
  unfold initnatpmp. apply runs_bind, runs_quiet; [done|]. intros a s1 E1.
  destruct (a_ret a <? 0); [by run|].
  do 2 (apply runs_bind, runs_quiet; [done|]; intros ? ? ?; destruct (_ <? 0); [run; congruence|]).
  apply runs_bind. eapply (runs_impl _ _ (fun _ st' => sends st' = sends st)).
  - destruct forced; [run; congruence|]. unfold getdefaultgateway. apply runs_bind, runs_quiet; [done|].
    intros ? ? ?. destruct (_ <? 0); run; congruence.
  - intros [g|] s4 E4; [|by run]. apply runs_bind, runs_quiet; [done|]. intros ? ? ?.
    destruct (_ <? 0); run; congruence.
Qed.
Lemma send_ends p st :
  runs (sendnatpmprequest p) st (fun '(_, q) st' => exists t0,
    on_schedule t0 (sends st) q st' /\ try_number q = 1).
Proof using WL.
  destruct (sendnatpmprequest p st) as [[[n q] st']|] eqn:E.
  - exists (n, q), st'. split; [done|].
    destruct (send_on_schedule _ _ _ _ _ E) as (c & a & t & _ & Hq). eexists. split; [exact Hq|].
    unfold sendnatpmprequest, sendpendingrequest, bind, sys, ret in E. by injection E as _ <- _.
  - unfold sendnatpmprequest, sendpendingrequest, bind, sys, ret in E. discriminate E.
Qed.

Lemma map_port_ends timeout o p response st :
  9 <= Z.of_nat patience ->
  runs (map_port array uncovered timeout o p response) st (fun _ st' => sends st'.1 <= sends st.1 + 9).
Proof using WL.
  intros Hpat. unfold map_port. apply runs_bind, runs_lib. unfold sendnewportmappingrequest.
  destruct (_ && _).
  { run. change (NATPMP_ERR_INVALIDARGS <? 0) with true. run. cbn [fst]. lia. }
  apply runs_bind. eapply runs_impl; [apply send_ends|]. intros [n q] s1 (t0 & Hq & Hk).
  run. destruct (n <? 0); [run|].
  { destruct Hq as (_ & _ & _ & _ & E). cbn [fst]. rewrite E. lia. }
  apply runs_bind. eapply runs_impl; [apply (wait_mapping_ends t0 (sends st.1)); [exact Hq|cbn; lia]|].
  intros [[r q'] resp] st2 Hs. destruct (r <? 0); [by run|].
  unfold print_mapping. destruct (as_mapping _ _) as [[? ?] ?]. by run.
Qed.

Lemma run_ends o st :
  9 <= Z.of_nat patience ->
  runs (run strerror array response0 uncovered o) st (fun code st' =>
    (code = 0 \/ code = 1) /\ sends st'.1 <= sends st.1 + 18).
Proof using WL.
  intros Hpat. unfold run. apply runs_bind, runs_lib. eapply runs_impl; [apply initnatpmp_ends|].
  intros [r p] s1 E1. run. destruct (r <? 0).
  { run. split; [by right|]. cbn [fst]. lia. }
  run. unfold sendpublicaddressrequest. apply runs_bind. eapply runs_impl; [apply send_ends|].
  intros [n q] s2 (t0 & Hq & Hk). run. cbn [default].
  pose proof Hq as (_ & _ & _ & _ & E2). destruct (n <? 0).
  { run. split; [by right|]. cbn [fst]. lia. }
  apply runs_bind. eapply runs_impl; [apply (wait_address_ends t0 (sends s1)); [exact Hq|cbn; lia]|].
  intros w st3 [Hs _]. destruct w as [[[[r' q'] resp] t]|]; [|run; split; [by right|lia]].
  destruct (r' <? 0); [run; split; [by right|lia]|]. run.
  apply (runs_impl _ _ (fun _ st' => sends st'.1 <= sends st3.1 + 9)).
  { destruct (command o); [|run; cbn [fst]; lia]. eapply runs_impl; [by apply map_port_ends|]. done. }
  intros [ok q''] st4 Hs4. destruct (negb ok); [run; split; [by right|lia]|].
  apply runs_bind, runs_lib. unfold closenatpmp. apply runs_bind, runs_quiet; [done|]. intros a s5 E5.
  destruct (a_ret a <? 0); run; (split; [by auto|]); cbn [fst]; lia.
Qed.

Lemma usage_ends out argv0 st : runs (usage out argv0) st (fun _ st' => st'.1 = st.1).
Proof using. unfold usage. by run. Qed.

(** The last argument is not an option [-g]. *)
Definition gateway_given (args : list string) : bool :=
  match last args with Some a => negb (starts_with "-g" a) | None => true end.
Lemma gateway_given_cons a args : gateway_given (a :: args) = true -> gateway_given args = true.
Proof using. destruct args as [|b args]; [done|]. unfold gateway_given. by rewrite last_cons_cons. Qed.

Lemma starts_with_g a : arg_char a 0 = "-"%char -> arg_char a 1 = "g"%char -> starts_with "-g" a = true.
Proof using. destruct a as [|c [|d a]]; [done|done|]. unfold arg_char. simpl. by intros -> ->. Qed.

Lemma parse_lifetime_ends proto rest o st :
  gateway_given rest = true ->
  runs (parse_lifetime proto rest o) st (fun '(_, rest') st' =>
    st'.1 = st.1 /\ gateway_given rest' = true /\ (length rest' <= length rest)%nat).
Proof using.
  intros Hg. destruct rest as [|l rest]; simpl; [by run|].
  destruct (scan_u l); run; (split; [done|]); split; simpl; try lia; [|done].
  by apply gateway_given_cons in Hg.
Qed.

(** What the loop over the arguments leaves: nothing was sent, and an exit code is 0 or 1. *)
Definition parsed (n : Z) (r : Z + options) (st : Sys * Console) : Prop :=
  sends st.1 = n /\ match r with inl code => code = 0 \/ code = 1 | inr _ => True end.

Lemma exit_ends n code m (st : Sys * Console) :
  code = 0 \/ code = 1 -> runs m st (fun (_ : unit) st' => sends st'.1 = n) ->
  runs (m ;;; ret (inl code)) st (parsed n).
Proof using. intros Hc Hm. apply runs_bind. eapply runs_impl; [exact Hm|]. intros ? ? E. by run. Qed.
Lemma eprintf_exit_ends l (st : Sys * Console) :
  runs (eprintf l ;;; ret (inl 1)) st (parsed (sends st.1)).
Proof using. apply exit_ends; [by right|by run]. Qed.

Lemma parse_args_ends fuel argv0 args o (st : Sys * Console) :
  (length args <= fuel)%nat -> gateway_given args = true ->
  runs (parse_args fuel argv0 args o) st (parsed (sends st.1)).
Proof using.
  revert args o st. induction fuel as [|fuel IH]; intros [|arg rest] o st Hl Hg;
    simpl in Hl; try lia; cbn [parse_args]; [by run|by run|].
  assert (runs (eprintf ["Unknown option "; arg; nl] ;;; usage Stderr argv0 ;;; ret (inl 1))
    st (parsed (sends st.1))) as Hunknown.
  { run. eapply runs_impl; [apply usage_ends|]. intros ? ? E. run. split; [by rewrite E|by right]. }
  destruct (Ascii.eqb_spec (arg_char arg 0) "-") as [Hd|]; cbn [negb]; [|exact Hunknown].
  destruct (Ascii.eqb (arg_char arg 1) "h").
  { apply exit_ends; [by left|]. eapply runs_impl; [apply usage_ends|]. by intros ? ? ->. }
  destruct (Ascii.eqb_spec (arg_char arg 1) "g") as [Hc|].
  { destruct rest as [|gw rest].
    { change (negb (starts_with "-g" arg) = true) in Hg. by rewrite starts_with_g in Hg. }
    apply runs_bind, runs_lib, runs_quiet; [done|]. intros a s1 <-.
    apply (IH _ _ (s1, st.2)); [simpl in Hl; lia|by do 2 apply gateway_given_cons in Hg]. }
  destruct (Ascii.eqb (arg_char arg 1) "a"); [|exact Hunknown].
  destruct rest as [|pub [|priv [|proto rest]]]; [apply eprintf_exit_ends..|].
  destruct (scan_hu pub) as [pubport|]; [|apply eprintf_exit_ends].
  destruct (scan_hu priv) as [privport|]; [|apply eprintf_exit_ends].
  destruct (protocol_of proto) as [p|]; [|apply eprintf_exit_ends].
  apply runs_bind. eapply runs_impl; [apply parse_lifetime_ends; by do 4 apply gateway_given_cons in Hg|].
  intros [o' rest'] s1 (<- & Hg' & Hl'). apply IH; [simpl in Hl; lia|done].
Qed.

End Ends.

(** ** A gateway that loses the first datagram *)
Definition answered (tr : list (call * Answer)) : Z :=
  Z.of_nat (length (filter (fun x =>
    match x.1 with Recv _ _ => 0 <=? a_ret x.2 | _ => false end = true) tr)).
Definition sent (tr : list (call * Answer)) : Z :=
  Z.of_nat (length (filter (fun x => is_send x.1 = true) tr)).
Definition answer_ready (tr : list (call * Answer)) : bool := answered tr + 2 <=? sent tr.
Definition waited (x : call * Answer) : Z :=
  match x with
  | (SelectTimeout _ sec usec, a) => if a_ret a =? 0 then Z.max 0 (micros (sec, usec)) else 0
  | _ => 0
  end.
Definition elapsed (tr : list (call * Answer)) : Z := foldr (fun x n => waited x + n) 0 tr.
Definition home : Z := 16885952.
Definition address_answer (ep addr : Z) : list Z := [0; 128; 0; 0] ++ be_bytes32 ep ++ le_bytes 4 addr.
#[local] Instance forgetful_gateway : Os := fun tr c =>
  let bytes l := mkAnswer (Z.of_nat (length l)) 0 (string_of l) home 0 0 [] in
  match c with
  | InetAddr _ => mkAnswer home 0 "" 0 0 0 []
  | Socket _ => mkAnswer 3 0 "" 0 0 0 []
  | Send _ d => mkAnswer (slen d) 0 "" 0 0 0 []
  | Gettimeofday => mkAnswer 0 0 "" 0 (elapsed tr / 1000000) (elapsed tr mod 1000000) []
  | SelectTimeout _ sec _ =>
      mkAnswer (if answer_ready tr then 1 else if sec <? 0 then -1 else 0) 22 "" 0 0 0 []
  | Recv _ _ =>
      if negb (answer_ready tr) then mkAnswer (-1) EWOULDBLOCK "" 0 0 0 []
      else if answered tr =? 0 then bytes (address_answer 77 home)
      else bytes (mapping_answer NATPMP_PROTOCOL_UDP 78 7001 7001 3600)
  | _ => answer0
  end.

Lemma elapsed_app l1 l2 : elapsed (l1 ++ l2) = elapsed l1 + elapsed l2.
Proof. unfold elapsed. induction l1 as [|x l1 IH]; simpl; lia. Qed.
Lemma elapsed_nonneg l : 0 <= elapsed l.
Proof.
  unfold elapsed. induction l as [|[c a] l IH]; simpl; [done|].
  destruct c; simpl; try lia. case_match; lia.
Qed.
Lemma now_elapsed tr : now tr = elapsed tr.
Proof. unfold now, micros. simpl. pose proof (Z.div_mod (elapsed tr) 1000000). lia. Qed.
Lemma answer_ready_select tr fd sec usec a :
  answer_ready (tr ++ [(SelectTimeout fd sec usec, a)]) = answer_ready tr.
Proof.
  unfold answer_ready, answered, sent.
  by rewrite !filter_app, !filter_cons_False, !filter_nil, !app_nil_r by (simpl; congruence).
Qed.
#[local] Instance forgetful_gateway_laws : WaitLaws.
Proof.
  split.
  - split. intros tr. simpl. split; [done|]. by apply Z.mod_pos_bound.
  - intros tr l. rewrite !now_elapsed, elapsed_app. pose proof (elapsed_nonneg l). lia.
  - intros tr fd sec usec Hs Hu. simpl. destruct (answer_ready tr); [done|]. by destruct (Z.ltb_spec sec 0); [lia|].
  - intros tr fd sec usec l a Ha. rewrite !now_elapsed, elapsed_app. cbn [elapsed foldr].
    fold (elapsed l). pose proof (elapsed_nonneg l). unfold waited. rewrite Ha. simpl. lia.
  - intros tr fd sec usec len a Ha b. subst b. cbn [os forgetful_gateway]. 
    unfold os, forgetful_gateway. rewrite answer_ready_select. subst a. simpl in Ha.
    destruct (answer_ready tr); [|by destruct (sec <? 0)]. cbn [negb]. case_match; simpl; lia.
Qed.
#[local] Instance ten_turns : Patience := 10%nat.

Definition map_udp : list string := ["natpmpc"; "-g"; "192.168.1.1"; "-a"; "7001"; "7001"; "UDP"; "3600"].
Definition map_udp_output : string := join
  ["initnatpmp() returned 0 (SUCCESS)"; nl; "using gateway : 192.168.1.1"; nl;
   "sendpublicaddressrequest returned 2 (SUCCESS)"; nl;
   "readnatpmpresponseorretry returned -100 (TRY AGAIN)"; nl;
   "readnatpmpresponseorretry returned 0 (OK)"; nl;
   "Public IP address : 192.168.1.1"; nl; "epoch = 77"; nl;
   "sendnewportmappingrequest returned 12 (SUCCESS)"; nl;
   "readnatpmpresponseorretry returned 0 (OK)"; nl;
   "Mapped public port 7001 protocol UDP to local port 7001 liftime 3600"; nl; "epoch = 78"; nl;
   "closenatpmp() returned 0 (SUCCESS)"; nl].

(** [argc < i + 1] never holds: [-g] without an address hands a null pointer to
    [inet_addr]. *)
Example dangling_g_undefined :
  main (fun _ => "") (fun _ => []) resp0 0 ["natpmpc"; "-g"] (sys0, []) = Err Undefined.
Proof. reflexivity. Qed.
(** A bad lifetime is reported with the name of the protocol, and is the next option. *)
Example bad_lifetime_message :
  match parse_args 8 "natpmpc" ["-a"; "80"; "80"; "tcp"; "soon"] options0 (sys0, []) with
  | Ok (_, (_, (_, m) :: _)) => m = join ["tcp is not a correct 32bits unsigned integer"; nl]
  | _ => False
  end.
Proof. vm_compute. reflexivity. Qed.
