(* ===== verification/UpnpReply.v ===== *)
(** * UpnpReply

    The name-value lists the replies of a gateway are read into
    (src/peer/external/miniupnpc-2.1.20190408/upnpreplyparse.c): the three
    callbacks of the parser, the lookup, and what a well-formed reply becomes. *)
From S2P Require Import Prelude.
From S2P Require Import CStr.
From S2P Require Import CSys.
From S2P Require Import MiniXml.
From S2P Require Import XmlDocument.

(** A [struct NameValue] is its name and its value, the list [l_head] the newest
    first.  [cdata] points into the buffer; it is the [cdatalen] bytes there. *)
Record NameValueParserData : Type := mkNV {
  l_head : list (string * string);
  curelt : string;
  portListing : option string;
  portListingLength : Z;
  topelt : bool;
  cdata : option string
}.
Definition NV_zero : NameValueParserData := mkNV [] "" None 0 false None.

Section UpnpReply.
Context `{Os}.
Abbreviation MP := (M (NameValueParserData * Sys)).

Definition nv_get : MP NameValueParserData := gets fst.
Definition nv_put (d : NameValueParserData) : MP unit := modify (fun st => (d, st.2)).

Definition NameValueParserStartElt (name : string) : MP unit :=
  let! data := nv_get in
  nv_put (mkNV (l_head data) (c_str (str_take 63 name)) (portListing data)
            (portListingLength data) true None).

Definition sizeof_NameValue : Z := 200.
Definition NameValueParserEndElt (name : string) : MP unit :=
  let! data := nv_get in
  if negb (topelt data) then ret tt
  else if bool_decide (curelt data <> "NewPortListing") then
    let! ok := on_snd (malloc sizeof_NameValue) in
    if negb ok then ret tt
    else
      let nv := (str_take 63 (curelt data),
                 match cdata data with
                 | Some cdata => c_str (str_take 127 cdata)
                 | None => ""
                 end) in
      nv_put (mkNV (nv :: l_head data) (curelt data) (portListing data)
                (portListingLength data) false None)
  else
    nv_put (mkNV (l_head data) (curelt data) (portListing data) (portListingLength data) false None).

Definition NameValueParserGetData (datas : string) : MP unit :=
  let! data := nv_get in
  if bool_decide (curelt data = "NewPortListing") then
    let l := slen datas in
    let! ok := on_snd (malloc (l + 1)) in
    if negb ok
    then nv_put (mkNV (l_head data) (curelt data) None (portListingLength data) (topelt data)
                   (cdata data))
    else nv_put (mkNV (l_head data) (curelt data) (Some datas) l (topelt data) (cdata data))
  else
    nv_put (mkNV (l_head data) (curelt data) (portListing data) (portListingLength data)
              (topelt data) (Some datas)).

Definition nv_parser : xmlparser (NameValueParserData * Sys) :=
  mkParser (Some NameValueParserStartElt) (Some NameValueParserEndElt)
    (Some NameValueParserGetData) None.

(** [ParseNameValue] of the first [bufsize] bytes of [buffer]. *)
Definition ParseNameValue (buffer : string) (bufsize : Z) : M Sys NameValueParserData := fun s =>
  match parsexml nv_parser buffer (Z.to_nat bufsize) (NV_zero, s) with
  | Ok (_, (d, s')) => Ok (d, s')
  | Err f => Err f
  end.

Definition ClearNameValueList (pdata : NameValueParserData) : NameValueParserData :=
  mkNV [] (curelt pdata) None
    (if bool_decide (portListing pdata = None) then portListingLength pdata else 0)
    (topelt pdata) (cdata pdata).

Fixpoint find_value (l : list (string * string)) (Name : string) : option string :=
  match l with
  | [] => None
  | (n, v) :: l' => if bool_decide (n = Name) then Some v else find_value l' Name
  end.
Definition GetValueFromNameValueList (pdata : NameValueParserData) (Name : string) :
    option string := find_value (l_head pdata) Name.

(** ** The callbacks return *)
Lemma totally_malloc {T} (n : Z) : totally (on_snd (malloc n) : M (T * Sys) bool) (fun _ => True).
Proof. intros [d s]. by eexists _, _. Qed.
Lemma totally_nv_get : totally nv_get (fun _ => True).
Proof. intros st. by eexists _, _. Qed.
Lemma totally_nv_put d : totally (nv_put d) (fun _ => True).
Proof. intros st. by eexists _, _. Qed.

Lemma nv_parser_returns : callbacks_return nv_parser.
Proof.
  split; simpl; intros f a; [..|done]; intros [= <-].
  - eapply totally_bind; [apply totally_nv_get|]. intros d _. apply totally_nv_put.
  - eapply totally_bind; [apply totally_nv_get|]. intros d _.
    destruct (topelt d); cbn [negb]; [|by apply totally_ret].
    destruct (bool_decide _); [|apply totally_nv_put].
    eapply totally_bind; [apply totally_malloc|]. intros [] _; cbn [negb];
      [apply totally_nv_put|by apply totally_ret].
  - eapply totally_bind; [apply totally_nv_get|]. intros d _.
    destruct (bool_decide _); [|apply totally_nv_put].
    eapply totally_bind; [apply totally_malloc|]. intros [] _; apply totally_nv_put.
Qed.

(** Every reply is read, whatever its bytes. *)
Lemma ParseNameValue_returns buffer bufsize s :
  0 <= bufsize < slen buffer -> exists d s', ParseNameValue buffer bufsize s = Ok (d, s').
Proof.
  intros Hn. unfold ParseNameValue, slen in *.
  assert (exists s', parsexml nv_parser buffer (Z.to_nat bufsize) (NV_zero, s) = Ok (tt, s'))
    as [[d s'] ->].
  { unfold parsexml.
    destruct (parseelt_total (String.length buffer - Z.to_nat bufsize) ltac:(lia) nv_parser
      nv_parser_returns (Datatypes.S (String.length buffer)) buffer ltac:(lia) (NV_zero, s))
      as ([] & s' & E & _). by exists s'. }
  by eexists _, _.
Qed.

(** ** What a well-formed reply becomes *)
Definition value_of (x : string * string) : string * string :=
  (c_str (str_take 63 x.1), c_str (str_take 127 x.2)).
(** The names and texts of the elements without children, in order. *)
Fixpoint leaves (d : doc) : list (string * string) :=
  match d with
  | Empty => []
  | Leaf n _ text _ rest => (local n, text) :: leaves rest
  | Node _ _ _ children _ rest => leaves children ++ leaves rest
  end.
Definition is_listing (x : string * string) : bool :=
  bool_decide (c_str (str_take 63 x.1) = "NewPortListing").
Definition values (d : doc) : list (string * string) :=
  map value_of (filter (fun x => is_listing x = false) (leaves d)).

(** Allocations succeed. *)
Class MallocLaws : Prop := { malloc_ok : forall t size, a_ret (os t (Malloc size)) <> 0 }.
Context {ML : MallocLaws}.

Lemma malloc_true size s : exists s', malloc size s = Ok (true, s').
Proof using ML.
  unfold malloc, sys, bind, ret. eexists. do 2 f_equal.
  pose proof (malloc_ok (trace s) size). by destruct (Z.eqb_spec (a_ret (os (trace s) (Malloc size))) 0).
Qed.
Lemma c_str_idem s : c_str (c_str s) = c_str s.
Proof using. induction s as [|c s IH]; simpl; [done|]. destruct (Ascii.eqb c NUL) eqn:E; [done|]. simpl. by rewrite E, IH. Qed.
Lemma length_c_str s : (String.length (c_str s) <= String.length s)%nat.
Proof using. induction s as [|c s IH]; simpl; [lia|]. destruct (Ascii.eqb _ _); simpl; lia. Qed.
Lemma length_str_take n s : (String.length (str_take n s) <= n)%nat.
Proof using. revert s. induction n as [|n IH]; intros [|c s]; simpl; try lia. specialize (IH s). lia. Qed.

Lemma run_atts atts st : run_events nv_parser (att_events atts) st = Ok (tt, st).
Proof using. induction atts as [|a atts IH]; [done|]. simpl. unfold bind. apply IH. Qed.

Lemma end_listing n d s :
  topelt d = true -> curelt d = "NewPortListing" ->
  NameValueParserEndElt n (d, s) =
  Ok (tt, (mkNV (l_head d) (curelt d) (portListing d) (portListingLength d) false None, s)).
Proof using.
  intros Ht Hc. unfold NameValueParserEndElt, nv_get, gets, bind. cbn [fst]. rewrite Ht. cbn [negb].
  rewrite bool_decide_false; [done|]. intros Hx. by apply Hx.
Qed.
Lemma end_value n d s :
  topelt d = true -> curelt d <> "NewPortListing" ->
  exists s', NameValueParserEndElt n (d, s) =
  Ok (tt, (mkNV ((str_take 63 (curelt d),
      match cdata d with Some cdata => c_str (str_take 127 cdata) | None => "" end) :: l_head d)
      (curelt d) (portListing d) (portListingLength d) false None, s')).
Proof using ML.
  intros Ht Hc. unfold NameValueParserEndElt, nv_get, gets, bind. cbn [fst]. rewrite Ht. cbn [negb].
  rewrite bool_decide_true by done. destruct (malloc_true sizeof_NameValue s) as [s' E].
  unfold on_snd. cbn [fst snd]. rewrite E. by eexists.
Qed.
Lemma data_listing t d s :
  curelt d = "NewPortListing" ->
  exists s', NameValueParserGetData t (d, s) =
  Ok (tt, (mkNV (l_head d) (curelt d) (Some t) (slen t) (topelt d) (cdata d), s')).
Proof using ML.
  intros Hc. unfold NameValueParserGetData, nv_get, gets, bind. cbn [fst].
  rewrite bool_decide_true by done. destruct (malloc_true (slen t + 1) s) as [s' E].
  unfold on_snd. cbn [fst snd]. rewrite E. by eexists.
Qed.
Lemma data_value t d s :
  curelt d <> "NewPortListing" ->
  NameValueParserGetData t (d, s) =
  Ok (tt, (mkNV (l_head d) (curelt d) (portListing d) (portListingLength d) (topelt d) (Some t), s)).
Proof using.
  intros Hc. unfold NameValueParserGetData, nv_get, gets, bind. cbn [fst].
  by rewrite bool_decide_false by done.
Qed.

(** One element without children. *)
Lemma nv_leaf n atts text d s :
  exists d' s', run_events nv_parser
      (StartElt (local n) :: att_events atts ++ data_event text ++ [EndElt (print_name n)]) (d, s) =
    Ok (tt, (d', s')) /\
    l_head d' = (if is_listing (local n, text) then [] else [value_of (local n, text)]) ++ l_head d /\
    topelt d' = false /\
    portListing d' = (if is_listing (local n, text) && bool_decide (text <> "") then Some text
                      else portListing d).
Proof using ML.
  set (ce := c_str (str_take 63 (local n))).
  set (d1 := mkNV (l_head d) ce (portListing d) (portListingLength d) true None).
  rewrite (run_step _ _ _ _ (d1, s)) by done. rewrite (run_steps _ _ _ _ _ (run_atts atts (d1, s))).
  assert (str_take 63 ce = ce) as Hce.
  { apply str_take_all. unfold ce. etrans; [apply length_c_str|]. apply length_str_take. }
  unfold is_listing, data_event. cbn [fst]. fold ce.
  destruct (decide (ce = "NewPortListing")) as [Hl|Hl], (decide (text = "")) as [Ht|Ht].
  - rewrite (bool_decide_true (ce = _)), (bool_decide_true (text = _)) by done.
    rewrite (bool_decide_false (text <> _)) by naive_solver. cbn [app].
    erewrite run_step; [|by apply (end_listing _ d1)]. by eexists _, _.
  - rewrite (bool_decide_true (ce = _)), (bool_decide_false (text = _)) by done.
    rewrite (bool_decide_true (text <> _)) by done. cbn [app].
    destruct (data_listing text d1 s Hl) as [s1 E1]. erewrite run_step; [|exact E1].
    erewrite run_step; [|by apply end_listing]. by eexists _, _.
  - rewrite (bool_decide_false (ce = _)), (bool_decide_true (text = _)) by done. cbn [app andb].
    destruct (end_value (print_name n) d1 s eq_refl Hl) as [s1 E1].
    erewrite run_step; [|exact E1]. eexists _, _. split; [done|]. split; [|done].
    unfold value_of. cbn [fst snd l_head cdata curelt d1]. by rewrite Ht, Hce.
  - rewrite (bool_decide_false (ce = _)), (bool_decide_false (text = _)) by done. cbn [app andb].
    erewrite run_step; [|by apply (data_value _ d1)].
    destruct (end_value (print_name n) (mkNV (l_head d) ce (portListing d) (portListingLength d)
      true (Some text)) s eq_refl Hl) as [s1 E1].
    erewrite run_step; [|exact E1]. eexists _, _. split; [done|]. split; [|done].
    unfold value_of. cbn [fst snd l_head cdata curelt]. by rewrite Hce.
Qed.

(** The last [NewPortListing] that is not empty. *)
Definition listing_of (d : doc) (before : option string) : option string :=
  foldl (fun a x => if is_listing x && bool_decide (x.2 <> "") then Some x.2 else a) before (leaves d).

Lemma nv_doc dc d s :
  doc_ok dc = true ->
  exists d' s', run_events nv_parser (events dc) (d, s) = Ok (tt, (d', s')) /\
    l_head d' = reverse (values dc) ++ l_head d /\
    (dc <> Empty -> topelt d' = false) /\ portListing d' = listing_of dc (portListing d).
Proof using ML.
  revert d s. induction dc as [|n atts text after rest IH|n atts b c IHc after rest IH]; intros d s Hok.
  - by exists d, s.
  - simpl in Hok. apply andb_prop in Hok as [_ Hok]. cbn [events].
    destruct (nv_leaf n atts text d s) as (d1 & s1 & E1 & H1 & H2 & H3).
    destruct (IH d1 s1 Hok) as (d2 & s2 & E2 & H4 & H5 & H6). exists d2, s2.
    replace (StartElt (local n) :: att_events atts ++ data_event text ++
        EndElt (print_name n) :: events rest) with
      ((StartElt (local n) :: att_events atts ++ data_event text ++ [EndElt (print_name n)]) ++ events rest)
      by (simpl; by rewrite <- !app_assoc).
    rewrite (run_steps _ _ _ _ _ E1). split; [exact E2|]. split; [|split].
    + rewrite H4, H1. unfold values. cbn [leaves].
      destruct (is_listing (local n, text)) eqn:Ei;
        [rewrite filter_cons_False by congruence|rewrite filter_cons_True by done]; [done|].
      rewrite fmap_cons, reverse_cons, <- app_assoc. done.
    + intros _. destruct rest; [simpl in E2; injection E2 as <- <-; done|by apply H5..].
    + rewrite H6, H3. done.
  - simpl in Hok.
    apply andb_prop in Hok as [[[[_ Hne]%andb_prop Hc]%andb_prop _]%andb_prop Hok].
    cbn [events].
    set (d1 := mkNV (l_head d) (c_str (str_take 63 (local n))) (portListing d)
      (portListingLength d) true None).
    rewrite (run_step _ _ _ _ (d1, s)) by done.
    rewrite (run_steps _ _ _ _ _ (run_atts atts (d1, s))).
    destruct (IHc d1 s Hc) as (d2 & s2 & E2 & H1 & H2 & H3).
    rewrite (run_steps _ _ _ _ _ E2).
    assert (topelt d2 = false) as Ht by (apply H2; by destruct c).
    rewrite (run_step _ _ _ _ (d2, s2)).
    2:{ cbn [run_event call1 nv_parser endeltfunc].
        unfold NameValueParserEndElt, nv_get, gets, bind. cbn [fst]. by rewrite Ht. }
    destruct (IH d2 s2 Hok) as (d3 & s3 & E3 & H4 & H5 & H6). exists d3, s3.
    split; [exact E3|]. split; [|split].
    + rewrite H4, H1. unfold values. cbn [leaves].
      by rewrite filter_app, map_app, reverse_app, <- app_assoc.
    + intros _. destruct rest; [simpl in E3; injection E3 as <- <-; done|by apply H5..].
    + rewrite H6, H3. unfold listing_of. cbn [leaves]. by rewrite foldl_app.
Qed.

Lemma ParseNameValue_document prolog dc tail s :
  prolog_ok prolog = true -> doc_ok dc = true ->
  exists d s', ParseNameValue (prolog +:+ print dc +:+ tail) (slen (prolog +:+ print dc)) s = Ok (d, s') /\
    l_head d = reverse (values dc) /\ portListing d = listing_of dc None.
Proof using ML.
  intros Hp Hd. unfold ParseNameValue, slen. rewrite Nat2Z.id, parsexml_print by done.
  destruct (nv_doc dc NV_zero s Hd) as (d & s' & -> & H1 & _ & H2). exists d, s'.
  by rewrite app_nil_r in H1.
Qed.

(** A reply is read into its values.  From a well-formed reply of the gateway the
    list holds the name and text of every element that has no children, the newest
    first, names cut to 63 and values to 127 bytes; the lookup gives the value of the
    last element of that name, and the port listing is kept apart and whole. *)
Theorem reply_values prolog dc tail s :
  prolog_ok prolog = true -> doc_ok dc = true ->
  exists d s', ParseNameValue (prolog +:+ print dc +:+ tail) (slen (prolog +:+ print dc)) s = Ok (d, s') /\
    l_head d = reverse (values dc) /\ portListing d = listing_of dc None /\
    forall name, GetValueFromNameValueList d name = find_value (reverse (values dc)) name.
Proof using ML.
  intros Hp Hd. destruct (ParseNameValue_document prolog dc tail s Hp Hd) as (d & s' & E & H1 & H2).
  exists d, s'. repeat split; [done..|]. intros name. unfold GetValueFromNameValueList. by rewrite H1.
Qed.
End UpnpReply.

(** ** A reply *)
#[local] Instance working_os : Os := fun _ c =>
  match c with Malloc _ => mkAnswer 1 0 "" 0 0 0 [] | _ => answer0 end.
#[local] Instance working_malloc : MallocLaws.
Proof. by split. Qed.
Definition address_reply (ip : string) : doc :=
  soap (Node (mkName "u" "GetExternalIPAddressResponse") [] "" (leaf "NewExternalIPAddress" ip Empty) "" Empty).

Lemma reply_values_witness :
  exists d s', ParseNameValue (xml_declaration +:+ print (address_reply "1.2.3.4") +:+ "x")
      (slen (xml_declaration +:+ print (address_reply "1.2.3.4"))) sys0 = Ok (d, s') /\
    GetValueFromNameValueList d "NewExternalIPAddress" = Some "1.2.3.4".
Proof.
  destruct (reply_values xml_declaration (address_reply "1.2.3.4") "x" sys0)
    as (d & s' & E & _ & _ & H); [reflexivity..|].
  exists d, s'. split; [exact E|]. rewrite H. reflexivity.
Defined.
