(* ===== verification/ParserKeeps.v ===== *)
(** * ParserKeeps

    What the callbacks of the XML parser leave alone, a whole parse leaves alone: the
    parser of minixml.c and [ParseNameValue] of upnpreplyparse.c. *)
From S2P Require Import Prelude.
From S2P Require Import CSys.
From S2P Require Import MiniXml.
From S2P Require Import UpnpReply.

(** ** Any observation of the callbacks' state *)
Section Keeps.
Context {S X : Type} (obs : S -> X).
Definition leaves {A} (m : M S A) : Prop := forall st a st', m st = Ok (a, st') -> obs st' = obs st.
Lemma leaves_ret {A} (a : A) : leaves (ret a).
Proof. intros st b st' E. by msteps. Qed.
Lemma leaves_fail {A} f : leaves (fail f : M S A).
Proof. intros st b st' E. by msteps. Qed.
Lemma leaves_outcome {A} (o : outcome A) : leaves (of_outcome o).
Proof. intros st b st' E. destruct o; [by injection E as <- <-|done]. Qed.
Lemma leaves_bind {A B} (m : M S A) (k : A -> M S B) :
  leaves m -> (forall a, leaves (k a)) -> leaves (bind m k).
Proof.
  intros Hm Hk st b st' (a & st1 & E1 & E2)%bind_ok. apply Hm in E1. apply Hk in E2. congruence.
Qed.
Ltac leaves :=
  repeat first
    [ assumption | solve [auto with nocore]
    | apply leaves_ret | apply leaves_fail | apply leaves_outcome | apply leaves_bind; [|intros] | case_match ].

Context (xp : xmlparser S).
Hypothesis start_leaves : forall a, leaves (call1 (starteltfunc xp) a).
Hypothesis end_leaves : forall a, leaves (call1 (endeltfunc xp) a).
Hypothesis data_leaves : forall a, leaves (call1 (datafunc xp) a).
Hypothesis att_leaves : forall a b, leaves (call2 (attfunc xp) a b).

Lemma parseatt_leaves fuel xmlend p : leaves (parseatt fuel xp xmlend p).
Proof using att_leaves. revert p. induction fuel; intros p; cbn [parseatt]; leaves. Qed.
Lemma content_leaves fuel xmlend p : leaves (MiniXml.content fuel xp xmlend p).
Proof using data_leaves. unfold MiniXml.content. leaves. Qed.
Lemma turn_leaves fuel xmlend p : leaves (parseelt_turn fuel xp xmlend p).
Proof using All.
  pose proof parseatt_leaves. pose proof content_leaves. unfold parseelt_turn. leaves.
Qed.
Lemma parseelt_leaves fuel xmlend p : leaves (parseelt fuel xp xmlend p).
Proof using All.
  pose proof turn_leaves. revert p. induction fuel; intros p; cbn [parseelt]; leaves.
Qed.
Lemma parsexml_leaves buffer n : leaves (parsexml xp buffer n).
Proof using All. apply parseelt_leaves. Qed.
End Keeps.

(** ** [ParseNameValue], whose callbacks allocate *)
Section NameValue.
Context `{Os} {X : Type} (obs : Sys -> X).
Hypothesis malloc_leaves : forall size, leaves obs (malloc size).

Lemma leaves_snd {S A} (m : M Sys A) :
  leaves obs m -> leaves (fun s : S * Sys => obs s.2) (on_snd m).
Proof using.
  intros Hm [d st] a [d' st'] E. unfold on_snd in E. cbn in E.
  destruct (m st) as [[b t]|] eqn:Em; [|done]. injection E as <- <- <-. by apply Hm in Em.
Qed.
Lemma leaves_nv_get : leaves (fun s : NameValueParserData * Sys => obs s.2) nv_get.
Proof using. intros st a st' E. unfold nv_get in E. by msteps. Qed.
Lemma leaves_nv_put d : leaves (fun s : NameValueParserData * Sys => obs s.2) (nv_put d).
Proof using. intros st a st' E. unfold nv_put in E. by msteps. Qed.
Ltac nv_leaves :=
  repeat first
    [ apply leaves_ret | apply leaves_nv_get | apply leaves_nv_put
    | apply leaves_snd, malloc_leaves | apply leaves_bind; [|intros] | case_match ].
Lemma ParseNameValue_leaves b n : leaves obs (ParseNameValue b n).
Proof using malloc_leaves.
  assert (leaves (fun s : NameValueParserData * Sys => obs s.2) (parsexml nv_parser b (Z.to_nat n))) as Hk.
  { apply parsexml_leaves; intros; cbn; unfold NameValueParserStartElt, NameValueParserEndElt,
      NameValueParserGetData; nv_leaves. }
  intros st d st'. unfold ParseNameValue. destruct (parsexml _ _ _ _) as [[u [d' s']]|] eqn:E; [|done].
  intros [= <- <-]. by apply Hk in E.
Qed.
End NameValue.
