(* ===== verification/IgdDesc.v ===== *)
(** * IgdDesc

    The description of an Internet gateway device
    (src/peer/external/miniupnpc-2.1.20190408/igd_desc_parse.c, [parserootdesc] of
    miniupnpc.c): the callbacks of the parser and the services a description
    yields. *)
From S2P Require Import Prelude.
From S2P Require Import CStr.
From S2P Require Import MiniXml.
From S2P Require Import XmlDocument.

Definition MINIUPNPC_URL_MAXSIZE : Z := 128.

Record IGDdatas_service : Type := mkService {
  controlurl : string;
  eventsuburl : string;
  scpdurl : string;
  servicetype : string
}.
Definition no_service : IGDdatas_service := mkService "" "" "" "".

Record IGDdatas : Type := mkIGD {
  cureltname : string;
  urlbase : string;
  presentationurl : string;
  level : Z;
  CIF : IGDdatas_service;
  first : IGDdatas_service;
  second : IGDdatas_service;
  IPv6FC : IGDdatas_service;
  tmp : IGDdatas_service
}.
(** [memset(data, 0, sizeof(struct IGDdatas))] *)
Definition IGD_zero : IGDdatas :=
  mkIGD "" "" "" 0 no_service no_service no_service no_service no_service.

(** [memcpy(dst, s, l); dst[l] = 0], [l] cut to fit. *)
Definition url_field (s : string) : string :=
  c_str (str_take (Z.to_nat (MINIUPNPC_URL_MAXSIZE - 1)) s).

Definition set_tmp (t : IGDdatas_service) (d : IGDdatas) : IGDdatas :=
  mkIGD (cureltname d) (urlbase d) (presentationurl d) (level d) (CIF d) (first d) (second d)
    (IPv6FC d) t.

Definition start_step (name : string) (d : IGDdatas) : IGDdatas :=
  let d := mkIGD (url_field name) (urlbase d) (presentationurl d) (level d + 1) (CIF d) (first d)
             (second d) (IPv6FC d) (tmp d) in
  if bool_decide (name = "service") then set_tmp no_service d else d.
Definition IGDstartelt (name : string) : M IGDdatas unit := modify (start_step name).

Definition COMPARE (str cstr : string) : bool := starts_with cstr str.
Definition WANCommonInterfaceConfig : string := "urn:schemas-upnp-org:service:WANCommonInterfaceConfig:".
Definition WANIPv6FirewallControl : string := "urn:schemas-upnp-org:service:WANIPv6FirewallControl:".
Definition WANIPConnection : string := "urn:schemas-upnp-org:service:WANIPConnection:".
Definition WANPPPConnection : string := "urn:schemas-upnp-org:service:WANPPPConnection:".

(** Where a service goes when its element ends. *)
Definition store_service (d : IGDdatas) : IGDdatas :=
  let t := tmp d in
  if COMPARE (servicetype t) WANCommonInterfaceConfig then
    mkIGD (cureltname d) (urlbase d) (presentationurl d) (level d) t (first d) (second d) (IPv6FC d) t
  else if COMPARE (servicetype t) WANIPv6FirewallControl then
    mkIGD (cureltname d) (urlbase d) (presentationurl d) (level d) (CIF d) (first d) (second d) t t
  else if COMPARE (servicetype t) WANIPConnection || COMPARE (servicetype t) WANPPPConnection then
    if bool_decide (servicetype (first d) = "") then
      mkIGD (cureltname d) (urlbase d) (presentationurl d) (level d) (CIF d) t (second d) (IPv6FC d) t
    else
      mkIGD (cureltname d) (urlbase d) (presentationurl d) (level d) (CIF d) (first d) t (IPv6FC d) t
  else d.

Definition end_step (name : string) (d : IGDdatas) : IGDdatas :=
  let d := mkIGD (cureltname d) (urlbase d) (presentationurl d) (level d - 1) (CIF d) (first d)
             (second d) (IPv6FC d) (tmp d) in
  if bool_decide (name = "service") then store_service d else d.
Definition IGDendelt (name : string) : M IGDdatas unit := modify (end_step name).

Definition data_step (data : string) (d : IGDdatas) : IGDdatas :=
  let v := url_field data in
  let t := tmp d in
  if bool_decide (cureltname d = "URLBase") then
    mkIGD (cureltname d) v (presentationurl d) (level d) (CIF d) (first d) (second d) (IPv6FC d) t
  else if bool_decide (cureltname d = "presentationURL") then
    mkIGD (cureltname d) (urlbase d) v (level d) (CIF d) (first d) (second d) (IPv6FC d) t
  else if bool_decide (cureltname d = "serviceType") then
    set_tmp (mkService (controlurl t) (eventsuburl t) (scpdurl t) v) d
  else if bool_decide (cureltname d = "controlURL") then
    set_tmp (mkService v (eventsuburl t) (scpdurl t) (servicetype t)) d
  else if bool_decide (cureltname d = "eventSubURL") then
    set_tmp (mkService (controlurl t) v (scpdurl t) (servicetype t)) d
  else if bool_decide (cureltname d = "SCPDURL") then
    set_tmp (mkService (controlurl t) (eventsuburl t) v (servicetype t)) d
  else d.
Definition IGDdata (data : string) : M IGDdatas unit := modify (data_step data).

Definition igd_parser : xmlparser IGDdatas :=
  mkParser (Some IGDstartelt) (Some IGDendelt) (Some IGDdata) None.

(** [parserootdesc] on the first [bufsize] bytes of [buffer]. *)
Definition parserootdesc (buffer : string) (bufsize : Z) (data : IGDdatas) : outcome IGDdatas :=
  match parsexml igd_parser buffer (Z.to_nat bufsize) data with
  | Ok (_, d) => Ok d
  | Err f => Err f
  end.

(** ** What a description becomes *)
Lemma igd_parser_returns : callbacks_return igd_parser.
Proof. split; simpl; intros f a; [..|done]; intros [= <-] d; by eexists _, _. Qed.

(** A service as a gateway describes it. *)
Definition service_fields (s : IGDdatas_service) : doc :=
  leaf "serviceType" (servicetype s) (leaf "controlURL" (controlurl s)
    (leaf "eventSubURL" (eventsuburl s) (leaf "SCPDURL" (scpdurl s) Empty))).
Fixpoint service_list (l : list IGDdatas_service) : doc :=
  match l with
  | [] => Empty
  | s :: l' => Node (mkName "" "service") [] "" (service_fields s) "" (service_list l')
  end.
Definition root_desc (base : string) (l : list IGDdatas_service) : doc :=
  Node (mkName "" "root") [("xmlns", "urn:schemas-upnp-org:device-1-0")] ""
    (leaf "URLBase" base
      (Node (mkName "" "device") [] ""
        (leaf "deviceType" "urn:schemas-upnp-org:device:InternetGatewayDevice:1"
          (Node (mkName "" "serviceList") [] "" (service_list l) "" Empty)) "" Empty)) "" Empty.

Definition is_connection (s : IGDdatas_service) : bool :=
  negb (COMPARE (servicetype s) WANCommonInterfaceConfig) &&
  negb (COMPARE (servicetype s) WANIPv6FirewallControl) &&
  (COMPARE (servicetype s) WANIPConnection || COMPARE (servicetype s) WANPPPConnection).
Definition is_v6 (s : IGDdatas_service) : bool :=
  negb (COMPARE (servicetype s) WANCommonInterfaceConfig) && COMPARE (servicetype s) WANIPv6FirewallControl.
Definition is_cif (s : IGDdatas_service) : bool := COMPARE (servicetype s) WANCommonInterfaceConfig.

(** *** The services of any description

    A text goes to the field its element names, cut to 127 bytes. *)
Definition field_step (n text : string) (s : IGDdatas_service) : IGDdatas_service :=
  let e := url_field n in let v := url_field text in
  if bool_decide (text = "") then s
  else if bool_decide (e = "serviceType") then mkService (controlurl s) (eventsuburl s) (scpdurl s) v
  else if bool_decide (e = "controlURL") then mkService v (eventsuburl s) (scpdurl s) (servicetype s)
  else if bool_decide (e = "eventSubURL") then mkService (controlurl s) v (scpdurl s) (servicetype s)
  else if bool_decide (e = "SCPDURL") then mkService (controlurl s) (eventsuburl s) v (servicetype s)
  else s.
(** What the children of a [service] element say of it, at any depth. *)
Fixpoint service_of (d : doc) (s : IGDdatas_service) : IGDdatas_service :=
  match d with
  | Empty => s
  | Leaf n _ text _ rest => service_of rest (field_step (local n) text s)
  | Node _ _ _ children _ rest => service_of rest (service_of children s)
  end.
Definition is_service (n : qname) : bool := bool_decide (print_name n = "service").
(** The services of a description in their order, at any depth. *)
Fixpoint services (d : doc) : list IGDdatas_service :=
  match d with
  | Empty => []
  | Leaf _ _ _ _ rest => services rest
  | Node n _ _ children _ rest =>
      if is_service n then service_of children no_service :: services rest
      else services children ++ services rest
  end.
(** The last [URLBase] that is not empty. *)
Fixpoint base_of (d : doc) (base : string) : string :=
  match d with
  | Empty => base
  | Leaf n _ text _ rest =>
      base_of rest (if bool_decide (url_field (local n) = "URLBase") && negb (bool_decide (text = ""))
                    then url_field text else base)
  | Node _ _ _ children _ rest => base_of rest (base_of children base)
  end.
(** No [service] within a [service]. *)
Fixpoint no_service_in (d : doc) : bool :=
  match d with
  | Empty => true
  | Leaf n _ _ _ rest => negb (bool_decide (local n = "service")) && no_service_in rest
  | Node n _ _ children _ rest =>
      negb (bool_decide (local n = "service")) && no_service_in children && no_service_in rest
  end.
Fixpoint services_apart (d : doc) : bool :=
  match d with
  | Empty => true
  | Leaf _ _ _ _ rest => services_apart rest
  | Node n _ _ children _ rest =>
      (if is_service n then no_service_in children else services_apart children) && services_apart rest
  end.

(** The four places for services, and what storing one does to them. *)
Definition slots (d : IGDdatas) := (CIF d, first d, second d, IPv6FC d).
Definition store_slot (sl : IGDdatas_service * IGDdatas_service * IGDdatas_service * IGDdatas_service)
    (t : IGDdatas_service) :=
  let '(c, f, g, v) := sl in
  if COMPARE (servicetype t) WANCommonInterfaceConfig then (t, f, g, v)
  else if COMPARE (servicetype t) WANIPv6FirewallControl then (c, f, g, t)
  else if COMPARE (servicetype t) WANIPConnection || COMPARE (servicetype t) WANPPPConnection then
    if bool_decide (servicetype f = "") then (c, t, g, v) else (c, f, t, v)
  else sl.
Lemma store_service_slots d : slots (store_service d) = store_slot (slots d) (tmp d).
Proof. unfold store_service, slots, store_slot. by repeat case_match. Qed.
Lemma store_service_rest d : urlbase (store_service d) = urlbase d /\ level (store_service d) = level d.
Proof. unfold store_service. by repeat case_match. Qed.
Lemma slot_no_service sl : store_slot sl no_service = sl.
Proof. by destruct sl as [[[c f] g] v]. Qed.

Lemma run_leaf n atts text a rest d :
  run_events igd_parser (events (Leaf n atts text a rest)) d =
  run_events igd_parser (events rest) (end_step (print_name n)
    (if bool_decide (text = "") then start_step (local n) d else data_step text (start_step (local n) d))).
Proof.
  cbn [events]. rewrite (run_step _ _ _ _ (start_step (local n) d)) by done.
  assert (run_events igd_parser (att_events atts) (start_step (local n) d) =
    Ok (tt, start_step (local n) d)) as Ea by (induction atts as [|x atts IH]; [done|exact IH]).
  rewrite (run_steps _ _ _ _ _ Ea). unfold data_event. by destruct (bool_decide (text = "")).
Qed.
Lemma run_node n atts b c a rest d d1 :
  run_events igd_parser (events c) (start_step (local n) d) = Ok (tt, d1) ->
  run_events igd_parser (events (Node n atts b c a rest)) d =
  run_events igd_parser (events rest) (end_step (print_name n) d1).
Proof.
  intros E. cbn [events]. rewrite (run_step _ _ _ _ (start_step (local n) d)) by done.
  assert (run_events igd_parser (att_events atts) (start_step (local n) d) =
    Ok (tt, start_step (local n) d)) as Ea.
  { clear. induction atts as [|x atts IH]; [done|]. exact IH. }
  rewrite (run_steps _ _ _ _ _ Ea), (run_steps _ _ _ _ _ E). by erewrite run_step.
Qed.

(** A leaf: its text, and the level back where it was. *)
Lemma leaf_effect n text d :
  let d' := if bool_decide (text = "") then start_step (local n) d else data_step text (start_step (local n) d) in
  level d' = level d + 1 /\ slots d' = slots d /\
  urlbase d' = (if bool_decide (url_field (local n) = "URLBase") && negb (bool_decide (text = ""))
                then url_field text else urlbase d) /\
  tmp d' = (if bool_decide (local n = "service") then no_service else field_step (local n) text (tmp d)).
Proof.
  unfold start_step, field_step, data_step, slots, set_tmp. cbv zeta.
  destruct (bool_decide_reflect (local n = "service")) as [Es|]; [rewrite Es|];
    cbn [cureltname urlbase presentationurl level CIF first second IPv6FC tmp];
    destruct (bool_decide_reflect (text = "")); cbn [andb negb]; rewrite ?andb_false_r, ?andb_true_r;
    try (by repeat split).
  - set (e := url_field (local n)).
    destruct (bool_decide_reflect (e = "URLBase")) as [->|]; [by repeat split|].
    destruct (bool_decide_reflect (e = "presentationURL")) as [->|]; [by repeat split|].
    by repeat case_bool_decide.
Qed.
Lemma end_effect n d :
  let d' := end_step (print_name n) d in
  level d' = level d - 1 /\ urlbase d' = urlbase d /\
  slots d' = (if is_service n then store_slot (slots d) (tmp d) else slots d) /\
  (is_service n = false -> tmp d' = tmp d).
Proof.
  unfold end_step, is_service. cbv zeta.
  destruct (bool_decide (print_name n = "service")); [|by repeat split].
  match goal with |- context [store_service ?x] => destruct (store_service_rest x) as [-> ->];
    rewrite (store_service_slots x) end. by repeat split.
Qed.
Lemma service_name n : is_service n = true -> local n = "service".
Proof.
  unfold is_service, print_name. intros H%bool_decide_eq_true. case_bool_decide; [done|].
  apply (f_equal (str_all (fun c => negb (Ascii.eqb c ":")))) in H. rewrite str_all_app in H.
  cbn in H. by rewrite andb_false_r in H.
Qed.
Lemma not_service n : local n <> "service" -> is_service n = false.
Proof. intros Hn. apply not_true_iff_false. intros H%service_name. done. Qed.

(** Within a service. *)
Lemma run_inside dc d : no_service_in dc = true ->
  exists d', run_events igd_parser (events dc) d = Ok (tt, d') /\ level d' = level d /\
    slots d' = slots d /\ urlbase d' = base_of dc (urlbase d) /\ tmp d' = service_of dc (tmp d).
Proof.
  revert d. induction dc as [|n atts text a rest IH|n atts b ch IHc a rest IH]; intros d Hd; [by exists d| |];
    cbn [no_service_in] in Hd.
  - apply andb_prop in Hd as [Hn%negb_true_iff%bool_decide_eq_false Hd]. rewrite run_leaf.
    match goal with |- context [end_step _ ?x] => set (d1 := x) end.
    destruct (leaf_effect n text d) as (L1 & S1 & B1 & T1). fold d1 in L1, S1, B1, T1. clearbody d1.
    destruct (end_effect n d1) as (L2 & B2 & S2 & T2). rewrite (not_service n Hn) in S2, T2. specialize (T2 eq_refl).
    destruct (IH (end_step (print_name n) d1) Hd) as (d' & -> & L3 & S3 & B3 & T3). exists d'.
    rewrite bool_decide_false in T1 by done. cbn [base_of service_of].
    split; [done|]. split; [lia|]. split; [congruence|]. split; [by rewrite B3, B2, B1|]. by rewrite T3, T2, T1.
  - apply andb_prop in Hd as [[Hn%negb_true_iff%bool_decide_eq_false Hc]%andb_prop Hd].
    destruct (IHc (start_step (local n) d) Hc) as (d1 & E1 & L1 & S1 & B1 & T1). erewrite run_node by exact E1.
    assert (level (start_step (local n) d) = level d + 1 /\ slots (start_step (local n) d) = slots d /\
      urlbase (start_step (local n) d) = urlbase d /\ tmp (start_step (local n) d) = tmp d) as (L0 & S0 & B0 & T0).
    { unfold start_step. by rewrite bool_decide_false. }
    destruct (end_effect n d1) as (L2 & B2 & S2 & T2). rewrite (not_service n Hn) in S2, T2. specialize (T2 eq_refl).
    destruct (IH (end_step (print_name n) d1) Hd) as (d' & -> & L3 & S3 & B3 & T3). exists d'.
    cbn [base_of service_of]. split; [done|]. split; [lia|]. split; [congruence|].
    split; [by rewrite B3, B2, B1, B0|]. by rewrite T3, T2, T1, T0.
Qed.

(** Anywhere else. *)
Lemma run_description dc d : services_apart dc = true ->
  exists d', run_events igd_parser (events dc) d = Ok (tt, d') /\ level d' = level d /\
    slots d' = foldl store_slot (slots d) (services dc) /\ urlbase d' = base_of dc (urlbase d).
Proof.
  revert d. induction dc as [|n atts text a rest IH|n atts b ch IHc a rest IH]; intros d Hd; [by exists d| |];
    cbn [services_apart] in Hd.
  - rewrite run_leaf. match goal with |- context [end_step _ ?x] => set (d1 := x) end.
    destruct (leaf_effect n text d) as (L1 & S1 & B1 & T1). fold d1 in L1, S1, B1, T1. clearbody d1.
    destruct (end_effect n d1) as (L2 & B2 & S2 & _).
    destruct (IH (end_step (print_name n) d1) Hd) as (d' & -> & L3 & S3 & B3). exists d'.
    cbn [base_of services]. split; [done|]. split; [lia|]. split; [|by rewrite B3, B2, B1].
    rewrite S3, S2, S1. destruct (is_service n) eqn:Hs; [|done].
    rewrite T1, bool_decide_true by (by apply service_name). by rewrite slot_no_service.
  - apply andb_prop in Hd as [Hc Hd]. cbn [base_of services].
    assert (level (start_step (local n) d) = level d + 1 /\ slots (start_step (local n) d) = slots d /\
      urlbase (start_step (local n) d) = urlbase d) as (L0 & S0 & B0)
      by (unfold start_step; by case_bool_decide).
    destruct (is_service n) eqn:Hs.
    + destruct (run_inside ch (start_step (local n) d) Hc) as (d1 & E1 & L1 & S1 & B1 & T1).
      erewrite run_node by exact E1. destruct (end_effect n d1) as (L2 & B2 & S2 & _). rewrite Hs in S2.
      destruct (IH (end_step (print_name n) d1) Hd) as (d' & -> & L3 & S3 & B3). exists d'.
      split; [done|]. split; [lia|]. split; [|by rewrite B3, B2, B1, B0].
      rewrite S3, S2, T1, S1, S0. cbn [foldl]. do 2 f_equal. unfold start_step.
      by rewrite bool_decide_true by (by apply service_name).
    + destruct (IHc (start_step (local n) d) Hc) as (d1 & E1 & L1 & S1 & B1). erewrite run_node by exact E1.
      destruct (end_effect n d1) as (L2 & B2 & S2 & _). rewrite Hs in S2.
      destruct (IH (end_step (print_name n) d1) Hd) as (d' & -> & L3 & S3 & B3). exists d'.
      split; [done|]. split; [lia|]. split; [|by rewrite B3, B2, B1, B0].
      by rewrite S3, S2, S1, S0, foldl_app.
Qed.

Definition conns (l : list IGDdatas_service) : list IGDdatas_service :=
  filter (fun s => is_connection s = true) l.
Definition cifs (l : list IGDdatas_service) : list IGDdatas_service :=
  filter (fun s => is_cif s = true) l.
Definition v6s (l : list IGDdatas_service) : list IGDdatas_service :=
  filter (fun s => is_v6 s = true) l.
Lemma connection_type s : is_connection s = true -> servicetype s <> "".
Proof. unfold is_connection. intros H E. by rewrite E in H. Qed.
Lemma filter_snoc {A} (P : A -> bool) l x :
  filter (fun y => P y = true) (l ++ [x]) = filter (fun y => P y = true) l ++ (if P x then [x] else []).
Proof.
  rewrite filter_app. f_equal. destruct (P x) eqn:E;
    [by rewrite filter_cons_True|rewrite filter_cons_False by congruence]; by rewrite filter_nil.
Qed.

Lemma slots_spec l :
  foldl store_slot (no_service, no_service, no_service, no_service) l =
  (List.last (cifs l) no_service, hd no_service (conns l), List.last (tl (conns l)) no_service,
   List.last (v6s l) no_service).
Proof.
  induction l as [|s l IH] using rev_ind; [done|]. rewrite foldl_app, IH. cbn [foldl].
  unfold cifs, conns, v6s, store_slot. rewrite !filter_snoc.
  change (is_cif s) with (COMPARE (servicetype s) WANCommonInterfaceConfig).
  change (is_v6 s) with (negb (COMPARE (servicetype s) WANCommonInterfaceConfig) &&
    COMPARE (servicetype s) WANIPv6FirewallControl).
  change (is_connection s) with (negb (COMPARE (servicetype s) WANCommonInterfaceConfig) &&
    negb (COMPARE (servicetype s) WANIPv6FirewallControl) &&
    (COMPARE (servicetype s) WANIPConnection || COMPARE (servicetype s) WANPPPConnection)).
  destruct (COMPARE (servicetype s) WANCommonInterfaceConfig); cbn [negb andb];
    [by rewrite last_last, !app_nil_r|].
  destruct (COMPARE (servicetype s) WANIPv6FirewallControl); cbn [negb andb];
    [by rewrite last_last, !app_nil_r|]. rewrite !app_nil_r.
  destruct (_ || _); [|by rewrite app_nil_r].
  destruct (filter (fun y => is_connection y = true) l) as [|c cs] eqn:Ef; cbn [hd tl app]; [done|].
  rewrite bool_decide_false; [by rewrite last_last|].
  apply connection_type. assert (c ∈ filter (fun y => is_connection y = true) l) as Hin by (rewrite Ef; left).
  by apply list_elem_of_filter in Hin as [? _].
Qed.


Definition wan_ip : IGDdatas_service :=
  mkService "/ctl" "/evt" "/scpd.xml" "urn:schemas-upnp-org:service:WANIPConnection:1".
Definition wan_cif : IGDdatas_service :=
  mkService "/cif" "" "/cif.xml" "urn:schemas-upnp-org:service:WANCommonInterfaceConfig:1".
(** A gateway: the services are those of the device within the device within the root. *)
Definition device (kind : string) (l : list IGDdatas_service) (devices rest : doc) : doc :=
  Node (mkName "" "device") [] "" (leaf "deviceType" ("urn:schemas-upnp-org:device:" +:+ kind +:+ ":1")
    (Node (mkName "" "serviceList") [] "" (service_list l) ""
      (match devices with Empty => Empty | _ => Node (mkName "" "deviceList") [] "" devices "" Empty end))) "" rest.
Definition gateway_root : doc :=
  Node (mkName "" "root") [("xmlns", "urn:schemas-upnp-org:device-1-0")] ""
    (device "InternetGatewayDevice" [mkService "/l3f" "" "" "urn:schemas-upnp-org:service:Layer3Forwarding:1"]
      (device "WANDevice" [wan_cif] (device "WANConnectionDevice" [wan_ip] Empty Empty) Empty)
      (leaf "URLBase" "http://192.168.1.1:5000" Empty)) "" Empty.
