(* ===== verification/PortListing.v ===== *)
(** * PortListing

    The port listing of an IGD version 2 gateway
    (src/peer/external/miniupnpc-2.1.20190408/portlistingparse.c): the callbacks of
    the parser and the list of mappings they build. *)
From S2P Require Import Prelude.
From S2P Require Import CStr.
From S2P Require Import CSys.
From S2P Require Import MiniXml.

Inductive portMappingElt : Type :=
  | PortMappingEltNone
  | PortMappingEntry
  | NewRemoteHost
  | NewExternalPort
  | NewProtocol
  | NewInternalPort
  | NewInternalClient
  | NewEnabled
  | NewDescription
  | NewLeaseTime.
#[export] Instance portMappingElt_eq_dec : EqDecision portMappingElt.
Proof. solve_decision. Defined.

Definition elements : list (portMappingElt * string) :=
  [(PortMappingEntry, "PortMappingEntry"); (NewRemoteHost, "NewRemoteHost");
   (NewExternalPort, "NewExternalPort"); (NewProtocol, "NewProtocol");
   (NewInternalPort, "NewInternalPort"); (NewInternalClient, "NewInternalClient");
   (NewEnabled, "NewEnabled"); (NewDescription, "NewDescription");
   (NewLeaseTime, "NewLeaseTime")].

(** [atoui] on the [l] bytes at [p]; [w] is the width of [UNSIGNED_INTEGER]. *)
Definition UINT_BITS : Z := 64.
Fixpoint atoui_from (r : Z) (p : string) : Z :=
  match p with
  | String c p' =>
      if is_digit c then atoui_from (wrap_u UINT_BITS (r * 10 + digit_value c)) p' else r
  | EmptyString => r
  end.
Definition atoui (p : string) : Z := atoui_from 0 p.

Record PortMapping : Type := mkPortMapping {
  leaseTime : Z;
  externalPort : Z;
  internalPort : Z;
  remoteHost : string;
  internalClient : string;
  description : string;
  protocol : string;
  enabled : Z
}.
(** [calloc(1, sizeof(struct PortMapping))] *)
Definition no_mapping : PortMapping := mkPortMapping 0 0 0 "" "" "" "" 0.
Definition sizeof_PortMapping : Z := 224.

(** The mappings, the newest first, and the element being read. *)
Record PortMappingParserData : Type := mkPMData {
  l_head : list PortMapping;
  curelt : portMappingElt
}.
Definition PM_zero : PortMappingParserData := mkPMData [] PortMappingEltNone.

Definition element_code (name : string) : portMappingElt :=
  match List.find (fun x => bool_decide (x.2 = name)) elements with
  | Some (code, _) => code
  | None => PortMappingEltNone
  end.

(** What the data of an element does to the mapping being read. *)
Definition set_field (elt : portMappingElt) (data : string) (pm : PortMapping) : PortMapping :=
  let data := str_take 63 data in
  match elt with
  | NewRemoteHost =>
      mkPortMapping (leaseTime pm) (externalPort pm) (internalPort pm) (c_str data)
        (internalClient pm) (description pm) (protocol pm) (enabled pm)
  | NewExternalPort =>
      mkPortMapping (leaseTime pm) (wrap_u 16 (atoui data)) (internalPort pm) (remoteHost pm)
        (internalClient pm) (description pm) (protocol pm) (enabled pm)
  | NewProtocol =>
      mkPortMapping (leaseTime pm) (externalPort pm) (internalPort pm) (remoteHost pm)
        (internalClient pm) (description pm) (c_str (str_take 3 data)) (enabled pm)
  | NewInternalPort =>
      mkPortMapping (leaseTime pm) (externalPort pm) (wrap_u 16 (atoui data)) (remoteHost pm)
        (internalClient pm) (description pm) (protocol pm) (enabled pm)
  | NewInternalClient =>
      mkPortMapping (leaseTime pm) (externalPort pm) (internalPort pm) (remoteHost pm)
        (c_str data) (description pm) (protocol pm) (enabled pm)
  | NewEnabled =>
      mkPortMapping (leaseTime pm) (externalPort pm) (internalPort pm) (remoteHost pm)
        (internalClient pm) (description pm) (protocol pm) (wrap_u 8 (atoui data))
  | NewDescription =>
      mkPortMapping (leaseTime pm) (externalPort pm) (internalPort pm) (remoteHost pm)
        (internalClient pm) (c_str data) (protocol pm) (enabled pm)
  | NewLeaseTime =>
      mkPortMapping (atoui data) (externalPort pm) (internalPort pm) (remoteHost pm)
        (internalClient pm) (description pm) (protocol pm) (enabled pm)
  | PortMappingEltNone | PortMappingEntry => pm
  end.

Section PortListing.
Context `{Os}.
Abbreviation MP := (M (PortMappingParserData * Sys)).
Definition pm_get : MP PortMappingParserData := gets fst.
Definition pm_put (d : PortMappingParserData) : MP unit := modify (fun st => (d, st.2)).

Definition startelt (name : string) : MP unit :=
  let! pdata := pm_get in
  let c := element_code name in
  pm_put (mkPMData (l_head pdata) c) ;;;
  if bool_decide (c = PortMappingEntry) then
    let! ok := on_snd (malloc sizeof_PortMapping) in
    if negb ok then ret tt else pm_put (mkPMData (no_mapping :: l_head pdata) c)
  else ret tt.
Definition endelt (name : string) : MP unit :=
  let! pdata := pm_get in pm_put (mkPMData (l_head pdata) PortMappingEltNone).
Definition data (d : string) : MP unit :=
  let! pdata := pm_get in
  match l_head pdata with
  | [] => ret tt
  | pm :: l => pm_put (mkPMData (set_field (curelt pdata) d pm :: l) (curelt pdata))
  end.

Definition pm_parser : xmlparser (PortMappingParserData * Sys) :=
  mkParser (Some startelt) (Some endelt) (Some data) None.

Definition ParsePortListing (buffer : string) (bufsize : Z) : M Sys PortMappingParserData := fun s =>
  match parsexml pm_parser buffer (Z.to_nat bufsize) (PM_zero, s) with
  | Ok (_, (d, s')) => Ok (d, s')
  | Err f => Err f
  end.
Definition FreePortListing (pdata : PortMappingParserData) : PortMappingParserData :=
  mkPMData [] (curelt pdata).

Lemma pm_parser_returns : callbacks_return pm_parser.
Proof.
  assert (totally pm_get (fun _ => True)) as Hg by (intros st; by eexists _, _).
  assert (forall d, totally (pm_put d) (fun _ => True)) as Hp by (intros d st; by eexists _, _).
  split; simpl; intros f a; [..|done]; intros [= <-];
    (eapply totally_bind; [exact Hg|]; intros d _); [|apply Hp|].
  - eapply totally_bind; [apply Hp|]. intros _ _. destruct (bool_decide _); [|by apply totally_ret].
    eapply (totally_bind _ _ (fun _ => True)); [|intros [] _; [apply Hp|by apply totally_ret]].
    intros [x s]. by eexists _, _.
  - destruct (l_head d); [by apply totally_ret|apply Hp].
Qed.
End PortListing.

(** ** The fields stay in their arrays *)
Definition mapping_bounds (pm : PortMapping) : Prop :=
  slen (remoteHost pm) < 64 /\ slen (internalClient pm) < 64 /\ slen (description pm) < 64 /\
  slen (protocol pm) < 4 /\ 0 <= externalPort pm < 2 ^ 16 /\ 0 <= internalPort pm < 2 ^ 16 /\
  0 <= enabled pm < 2 ^ 8 /\ 0 <= leaseTime pm < 2 ^ 64.

Lemma c_str_bound n s : slen (c_str (str_take n s)) <= Z.of_nat n.
Proof.
  unfold slen. assert (forall t, (String.length (c_str t) <= String.length t)%nat) as H1.
  { induction t as [|c t IH]; simpl; [lia|]. destruct (Ascii.eqb _ _); simpl; lia. }
  assert (forall n t, (String.length (str_take n t) <= n)%nat) as H2.
  { clear. induction n as [|n IH]; intros [|c t]; simpl; try lia. specialize (IH t). lia. }
  specialize (H1 (str_take n s)). specialize (H2 n s). lia.
Qed.
Lemma atoui_range r p : 0 <= r < 2 ^ 64 -> 0 <= atoui_from r p < 2 ^ 64.
Proof.
  revert r. induction p as [|c p IH]; intros r Hr; simpl; [done|].
  destruct (is_digit c); [|done]. apply IH. apply (wrap_u_range 64). lia.
Qed.

Lemma set_field_bounds elt d pm : mapping_bounds pm -> mapping_bounds (set_field elt d pm).
Proof.
  intros (H1 & H2 & H3 & H4 & H5 & H6 & H7 & H8).
  pose proof (c_str_bound 63 d) as Hc.
  pose proof (c_str_bound 3 (str_take 63 d)) as Hp.
  pose proof (atoui_range 0 (str_take 63 d) ltac:(lia)) as Ha. fold (atoui (str_take 63 d)) in Ha.
  pose proof (wrap_u_range 16 (atoui (str_take 63 d)) ltac:(lia)) as Hw.
  pose proof (wrap_u_range 8 (atoui (str_take 63 d)) ltac:(lia)) as Hw'.
  unfold mapping_bounds.
  destruct elt; cbn [set_field remoteHost internalClient description protocol externalPort
    internalPort enabled leaseTime]; repeat split; lia.
Qed.
Lemma no_mapping_bounds : mapping_bounds no_mapping.
Proof. unfold mapping_bounds, slen. simpl. lia. Qed.

(** Every mapping of the list is within the bounds of its structure, whatever the
    events of the document. *)
Definition list_bounds (d : PortMappingParserData) : Prop := Forall mapping_bounds (l_head d).
Lemma startelt_bounds `{Os} n d s d' s' :
  list_bounds d -> startelt n (d, s) = Ok (tt, (d', s')) -> list_bounds d'.
Proof.
  intros Hd. unfold startelt, pm_get, pm_put, gets, modify, bind. cbn [fst snd].
  destruct (bool_decide _); [|by intros [= <- _]]. unfold on_snd. cbn [fst snd].
  destruct (malloc _ s) as [[[] s1]|]; [..|done]; unfold ret; cbn [negb fst snd].
  - intros [= <- _]. constructor; [apply no_mapping_bounds|exact Hd].
  - by intros [= <- _].
Qed.
Lemma data_bounds `{Os} x d s d' s' :
  list_bounds d -> data x (d, s) = Ok (tt, (d', s')) -> list_bounds d'.
Proof.
  intros Hd. unfold data, pm_get, pm_put, gets, modify, bind. cbn [fst snd].
  destruct d as [[|pm l] c]; cbn [l_head curelt]; [by intros [= <- _]|]. intros [= <- _].
  inversion_clear Hd. constructor; [by apply set_field_bounds|done].
Qed.

#[local] Instance listing_os : Os := fun _ c =>
  match c with Malloc _ => mkAnswer 1 0 "" 0 0 0 [] | _ => answer0 end.
Definition listing_document : string :=
  "<p:PortMappingList><p:PortMappingEntry><p:NewRemoteHost>202.233.2.1</p:NewRemoteHost>" +:+
  "<p:NewExternalPort>2345</p:NewExternalPort><p:NewProtocol>TCP</p:NewProtocol>" +:+
  "<p:NewInternalPort>2346</p:NewInternalPort><p:NewEnabled>1</p:NewEnabled>" +:+
  "<p:NewLeaseTime>345</p:NewLeaseTime></p:PortMappingEntry></p:PortMappingList>".
Example listing_parsed :
  match ParsePortListing (listing_document +:+ "x") (slen listing_document) sys0 with
  | Ok (d, _) => l_head d = [mkPortMapping 345 2345 2346 "202.233.2.1" "" "" "TCP" 1]
  | Err _ => False
  end.
Proof. vm_compute. reflexivity. Qed.
