(* ===== verification/ParseUrl.v ===== *)
(** * ParseUrl

    [parseURL] (src/peer/external/miniupnpc-2.1.20190408/miniwget.c): host, port,
    path and IPv6 scope of an [http] URL, and its inverse. *)
From S2P Require Import Prelude.
From S2P Require Import CStr.
From S2P Require Import CSys.
From S2P Require Import XmlDocument.

Definition MAXHOSTNAMELEN : Z := 64.
Definition IF_NAMESIZE : Z := 16.

(** [while( *p2 >= '0' && *p2 <= '9') { *port *= 10; *port += *p2 - '0'; p2++; }] on
    an [unsigned short]. *)
Fixpoint port_loop (port : Z) (p2 : string) : Z :=
  match p2 with
  | String c p2' =>
      if is_digit c then port_loop (wrap_u 16 (wrap_u 16 (port * 10) + digit_value c)) p2' else port
  | EmptyString => port
  end.
(** [strncpy(hostname, p1, MIN(MAXHOSTNAMELEN, n))] into a cleared array. *)
Definition host_field (p1 : string) (n : nat) : string :=
  str_take (Nat.min (Z.to_nat MAXHOSTNAMELEN) n) p1.

Record url_parts : Type := mkParts { hostname : string; port : Z; path : string }.

Section ParseUrl.
Context `{Os}.

(** The scope between [%] and the closing bracket. *)
Definition parse_scope (p1 : string) (scope p2 : nat) : M Sys Z :=
  let scope := Datatypes.S scope in
  let scope := if starts_with "25" (str_drop scope p1) then (scope + 2)%nat else scope in
  let l := Nat.min (p2 - scope) (Z.to_nat IF_NAMESIZE - 1) in
  let tmp := str_take l (str_drop scope p1) in
  let! a := sys (IfNametoindex tmp) in
  ret (if a_ret a =? 0 then wrap_u 32 (strtoull 10 tmp) else wrap_u 32 (a_ret a)).

(** [parseURL]; [scope_id] is [None] for a null pointer.  The result is the parts,
    or [None] for 0, and the scope. *)
Definition parseURL (url : option string) (scope_id : option Z) :
    M Sys (option url_parts * option Z) :=
  match url with
  | None => ret (None, scope_id)
  | Some url =>
      match index_str "://" url with
      | None => ret (None, scope_id)
      | Some i =>
          if negb (starts_with "http" url) then ret (None, scope_id)
          else
            let p1 := str_drop (i + 3) url in
            let p3 := index_of "/" p1 in
            let! (done6, scope_id) :=
              (if starts_with "[" p1 then
                 let scope := index_of "%" p1 in
                 let p2 := index_of "]" p1 in
                 let! scope_id :=
                   match p2, scope, scope_id with
                   | Some p2, Some scope, Some _ =>
                       if (scope <? p2)%nat then
                         let! n := parse_scope p1 scope p2 in ret (Some n)
                       else ret scope_id
                   | _, _, _ => ret scope_id
                   end in
                 match p2, p3 with
                 | Some p2, Some p3 =>
                     let p2 := Datatypes.S p2 in
                     let rest := str_drop p2 p1 in
                     let port := match rest with
                                 | String c rest' => if Ascii.eqb c ":" then port_loop 0 rest' else 80
                                 | EmptyString => 80
                                 end in
                     ret (Some (mkParts (host_field p1 p2) port (str_drop p3 p1)), scope_id)
                 | _, _ => ret (None, scope_id)
                 end
               else ret (None, scope_id)) in
            match done6 with
            | Some parts => ret (Some parts, scope_id)
            | None =>
                match index_of ":" p1, p3 with
                | _, None => ret (None, scope_id)
                | None, Some p3 =>
                    ret (Some (mkParts (host_field p1 p3) 80 (str_drop p3 p1)), scope_id)
                | Some p2, Some p3 =>
                    if (p3 <? p2)%nat
                    then ret (Some (mkParts (host_field p1 p3) 80 (str_drop p3 p1)), scope_id)
                    else ret (Some (mkParts (host_field p1 p2)
                                      (port_loop 0 (str_drop (Datatypes.S p2) p1))
                                      (str_drop p3 p1)), scope_id)
                end
            end
      end
  end.
End ParseUrl.

(** ** The inverse *)
Definition print_url (u : url_parts) : string :=
  "http://" +:+ hostname u +:+ String ":" (dec (port u) +:+ path u).
Definition host_char (c : ascii) : bool :=
  negb (Ascii.eqb c ":") && negb (Ascii.eqb c "/").
Definition host_ok (h : string) : bool :=
  str_all host_char h && (slen h <=? MAXHOSTNAMELEN) && negb (starts_with "[" h).

Lemma index_of_app c s t :
  str_all (fun x => negb (Ascii.eqb x c)) s = true ->
  index_of c (s +:+ String c t) = Some (String.length s).
Proof.
  induction s as [|x s IH]; intros Hs; simpl in *.
  - by rewrite Ascii.eqb_refl.
  - apply andb_prop in Hs as [Hx Hs]. apply negb_true_iff in Hx. by rewrite Hx, IH.
Qed.
Lemma index_of_none c s : str_all (fun x => negb (Ascii.eqb x c)) s = true -> index_of c s = None.
Proof.
  induction s as [|x s IH]; simpl; [done|]. intros [Hx Hs]%andb_prop.
  apply negb_true_iff in Hx. by rewrite Hx, IH.
Qed.

Lemma is_digit_dec z : 0 <= z < 10 ->
  is_digit (ascii_of_byte (48 + z)) = true /\ digit_value (ascii_of_byte (48 + z)) = z.
Proof.
  intros Hz. unfold is_digit, digit_value. rewrite byte_of_ascii_of_byte by (unfold is_byte; lia). lia.
Qed.
Lemma port_loop_digits fuel z rest :
  0 <= z < 10 ^ Z.of_nat fuel -> (0 < fuel)%nat ->
  port_loop 0 (dec_digits fuel z +:+ rest) = port_loop (wrap_u 16 z) rest.
Proof.
  revert z rest. induction fuel as [|fuel IH]; intros z rest Hz Hf; [lia|]. cbn [dec_digits].
  pose proof (Z.mod_pos_bound z 10 ltac:(lia)) as Hm.
  destruct (is_digit_dec (z mod 10) Hm) as [Hd Hv].
  destruct (Z.ltb_spec z 10).
  - rewrite app_cons. cbn [port_loop]. rewrite Hd, Hv, nil_app_str. rewrite Z.mod_small by lia.
    unfold wrap_u. by rewrite Z.mul_0_l, Z.mod_0_l, Z.add_0_l by lia.
  - assert (0 < fuel)%nat by (destruct fuel; [simpl in Hz; lia|lia]).
    rewrite str_app_assoc, IH; [| |done].
    + rewrite app_cons, nil_app_str. cbn [port_loop]. rewrite Hd, Hv. f_equal. unfold wrap_u.
      rewrite Z.add_mod_idemp_l, <- (Z.add_mod_idemp_l (_ * 10)), Z.mul_mod_idemp_l, Z.add_mod_idemp_l
        by (change (2 ^ 16) with 65536; lia). f_equal. Z.div_mod_to_equations. lia.
    + rewrite Nat2Z.inj_succ, Z.pow_succ_r in Hz by lia.
      split; [apply Z.div_pos; lia|]. apply Z.div_lt_upper_bound; lia.
Qed.

Lemma dec_no_colon fuel z c :
  is_digit c = false -> str_all (fun x => negb (Ascii.eqb x c)) (dec_digits fuel z) = true.
Proof.
  intros Hc. revert z. induction fuel as [|fuel IH]; intros z; [done|]. cbn [dec_digits].
  pose proof (Z.mod_pos_bound z 10 ltac:(lia)) as Hm.
  destruct (is_digit_dec (z mod 10) Hm) as [Hd _].
  assert (negb (Ascii.eqb (ascii_of_byte (48 + z mod 10)) c) = true) as Hn.
  { destruct (Ascii.eqb_spec (ascii_of_byte (48 + z mod 10)) c) as [E|]; [|done].
    by rewrite E, Hc in Hd. }
  destruct (z <? 10); simpl; [by rewrite Hn|]. rewrite str_all_app, IH. simpl. by rewrite Hn.
Qed.

Lemma index_str_http t : index_str "://" ("http://" +:+ t) = Some 4%nat.
Proof. by vm_compute. Qed.

Lemma host_not h c : str_all host_char h = true -> c = ":"%char \/ c = "/"%char ->
  str_all (fun x => negb (Ascii.eqb x c)) h = true.
Proof.
  intros Hh Hc. eapply str_all_impl, Hh. intros x. unfold host_char.
  intros [H1 H2]%andb_prop. by destruct Hc as [-> | ->].
Qed.
Lemma host_field_app h t : slen h <= MAXHOSTNAMELEN -> host_field (h +:+ t) (String.length h) = h.
Proof.
  intros Hl. unfold host_field, slen in *. rewrite Nat.min_r by lia. apply str_take_app.
Qed.
Lemma starts_bracket h t :
  host_ok h = true -> (exists c u, t = String c u /\ Ascii.eqb "[" c = false) ->
  starts_with "[" (h +:+ t) = false.
Proof.
  unfold host_ok. intros [_ Hb]%andb_prop (c & u & -> & Hc). apply negb_true_iff in Hb.
  destruct h as [|x h]; [|exact Hb]. change (Ascii.eqb "[" c && true = false). by rewrite Hc.
Qed.

Section ParsePrint.
Context `{Os}.

(** URLs are read as they are written.  For every host without a colon, slash or
    leading bracket of at most 64 bytes, every port below 65536 and every absolute
    path, [parseURL] takes the URL with its port apart into exactly these parts, and
    without a port gives port 80; no name lookup is made. *)
Theorem parseURL_print u scope s :
  host_ok (hostname u) = true -> 0 <= port u < 2 ^ 16 -> starts_with "/" (path u) = true ->
  parseURL (Some (print_url u)) scope s = Ok ((Some u, scope), s) /\
  parseURL (Some ("http://" +:+ hostname u +:+ path u)) scope s =
    Ok ((Some (mkParts (hostname u) 80 (path u)), scope), s).
Proof.
  intros Hh Hp Hs. destruct u as [h p [|c pa]]; [done|]. cbn [hostname port path] in *.
  assert (c = "/"%char) as ->.
  { change (Ascii.eqb "/" c && true = true) in Hs. apply andb_prop in Hs as [Hs _]. symmetry.
    by apply Ascii.eqb_eq. }
  pose proof Hh as Hh'. unfold host_ok in Hh'.
  apply andb_prop in Hh' as [[Hc Hl]%andb_prop Hb]. apply Z.leb_le in Hl.
  pose proof (host_not h ":" Hc ltac:(by left)) as Hcolon.
  pose proof (host_not h "/" Hc ltac:(by right)) as Hslash.
  split; unfold parseURL; [unfold print_url; cbn [hostname port path]|];
    rewrite index_str_http; change (starts_with "http" ("http://" +:+ _)) with true; cbn [negb];
    change (str_drop (4 + 3) ("http://" +:+ ?t)) with t.
  - rewrite starts_bracket by (done || (eexists _, _; done)). unfold bind, ret at 1.
    rewrite (index_of_app ":") by done.
    unfold dec. destruct (Z.ltb_spec p 0); [lia|].
    set (dg := dec_digits 20 p).
    assert (index_of "/" (h +:+ String ":" (dg +:+ String "/" pa)) =
      Some (String.length (h +:+ String ":" dg))) as ->.
    { rewrite <- (index_of_app "/" (h +:+ String ":" dg) pa).
      - by rewrite str_app_assoc.
      - rewrite str_all_app, Hslash. simpl. by apply dec_no_colon. }
    destruct (Nat.ltb_spec (String.length (h +:+ String ":" dg)) (String.length h)); [len|].
    rewrite host_field_app by done.
    replace (str_drop (Datatypes.S (String.length h)) (h +:+ String ":" (dg +:+ String "/" pa)))
      with (dg +:+ String "/" pa).
    2:{ symmetry. replace (h +:+ String ":" (dg +:+ String "/" pa)) with
          ((h +:+ ":") +:+ (dg +:+ String "/" pa)) by (by rewrite str_app_assoc).
        apply str_drop_app'. len. }
    replace (str_drop (String.length (h +:+ String ":" dg)) (h +:+ String ":" (dg +:+ String "/" pa)))
      with (String "/" pa).
    2:{ symmetry. replace (h +:+ String ":" (dg +:+ String "/" pa)) with
          ((h +:+ String ":" dg) +:+ String "/" pa) by (by rewrite str_app_assoc).
        apply str_drop_app. }
    unfold dg. rewrite port_loop_digits;
      [|change (10 ^ Z.of_nat 20) with 100000000000000000000; lia|lia].
    rewrite wrap_u_id; [done|]. unfold in_u. lia.
  - rewrite starts_bracket by (done || (eexists _, _; done)). unfold bind, ret at 1.
    rewrite (index_of_app "/") by done. rewrite host_field_app, str_drop_app by done.
    destruct (index_of ":" (h +:+ String "/" pa)) as [n|] eqn:En; [|done].
    destruct (Nat.ltb_spec (String.length h) n); [done|]. exfalso.
    assert (forall t m, index_of ":" (h +:+ t) = Some m -> (String.length h <= m)%nat) as Hge.
    { clear -Hcolon. induction h as [|x h IH]; intros t m Hm; [simpl; lia|].
      simpl in *. apply andb_prop in Hcolon as [Hx Hh]. apply negb_true_iff in Hx. rewrite Hx in Hm.
      destruct (index_of ":" (h +:+ t)) as [k|] eqn:Ek; [|done]. injection Hm as <-.
      specialize (IH Hh t k Ek). lia. }
    specialize (Hge _ _ En). assert (n = String.length h) as -> by lia.
    clear -En Hcolon. induction h as [|x h IH].
    { simpl in En. by destruct (index_of ":" pa). }
    simpl in *.
    apply andb_prop in Hcolon as [Hx Hh]. apply negb_true_iff in Hx. rewrite Hx in En.
    destruct (index_of ":" (h +:+ String "/" pa)) as [k|]; [|done]. injection En as ->. by apply IH.
Qed.
End ParsePrint.

#[local] Instance no_os : Os := fun _ _ => answer0.
Lemma parseURL_print_witness :
  parseURL (Some "http://192.168.0.1:5431/uuid:0/desc.xml") None sys0 =
    Ok ((Some (mkParts "192.168.0.1" 5431 "/uuid:0/desc.xml"), None), sys0).
Proof.
  refine (proj1 (parseURL_print (mkParts "192.168.0.1" 5431 "/uuid:0/desc.xml") None sys0 _ _ _));
    [reflexivity|simpl; lia|reflexivity].
Defined.

(** Ports are not range-checked: 65616 is read as 80. *)
Example port_wraps :
  parseURL (Some "http://h:65616/") None sys0 = Ok ((Some (mkParts "h" 80 "/"), None), sys0).
Proof. vm_compute. reflexivity. Qed.
