(* ===== verification/HttpResponse.v ===== *)
(** * HttpResponse

    [receivedata] (src/peer/external/miniupnpc-2.1.20190408/receivedata.c) and
    [getHTTPResponse] (miniwget.c): a response is read from a socket in packets, its
    headers are parsed and its body is collected, with a content length or chunked. *)
From S2P Require Import Prelude.
From S2P Require Import CStr.
From S2P Require Import CSys.
From S2P Require Import MiniXml.
From S2P Require Import XmlDocument.
From S2P Require Import UpnpReply.

Definition AF_INET6 : Z := 10.

Section HttpResponse.
Context `{Os} `{Patience}.

(** [do { n = poll(...); } while(n < 0 && errno == EINTR);] *)
Fixpoint poll_loop (fuel : nat) (socket timeout : Z) : M Sys Z :=
  match fuel with
  | O => fail Undefined
  | Datatypes.S fuel' =>
      let! a := sys (Poll socket timeout) in
      let! e := get_errno in
      if (a_ret a <? 0) && (e =? EINTR) then poll_loop fuel' socket timeout else ret (a_ret a)
  end.

(** [receivedata]: what it returns, the bytes it stored, [*scope_id].  The answer to
    [recvfrom] has the family of the sender in [a_num1] and its scope in [a_num2]. *)
Definition receivedata (socket length timeout : Z) (scope_id : option Z) :
    M Sys (Z * string * option Z) :=
  let! n := poll_loop patience socket timeout in
  if n <? 0 then ret (-1, "", scope_id)
  else if n =? 0 then ret (0, "", scope_id)
  else
    let! a := sys (Recv socket length) in
    let scope_id :=
      match scope_id with
      | Some _ => if a_num1 a =? AF_INET6 then Some (wrap_u 32 (a_num2 a)) else scope_id
      | None => None
      end in
    ret (a_ret a, if a_ret a <? 0 then "" else a_data a, scope_id).

(** ** The end of the headers

    The loop over [i], [s] being the bytes from [i] on: the offset behind [CR LF CR LF]
    or [LF LF], or 0. *)
Fixpoint find_end (i : nat) (s : string) : nat :=
  match s with
  | String a (String b t as s1) =>
      if Ascii.eqb a CR then
        if Ascii.eqb b LF then
          match t with
          | String c t1 =>
              if Ascii.eqb c CR then
                match t1 with
                | String d t2 => if Ascii.eqb d LF then (i + 4)%nat else find_end (i + 4) t2
                | EmptyString => O
                end
              else find_end (i + 3) t1
          | EmptyString => O
          end
        else find_end (i + 2) t
      else if Ascii.eqb a LF then
        if Ascii.eqb b LF then (i + 2)%nat else find_end (i + 2) t
      else find_end (i + 1) s1
  | _ => O
  end.

(** ** The header lines *)
Record hline : Type := mkHline {
  linestart : nat;
  colon : nat;
  valuestart : nat;
  h_content_length : Z;
  h_chunked : bool;
  h_status_code : option Z
}.

Definition byte (b : string) (i : nat) : ascii := default NUL (String.get i b).
Definition is_eol (c : ascii) : bool := Ascii.eqb c CR || Ascii.eqb c LF.
Definition is_blank (c : ascii) : bool := Ascii.eqb c SP || Ascii.eqb c TAB.

(** [atoi] at an address: it may not run past the block. *)
Fixpoint digits_stop (s : string) : bool :=
  match s with String c s' => if is_digit c then digits_stop s' else true | EmptyString => false end.
Definition atoi_at (s : string) : outcome Z :=
  if digits_stop (signed (skip_space s)).2 then Ok (atoi s) else Err Undefined.

(** [while(i < endofheaders - 1 && blank(header_buf[i + 1])) i++;] *)
Fixpoint skip_blanks (fuel : nat) (b : string) (endofheaders i : nat) : nat :=
  match fuel with
  | O => i
  | Datatypes.S fuel' =>
      if (i <? endofheaders - 1)%nat && is_blank (byte b (i + 1))
      then skip_blanks fuel' b endofheaders (i + 1) else i
  end.
(** [while(i < header_buf_used && eol(header_buf[i])) i++;] *)
Fixpoint skip_eols (fuel : nat) (b : string) (used i : nat) : nat :=
  match fuel with
  | O => i
  | Datatypes.S fuel' =>
      if (i <? used)%nat && is_eol (byte b i) then skip_eols fuel' b used (i + 1) else i
  end.
(** The loop over [sp] of a status line that ends at [i], which has [k] turns left. *)
Fixpoint status_line (k : nat) (b : string) (i : nat) (status_code : Z) : outcome Z :=
  match k with
  | O => Ok status_code
  | Datatypes.S k' =>
      let sp := (i - k)%nat in
      if Ascii.eqb (byte b sp) SP then
        if status_code <? 0 then
          let? status_code := atoi_at (str_drop (sp + 1) b) in status_line k' b i status_code
        else Ok status_code
      else status_line k' b i status_code
  end.

(** A complete line that ends at [i]. *)
Definition header_line (b : string) (i : nat) (h : hline) : outcome hline :=
  match h_status_code h with
  | Some status_code =>
      if (linestart h =? 0)%nat then
        let? status_code := status_line i b i status_code in
        Ok (mkHline (linestart h) (colon h) (valuestart h) (h_content_length h) (h_chunked h)
              (Some status_code))
      else Ok h
  | None => Ok h
  end.
Definition header_field (b : string) (h : hline) : outcome hline :=
  if (linestart h <? colon h)%nat && (colon h <? valuestart h)%nat then
    let name := str_drop (linestart h) b in
    let n := (colon h - linestart h)%nat in
    if strncasecmp_eq n name "content-length" then
      let? v := atoi_at (str_drop (valuestart h) b) in
      Ok (mkHline (linestart h) (colon h) (valuestart h) v (h_chunked h) (h_status_code h))
    else if strncasecmp_eq n name "transfer-encoding" &&
            strncasecmp_eq 7 (str_drop (valuestart h) b) "chunked"
    then Ok (mkHline (linestart h) (colon h) (valuestart h) (h_content_length h) true (h_status_code h))
    else Ok h
  else Ok h.

(** One turn of the loop over the header: the last index it used. *)
Definition header_turn (b : string) (used endofheaders i : nat) (h : hline) : outcome (nat * hline) :=
  let c := byte b i in
  if (0 <? linestart h)%nat && (colon h <=? linestart h)%nat && Ascii.eqb c ":" then
    let i' := skip_blanks endofheaders b endofheaders i in
    Ok (i', mkHline (linestart h) i (i' + 1) (h_content_length h) (h_chunked h) (h_status_code h))
  else if is_eol c then
    let? h :=
      if (linestart h =? 0)%nat && bool_decide (is_Some (h_status_code h))
      then header_line b i h else header_field b h in
    let i' := skip_eols used b used i in
    Ok (i', mkHline i' i' 0 (h_content_length h) (h_chunked h) (h_status_code h))
  else Ok (i, h).

Fixpoint parse_headers (fuel : nat) (b : string) (used endofheaders i : nat) (h : hline) :
    outcome hline :=
  match fuel with
  | O => Err Undefined
  | Datatypes.S fuel' =>
      if (i <? endofheaders - 1)%nat then
        let? (i', h') := header_turn b used endofheaders i h in
        parse_headers fuel' b used endofheaders (i' + 1) h'
      else Ok h
  end.

(** ** The state of [getHTTPResponse]

    The two buffers are the blocks they point to, so [header_buf_len] and
    [content_buf_len] are their lengths; [chunksize_buf] is the text in it. *)
Record http : Type := mkHttp {
  header_buf : string;
  header_buf_used : Z;
  content_buf : string;
  content_buf_used : Z;
  endofheaders : Z;
  chunked : bool;
  content_length : Z;
  chunksize : Z;
  chunksize_buf : string;
  status_code : option Z
}.
Definition set_header m u st := mkHttp m u (content_buf st) (content_buf_used st) (endofheaders st)
  (chunked st) (content_length st) (chunksize st) (chunksize_buf st) (status_code st).
Definition set_content m u st := mkHttp (header_buf st) (header_buf_used st) m u (endofheaders st)
  (chunked st) (content_length st) (chunksize st) (chunksize_buf st) (status_code st).
Definition set_parsed e h st := mkHttp (header_buf st) (header_buf_used st) (content_buf st)
  (content_buf_used st) e (h_chunked h) (h_content_length h) (chunksize st) (chunksize_buf st)
  (h_status_code h).
Definition set_chunk v d st := mkHttp (header_buf st) (header_buf_used st) (content_buf st)
  (content_buf_used st) (endofheaders st) (chunked st) (content_length st) v d (status_code st).

Definition BUF : Z := 2048.

(** What a packet leads to: the next [receivedata], the end of the stream, or
    a failed allocation. *)
Inductive turn : Type := Continue | EndOfStream | OutOfMemory.

(** Make room for [k] more bytes of content. *)
Definition grow_content (k : Z) (st : http) : M Sys (option http) :=
  let need := wrap_u 32 (content_buf_used st + k) in
  if slen (content_buf st) <? need then
    let len := if (0 <=? content_length st) && (need <=? content_length st)
               then content_length st else need in
    let! m := realloc (content_buf st) len in
    ret (match m with None => None | Some m => Some (set_content m (content_buf_used st) st) end)
  else ret (Some st).
(** [memcpy(content_buf + content_buf_used, s, n); content_buf_used += n;] *)
Definition append_content (s : string) (st : http) : M Sys http :=
  let! m := lift_out (overwrite (content_buf_used st) s (content_buf st)) in
  ret (set_content m (wrap_u 32 (content_buf_used st + slen s)) st).

(** ** Chunks *)
Fixpoint take_xdigits (s d : string) : string * string :=
  match s with
  | String c s' =>
      if is_xdigit c && (String.length d <? 31)%nat then take_xdigits s' (d +:+ String c "") else (d, s)
  | EmptyString => (d, s)
  end.
Fixpoint skip_extension (s : string) : string :=
  match s with String c s' => if is_eol c then s else skip_extension s' | EmptyString => s end.
Definition skip_char (a : ascii) (s : string) : string :=
  match s with String c s' => if Ascii.eqb c a then s' else s | EmptyString => s end.
Definition xdigit_value (c : ascii) : Z :=
  if is_digit c then digit_value c else Z.lor (byte_of_ascii c) 32 - 97 + 10.
Fixpoint chunk_value (v : Z) (d : string) : Z :=
  match d with
  | String c d' => chunk_value (wrap_u 32 (Z.shiftl v 4 + xdigit_value c)) d'
  | EmptyString => v
  end.

(** One turn of [while(i < n)], on the bytes left of the packet: the bytes left for
    the next one. *)
Definition chunk_data (s : string) (st : http) : M Sys (turn * string * http) :=
  let bytestocopy := Z.min (chunksize st) (slen s) in
  let! r := grow_content bytestocopy st in
  match r with
  | None => ret (OutOfMemory, s, st)
  | Some st =>
      let! st := append_content (str_take (Z.to_nat bytestocopy) s) st in
      ret (Continue, str_drop (Z.to_nat bytestocopy) s,
           set_chunk (chunksize st - bytestocopy) (chunksize_buf st) st)
  end.
(** The digits of the size behind those in [d], and the data behind a whole size. *)
Definition chunk_size (d s : string) (st : http) : M Sys (turn * string * http) :=
  let '(d, s) := take_xdigits s d in
  let s := skip_char CR (skip_extension s) in
  match s with
  | String c s' =>
      if Ascii.eqb c LF then
        let v := chunk_value 0 d in
        let st := set_chunk v "" st in
        if v =? 0 then ret (EndOfStream, s', st) else chunk_data s' st
      else ret (Continue, s, set_chunk 0 d st)
  | EmptyString => ret (Continue, s, set_chunk 0 d st)
  end.
Definition chunk_turn (s : string) (st : http) : M Sys (turn * string * http) :=
  if chunksize st =? 0 then
    let s := if bool_decide (chunksize_buf st = "") then skip_char LF (skip_char CR s) else s in
    chunk_size (chunksize_buf st) s st
  else chunk_data s st.
Fixpoint chunk_loop (fuel : nat) (s : string) (st : http) : M Sys (turn * http) :=
  match s, fuel with
  | EmptyString, _ => ret (Continue, st)
  | _, O => fail Undefined
  | _, Datatypes.S fuel' =>
      let! (t, s', st') := chunk_turn s st in
      match t with
      | Continue => chunk_loop fuel' s' st'
      | _ => ret (t, st')
      end
  end.

(** ** A packet *)
Definition plain_content (s : string) (st : http) : M Sys (turn * http) :=
  let n := slen s in
  let n := if (0 <? content_length st) && (content_length st <? wrap_u 32 (content_buf_used st + n))
           then content_length st - content_buf_used st else n in
  if n <? 0 then fail Undefined
  else
    let! r := grow_content n st in
    match r with
    | None => ret (OutOfMemory, st)
    | Some st =>
        let! st := append_content (str_take (Z.to_nat n) s) st in ret (Continue, st)
    end.
Definition content (s : string) (st : http) : M Sys (turn * http) :=
  let! (t, st) :=
    (if chunked st then chunk_loop (Datatypes.S (String.length s)) s st else plain_content s st) in
  match t with
  | Continue =>
      if (0 <? content_length st) && (content_length st <=? content_buf_used st)
      then ret (EndOfStream, st) else ret (Continue, st)
  | _ => ret (t, st)
  end.

(** The bytes of a packet behind those the headers had before. *)
Definition grow_header (n : Z) (st : http) : M Sys (option http) :=
  let need := wrap_u 32 (header_buf_used st + n) in
  if slen (header_buf st) <? need then
    let! m := realloc (header_buf st) need in
    ret (match m with None => None | Some m => Some (set_header m (header_buf_used st) st) end)
  else ret (Some st).

(** The headers received so far: wait for more, or parse them and go on to the content
    behind them. *)
Definition header_block (st : http) : M Sys (turn * http) :=
  let used := Z.to_nat (header_buf_used st) in
  let e := find_end 0 (str_take used (header_buf st)) in
  if (e =? 0)%nat then ret (Continue, st)
  else
    let! h := lift_out (parse_headers (Datatypes.S e) (header_buf st) used e 0
      (mkHline 0 0 0 (content_length st) (chunked st) (status_code st))) in
    let st := set_parsed (Z.of_nat e) h st in
    let n := header_buf_used st - Z.of_nat e in
    if BUF <? n then fail Undefined
    else content (substr (Z.of_nat e) n (header_buf st)) st.

Definition on_packet (buf : string) (st : http) : M Sys (turn * http) :=
  if endofheaders st =? 0 then
    let! r := grow_header (slen buf) st in
    match r with
    | None => ret (OutOfMemory, st)
    | Some st =>
        let! m := lift_out (overwrite (header_buf_used st) buf (header_buf st)) in
        header_block (set_header m (wrap_u 32 (header_buf_used st + slen buf)) st)
    end
  else content buf st.

Fixpoint http_loop (fuel : nat) (s : Z) (st : http) : M Sys (bool * http) :=
  match fuel with
  | O => fail Undefined
  | Datatypes.S fuel' =>
      let! (n, buf, _) := receivedata s BUF 5000 None in
      if n <=? 0 then ret (true, st)
      else
        let! (t, st) := on_packet buf st in
        match t with
        | Continue => http_loop fuel' s st
        | EndOfStream => ret (true, st)
        | OutOfMemory => ret (false, st)
        end
  end.

(** [getHTTPResponse]: the block it returns, [*size] and [*status_code]. *)
Definition getHTTPResponse (s : Z) (status : option Z) :
    M Sys (option string * Z * option Z) :=
  let status := option_map (fun _ => -1) status in
  let! header_buf := alloc BUF in
  match header_buf with
  | None => ret (None, -1, status)
  | Some header_buf =>
      let! content_buf := alloc BUF in
      match content_buf with
      | None => ret (None, -1, status)
      | Some content_buf =>
          let! (ok, st) := http_loop patience s
            (mkHttp header_buf 0 content_buf 0 0 false (-1) 0 "" status) in
          if negb ok then ret (None, -1, status_code st)
          else if content_buf_used st =? 0 then ret (None, wrap_s 32 (content_buf_used st), status_code st)
          else ret (Some (HttpResponse.content_buf st), wrap_s 32 (content_buf_used st), status_code st)
      end
  end.
End HttpResponse.
