(* ===== verification/HttpHeaders.v ===== *)
(** * HttpHeaders

    What [getHTTPResponse] makes of the headers of a response: where they end, and
    the status code, content length and transfer encoding they give. *)
From S2P Require Import Prelude.
From S2P Require Import CStr.
From S2P Require Import CSys.
From S2P Require Import MiniXml.
From S2P Require Import XmlDocument.
From S2P Require Import ParseUrl.
From S2P Require Import HttpResponse.

(** ** A header block *)
Definition CRLF : string := String CR (String LF "").
Definition print_field (f : string * string) : string := f.1 +:+ ": " +:+ f.2 +:+ CRLF.
Definition print_fields (l : list (string * string)) : string := join (map print_field l).
Definition print_head (status : string) (l : list (string * string)) : string :=
  status +:+ CRLF +:+ print_fields l +:+ CRLF.

Definition line_char (c : ascii) : bool := negb (is_eol c).
Definition name_char (c : ascii) : bool := line_char c && negb (Ascii.eqb c ":").
Definition field_ok (f : string * string) : bool :=
  str_all name_char f.1 && bool_decide (f.1 <> "") &&
  str_all line_char f.2 && match f.2 with String c _ => negb (is_blank c) | EmptyString => false end.

(** ** The end of the headers *)
Lemma find_end_eq i a b t :
  find_end i (String a (String b t)) =
  if Ascii.eqb a CR then
    if Ascii.eqb b LF then
      match t with
      | String c t1 =>
          if Ascii.eqb c CR then
            match t1 with
            | String d t2 => if Ascii.eqb d LF then (i + 4)%nat else find_end (i + 4) t2
            | EmptyString => O
            end
          else find_end (i + 3) t1
      | EmptyString => O
      end
    else find_end (i + 2) t
  else if Ascii.eqb a LF then
    if Ascii.eqb b LF then (i + 2)%nat else find_end (i + 2) t
  else find_end (i + 1) (String b t).
Proof. done. Qed.
Lemma find_end_bound i s : find_end i s <> O -> (i < find_end i s <= i + String.length s)%nat.
Proof.
  remember (String.length s) as n eqn:Hn. revert i s Hn.
  induction (lt_wf n) as [n _ IH]; intros i s Hn.
  destruct s as [|a [|b t]]; [done..|]. rewrite find_end_eq. cbn [String.length] in Hn.
  assert (forall k u, (0 < k)%nat -> (k + String.length u <= n)%nat -> find_end (i + k) u <> O ->
    (i < find_end (i + k) u <= i + n)%nat) as Hrec.
  { intros k u Hk Hu Hf. specialize (IH (String.length u) ltac:(lia) (i + k)%nat u eq_refl Hf). lia. }
  destruct (Ascii.eqb a CR), (Ascii.eqb b LF).
  - destruct t as [|c t]; [done|]. cbn [String.length] in Hn. destruct (Ascii.eqb c CR).
    + destruct t as [|d t]; [done|]. cbn [String.length] in Hn. destruct (Ascii.eqb d LF); [lia|].
      apply Hrec; lia.
    + apply Hrec; lia.
  - apply Hrec; lia.
  - destruct (Ascii.eqb a LF); [lia|]. apply Hrec; cbn [String.length]; lia.
  - destruct (Ascii.eqb a LF); apply Hrec; cbn [String.length]; lia.
Qed.

(** An end that is found is found again when more has arrived. *)
Lemma find_end_app i s t : find_end i s <> O -> find_end i (s +:+ t) = find_end i s.
Proof.
  remember (String.length s) as n eqn:Hn. revert i s Hn.
  induction (lt_wf n) as [n _ IH]; intros i s Hn.
  destruct s as [|a [|b u]]; [done..|]. rewrite !app_cons, !find_end_eq.
  cbn [String.length] in Hn.
  destruct (Ascii.eqb a CR), (Ascii.eqb b LF).
  - destruct u as [|c u]; [done|]. rewrite app_cons. cbn [String.length] in Hn.
    destruct (Ascii.eqb c CR).
    + destruct u as [|d u]; [done|]. rewrite app_cons. cbn [String.length] in Hn.
      destruct (Ascii.eqb d LF); [done|]. apply (IH (String.length u)); lia.
    + apply (IH (String.length u)); lia.
  - apply (IH (String.length u)); lia.
  - destruct (Ascii.eqb a LF); [done|]. rewrite <- app_cons.
    apply (IH (String.length (String b u))); cbn [String.length]; lia.
  - destruct (Ascii.eqb a LF); [apply (IH (String.length u)); lia|]. rewrite <- app_cons.
    apply (IH (String.length (String b u))); cbn [String.length]; lia.
Qed.

Lemma line_char_not c : line_char c = true -> Ascii.eqb c CR = false /\ Ascii.eqb c LF = false.
Proof. unfold line_char, is_eol. destruct (Ascii.eqb c CR), (Ascii.eqb c LF); done. Qed.

Lemma find_end_line i l t :
  str_all line_char l = true ->
  find_end i (l +:+ String CR (String LF t)) = find_end (i + String.length l) (String CR (String LF t)).
Proof.
  revert i. induction l as [|c l IH]; intros i Hl; [f_equal; simpl; lia|].
  cbn [str_all] in Hl. apply andb_prop in Hl as [[Hc1 Hc2]%line_char_not Hl].
  specialize (IH (i + 1)%nat Hl). cbn [String.length].
  replace (i + Datatypes.S (String.length l))%nat with (i + 1 + String.length l)%nat by lia. rewrite <- IH.
  rewrite app_cons. destruct (l +:+ String CR (String LF t)) as [|b u] eqn:E.
  { destruct l; done. }
  by rewrite find_end_eq, Hc1, Hc2.
Qed.

(** The header block is recognised at its end, whatever follows. *)
Lemma find_end_head status l t :
  str_all line_char status = true -> forallb field_ok l = true ->
  find_end 0 (print_head status l +:+ t) = String.length (print_head status l).
Proof.
  intros Hs Hl. unfold print_head, CRLF. rewrite !str_app_assoc.
  change (String CR (String LF "") +:+ ?u) with (String CR (String LF u)).
  rewrite find_end_line by done. cbn [plus]. rewrite !length_app_str. cbn [String.length].
  generalize (String.length status) as i.
  clear Hs. revert Hl. induction l as [|[n v] l IH]; intros Hl i.
  { unfold print_fields. cbn [join map]. rewrite !nil_app_str.
    change (String CR (String LF "") +:+ t) with (String CR (String LF t)).
    rewrite find_end_eq, !Ascii.eqb_refl. cbn [String.length]. lia. }
  cbn [forallb] in Hl. apply andb_prop in Hl as [Hf Hl]. specialize (IH Hl).
  unfold field_ok in Hf. cbn [fst snd] in Hf.
  apply andb_prop in Hf as [[[Hn Hne]%andb_prop Hv]%andb_prop Hb].
  apply bool_decide_eq_true in Hne.
  unfold print_fields. cbn [join map]. fold (print_fields l). unfold print_field at 1. cbn [fst snd].
  destruct n as [|c n]; [done|]. rewrite !str_app_assoc, app_cons.
  cbn [str_all] in Hn. apply andb_prop in Hn as [Hc Hn].
  apply andb_prop in Hc as [Hc _]. apply line_char_not in Hc as [Hc1 Hc2].
  rewrite find_end_eq, !Ascii.eqb_refl, Hc1.
  set (line := n +:+ ": " +:+ v).
  replace (n +:+ ": " +:+ v +:+ CRLF +:+ print_fields l +:+ String CR (String LF "") +:+ t)
    with (line +:+ String CR (String LF (print_fields l +:+ String CR (String LF "") +:+ t)))
    by (unfold line; rewrite !str_app_assoc; reflexivity).
  rewrite find_end_line.
  - rewrite IH. unfold line. unfold print_field. cbn [fst snd].
    rewrite !length_app_str. change (String.length CRLF) with 2%nat. cbn [String.length]. lia.
  - unfold line. rewrite !str_all_app. rewrite Hv. cbn [str_all].
    rewrite (str_all_impl name_char line_char n); [done| |done].
    intros a Ha. by apply andb_prop in Ha as [].
Qed.

(** Until the whole block has arrived no end is seen. *)
Lemma find_end_prefix status l t p q :
  str_all line_char status = true -> forallb field_ok l = true ->
  print_head status l +:+ t = p +:+ q ->
  find_end 0 p = if (String.length p <? String.length (print_head status l))%nat then O
                 else String.length (print_head status l).
Proof.
  intros Hs Hl E. pose proof (find_end_head status l t Hs Hl) as Hh.
  destruct (Nat.ltb_spec (String.length p) (String.length (print_head status l))) as [Hlt|Hge].
  - destruct (Nat.eq_dec (find_end 0 p) O) as [|Hne]; [done|].
    pose proof (find_end_bound 0 p Hne). rewrite E, find_end_app in Hh by done. lia.
  - assert (exists r, p = print_head status l +:+ r) as [r ->].
    { exists (str_drop (String.length (print_head status l)) p).
      revert p q E Hge. generalize (print_head status l) as h. clear.
      induction h as [|c h IH]; intros p q E Hge; [done|].
      destruct p as [|c' p]; cbn [String.length] in Hge; [lia|].
      rewrite !app_cons in E. injection E as <- E. rewrite app_cons. cbn [str_drop].
      f_equal. apply (IH p q E). lia. }
    by apply find_end_head.
Qed.

(** ** Characters of a block *)
Lemma byte_app p c t : byte (p +:+ String c t) (String.length p) = c.
Proof.
  unfold byte. induction p as [|a p IH]; [done|]. rewrite app_cons. cbn [String.length String.get].
  exact IH.
Qed.
Lemma byte_at_app b p c t i :
  b = p +:+ String c t -> i = String.length p -> byte b i = c.
Proof. intros -> ->. apply byte_app. Qed.

Lemma name_char_not c : name_char c = true -> is_eol c = false /\ Ascii.eqb c ":" = false.
Proof. unfold name_char, line_char. destruct (is_eol c), (Ascii.eqb c ":"); done. Qed.

Lemma strncasecmp_app n t b :
  strncasecmp_eq (String.length n) (n +:+ t) b = strncasecmp_eq (String.length n) n b.
Proof.
  revert b. induction n as [|c n IH]; intros b; [done|]. rewrite app_cons.
  cbn [String.length strncasecmp_eq]. destruct b as [|y b]; [done|]. by rewrite IH.
Qed.
(** A literal with no line end in it does not match past the end of a line. *)
Lemma strncasecmp_line k v t b :
  str_all line_char b = true -> (k <= String.length b)%nat -> str_all (fun c => negb (Ascii.eqb c NUL)) b = true ->
  strncasecmp_eq k (v +:+ String CR t) b = strncasecmp_eq k v b.
Proof.
  revert v b. induction k as [|k IH]; intros v b Hb Hk Hz; [done|].
  destruct b as [|y b]; cbn [String.length] in Hk; [lia|]. cbn [str_all] in Hb, Hz.
  apply andb_prop in Hb as [Hy Hb], Hz as [Hzy Hz].
  destruct v as [|c v].
  - rewrite nil_app_str. cbn [strncasecmp_eq]. apply negb_true_iff in Hzy. rewrite Hzy.
    destruct (Ascii.eqb_spec (to_lower CR) (to_lower y)) as [E|]; [|done]. exfalso.
    unfold line_char, is_eol in Hy. revert E Hy. clear. unfold to_lower.
    destruct ((65 <=? byte_of_ascii y) && (byte_of_ascii y <=? 90)) eqn:Ey.
    + intros E. apply (f_equal byte_of_ascii) in E. rewrite byte_of_ascii_of_byte in E.
      * assert (byte_of_ascii (to_lower CR) = 13) as E13 by reflexivity.
        unfold to_lower in E13. rewrite E13 in E. lia.
      * unfold is_byte. lia.
    + cbn. intros <-. done.
  - rewrite app_cons. cbn [strncasecmp_eq]. by rewrite IH by (done || lia).
Qed.

(** ** Numbers *)
Lemma digits_stop_app s c t :
  str_all is_digit s = true -> is_digit c = false -> digits_stop (s +:+ String c t) = true.
Proof.
  induction s as [|a s IH]; [intros _ Hc|intros Ha Hc].
  - rewrite nil_app_str. cbn [digits_stop]. by rewrite Hc.
  - cbn [str_all] in Ha. apply andb_prop in Ha as [Ha Hs]. rewrite app_cons. cbn [digits_stop].
    rewrite Ha. by apply IH.
Qed.
Lemma digit_not_space c : is_digit c = true -> is_space c = false /\ Ascii.eqb c "-" = false /\ Ascii.eqb c "+" = false.
Proof.
  intros Hc. split; [unfold is_digit, is_space in *; lia|].
  split; apply Ascii.eqb_neq; intros ->; done.
Qed.
Lemma digits_stop_at (v s : string) acc c :
  str_all is_digit v = true -> is_digit c = false -> digits 10 (v +:+ String c s) acc = digits 10 v acc.
Proof.
  revert acc. induction v as [|a v IH]; intros acc Hv Hc.
  - rewrite nil_app_str. cbn [digits]. unfold digit_in. rewrite Hc.
    set (l := byte_of_ascii (to_lower c)).
    destruct ((97 <=? l) && (l <=? 122)) eqn:E; [destruct (Z.ltb_spec (l - 97 + 10) 10); [lia|done]|done].
  - cbn [str_all] in Hv. apply andb_prop in Hv as [Ha Hv]. rewrite app_cons. cbn [digits].
    destruct (digit_in 10 a); [by apply IH|done].
Qed.
Lemma signed_digits v c s :
  str_all is_digit v = true -> v <> "" ->
  signed (skip_space (v +:+ String c s)) = (false, v +:+ String c s) /\ signed (skip_space v) = (false, v).
Proof.
  destruct v as [|a v]; [done|]. intros Hv _. cbn [str_all] in Hv. apply andb_prop in Hv as [Ha _].
  apply digit_not_space in Ha as (H1 & H2 & H3). rewrite app_cons. cbn [skip_space]. rewrite H1.
  cbn [signed]. by rewrite H2, H3.
Qed.
Lemma atoi_at_digits v c s :
  str_all is_digit v = true -> v <> "" -> is_digit c = false ->
  atoi_at (v +:+ String c s) = Ok (atoi v).
Proof.
  intros Hv Hne Hc. destruct (signed_digits v c s Hv Hne) as [E1 E2].
  unfold atoi_at. rewrite E1. cbn [snd]. rewrite digits_stop_app by done. f_equal.
  unfold atoi, strtol. rewrite E1, E2. rewrite digits_stop_at by done.
  destruct v as [|a v]; [done|]. rewrite app_cons. done.
Qed.

(** ** The loop over the header *)
Definition field_effect (f : string * string) (x : Z * bool) : Z * bool :=
  if strncasecmp_eq (String.length f.1) f.1 "content-length" then (atoi f.2, x.2)
  else if strncasecmp_eq (String.length f.1) f.1 "transfer-encoding" && strncasecmp_eq 7 f.2 "chunked"
  then (x.1, true) else x.
Definition fields_effect (l : list (string * string)) (x : Z * bool) : Z * bool :=
  foldl (fun x f => field_effect f x) x l.
(** A length is a number. *)
Definition length_ok (f : string * string) : bool :=
  negb (strncasecmp_eq (String.length f.1) f.1 "content-length") || str_all is_digit f.2.

Section Parse.
Context (b : string) (used e : nat).

(** The fuel left is more than the turns left. *)
Definition enough (fuel i : nat) : Prop := (e - i < fuel)%nat.

Lemma run_char fuel i h c t :
  enough fuel (String.length i) -> b = i +:+ String c t -> (String.length i < e - 1)%nat ->
  is_eol c = false ->
  (0 <? linestart h)%nat && (colon h <=? linestart h)%nat && Ascii.eqb c ":" = false ->
  exists fuel', enough fuel' (String.length i + 1) /\
    parse_headers fuel b used e (String.length i) h =
    parse_headers fuel' b used e (String.length i + 1) h.
Proof using.
  unfold enough. intros Hf Hb Hi Hc Hcol. destruct fuel as [|fuel]; [lia|]. exists fuel.
  split; [lia|]. cbn [parse_headers]. destruct (Nat.ltb_spec (String.length i) (e - 1)); [|lia].
  unfold header_turn. rewrite (byte_at_app b i c t) by done. by rewrite Hcol, Hc.
Qed.

Lemma run_chars s fuel i h t :
  enough fuel (String.length i) -> b = i +:+ s +:+ t ->
  (String.length i + String.length s <= e - 1)%nat ->
  str_all line_char s = true ->
  (str_all name_char s = true \/ (linestart h < colon h)%nat \/ linestart h = O) ->
  exists fuel', enough fuel' (String.length i + String.length s) /\
    parse_headers fuel b used e (String.length i) h =
    parse_headers fuel' b used e (String.length i + String.length s) h.
Proof using.
  revert fuel i. induction s as [|c s IH]; intros fuel i Hf Hb Hi Hs Hn.
  { exists fuel. cbn [String.length]. rewrite Nat.add_0_r. done. }
  cbn [str_all String.length] in *. apply andb_prop in Hs as [Hc Hs].
  assert ((0 <? linestart h)%nat && (colon h <=? linestart h)%nat && Ascii.eqb c ":" = false) as Hcol.
  { destruct Hn as [Hn|[Hn|Hn]].
    - apply andb_prop in Hn as [[_ Hn]%name_char_not _]. by rewrite Hn, andb_false_r.
    - destruct (Nat.leb_spec (colon h) (linestart h)); [lia|]. by rewrite andb_false_r.
    - rewrite Hn. done. }
  destruct (run_char fuel i h c (s +:+ t)) as (f1 & Hf1 & ->); [done|by rewrite Hb, app_cons|lia| |done|].
  { by apply negb_true_iff. }
  replace (String.length i + 1)%nat with (String.length (i +:+ String c "")) in * by len.
  destruct (IH f1 (i +:+ String c "")) as (f2 & Hf2 & E2); [done| |len|done| |].
  { by rewrite Hb, !str_app_assoc. }
  { destruct Hn as [Hn|Hn]; [left|by right]. by apply andb_prop in Hn as []. }
  exists f2. rewrite E2. rewrite length_app_str. cbn [String.length].
  replace (String.length i + Datatypes.S (String.length s))%nat
    with (String.length i + 1 + String.length s)%nat by lia.
  rewrite length_app_str in Hf2. done.
Qed.

(** The blank behind the colon. *)
Lemma skip_blanks_one i v t :
  b = i +:+ String ":" (String SP (v +:+ t)) -> (String.length i + 2 < e)%nat ->
  match v with String c _ => is_blank c = false | EmptyString => False end ->
  skip_blanks e b e (String.length i) = (String.length i + 1)%nat.
Proof using.
  intros Hb Hi Hv. destruct e as [|[|e']]; [lia|lia|]. cbn [skip_blanks].
  destruct (Nat.ltb_spec (String.length i) (Datatypes.S (Datatypes.S e') - 1)); [|lia].
  rewrite (byte_at_app b (i +:+ ":") SP (v +:+ t)); [|by rewrite Hb, str_app_assoc|len].
  change (is_blank SP) with true. cbn [andb].
  destruct v as [|c v]; [done|].
  rewrite (byte_at_app b (i +:+ ": ") c (v +:+ t)); [|by rewrite Hb, str_app_assoc|len].
  by rewrite Hv, andb_false_r.
Qed.

(** What a field does to the state at its end. *)
Lemma header_field_spec i n v t cl ch sc :
  field_ok (n, v) = true -> length_ok (n, v) = true ->
  b = i +:+ n +:+ String ":" (String SP (v +:+ String CR t)) ->
  let c := (String.length i + String.length n)%nat in
  header_field b (mkHline (String.length i) c (c + 2) cl ch sc) =
  Ok (mkHline (String.length i) c (c + 2) (field_effect (n, v) (cl, ch)).1
        (field_effect (n, v) (cl, ch)).2 sc).
Proof using.
  intros Hf Hl Hb c. unfold field_ok in Hf. cbn [fst snd] in Hf.
  apply andb_prop in Hf as [[[_ Hn]%andb_prop Hv]%andb_prop Hbl]. apply bool_decide_eq_true in Hn.
  assert (0 < String.length n)%nat by (destruct n; cbn [String.length]; [done|lia]).
  unfold header_field. cbn [linestart colon valuestart h_content_length h_chunked h_status_code].
  destruct (Nat.ltb_spec (String.length i) c); [|lia]. destruct (Nat.ltb_spec c (c + 2)); [|lia].
  cbn [andb]. replace (c - String.length i)%nat with (String.length n) by lia.
  rewrite Hb at 1. rewrite str_drop_app, strncasecmp_app.
  assert (str_drop (c + 2) b = v +:+ String CR t) as Hd.
  { rewrite Hb. replace (i +:+ n +:+ String ":" (String SP (v +:+ String CR t)))
      with ((i +:+ n +:+ ": ") +:+ v +:+ String CR t) by (rewrite !str_app_assoc; reflexivity).
    apply str_drop_app'. unfold c. rewrite !length_app_str. cbn [String.length]. lia. }
  unfold field_effect, length_ok in *. cbn [fst snd] in *.
  destruct (strncasecmp_eq (String.length n) n "content-length").
  { rewrite Hd, atoi_at_digits; [done|done|by destruct v|done]. }
  rewrite Hb at 1. rewrite str_drop_app, strncasecmp_app, Hd.
  rewrite strncasecmp_line by (done || (cbn [String.length]; lia)).
  by destruct (_ && _).
Qed.

(** A line that is a field: what is left to do starts behind its end. *)
Lemma run_field fuel i n v t cl ch sc :
  enough fuel (String.length i + 1) -> String.length i <> O ->
  field_ok (n, v) = true -> length_ok (n, v) = true ->
  b = i +:+ n +:+ String ":" (String SP (v +:+ String CR t)) ->
  (String.length i + String.length n + 2 + String.length v < e - 1)%nat ->
  let j := skip_eols used b used (String.length i + String.length n + 2 + String.length v) in
  (String.length i + String.length n + 2 + String.length v <= j)%nat ->
  exists fuel', enough fuel' (j + 1) /\
    parse_headers fuel b used e (String.length i + 1) (mkHline (String.length i) (String.length i) 0 cl ch sc) =
    parse_headers fuel' b used e (j + 1) (mkHline j j 0 (field_effect (n, v) (cl, ch)).1
        (field_effect (n, v) (cl, ch)).2 sc).
Proof using.
  intros Hf Hi Hok Hlen Hb He j Hj. pose proof Hok as Hok'. unfold field_ok in Hok'. cbn [fst snd] in Hok'.
  apply andb_prop in Hok' as [[[Hn Hne]%andb_prop Hv]%andb_prop Hbl]. apply bool_decide_eq_true in Hne.
  destruct n as [|c n]; [done|]. cbn [str_all] in Hn. apply andb_prop in Hn as [Hc Hn].
  set (h := mkHline (String.length i) (String.length i) 0 cl ch sc).
  (* the rest of the name *)
  replace (String.length i + 1)%nat with (String.length (i +:+ String c "")) in * by len.
  destruct (run_chars n fuel (i +:+ String c "") h (String ":" (String SP (v +:+ String CR t))))
    as (f1 & Hf1 & ->); [done|by rewrite Hb, !str_app_assoc|len| |by left|].
  { eapply str_all_impl; [|exact Hn]. intros a Ha. by apply andb_prop in Ha as []. }
  (* the colon *)
  set (p := i +:+ String c n).
  replace (String.length (i +:+ String c "") + String.length n)%nat with (String.length p) in *
    by (unfold p; len).
  assert (b = p +:+ String ":" (String SP (v +:+ String CR t))) as Hp
    by (rewrite Hb; unfold p; by rewrite str_app_assoc).
  assert (String.length p = (String.length i + String.length (String c n))%nat) as Hlp by (unfold p; len).
  destruct f1 as [|f1]; [unfold enough in Hf1; lia|]. cbn [parse_headers].
  destruct (Nat.ltb_spec (String.length p) (e - 1)); [|lia].
  unfold header_turn at 1. rewrite (byte_at_app b p ":" _ _ Hp eq_refl).
  cbn [linestart colon h h_content_length h_chunked h_status_code].
  destruct (Nat.ltb_spec 0 (String.length i)); [|lia]. rewrite Nat.leb_refl. cbn [andb].
  change (Ascii.eqb ":" ":") with true. cbn iota. cbn [obind].
  rewrite (skip_blanks_one p v (String CR t) Hp); [|lia|]; cycle 1.
  { destruct v as [|a v]; [done|]. by apply negb_true_iff. }
  (* the value *)
  set (h1 := mkHline (String.length i) (String.length p) (String.length p + 1 + 1) cl ch sc).
  set (q := p +:+ ": ").
  replace (String.length p + 1 + 1)%nat with (String.length q) by (unfold q; len).
  destruct (run_chars v f1 q h1 (String CR t)) as (f2 & Hf2 & ->).
  { unfold enough, q in *. len. }
  { rewrite Hp. unfold q. by rewrite str_app_assoc. }
  { unfold q. len. }
  { done. }
  { right. left. cbn [linestart colon h1]. len. }
  (* the end of the line *)
  set (r := q +:+ v). replace (String.length q + String.length v)%nat with (String.length r) in * by (unfold r; len).
  assert (b = r +:+ String CR t) as Hr by (rewrite Hp; unfold r, q; by rewrite !str_app_assoc).
  assert (String.length r = String.length i + String.length (String c n) + 2 + String.length v)%nat as Hlr
    by (unfold r, q; len).
  destruct f2 as [|f2]; [unfold enough in Hf2; lia|]. cbn [parse_headers].
  destruct (Nat.ltb_spec (String.length r) (e - 1)); [|lia].
  unfold header_turn. rewrite (byte_at_app b r CR _ _ Hr eq_refl).
  cbn [linestart colon h1 h_status_code]. change (Ascii.eqb CR ":") with false. rewrite andb_false_r.
  change (is_eol CR) with true. cbn iota.
  destruct (Nat.eqb_spec (String.length i) 0); [lia|]. cbn [andb].
  unfold h1. rewrite Hlp. replace (_ + 1 + 1)%nat with (String.length i + String.length (String c n) + 2)%nat by lia.
  rewrite (header_field_spec i (String c n) v t) by (done || by rewrite Hb).
  cbn [obind]. rewrite Hlr. fold j. exists f2. split; [unfold enough in *; lia|]. done.
Qed.
End Parse.

(** ** Line ends *)
Lemma skip_eols_stop fuel b used p c t :
  b = p +:+ String c t -> is_eol c = false ->
  skip_eols fuel b used (String.length p) = String.length p.
Proof.
  intros Hb Hc. destruct fuel as [|fuel]; [done|]. cbn [skip_eols].
  by rewrite (byte_at_app b p c t), Hc, andb_false_r by done.
Qed.
Lemma skip_eols_step fuel b used p c t :
  b = p +:+ String c t -> is_eol c = true -> (String.length p < used)%nat ->
  skip_eols (Datatypes.S fuel) b used (String.length p) = skip_eols fuel b used (String.length (p +:+ String c "")).
Proof.
  intros Hb Hc Hu. cbn [skip_eols]. rewrite (byte_at_app b p c t), Hc by done.
  destruct (Nat.ltb_spec (String.length p) used); [|lia]. f_equal. len.
Qed.
Lemma skip_eols_ge fuel b used i : (i <= skip_eols fuel b used i)%nat.
Proof.
  revert i. induction fuel as [|fuel IH]; intros i; cbn [skip_eols]; [lia|].
  destruct (_ && _); [|lia]. etrans; [|apply IH]. lia.
Qed.

Lemma skip_eols_line b used p c t :
  b = p +:+ CRLF +:+ String c t -> is_eol c = false -> (String.length p + 2 < used)%nat ->
  skip_eols used b used (String.length p) = (String.length p + 2)%nat.
Proof.
  intros Hb Hc Hu. destruct used as [|[|u]] eqn:E; [lia|lia|]. rewrite <- E in *.
  rewrite E at 1. erewrite skip_eols_step; [|exact Hb|done|lia].
  erewrite skip_eols_step; [|by rewrite Hb, !str_app_assoc|done|len].
  erewrite skip_eols_stop; [len|by rewrite Hb, !str_app_assoc|done].
Qed.
Lemma skip_eols_last b used p t :
  b = p +:+ CRLF +:+ CRLF +:+ t -> (String.length p + 4 <= used)%nat ->
  (String.length p + 4 <= skip_eols used b used (String.length p))%nat.
Proof.
  intros Hb Hu. destruct used as [|[|[|[|u]]]] eqn:E; [lia..|]. rewrite <- E in *.
  rewrite E at 1. erewrite skip_eols_step; [|exact Hb|done|lia].
  do 3 (erewrite skip_eols_step; [|by rewrite Hb, !str_app_assoc|done|len]).
  etrans; [|apply skip_eols_ge]. len.
Qed.

Lemma parse_done fuel b used e i h :
  enough e fuel i -> (e - 1 <= i)%nat -> parse_headers fuel b used e i h = Ok h.
Proof.
  unfold enough. intros Hf Hi. destruct fuel as [|fuel]; [lia|]. cbn [parse_headers].
  by destruct (Nat.ltb_spec i (e - 1)); [lia|].
Qed.

(** All the fields, from behind the line end before them. *)
Lemma run_head_fields l b used e fuel i t cl ch sc :
  l <> [] -> forallb field_ok l = true -> forallb length_ok l = true ->
  enough e fuel (String.length i + 1) -> String.length i <> O ->
  b = i +:+ print_fields l +:+ CRLF +:+ t ->
  e = (String.length i + String.length (print_fields l) + 2)%nat -> (e <= used)%nat ->
  exists h, parse_headers fuel b used e (String.length i + 1)
      (mkHline (String.length i) (String.length i) 0 cl ch sc) = Ok h /\
    (h_content_length h, h_chunked h) = fields_effect l (cl, ch) /\ h_status_code h = sc.
Proof.
  revert i fuel cl ch. induction l as [|[n v] l IH]; intros i fuel cl ch Hne Hok Hlen Hf Hi Hb He Hu; [done|].
  clear Hne. cbn [forallb] in Hok, Hlen. apply andb_prop in Hok as [Hnv Hok], Hlen as [Hlnv Hlen].
  assert (print_fields ((n, v) :: l) = n +:+ ": " +:+ v +:+ CRLF +:+ print_fields l) as Hpf
    by (unfold print_fields; cbn [map join]; unfold print_field; cbn [fst snd]; by rewrite !str_app_assoc).
  rewrite Hpf in Hb, He. rewrite !length_app_str in He. change (String.length CRLF) with 2%nat in He.
  cbn [String.length] in He.
  set (p := i +:+ n +:+ ": " +:+ v).
  assert (String.length p = String.length i + String.length n + 2 + String.length v)%nat as Hp
    by (unfold p; len).
  assert (b = p +:+ CRLF +:+ print_fields l +:+ CRLF +:+ t) as Hbp
    by (rewrite Hb; unfold p; by rewrite !str_app_assoc).
  set (j := skip_eols used b used (String.length p)).
  destruct (run_field b used e fuel i n v (String LF (print_fields l +:+ CRLF +:+ t)) cl ch sc)
    as (f1 & Hf1 & E); [done..| | | |].
  { rewrite Hb, !str_app_assoc. reflexivity. }
  { lia. }
  { rewrite <- Hp. apply skip_eols_ge. }
  rewrite E. rewrite <- Hp in *. fold j in Hf1 |- *. clear E.
  destruct l as [|[n' v'] l].
  - assert (String.length p + 4 <= j)%nat as Hj.
    { apply (skip_eols_last b used p t); [by rewrite Hbp|]. unfold print_fields in He. cbn in He. lia. }
    rewrite parse_done; [|done|unfold print_fields in He; cbn in He; lia].
    eexists. split; [done|]. cbn [h_content_length h_chunked h_status_code fields_effect foldl].
    by destruct (field_effect _ _).
  - pose proof Hok as Hok'. cbn [forallb] in Hok'. apply andb_prop in Hok' as [Hn' _].
    unfold field_ok in Hn'. cbn [fst snd] in Hn'.
    apply andb_prop in Hn' as [[[Hn' Hne']%andb_prop _]%andb_prop _]. apply bool_decide_eq_true in Hne'.
    destruct n' as [|c' n']; [done|]. cbn [str_all] in Hn'. apply andb_prop in Hn' as [[Hc' _]%name_char_not _].
    assert (j = String.length (p +:+ CRLF)) as Hj.
    { rewrite length_app_str. change (String.length CRLF) with 2%nat. unfold j.
      eapply skip_eols_line; [|exact Hc'|lia]. rewrite Hbp. unfold print_fields. cbn [map join].
      unfold print_field at 1. cbn [fst snd]. rewrite !str_app_assoc, app_cons. reflexivity. }
    rewrite Hj in *.
    destruct (IH (p +:+ CRLF) f1 (field_effect (n, v) (cl, ch)).1 (field_effect (n, v) (cl, ch)).2)
      as (h & E & H1 & H2); [done|done|done|done|len| | |done|].
    { by rewrite Hbp, !str_app_assoc. }
    { rewrite length_app_str. change (String.length CRLF) with 2%nat. lia. }
    exists h. split; [done|]. split; [|done]. rewrite H1. cbn [fields_effect foldl].
    by destruct (field_effect (n, v) (cl, ch)).
Qed.

(** ** The status line *)
Definition print_status (version code reason : string) : string :=
  version +:+ " " +:+ code +:+ " " +:+ reason.
Definition status_ok (version code reason : string) : bool :=
  str_all (fun c => line_char c && negb (Ascii.eqb c SP)) version &&
  str_all is_digit code && bool_decide (code <> "") && (0 <=? atoi code) && str_all line_char reason.

Lemma status_skip b i p s t k st :
  b = p +:+ s +:+ t -> i = (String.length p + String.length s + k)%nat ->
  str_all (fun c => negb (Ascii.eqb c SP)) s = true ->
  status_line (String.length s + k) b i st = status_line k b i st.
Proof.
  revert p. induction s as [|c s IH]; intros p Hb Hi Hs; [done|].
  cbn [str_all String.length] in *. apply andb_prop in Hs as [Hc%negb_true_iff Hs].
  cbn [plus status_line].
  replace (i - Datatypes.S (String.length s + k))%nat with (String.length p) by lia.
  rewrite (byte_at_app b p c (s +:+ t)) by done. rewrite Hc.
  apply (IH (p +:+ String c "")); [by rewrite Hb, !str_app_assoc|len|done].
Qed.

Lemma digit_line c : is_digit c = true -> line_char c = true /\ Ascii.eqb c SP = false.
Proof.
  intros Hc. unfold line_char, is_eol.
  destruct (Ascii.eqb_spec c CR) as [->|]; [done|]. destruct (Ascii.eqb_spec c LF) as [->|]; [done|].
  by destruct (Ascii.eqb_spec c SP) as [->|].
Qed.
Lemma status_line_spec version code reason b t :
  status_ok version code reason = true ->
  b = print_status version code reason +:+ t ->
  let i := String.length (print_status version code reason) in
  status_line i b i (-1) = Ok (atoi code).
Proof.
  intros Hok Hb i. unfold status_ok in Hok. rewrite !andb_true_iff in Hok.
  destruct Hok as [[[[Hv Hc] Hne] Hpos] Hr].
  apply bool_decide_eq_true in Hne.
  assert (i = String.length version + (1 + (String.length code + (1 + String.length reason))))%nat as Hi
    by (unfold i, print_status; len).
  rewrite Hi at 1. unfold print_status in Hb. rewrite !str_app_assoc in Hb.
  rewrite (status_skip b i "" version (" " +:+ code +:+ " " +:+ reason +:+ t));
    [|done|cbn [String.length]; lia|]; cycle 1.
  { eapply str_all_impl; [|exact Hv]. intros c Hx. by apply andb_prop in Hx as []. }
  cbn [plus status_line].
  replace (i - Datatypes.S (String.length code + Datatypes.S (String.length reason)))%nat
    with (String.length version) by lia.
  rewrite (byte_at_app b version SP (code +:+ " " +:+ reason +:+ t)) by done.
  rewrite Ascii.eqb_refl. change (-1 <? 0) with true. cbn iota.
  replace (str_drop (String.length version + 1) b) with (code +:+ String SP (reason +:+ t)); cycle 1.
  { rewrite Hb. change (version +:+ " " +:+ code +:+ " " +:+ reason +:+ t)
      with (version +:+ " " +:+ (code +:+ " " +:+ reason +:+ t)).
    rewrite <- (str_app_assoc version). symmetry. rewrite str_drop_app'; [done|len]. }
  rewrite atoi_at_digits by done. cbn [obind].
  change (Datatypes.S (String.length reason)) with (1 + String.length reason)%nat.
  rewrite (status_skip b i (version +:+ " ") code (" " +:+ reason +:+ t));
    [|by rewrite Hb, str_app_assoc|len|]; cycle 1.
  { eapply str_all_impl; [|exact Hc]. intros c Hx. by apply digit_line in Hx as [_ ->]. }
  cbn [plus status_line].
  replace (i - Datatypes.S (String.length reason))%nat with (String.length (version +:+ " " +:+ code)) by len.
  rewrite (byte_at_app b (version +:+ " " +:+ code) SP (reason +:+ t));
    [|by rewrite Hb, !str_app_assoc|done].
  rewrite Ascii.eqb_refl. by destruct (Z.ltb_spec (atoi code) 0); [lia|].
Qed.

Lemma status_chars version code reason :
  status_ok version code reason = true -> str_all line_char (print_status version code reason) = true.
Proof.
  unfold status_ok, print_status. rewrite !andb_true_iff. intros [[[[Hv Hc] _] _] Hr].
  rewrite !str_all_app, Hr. change (str_all line_char " ") with true. rewrite andb_true_r.
  rewrite (str_all_impl is_digit line_char code); [| |done]; [|intros c Hx; by apply digit_line in Hx as []].
  rewrite (str_all_impl (fun c => line_char c && negb (Ascii.eqb c SP)) line_char version); [done| |done].
  intros c Hx. by apply andb_prop in Hx as [].
Qed.

(** The headers of a response give its status code, length and encoding. *)
Lemma parse_head version code reason l b used t cl ch sc :
  status_ok version code reason = true -> l <> [] ->
  forallb field_ok l = true -> forallb length_ok l = true ->
  let head := print_head (print_status version code reason) l in
  b = head +:+ t -> (String.length head <= used)%nat -> (sc = None \/ sc = Some (-1)) ->
  exists h, parse_headers (Datatypes.S (String.length head)) b used (String.length head) 0
      (mkHline 0 0 0 cl ch sc) = Ok h /\
    (h_content_length h, h_chunked h) = fields_effect l (cl, ch) /\
    h_status_code h = option_map (fun _ => atoi code) sc.
Proof.
  intros Hs Hne Hok Hlen head Hb Hu Hsc. pose proof (status_chars _ _ _ Hs) as Hsl.
  set (status := print_status version code reason) in *.
  assert (String.length head = String.length status + 2 + String.length (print_fields l) + 2)%nat as Hh.
  { unfold head, print_head. rewrite !length_app_str. change (String.length CRLF) with 2%nat. lia. }
  assert (b = status +:+ CRLF +:+ print_fields l +:+ CRLF +:+ t) as Hb'.
  { rewrite Hb. unfold head, print_head. by rewrite !str_app_assoc. }
  destruct (run_chars b used (String.length head) status (Datatypes.S (String.length head)) ""
    (mkHline 0 0 0 cl ch sc) (CRLF +:+ print_fields l +:+ CRLF +:+ t)) as (f1 & Hf1 & E);
    [unfold enough; cbn [String.length]; lia|done|cbn [String.length]; lia|done|by right; right|].
  cbn [String.length plus] in E, Hf1. rewrite E. clear E.
  destruct f1 as [|f1]; [unfold enough in Hf1; lia|]. cbn [parse_headers].
  destruct (Nat.ltb_spec (String.length status) (String.length head - 1)); [|lia].
  unfold header_turn. rewrite (byte_at_app b status CR (String LF (print_fields l +:+ CRLF +:+ t))) by done.
  cbn [linestart colon h_status_code]. change (Ascii.eqb CR ":") with false. cbn [Nat.ltb Nat.leb andb].
  change (is_eol CR) with true. change (0 =? 0)%nat with true. cbn iota. cbn [andb].
  set (sc' := option_map (fun _ => atoi code) sc).
  replace (if bool_decide (is_Some sc) then header_line b (String.length status) (mkHline 0 0 0 cl ch sc)
           else header_field b (mkHline 0 0 0 cl ch sc)) with (Ok (mkHline 0 0 0 cl ch sc')); cycle 1.
  { unfold sc', header_line. cbn [h_status_code linestart]. change (0 =? 0)%nat with true. cbn iota.
    destruct Hsc as [->| ->]; [done|]. rewrite bool_decide_true by done. unfold status.
    rewrite (status_line_spec version code reason b (CRLF +:+ print_fields l +:+ CRLF +:+ t)) by done. done. }
  cbn [obind h_content_length h_chunked h_status_code].
  destruct l as [|[n v] l]; [done|].
  assert (exists c u, n = String c u /\ is_eol c = false) as (c & u & -> & Hc).
  { cbn [forallb] in Hok. apply andb_prop in Hok as [Hf _]. unfold field_ok in Hf. cbn [fst snd] in Hf.
    apply andb_prop in Hf as [[[Hn Hn0]%andb_prop _]%andb_prop _]. apply bool_decide_eq_true in Hn0.
    destruct n as [|c n]; [done|]. cbn [str_all] in Hn. apply andb_prop in Hn as [[Hc _]%name_char_not _].
    by exists c, n. }
  assert (skip_eols used b used (String.length status) = String.length (status +:+ CRLF)) as Hj.
  { rewrite length_app_str. change (String.length CRLF) with 2%nat.
    eapply skip_eols_line; [|exact Hc|lia]. rewrite Hb'. unfold print_fields. cbn [map join].
    unfold print_field at 1. cbn [fst snd]. by rewrite !str_app_assoc, app_cons. }
  rewrite Hj.
  destruct (run_head_fields ((String c u, v) :: l) b used (String.length head) f1 (status +:+ CRLF) t cl ch sc')
    as (h & E & H1 & H2); [done|done|done| | | | |done|by exists h].
  { unfold enough in *. rewrite length_app_str. change (String.length CRLF) with 2%nat. lia. }
  { rewrite length_app_str. change (String.length CRLF) with 2%nat. lia. }
  { by rewrite Hb', !str_app_assoc. }
  { rewrite length_app_str. change (String.length CRLF) with 2%nat. lia. }
Qed.
