(* ===== verification/HttpBody.v ===== *)
(** * HttpBody

    A server that sends a response, and the theorem that [getHTTPResponse] returns its
    body and status however the network cuts it into packets. *)
From S2P Require Import Prelude.
From S2P Require Import CStr.
From S2P Require Import CSys.
From S2P Require Import MiniXml.
From S2P Require Import XmlDocument.
From S2P Require Import UpnpReply.
From S2P Require Import HttpResponse.
From S2P Require Import HttpHeaders.

(** ** Strings cut in two *)
Lemma app_split (s more d u : string) :
  s +:+ more = d +:+ u ->
  (exists s1, s = d +:+ s1 /\ s1 +:+ more = u) \/ (exists d1, d = s +:+ d1 /\ d1 <> "" /\ more = d1 +:+ u).
Proof.
  revert d. induction s as [|c s IH]; intros d E.
  - destruct d as [|a d]; [left; by exists ""|right]. by exists (String a d).
  - destruct d as [|a d]; [left; by exists (String c s)|].
    rewrite !app_cons in E. injection E as -> E.
    destruct (IH d E) as [(s1 & -> & E1)|(d1 & -> & Hne & E1)]; [left; by exists s1|right; by exists d1].
Qed.
Lemma str_take_length n s : String.length (str_take n s) = Nat.min n (String.length s).
Proof. revert s. induction n as [|n IH]; intros [|c s]; simpl; [done..|]. by rewrite IH. Qed.
Lemma str_take_app_le n s t : (n <= String.length s)%nat -> str_take n (s +:+ t) = str_take n s.
Proof.
  revert s. induction n as [|n IH]; intros [|c s] Hn; cbn [String.length] in Hn; [by destruct t|done|lia|].
  rewrite app_cons. cbn [str_take]. by rewrite IH by lia.
Qed.
Lemma str_take_min n s : str_take (Nat.min n (String.length s)) s = str_take n s.
Proof. revert s. induction n as [|n IH]; intros [|c s]; [done..|]. cbn. by rewrite IH. Qed.
Lemma to_nat_slen s : Z.to_nat (slen s) = String.length s.
Proof. unfold slen. apply Nat2Z.id. Qed.
Lemma length_zeros n : String.length (zeros n) = n.
Proof. induction n as [|n IH]; [done|]. simpl. by rewrite IH. Qed.
Lemma length_fit n s : String.length (fit n s) = n.
Proof. unfold fit. rewrite str_take_length, length_app_str, length_zeros. lia. Qed.

(** ** What has come in on a socket *)
Fixpoint received (fd : Z) (t : list (call * Answer)) : string :=
  match t with
  | [] => ""
  | (Recv s _, a) :: t' => (if s =? fd then a_data a else "") +:+ received fd t'
  | _ :: t' => received fd t'
  end.
Lemma received_app fd t u : received fd (t ++ u) = received fd t +:+ received fd u.
Proof.
  induction t as [|[c a] t IH]; [done|]. rewrite <- app_comm_cons. cbn [received].
  destruct c; try apply IH. by rewrite IH, str_app_assoc.
Qed.

(** What the reader of a response does: it allocates, waits for its socket and reads from
    it. *)
Definition own (fd : Z) (x : call * Answer) : Prop :=
  match x.1 with Malloc _ => True | Poll s _ | Recv s _ => s = fd | _ => False end.
(** From [s] to [s'] it did, and nothing came in. *)
Definition quiet (fd : Z) (s s' : Sys) : Prop :=
  exists u, trace s' = trace s ++ u /\ Forall (own fd) u /\ received fd u = "".
#[export] Instance quiet_refl fd : Reflexive (quiet fd).
Proof. intros s. exists []. by rewrite app_nil_r. Qed.
#[export] Instance quiet_trans fd : Transitive (quiet fd).
Proof.
  intros s1 s2 s3 (u & E1 & H1 & R1) (v & E2 & H2 & R2). exists (u ++ v).
  rewrite E2, E1, <- app_assoc, received_app, R1, R2. split; [done|]. split; [by apply Forall_app|done].
Qed.
(** Since the trace was [t0], the reader read all of [stream] but [wire]. *)
Definition at_wire (fd : Z) (t0 : list (call * Answer)) (stream : string) (s : Sys) (wire : string) : Prop :=
  exists u, trace s = t0 ++ u /\ Forall (own fd) u /\ stream = received fd u +:+ wire.
Lemma quiet_wire fd t0 stream s s' wire :
  quiet fd s s' -> at_wire fd t0 stream s wire -> at_wire fd t0 stream s' wire.
Proof.
  intros (v & E2 & H2 & R2) (u & E1 & H1 & ->). exists (u ++ v).
  rewrite E2, E1, <- app_assoc, received_app, R2, str_app_nil_r. split; [done|]. split; [by apply Forall_app|done].
Qed.

Section Server.
Context `{Os} `{Patience} {ML : MallocLaws}.
Context (fd : Z).

(** After [t0] the peer of the socket sends these bytes and closes; as long as the program
    only reads them, [recv] hands out what is there, in pieces of any size that fits, and
    nothing at the end only. *)
Class Serves (t0 : list (call * Answer)) (stream : string) : Prop := {
  serves_ready : forall u timeout, Forall (own fd) u -> 0 < a_ret (os (t0 ++ u) (Poll fd timeout));
  serves_recv : forall u len rest, Forall (own fd) u -> 0 < len -> stream = received fd u +:+ rest ->
    let a := os (t0 ++ u) (Recv fd len) in
    a_ret a = slen (a_data a) /\ slen (a_data a) <= len /\
    (exists rest', rest = a_data a +:+ rest') /\ (a_data a = "" -> rest = "")
}.

Lemma alloc_spec size s : 0 <= size -> exists m s',
  alloc size s = Ok (Some m, s') /\ slen m = size /\ quiet fd s s'.
Proof using ML.
  intros Hs. unfold alloc, sys, bind, ret. pose proof (malloc_ok (trace s) size) as Hm.
  destruct (Z.eqb_spec (a_ret (os (trace s) (Malloc size))) 0); [done|]. eexists _, _.
  split; [done|]. split; [unfold slen; rewrite length_fit; lia|].
  eexists [_]. split; [done|]. split; [by repeat constructor|done].
Qed.
Lemma realloc_spec old size s : slen old <= size -> exists m s',
  realloc old size s = Ok (Some (old +:+ m), s') /\ slen (old +:+ m) = size /\ quiet fd s s'.
Proof using ML.
  intros Hs. pose proof (slen_nonneg old). unfold realloc.
  destruct (alloc_spec size s ltac:(lia)) as (m & s1 & E & Hm & Hq). erewrite bind_step by exact E.
  unfold slen in *. set (t := old +:+ str_drop (String.length old) m).
  assert (String.length t = Z.to_nat size) as Ht.
  { unfold t. rewrite length_app_str, length_drop. lia. }
  exists (str_drop (String.length old) m), s1. unfold ret. fold t.
  rewrite str_take_all by lia. split; [done|]. split; [lia|done].
Qed.

Context (t0 : list (call * Answer)) (stream : string) {SV : Serves t0 stream}.
Hypothesis Hpatience : (0 < patience)%nat.

Lemma receivedata_spec s rest scope :
  at_wire fd t0 stream s rest ->
  exists x rest' scope' s', receivedata fd BUF 5000 scope s = Ok ((slen x, x, scope'), s') /\
    rest = x +:+ rest' /\ at_wire fd t0 stream s' rest' /\ slen x <= BUF /\
    (x = "" -> rest = "").
Proof using SV Hpatience.
  intros Hw. unfold receivedata.
  set (s1 := mkSys (trace s ++ [(Poll fd 5000, os (trace s) (Poll fd 5000))]) (errno s)).
  assert (0 < a_ret (os (trace s) (Poll fd 5000))) as Hp
    by (destruct Hw as (u & -> & Hu & _); by apply serves_ready).
  assert (poll_loop patience fd 5000 s = Ok (a_ret (os (trace s) (Poll fd 5000)), s1)) as E.
  { destruct patience as [|n]; [lia|]. cbn [poll_loop]. unfold bind, sys, get_errno, gets, ret.
    destruct (Z.ltb_spec (a_ret (os (trace s) (Poll fd 5000))) 0); [lia|]. done. }
  erewrite bind_step by exact E. destruct (Z.ltb_spec (a_ret (os (trace s) (Poll fd 5000))) 0); [lia|].
  destruct (Z.eqb_spec (a_ret (os (trace s) (Poll fd 5000))) 0); [lia|].
  apply (quiet_wire _ _ _ _ s1) in Hw; [|eexists [_]; split; [done|]; split; [by repeat constructor|done]].
  destruct Hw as (u & Eu & Hu & Hs).
  destruct (serves_recv u BUF rest Hu ltac:(done) Hs) as (Hr & Hl & (rest' & Er) & Hend). rewrite <- Eu in *.
  set (a := os (trace s1) (Recv fd BUF)) in *. pose proof (slen_nonneg (a_data a)).
  unfold sys, bind, ret. fold a. destruct (Z.ltb_spec (a_ret a) 0); [lia|]. rewrite Hr.
  eexists (a_data a), rest', _, _. split; [done|]. split; [done|]. split; [|done].
  exists (u ++ [(Recv fd BUF, a)]). cbn [trace]. rewrite Eu, <- app_assoc. split; [done|].
  split; [apply Forall_app; split; [done|by repeat constructor]|].
  rewrite received_app. cbn [received]. rewrite Z.eqb_refl, str_app_nil_r, str_app_assoc, <- Er. done.
Qed.
End Server.

(** ** The content buffer *)
Definition holds (st : http) (body : string) : Prop :=
  str_take (String.length body) (content_buf st) = body /\
  content_buf_used st = slen body /\ (String.length body <= String.length (content_buf st))%nat.
(** The fields that belong to neither the content nor the chunk. *)
Definition same_frame (st st' : http) : Prop :=
  endofheaders st' = endofheaders st /\ chunked st' = chunked st /\
  content_length st' = content_length st /\ status_code st' = status_code st.

Section Content.
Context `{Os} {ML : MallocLaws}.
Context (fd : Z).

Lemma grow_content_spec k st body s :
  holds st body -> 0 <= k -> slen body + k < 2 ^ 31 ->
  exists st' s', grow_content k st s = Ok (Some st', s') /\ holds st' body /\ quiet fd s s' /\
    slen body + k <= slen (content_buf st') /\ same_frame st st' /\
    chunksize st' = chunksize st /\ chunksize_buf st' = chunksize_buf st.
Proof using ML.
  intros (Ht & Hu & Hl) Hk Hmax. unfold grow_content. rewrite Hu. pose proof (slen_nonneg body).
  unfold slen in *. rewrite wrap_u_id by (unfold in_u; lia).
  destruct (Z.ltb_spec (Z.of_nat (String.length (content_buf st))) (Z.of_nat (String.length body) + k)) as [Hlt|Hge].
  - match goal with |- context [realloc _ ?l] => set (len := l) end.
    assert (Z.of_nat (String.length body) + k <= len) as Hlen
      by (unfold len; destruct ((0 <=? _) && (_ <=? _)) eqn:Ec; lia).
    destruct (realloc_spec fd (content_buf st) len s) as (m & s' & E & Hm & Hq); [unfold slen; lia|].
    erewrite bind_step by exact E. unfold ret. eexists _, s'. split; [done|].
    unfold slen in Hm. unfold holds, same_frame, slen. cbn [set_content content_buf content_buf_used].
    split; [|split; [done|split; [lia|done]]].
    split; [by rewrite str_take_app_le|]. rewrite ?Hu. unfold slen. split; [done|]. len.
  - exists st, s. unfold ret. split; [done|]. split; [done|]. split; [done|]. split; [lia|].
    by repeat split.
Qed.

Lemma append_content_spec x st body s :
  holds st body -> slen body + slen x <= slen (content_buf st) -> slen body + slen x < 2 ^ 31 ->
  exists st', append_content x st s = Ok (st', s) /\ holds st' (body +:+ x) /\ same_frame st st' /\
    chunksize st' = chunksize st /\ chunksize_buf st' = chunksize_buf st.
Proof using.
  intros (Ht & Hu & Hl) Hroom Hmax. unfold append_content, overwrite. rewrite Hu.
  pose proof (slen_nonneg body). pose proof (slen_nonneg x).
  destruct (Z.ltb_spec (slen body) 0); [lia|].
  destruct (Z.ltb_spec (slen (content_buf st)) (slen body + slen x)); [lia|].
  cbn [orb]. unfold lift_out, bind, ret. eexists. split; [done|].
  unfold holds, same_frame. cbn [set_content content_buf content_buf_used].
  split; [|by repeat split]. unfold slen in *. rewrite Nat2Z.id, Ht.
  split; [|split].
  - rewrite <- str_app_assoc. by rewrite str_take_app'.
  - rewrite wrap_u_id by (unfold in_u; lia). len.
  - rewrite !length_app_str, length_drop. lia.
Qed.

(** Both, of the first [k] bytes of [s]. *)
Lemma grow_append x st body s :
  holds st body -> slen body + slen x < 2 ^ 31 ->
  exists st' s', (forall A (f : http -> M Sys A) (g : M Sys A),
      bind (grow_content (slen x) st) (fun r =>
        match r with None => g | Some st1 => bind (append_content x st1) f end) s = f st' s') /\
    holds st' (body +:+ x) /\ quiet fd s s' /\ same_frame st st' /\
    chunksize st' = chunksize st /\ chunksize_buf st' = chunksize_buf st.
Proof using ML.
  intros Hh Hmax. pose proof (slen_nonneg x).
  destruct (grow_content_spec (slen x) st body s) as (st1 & s1 & E1 & H1 & Hq & Hroom & Hf & Hc & Hcb); [done..|].
  destruct (append_content_spec x st1 body s1) as (st2 & E2 & H2 & Hf2 & Hc2 & Hcb2); [done..|].
  exists st2, s1. split.
  { intros A f g. erewrite bind_step by exact E1. cbn iota. by erewrite bind_step by exact E2. }
  split; [done|]. split; [done|].
  unfold same_frame in *. intuition congruence.
Qed.
(** A packet goes behind the headers that are there. *)
Lemma grow_header_spec x st got s :
  str_take (String.length got) (header_buf st) = got -> header_buf_used st = slen got ->
  (String.length got <= String.length (header_buf st))%nat -> slen got + slen x < 2 ^ 31 ->
  exists m tail s', quiet fd s s' /\ m = got +:+ x +:+ tail /\
    (exists st1, grow_header (slen x) st s = Ok (Some st1, s') /\
      st1 = set_header (header_buf st1) (slen got) st /\
      overwrite (header_buf_used st1) x (header_buf st1) = Ok m).
Proof using ML.
  intros Ht Hu Hle Hmax. pose proof (slen_nonneg got). pose proof (slen_nonneg x).
  assert (forall hb, str_take (String.length got) hb = got -> slen got + slen x <= slen hb ->
    exists tail, overwrite (slen got) x hb = Ok (got +:+ x +:+ tail)) as Hover.
  { intros hb Hhb Hroom. unfold overwrite. destruct (Z.ltb_spec (slen got) 0); [lia|].
    destruct (Z.ltb_spec (slen hb) (slen got + slen x)); [lia|]. cbn [orb]. rewrite to_nat_slen, Hhb. by eexists. }
  unfold grow_header. rewrite Hu, wrap_u_id by (unfold in_u; lia).
  destruct (Z.ltb_spec (slen (header_buf st)) (slen got + slen x)) as [Hlt|Hge].
  - destruct (realloc_spec fd (header_buf st) (slen got + slen x) s) as (m & s' & E & Hm & Hq); [lia|].
    destruct (Hover (header_buf st +:+ m)) as [tail Eo]; [by rewrite str_take_app_le|lia|].
    eexists _, tail, s'. split; [done|]. split; [done|]. eexists. erewrite bind_step by exact E.
    split; [done|]. split; [done|]. done.
  - destruct (Hover (header_buf st)) as [tail Eo]; [done|lia|].
    eexists _, tail, s. split; [done|]. split; [done|]. exists st. rewrite Hu. split; [done|]. split; [|done].
    rewrite <- Hu. by destruct st.
Qed.
End Content.

(** ** Chunk sizes *)
Lemma hex_char_digit z : 0 <= z < 16 -> xdigit_value (hex_char z) = z /\ is_xdigit (hex_char z) = true.
Proof.
  intros Hz. assert (forallb (fun z => (xdigit_value (hex_char z) =? z) && is_xdigit (hex_char z))
    [0;1;2;3;4;5;6;7;8;9;10;11;12;13;14;15] = true) as Hall by reflexivity.
  rewrite forallb_forall in Hall. specialize (Hall z).
  assert (In z [0;1;2;3;4;5;6;7;8;9;10;11;12;13;14;15]) as Hin by (cbn [In]; lia).
  apply Hall in Hin. apply andb_prop in Hin as [Hv ->]. split; [lia|done].
Qed.
Lemma chunk_value_app v a b : chunk_value v (a +:+ b) = chunk_value (chunk_value v a) b.
Proof. revert v. induction a as [|c a IH]; intros v; [done|]. rewrite app_cons. apply IH. Qed.

Lemma hex_digits_spec fuel z :
  0 <= z < 2 ^ 32 -> z < 16 ^ Z.of_nat fuel -> (0 < fuel)%nat ->
  chunk_value 0 (hex_digits fuel z) = z /\ str_all is_xdigit (hex_digits fuel z) = true /\
  (0 < String.length (hex_digits fuel z) <= fuel)%nat.
Proof.
  revert z. induction fuel as [|fuel IH]; intros z Hz Hf Hp; [lia|clear Hp]. cbn [hex_digits].
  destruct (hex_char_digit (z mod 16)) as [Hv Hx]; [by apply Z.mod_pos_bound|].
  assert (forall v, chunk_value v (String (hex_char (z mod 16)) "") = wrap_u 32 (Z.shiftl v 4 + z mod 16)) as Hd
    by (intros v; cbn [chunk_value]; by rewrite Hv).
  destruct (Z.ltb_spec z 16) as [Hlt|Hge].
  - rewrite Hd. rewrite Z.shiftl_0_l, Z.mod_small by lia. cbn [str_all String.length].
    rewrite Z.mod_small in Hx by lia. rewrite Hx. split; [apply wrap_u_id; unfold in_u; lia|]. split; [done|lia].
  - rewrite Nat2Z.inj_succ, Z.pow_succ_r in Hf by lia.
    assert (0 < fuel)%nat as Hf0 by (destruct fuel; [change (16 ^ Z.of_nat 0) with 1 in Hf; lia|lia]).
    pose proof (Z.div_mod z 16 ltac:(lia)). pose proof (Z.mod_pos_bound z 16 ltac:(lia)).
    destruct (IH (z / 16)) as (H1 & H2 & H3); [split; [lia|]|apply Z.div_lt_upper_bound; lia|done|].
    { apply Z.div_lt_upper_bound; lia. }
    rewrite chunk_value_app, H1, Hd, str_all_app, H2, length_app_str. cbn [str_all String.length].
    rewrite Hx. split; [|split; [done|lia]]. rewrite Z.shiftl_mul_pow2 by lia.
    rewrite wrap_u_id by (unfold in_u; lia). lia.
Qed.
Lemma hex_spec z : 0 <= z < 2 ^ 31 ->
  chunk_value 0 (hex z) = z /\ str_all is_xdigit (hex z) = true /\ (0 < String.length (hex z) <= 16)%nat.
Proof. intros Hz. apply hex_digits_spec; [lia| |lia]. change (16 ^ Z.of_nat 16) with (2 ^ 64). lia. Qed.

(** ** A body in chunks *)
Definition chunk_head (l : list string) : string :=
  match l with [] => "0" | x :: _ => hex (slen x) end.
Fixpoint print_chunks (trailer : string) (l : list string) : string :=
  chunk_head l +:+ CRLF +:+
  match l with [] => CRLF +:+ trailer | x :: l' => x +:+ CRLF +:+ print_chunks trailer l' end.
Definition behind_head (trailer : string) (l : list string) : string :=
  match l with [] => CRLF +:+ trailer | x :: l' => x +:+ CRLF +:+ print_chunks trailer l' end.
Lemma print_chunks_eq trailer l : print_chunks trailer l = chunk_head l +:+ CRLF +:+ behind_head trailer l.
Proof. by destruct l. Qed.
Definition chunk_ok (x : string) : Prop := x <> "" /\ slen x < 2 ^ 31.

(** Where the reader can be in such a body: the bytes still to come, and the content
    in them, for each state of the chunk size. *)
Inductive at_chunk (trailer : string) : Z -> string -> string -> string -> Prop :=
  | at_data x l : x <> "" -> slen x < 2 ^ 31 -> Forall chunk_ok l ->
      at_chunk trailer (slen x) "" (x +:+ CRLF +:+ print_chunks trailer l) (x +:+ join l)
  | at_sep l : Forall chunk_ok l -> at_chunk trailer 0 "" (CRLF +:+ print_chunks trailer l) (join l)
  | at_sep_lf l : Forall chunk_ok l ->
      at_chunk trailer 0 "" (String LF (print_chunks trailer l)) (join l)
  | at_size d d' l : Forall chunk_ok l -> d +:+ d' = chunk_head l ->
      at_chunk trailer 0 d (d' +:+ CRLF +:+ behind_head trailer l) (join l)
  | at_size_lf l : Forall chunk_ok l ->
      at_chunk trailer 0 (chunk_head l) (String LF (behind_head trailer l)) (join l).

Lemma chunk_head_spec l : Forall chunk_ok l ->
  chunk_value 0 (chunk_head l) = match l with [] => 0 | x :: _ => slen x end /\
  str_all is_xdigit (chunk_head l) = true /\ (0 < String.length (chunk_head l) <= 16)%nat.
Proof.
  intros Hl. destruct Hl as [|x l [_ Hx] _]; [cbn; repeat split; done || lia|].
  cbn [chunk_head]. apply hex_spec. pose proof (slen_nonneg x). lia.
Qed.

Lemma take_xdigits_all d d' s :
  str_all is_xdigit d' = true -> (String.length d + String.length d' <= 30)%nat ->
  match s with String c _ => is_xdigit c = false | EmptyString => True end ->
  take_xdigits (d' +:+ s) d = (d +:+ d', s).
Proof.
  revert d. induction d' as [|c d' IH]; intros d Hd Hl Hs.
  - rewrite nil_app_str, str_app_nil_r. destruct s as [|c s]; [done|]. cbn [take_xdigits]. by rewrite Hs.
  - cbn [str_all] in Hd. apply andb_prop in Hd as [Hc Hd]. cbn [String.length] in Hl.
    rewrite app_cons. cbn [take_xdigits]. rewrite Hc. destruct (Nat.ltb_spec (String.length d) 31); [|lia].
    cbn [andb]. rewrite IH by (done || len). by rewrite str_app_assoc.
Qed.

Section Chunks.
Context `{Os} {ML : MallocLaws}.
Context (fd : Z) (trailer more : string).

(** What a turn leads to from a point with [rest] of the content to come. *)
Definition chunk_post (bound : nat) (body rest : string) (st : http) (s0 : Sys)
    (r : outcome (turn * string * http * Sys)) : Prop :=
  exists t s st' s', r = Ok (t, s, st', s') /\ quiet fd s0 s' /\ same_frame st st' /\
    match t with
    | Continue => exists x rest', rest = x +:+ rest' /\ holds st' (body +:+ x) /\
        at_chunk trailer (chunksize st') (chunksize_buf st') (s +:+ more) rest' /\
        (s = "" \/ (String.length s < bound)%nat)
    | EndOfStream => rest = "" /\ holds st' body
    | OutOfMemory => False
    end.

Lemma chunk_data_step bound s st x l body s0 :
  holds st body -> slen (body +:+ x +:+ join l) < 2 ^ 31 -> chunksize st = slen x -> x <> "" ->
  chunksize_buf st = "" -> Forall chunk_ok l -> s +:+ more = x +:+ CRLF +:+ print_chunks trailer l ->
  (String.length s <= bound)%nat -> (s = "" \/ (String.length s < bound)%nat \/ chunksize st <> 0) ->
  chunk_post bound body (x +:+ join l) st s0 (chunk_data s st s0).
Proof using ML.
  intros Hh Hmax Hc Hx Hb Hl E Hbound Hs. rewrite !slen_app in Hmax.
  pose proof (slen_nonneg (join l)). pose proof (slen_nonneg x) as Hxn. pose proof (slen_nonneg s) as Hsn.
  set (k := Z.min (slen x) (slen s)). set (y := str_take (Z.to_nat k) s).
  assert (slen y = k) as Hy by (unfold y, slen in *; rewrite str_take_length; unfold k, slen; lia).
  assert (chunk_data s st s0 = bind (grow_content (slen y) st) (fun r => match r with
      | None => ret (OutOfMemory, s, st)
      | Some st1 => bind (append_content y st1) (fun st2 =>
          ret (Continue, str_drop (Z.to_nat (slen y)) s,
               set_chunk (chunksize st2 - slen y) (chunksize_buf st2) st2))
      end) s0) as -> by (unfold chunk_data; by rewrite Hc, Hy).
  destruct (grow_append fd y st body s0) as (st1 & s1 & -> & H1 & Hq & Hf & Hc1 & Hb1);
    [done|unfold k in Hy; lia|].
  unfold ret. eexists _, _, _, _. split; [done|]. split; [done|].
  split; [by unfold same_frame in *|]. cbn [set_chunk chunksize chunksize_buf].
  rewrite Hc1, Hb1, Hc, Hb, !Hy.
  destruct (app_split s more x _ E) as [(t & Es & Et)|(x1 & Ex & Hx1 & Et)].
  - assert (k = slen x) as Hk by (unfold k; rewrite Es, slen_app; pose proof (slen_nonneg t); lia).
    assert (y = x) as Hyx by (unfold y; rewrite Hk, Es; unfold slen; by rewrite Nat2Z.id, str_take_app).
    rewrite Hyx in H1. exists x, (join l). rewrite Hk, Z.sub_diag, Es. unfold slen.
    rewrite Nat2Z.id, str_drop_app. split; [done|]. split; [done|]. split; [rewrite Et; by apply at_sep|].
    right. subst s. destruct x as [|c x]; [done|]. revert Hbound. len.
  - assert (k = slen s) as Hk by (unfold k; rewrite Ex, slen_app; pose proof (slen_nonneg x1); lia).
    assert (y = s) as Hys by (unfold y; rewrite Hk; unfold slen; rewrite Nat2Z.id; apply str_take_all; lia).
    rewrite Hys in H1. exists s, (x1 +:+ join l). rewrite Hk, Ex, to_nat_slen.
    split; [apply str_app_assoc|]. split; [done|].
    assert (str_drop (String.length s) s = "") as -> by (rewrite <- (str_app_nil_r s) at 2; apply str_drop_app).
    split; [|by left]. rewrite nil_app_str, Et.
    replace (slen (s +:+ x1) - slen s) with (slen x1) by (rewrite slen_app; lia).
    apply at_data; [done| |done]. rewrite Ex, slen_app in Hmax. pose proof (slen_nonneg body). lia.
Qed.

Lemma at_chunk_end c d r : at_chunk trailer c d "" r -> False.
Proof using.
  inversion 1 as [x l Hx _ _ E|l _ E|l _ E|d0 d' l _ _ E|l _ E]; try discriminate.
  - by destruct x.
  - by destruct d'.
Qed.

Lemma skip_extension_eol c s : is_eol c = true -> skip_extension (String c s) = String c s.
Proof using. intros Hc. cbn [skip_extension]. by rewrite Hc. Qed.

(** The line end behind a whole size. *)
Lemma chunk_size_lf bound s st l body s0 :
  holds st body -> slen (body +:+ join l) < 2 ^ 31 -> Forall chunk_ok l ->
  s +:+ more = behind_head trailer l -> (String.length s < bound)%nat ->
  chunk_post bound body (join l) st s0
    ((let v := chunk_value 0 (chunk_head l) in
      let st := set_chunk v "" st in
      if v =? 0 then ret (EndOfStream, s, st) else chunk_data s st) s0).
Proof using ML.
  intros Hh Hmax Hl E Hb. destruct (chunk_head_spec l Hl) as [Hv _]. rewrite Hv.
  destruct Hl as [|x l [Hx Hx31] Hl].
  - cbn. eexists _, _, _, _. split; [done|]. split; [done|]. split; [done|]. by split.
  - cbn [join]. cbv zeta. pose proof (slen_nonneg x).
    assert (slen x <> 0) as Hx0 by (destruct x; [done|]; unfold slen; cbn [String.length]; lia).
    destruct (Z.eqb_spec (slen x) 0); [done|].
    destruct (chunk_data_step bound s (set_chunk (slen x) "" st) x l body s0)
      as (t & s' & st' & s1 & E1 & Hq & Hf & Hp); [done|by cbn [join] in Hmax|done|done|done|done|done|lia|lia|].
    exists t, s', st', s1. split; [done|]. split; [done|]. by split.
Qed.

Lemma chunk_size_spec bound d d' s st l body s0 :
  holds st body -> slen (body +:+ join l) < 2 ^ 31 -> Forall chunk_ok l ->
  d +:+ d' = chunk_head l -> s +:+ more = d' +:+ CRLF +:+ behind_head trailer l ->
  (String.length s <= bound)%nat ->
  chunk_post bound body (join l) st s0 (chunk_size d s st s0).
Proof using ML.
  intros Hh Hmax Hl Hd E Hb. destruct (chunk_head_spec l Hl) as (_ & Hx & Hlen).
  rewrite <- Hd in Hx, Hlen. rewrite str_all_app in Hx. apply andb_prop in Hx as [_ Hx].
  rewrite length_app_str in Hlen.
  assert (forall d1 s1 r, at_chunk trailer 0 d1 (s1 +:+ more) (join l) -> s1 = "" ->
    r = Ok (Continue, s1, set_chunk 0 d1 st, s0) -> chunk_post bound body (join l) st s0 r) as Hmore.
  { intros d1 s1 r Ha -> ->. eexists _, _, _, _. split; [done|]. split; [done|]. split; [done|].
    exists "", (join l). rewrite str_app_nil_r. split; [done|]. split; [done|]. split; [done|by left]. }
  destruct (app_split s more d' _ E) as [(s1 & -> & E1)|(d1 & -> & _ & Em)]; cycle 1.
  { rewrite str_all_app in Hx. apply andb_prop in Hx as [Hs _]. unfold chunk_size.
    rewrite <- (str_app_nil_r s), take_xdigits_all by (done || revert Hlen; len). cbn [skip_extension skip_char].
    apply (Hmore (d +:+ s) ""); [|done|done]. rewrite nil_app_str, Em. apply at_size; [done|].
    by rewrite str_app_assoc. }
  unfold chunk_size.
  destruct s1 as [|a s1].
  { rewrite str_app_nil_r in *. rewrite <- (str_app_nil_r d'), take_xdigits_all by (done || lia).
    rewrite Hd. cbn [skip_extension skip_char]. apply (Hmore (chunk_head l) ""); [|done|done].
    rewrite nil_app_str in E1 |- *. rewrite E1. apply (at_size trailer _ "" l); [done|apply str_app_nil_r]. }
  rewrite app_cons in E1. injection E1 as -> E1. rewrite take_xdigits_all by (done || lia). rewrite Hd.
  rewrite skip_extension_eol by done. cbn [skip_char]. rewrite Ascii.eqb_refl.
  destruct s1 as [|a s1].
  { apply (Hmore (chunk_head l) ""); [|done|done]. rewrite nil_app_str in E1 |- *. rewrite E1. by apply at_size_lf. }
  rewrite app_cons in E1. injection E1 as -> E1. rewrite Ascii.eqb_refl.
  apply chunk_size_lf; [done|done|done|done|]. revert Hb. len.
Qed.
Lemma chunk_turn_spec s st body rest s0 :
  holds st body -> slen (body +:+ rest) < 2 ^ 31 -> s <> "" ->
  at_chunk trailer (chunksize st) (chunksize_buf st) (s +:+ more) rest ->
  chunk_post (String.length s) body rest st s0 (chunk_turn s st s0).
Proof using ML.
  intros Hh Hmax Hs Ha. unfold chunk_turn.
  inversion Ha as [x l Hx Hx31 Hl Ec Ed E|l Hl Ec Ed E|l Hl Ec Ed E|d d' l Hl Hd Ec Ed E|l Hl Ec Ed E]; subst rest.
  - assert (slen x <> 0) by (destruct x; [done|]; unfold slen; cbn [String.length]; lia).
    destruct (Z.eqb_spec (slen x) 0); [done|].
    apply chunk_data_step; try done. lia.
  - rewrite bool_decide_true by done. cbn [Z.eqb].
    destruct s as [|a s]; [done|]. rewrite app_cons in E. injection E as <- E. cbn [skip_char].
    rewrite Ascii.eqb_refl. destruct s as [|a s].
    + cbn [skip_char]. unfold chunk_size. cbn [take_xdigits skip_extension skip_char].
      eexists _, _, _, _. split; [done|]. split; [done|]. split; [done|].
      exists "", (join l). rewrite str_app_nil_r. split; [done|]. split; [done|].
      split; [|by left]. rewrite nil_app_str in E |- *. rewrite <- E. by apply at_sep_lf.
    + rewrite app_cons in E. injection E as <- E. cbn [skip_char]. rewrite Ascii.eqb_refl.
      apply (chunk_size_spec _ "" (chunk_head l)); [done|done|done|done| |len].
      by rewrite <- print_chunks_eq.
  - rewrite bool_decide_true by done. cbn [Z.eqb].
    destruct s as [|a s]; [done|]. rewrite app_cons in E. injection E as <- E. cbn [skip_char].
    change (Ascii.eqb LF CR) with false. cbn iota. cbn [skip_char]. rewrite Ascii.eqb_refl.
    apply (chunk_size_spec _ "" (chunk_head l)); [done|done|done|done| |len].
    by rewrite <- print_chunks_eq.
  - cbn [Z.eqb]. destruct (chunk_head_spec l Hl) as (_ & Hx & Hlen).
    clear d Ed. set (d := chunksize_buf st) in *.
    replace (if bool_decide (d = "") then skip_char LF (skip_char CR s) else s) with s.
    { by apply (chunk_size_spec _ d d'). }
    case_bool_decide as Hd0; [|done]. rewrite Hd0, nil_app_str in Hd. subst d'.
    destruct s as [|a s]; [done|]. destruct (chunk_head l) as [|b h] eqn:Eh; [cbn in Hlen; lia|].
    rewrite !app_cons in E. injection E as -> _. cbn [str_all] in Hx. apply andb_prop in Hx as [Hx _].
    assert (Ascii.eqb a CR = false /\ Ascii.eqb a LF = false) as [Ha1 Ha2]
      by (split; apply Ascii.eqb_neq; intros ->; done).
    cbn [skip_char]. rewrite Ha1. cbn [skip_char]. by rewrite Ha2.
  - cbn [Z.eqb]. destruct (chunk_head_spec l Hl) as (_ & Hx & Hlen).
    rewrite bool_decide_false by (intros E0; rewrite E0 in Hlen; cbn in Hlen; lia).
    destruct s as [|a s]; [done|]. rewrite app_cons in E. injection E as <- E.
    unfold chunk_size. cbn [take_xdigits]. change (is_xdigit LF) with false. cbn [andb].
    rewrite skip_extension_eol by done. cbn [skip_char]. change (Ascii.eqb LF CR) with false. cbn iota.
    rewrite Ascii.eqb_refl. apply chunk_size_lf; [done|done|done|done|len].
Qed.

Lemma chunk_loop_spec fuel s st body rest s0 :
  holds st body -> slen (body +:+ rest) < 2 ^ 31 -> (String.length s < fuel)%nat ->
  at_chunk trailer (chunksize st) (chunksize_buf st) (s +:+ more) rest ->
  exists t st' s', chunk_loop fuel s st s0 = Ok (t, st', s') /\ quiet fd s0 s' /\ same_frame st st' /\
    match t with
    | Continue => exists x rest', rest = x +:+ rest' /\ holds st' (body +:+ x) /\
        at_chunk trailer (chunksize st') (chunksize_buf st') more rest'
    | EndOfStream => holds st' (body +:+ rest)
    | OutOfMemory => False
    end.
Proof using ML.
  revert s st body rest s0. induction fuel as [|fuel IH]; intros s st body rest s0 Hh Hmax Hf Ha; [lia|].
  destruct (decide (s = "")) as [->|Hs].
  { exists Continue, st, s0. split; [done|]. split; [done|]. split; [done|]. exists "", rest.
    by rewrite str_app_nil_r. }
  replace (chunk_loop (Datatypes.S fuel) s st) with
    (let! (t, s', st') := chunk_turn s st in
     match t with Continue => chunk_loop fuel s' st' | _ => ret (t, st') end) by (by destruct s).
  destruct (chunk_turn_spec s st body rest s0 Hh Hmax Hs Ha) as (t & s' & st' & s1 & E & Hq & Hfr & Hp).
  erewrite bind_step by exact E. cbn iota. destruct t; [|destruct Hp as [-> Hp]|done].
  - destruct Hp as (x & rest' & -> & Hh' & Ha' & Hs').
    destruct (IH s' st' (body +:+ x) rest' s1) as (t & st2 & s2 & E2 & Hq2 & Hf2 & Hp2);
      [done|by rewrite str_app_assoc| |done|].
    { destruct Hs' as [->|Hs']; [|lia]. cbn [String.length]. destruct s; [done|cbn [String.length] in Hf; lia]. }
    exists t, st2, s2. split; [done|]. unfold same_frame in *.
    split; [by etrans|]. split; [intuition congruence|]. destruct t; [|by rewrite <- str_app_assoc|done].
    destruct Hp2 as (x2 & rest2 & -> & Hh2 & Ha2). exists (x +:+ x2), rest2.
    by rewrite <- !str_app_assoc.
  - exists EndOfStream, st', s1. unfold ret. split; [done|]. split; [done|]. split; [done|].
    by rewrite str_app_nil_r.
Qed.
End Chunks.

(** ** The body in each framing *)
Inductive framing : Type :=
  | ByLength (extra : string)
  | ByChunks (cuts : list string) (trailer : string)
  | ByClose.
Definition encode (fr : framing) (body : string) : string :=
  match fr with
  | ByLength extra => body +:+ extra
  | ByChunks cuts trailer => print_chunks trailer cuts
  | ByClose => body
  end.
(** The header fields say how the body is framed. *)
Definition announces (l : list (string * string)) (fr : framing) (body : string) : Prop :=
  match fr with
  | ByLength _ => body <> "" /\ fields_effect l (-1, false) = (slen body, false)
  | ByChunks cuts _ =>
      Forall chunk_ok cuts /\ join cuts = body /\ fields_effect l (-1, false) = (-1, true)
  | ByClose => fields_effect l (-1, false) = (-1, false)
  end.

(** The reader is inside the body: [body] has been read, [rest] is to come in the
    bytes [wire]. *)
Definition in_body (fr : framing) (st : http) (body rest wire : string) : Prop :=
  match fr with
  | ByLength extra => chunked st = false /\ content_length st = slen (body +:+ rest) /\
      wire = rest +:+ extra /\ rest <> ""
  | ByChunks _ trailer => chunked st = true /\ content_length st = -1 /\
      at_chunk trailer (chunksize st) (chunksize_buf st) wire rest
  | ByClose => chunked st = false /\ content_length st = -1 /\ wire = rest
  end.

Section Body.
Context `{Os} `{Patience} {ML : MallocLaws}.
Context (fd : Z) (fr : framing).

Definition content_post (body rest more : string) (st : http) (s0 : Sys)
    (r : outcome (turn * http * Sys)) : Prop :=
  exists t st' s', r = Ok (t, st', s') /\ quiet fd s0 s' /\
    endofheaders st' = endofheaders st /\ status_code st' = status_code st /\
    match t with
    | Continue => exists x rest', rest = x +:+ rest' /\ holds st' (body +:+ x) /\
        in_body fr st' (body +:+ x) rest' more
    | EndOfStream => holds st' (body +:+ rest)
    | OutOfMemory => False
    end.

Lemma holds_used st body : holds st body -> content_buf_used st = slen body.
Proof using. by intros (_ & ? & _). Qed.

(** The part [y] of a packet that is kept when the body is not chunked. *)
Lemma plain_content_spec s y st body s0 :
  holds st body -> slen (body +:+ s) < 2 ^ 31 ->
  (y = s /\ (0 < content_length st -> slen (body +:+ s) <= content_length st) \/
   0 < content_length st < slen (body +:+ s) /\ content_length st = slen (body +:+ y) /\
   exists z, s = y +:+ z) ->
  exists st' s', plain_content s st s0 = Ok (Continue, st', s') /\ quiet fd s0 s' /\
    same_frame st st' /\ holds st' (body +:+ y).
Proof using ML.
  intros Hh Hmax Hy. unfold plain_content. rewrite (holds_used _ _ Hh).
  rewrite slen_app in *. pose proof (slen_nonneg body). pose proof (slen_nonneg s).
  pose proof (slen_nonneg y). rewrite wrap_u_id by (unfold in_u; lia).
  assert ((if (0 <? content_length st) && (content_length st <? slen body + slen s)
           then content_length st - slen body else slen s) = slen y) as ->.
  { destruct Hy as [[-> Hy]|(Hy & Hcl & _)].
    - by destruct ((0 <? content_length st) && (content_length st <? slen body + slen s)) eqn:E; [lia|].
    - rewrite slen_app in Hcl.
      destruct ((0 <? content_length st) && (content_length st <? slen body + slen s)) eqn:E; lia. }
  destruct (Z.ltb_spec (slen y) 0); [lia|].
  assert (str_take (Z.to_nat (slen y)) s = y) as ->.
  { rewrite to_nat_slen. destruct Hy as [[-> _]|(_ & _ & z & ->)]; [apply str_take_all; lia|apply str_take_app]. }
  assert (slen y <= slen s) by (destruct Hy as [[-> _]|(_ & _ & z & ->)];
    [lia|rewrite slen_app; pose proof (slen_nonneg z); lia]).
  destruct (grow_append fd y st body s0) as (st1 & s1 & -> & Hh1 & Hq & Hf & _); [done|lia|].
  exists st1, s1. split; [done|]. by split.
Qed.

Lemma content_spec s more body rest st s0 :
  holds st body -> slen (body +:+ rest) < 2 ^ 31 -> slen (body +:+ s) < 2 ^ 31 ->
  in_body fr st body rest (s +:+ more) ->
  content_post body rest more st s0 (content s st s0).
Proof using ML.
  intros Hh Hmax Hmax2 Hin. unfold content, in_body in *. destruct fr as [extra|cuts trailer|] eqn:Efr.
  - destruct Hin as (Hch & Hcl & E & Hr). rewrite Hch.
    destruct (app_split s more rest extra E) as [(z & -> & Ez)|(r1 & -> & Hr1 & Em)].
    + destruct (plain_content_spec (rest +:+ z) rest st body s0) as (st1 & s1 & E1 & Hq & Hf & Hh1); [done|done| |].
      { destruct (decide (z = "")) as [->|Hz].
        - left. rewrite str_app_nil_r. split; [done|lia].
        - right. rewrite Hcl. split; [|split; [done|by exists z]].
          rewrite !slen_app. pose proof (slen_nonneg body).
          assert (0 < slen rest /\ 0 < slen z) by (unfold slen; destruct rest, z; cbn [String.length]; done || lia).
          lia. }
      erewrite bind_step by exact E1. cbn iota. destruct Hf as (Hf1 & Hf2 & Hf3 & Hf4).
      rewrite Hf3, Hcl, (holds_used _ _ Hh1).
      assert (0 < slen (body +:+ rest)) by (rewrite slen_app; pose proof (slen_nonneg body);
        unfold slen; destruct rest; cbn [String.length]; [done|lia]).
      destruct (Z.ltb_spec 0 (slen (body +:+ rest))); [|lia]. rewrite Z.leb_refl. cbn [andb].
      exists EndOfStream, st1, s1. split; [done|]. split; [done|]. done.
    + destruct (plain_content_spec s s st body s0) as (st1 & s1 & E1 & Hq & Hf & Hh1); [done|done| |].
      { left. split; [done|]. intros _. rewrite Hcl, !slen_app. pose proof (slen_nonneg r1). lia. }
      erewrite bind_step by exact E1. cbn iota. destruct Hf as (Hf1 & Hf2 & Hf3 & Hf4).
      rewrite Hf3, Hcl, (holds_used _ _ Hh1). rewrite !slen_app.
      assert (0 < slen r1) by (unfold slen; destruct r1; cbn [String.length]; [done|lia]).
      destruct (Z.leb_spec (slen body + (slen s + slen r1)) (slen body + slen s)); [lia|].
      rewrite andb_false_r. exists Continue, st1, s1. split; [done|]. split; [done|]. split; [done|].
      split; [done|]. exists s, r1. split; [done|]. split; [done|].
      unfold in_body. rewrite Efr. split; [congruence|]. split; [|done]. by rewrite Hf3, Hcl, str_app_assoc.
  - destruct Hin as (Hch & Hcl & Ha). rewrite Hch.
    destruct (chunk_loop_spec fd trailer more (Datatypes.S (String.length s)) s st body rest s0)
      as (t & st1 & s1 & E1 & Hq & (Hf1 & Hf2 & Hf3 & Hf4) & Hp); [done|done|lia|done|].
    erewrite bind_step by exact E1. cbn iota. destruct t; [|by exists EndOfStream, st1, s1|done].
    rewrite Hf3, Hcl. cbn. exists Continue, st1, s1. split; [done|]. split; [done|]. split; [done|].
    split; [done|]. destruct Hp as (x & rest' & Hr & Hh1 & Hh2). exists x, rest'. split; [done|].
    split; [done|]. unfold in_body. rewrite Efr. by rewrite Hf2, Hf3.
  - destruct Hin as (Hch & Hcl & <-). rewrite Hch. rewrite slen_app in Hmax.
    destruct (plain_content_spec s s st body s0) as (st1 & s1 & E1 & Hq & Hf & Hh1); [done|done|left; split; [done|lia]|].
    erewrite bind_step by exact E1. cbn iota. destruct Hf as (Hf1 & Hf2 & Hf3 & Hf4).
    rewrite Hf3, Hcl. cbn. exists Continue, st1, s1. split; [done|]. split; [done|]. split; [done|].
    split; [done|]. exists s, more. split; [done|]. split; [done|]. unfold in_body. rewrite Efr.
    by rewrite Hf2, Hf3.
Qed.
End Body.

Lemma in_body_end fr st done_ rest : in_body fr st done_ rest "" -> rest = "".
Proof.
  unfold in_body. destruct fr as [extra|cuts trailer|].
  - intros (_ & _ & E & Hr). by destruct rest.
  - intros (_ & _ & Ha). by apply at_chunk_end in Ha.
  - by intros (_ & _ & <-).
Qed.

Lemma in_body_start fr l body st wire :
  announces l fr body -> encode fr body = wire -> chunksize st = 0 -> chunksize_buf st = "" ->
  (content_length st, chunked st) = fields_effect l (-1, false) ->
  in_body fr st "" body wire.
Proof.
  intros Hann <- Hc Hb Hcc. unfold in_body, encode, announces in *.
  destruct fr as [extra|cuts trailer|].
  - destruct Hann as [Hne Hfe]. rewrite Hfe in Hcc. injection Hcc as -> ->.
    split; [done|]. split; [by rewrite nil_app_str|]. done.
  - destruct Hann as (Hc1 & <- & Hfe). rewrite Hfe in Hcc. injection Hcc as -> ->.
    split; [done|]. split; [done|]. rewrite Hc, Hb, print_chunks_eq. by apply at_size.
  - rewrite Hann in Hcc. by injection Hcc as -> ->.
Qed.

(** ** The loop over the packets *)
Section Response.
Context `{Os} `{Patience} {ML : MallocLaws}.
Context (fd : Z) (t0 : list (call * Answer)) (stream : string) {SV : Serves fd t0 stream}.
Context (fr : framing) (version code reason : string) (l : list (string * string)) (body : string).
Hypothesis Hstream : stream = print_head (print_status version code reason) l +:+ encode fr body.
Hypothesis Hstatus : status_ok version code reason = true.
Hypothesis Hl : l <> [].
Hypothesis Hfields : forallb field_ok l = true.
Hypothesis Hlengths : forallb length_ok l = true.
Hypothesis Hann : announces l fr body.
Hypothesis Hbody : slen body < 2 ^ 30.
Hypothesis Hsize : slen stream < 2 ^ 30.
Hypothesis Hpatience : (String.length stream + 1 < patience)%nat.

Definition finished (status : option Z) (r : outcome (bool * http * Sys)) : Prop :=
  exists st s wire, r = Ok (true, st, s) /\ holds st body /\ status_code st = status /\
    at_wire fd t0 stream s wire.

Lemma loop_body fuel st s0 got rest wire :
  (String.length wire < fuel)%nat -> endofheaders st <> 0 ->
  got +:+ rest = body -> holds st got -> in_body fr st got rest wire ->
  at_wire fd t0 stream s0 wire ->
  finished (status_code st) (http_loop fuel fd st s0).
Proof using SV ML Hpatience Hbody Hsize.
  revert st s0 got rest wire. induction fuel as [|fuel IH];
    intros st s0 got rest wire Hf He Hg Hh Hin Hs; [lia|]. cbn [http_loop].
  destruct (receivedata_spec fd t0 stream ltac:(lia) s0 wire None Hs)
    as (x & more & sc & s1 & E & -> & Hs1 & Hx & Hend).
  erewrite bind_step by exact E. cbn iota beta.
  destruct (decide (x = "")) as [->|Hne].
  - specialize (Hend eq_refl). rewrite nil_app_str in Hend, Hin. subst more.
    apply in_body_end in Hin as ->. rewrite str_app_nil_r in Hg. subst got.
    cbn. by exists st, s1, "".
  - assert (0 < slen x) by (unfold slen; destruct x; cbn [String.length]; [done|lia]).
    destruct (Z.leb_spec (slen x) 0); [lia|]. unfold on_packet.
    destruct (Z.eqb_spec (endofheaders st) 0); [done|].
    assert (slen (got +:+ x) < 2 ^ 31) as Hmax.
    { destruct Hs as (u & _ & _ & Hs). apply (f_equal slen) in Hg. apply (f_equal slen) in Hs.
      rewrite !slen_app in *. pose proof (slen_nonneg rest). pose proof (slen_nonneg more).
      pose proof (slen_nonneg (received fd u)). lia. }
    destruct (content_spec fd fr x more got rest st s1) as (t & st2 & s2 & E2 & Hq & He2 & Hsc & Hp);
      [done|rewrite Hg; lia|done|done|].
    erewrite bind_step by exact E2. cbn iota. destruct t; [|exists st2, s2, more; rewrite <- Hg; split; [done|]; split; [done|]; split; [done|];
      by eapply quiet_wire|done].
    destruct Hp as (y & rest' & -> & Hh2 & Hin2). rewrite <- Hsc.
    apply (IH st2 s2 (got +:+ y) rest' more); [|congruence|by rewrite str_app_assoc|done|done|].
    + revert Hf. rewrite length_app_str. unfold slen in *. lia.
    + by eapply quiet_wire.
Qed.

(** Before the body: [got] holds what has come, less than the headers. *)
Definition in_head (st : http) (got : string) (status : option Z) : Prop :=
  endofheaders st = 0 /\ chunked st = false /\ content_length st = -1 /\ chunksize st = 0 /\
  chunksize_buf st = "" /\ status_code st = status /\
  str_take (String.length got) (header_buf st) = got /\ header_buf_used st = slen got /\
  (String.length got <= String.length (header_buf st))%nat /\
  (String.length got < String.length (print_head (print_status version code reason) l))%nat /\
  holds st "".

(** A packet before the end of the headers: more of them, or the first of the body. *)
Lemma on_packet_head x st got status s more :
  in_head st got status -> stream = got +:+ x +:+ more -> slen x <= BUF ->
  status = None \/ status = Some (-1) ->
  exists s', quiet fd s s' /\
    ((exists st', on_packet x st s = Ok (Continue, st', s') /\ in_head st' (got +:+ x) status) \/
     (exists st' x1, on_packet x st s = content x1 st' s' /\ holds st' "" /\ endofheaders st' <> 0 /\
        x1 +:+ more = encode fr body /\ (String.length x1 <= String.length x)%nat /\
        in_body fr st' "" body (x1 +:+ more) /\
        status_code st' = option_map (fun _ => atoi code) status)).
Proof using All.
  set (head := print_head (print_status version code reason) l) in *.
  intros (He & Hch & Hcl & Hc & Hcb & Hsc & Ht & Hu & Hle & Hlt & Hh) Hw Hx Hst. fold head in Hlt.
  pose proof (status_chars _ _ _ Hstatus) as Hsl. pose proof (slen_nonneg got). pose proof (slen_nonneg x).
  assert (slen got + slen x < 2 ^ 31) as Hmax.
  { apply (f_equal slen) in Hw. rewrite !slen_app in Hw. pose proof (slen_nonneg more). lia. }
  destruct (grow_header_spec fd x st got s Ht Hu Hle Hmax)
    as (m & tail & s2 & Hq & Hm & st1 & E1 & Est & Eo).
  exists s2. split; [done|]. set (st2 := set_header m (slen got + slen x) st1).
  assert (on_packet x st s = header_block st2 s2) as ->.
  { unfold on_packet. rewrite He. cbn [Z.eqb]. erewrite bind_step by exact E1. cbn iota.
    rewrite Eo. unfold lift_out, bind, st2.
    replace (header_buf_used st1) with (slen got) by (by rewrite Est).
    by rewrite wrap_u_id by (unfold in_u; lia). }
  assert (str_take (Z.to_nat (header_buf_used st2)) (header_buf st2) = got +:+ x) as Hgot.
  { cbn [st2 set_header header_buf_used header_buf]. rewrite Hm, <- str_app_assoc.
    apply str_take_app'. rewrite length_app_str. unfold slen. lia. }
  unfold header_block.
  rewrite Hgot, (find_end_prefix _ _ (encode fr body) (got +:+ x) more Hsl Hfields)
    by (fold head; by rewrite <- Hstream, Hw, str_app_assoc). fold head.
  destruct (Nat.ltb_spec (String.length (got +:+ x)) (String.length head)) as [Hpart|Hwhole].
  { left. exists st2. split; [done|]. unfold st2. rewrite Est. unfold in_head. cbn. fold head.
    repeat (split; [done|]). rewrite Hm, <- str_app_assoc, str_take_app. split; [done|].
    rewrite slen_app. split; [done|]. split; [rewrite (length_app_str (got +:+ x)); lia|by split]. }
  right. assert ((got +:+ x) +:+ more = head +:+ encode fr body) as Hw2
    by (by rewrite str_app_assoc, <- Hw, Hstream).
  destruct (app_split _ _ _ _ Hw2) as [(x1 & Ex & E2)|(z & Ez & Hne & _)]; cycle 1.
  { exfalso. rewrite Ez in Hwhole. rewrite (length_app_str (got +:+ x)) in Hwhole.
    destruct z; [done|cbn [String.length] in Hwhole; lia]. }
  destruct (String.length head) as [|n] eqn:En; [lia|]. cbn [Nat.eqb]. rewrite <- En in *.
  destruct (parse_head version code reason l (header_buf st2) (Z.to_nat (header_buf_used st2)) (x1 +:+ tail)
    (content_length st2) (chunked st2) (status_code st2)) as (h & E3 & H3 & H4); [done..| | | |].
  { cbn [st2 set_header header_buf]. fold head. by rewrite Hm, <- !str_app_assoc, Ex. }
  { cbn [st2 set_header header_buf_used]. fold head. rewrite length_app_str in Hwhole. unfold slen. lia. }
  { unfold st2. by rewrite Est, <- Hsc in *. }
  fold head in E3. set (st3 := set_parsed (Z.of_nat (String.length head)) h st2).
  assert (String.length x1 <= String.length x)%nat as Hx1.
  { apply (f_equal String.length) in Ex. rewrite !length_app_str in Ex. lia. }
  assert (slen got + slen x = slen head + slen x1) as Hlen by (rewrite <- !slen_app; by rewrite Ex).
  exists st3, x1. split.
  { rewrite E3. unfold lift_out, bind, st3. cbn [st2 set_header header_buf_used header_buf set_parsed]. rewrite Hlen.
    replace (slen head + slen x1 - Z.of_nat (String.length head)) with (slen x1) by (unfold slen; lia).
    unfold slen at 1. destruct (Z.ltb_spec BUF (Z.of_nat (String.length x1))); [unfold slen in *; lia|].
    f_equal. unfold substr. rewrite Nat2Z.id, to_nat_slen, Hm, <- !str_app_assoc, Ex, !str_app_assoc.
    by rewrite str_drop_app, str_take_app. }
  assert (chunksize st3 = 0 /\ chunksize_buf st3 = "" /\ holds st3 "" /\
    status_code st3 = option_map (fun _ => atoi code) status) as (H5 & H6 & H7 & H8).
  { unfold st3, st2. rewrite Est. cbn. repeat (split; [done|]).
    rewrite H4. unfold st2. rewrite Est. cbn. by rewrite Hsc. }
  split; [done|]. split; [cbn; lia|]. split; [done|]. split; [done|]. split; [|done].
  apply (in_body_start fr l); [done|done|done|done|]. unfold st3. cbn [set_parsed content_length chunked].
  rewrite H3. f_equal. unfold st2. rewrite Est. cbn. by rewrite Hcl, Hch.
Qed.

Lemma loop_head fuel st s0 got wire status :
  (String.length wire < fuel)%nat -> in_head st got status -> stream = got +:+ wire ->
  at_wire fd t0 stream s0 wire -> status = None \/ status = Some (-1) ->
  finished (option_map (fun _ => atoi code) status) (http_loop fuel fd st s0).
Proof using All.
  set (head := print_head (print_status version code reason) l) in *.
  pose proof (status_chars _ _ _ Hstatus) as Hsl.
  revert st s0 got wire. induction fuel as [|fuel IH];
    intros st s0 got wire Hf Hin Hw Hs Hst; [lia|]. cbn [http_loop].
  destruct (receivedata_spec fd t0 stream ltac:(lia) s0 wire None Hs)
    as (x & more & sc & s1 & E & -> & Hs1 & Hx & Hend).
  erewrite bind_step by exact E. cbn iota beta.
  destruct (decide (x = "")) as [->|Hne].
  { specialize (Hend eq_refl). rewrite nil_app_str in Hend. subst more. exfalso.
    rewrite nil_app_str, str_app_nil_r in Hw. destruct Hin as (_ & _ & _ & _ & _ & _ & _ & _ & _ & Hlt & _).
    rewrite <- Hw, Hstream, length_app_str in Hlt. fold head in Hlt. lia. }
  assert (0 < slen x) by (unfold slen; destruct x; cbn [String.length]; [done|lia]).
  destruct (Z.leb_spec (slen x) 0); [lia|].
  destruct (on_packet_head x st got status s1 more Hin Hw Hx Hst)
    as (s2 & Hq & [(st' & E2 & Hin2)|(st' & x1 & E2 & Hh & He & Hx1 & Hl1 & Hb & Hsc)]).
  - erewrite bind_step by exact E2. cbn iota.
    apply (IH st' s2 (got +:+ x) more); [|done|by rewrite str_app_assoc| |done].
    + revert Hf. rewrite length_app_str. unfold slen in *. lia.
    + by eapply quiet_wire.
  - assert (slen ("" +:+ x1) < 2 ^ 31) as Hm1.
    { rewrite nil_app_str. apply (f_equal slen) in Hw. rewrite !slen_app in Hw.
      pose proof (slen_nonneg got). pose proof (slen_nonneg more). unfold slen in *. lia. }
    destruct (content_spec fd fr x1 more "" body st' s2) as (t & st2 & s3 & E3 & Hq3 & He3 & Hsc3 & Hp);
      [done|rewrite nil_app_str; lia|done|done|].
    rewrite <- E2 in E3. erewrite bind_step by exact E3. cbn iota. rewrite <- Hsc, <- Hsc3.
    assert (at_wire fd t0 stream s3 more) as Hs3 by (eapply quiet_wire; [exact Hq3|by eapply quiet_wire]).
    destruct t; [|by exists st2, s3, more|done].
    destruct Hp as (y & rest' & Hy & Hh2 & Hin3). rewrite nil_app_str in Hh2, Hin3.
    apply (loop_body fuel st2 s3 y rest' more); [|congruence|done|done|done|done].
    + revert Hf. rewrite length_app_str. unfold slen in *. lia.
Qed.

Lemma getHTTPResponse_reads s status :
  trace s = t0 ->
  exists r s', getHTTPResponse fd status s = Ok (r, slen body, option_map (fun _ => atoi code) status, s') /\
    (if bool_decide (body = "") then r = None else exists tail, r = Some (body +:+ tail)) /\
    (exists u, trace s' = trace s ++ u /\ Forall (own fd) u).
Proof using All.
  intros Hs. unfold getHTTPResponse.
  destruct (alloc_spec fd BUF s ltac:(done)) as (hb & s1 & E1 & Hhb & Hq1).
  erewrite bind_step by exact E1. cbn iota.
  destruct (alloc_spec fd BUF s1 ltac:(done)) as (cb & s2 & E2 & Hcb & Hq2).
  erewrite bind_step by exact E2. cbn iota.
  set (sc := option_map (fun _ => -1) status).
  destruct (loop_head patience (mkHttp hb 0 cb 0 0 false (-1) 0 "" sc) s2 "" stream sc)
    as (st & s3 & wire & E3 & Hh & Hsc & (u & Eu & Hu & _)); [lia| |done| | |].
  { unfold in_head, holds. cbn. repeat (split; [done || lia|]). split; [|repeat split; lia].
    pose proof (find_end_head _ l "" (status_chars _ _ _ Hstatus) Hfields).
    unfold print_head. rewrite !length_app_str. change (String.length CRLF) with 2%nat. lia. }
  { apply (quiet_wire _ _ _ s); [by etrans|]. exists []. rewrite app_nil_r. split; [done|]. by split. }
  { unfold sc. destruct status; [by right|by left]. }
  erewrite bind_step by exact E3. cbn iota. cbn [negb]. rewrite Hsc.
  replace (option_map (fun _ => atoi code) sc) with (option_map (fun _ => atoi code) status)
    by (unfold sc; by destruct status).
  rewrite (holds_used _ _ Hh). pose proof (slen_nonneg body).
  rewrite wrap_s_id by (unfold in_s; lia). rewrite Hs.
  case_bool_decide as Hb.
  - subst body. cbn. eexists None, s3. split; [done|]. split; [done|]. by exists u.
  - assert (slen body <> 0) by (unfold slen; destruct body; cbn [String.length]; [done|lia]).
    destruct (Z.eqb_spec (slen body) 0); [done|]. eexists _, s3. split; [done|]. split; [|by exists u].
    destruct Hh as (Ht & _ & _). exists (str_drop (String.length body) (content_buf st)).
    f_equal. rewrite <- (str_take_drop (String.length body) (content_buf st)) at 1. by rewrite Ht.
Qed.

End Response.

(** ** A server that sends packets of at most [k] bytes *)
Definition serve (fd : Z) (stream : string) (k : Z) : Os := fun t c =>
  match c with
  | Malloc _ => mkAnswer 1 0 "" 0 0 0 []
  | Poll _ _ => mkAnswer 1 0 "" 0 0 0 []
  | Recv _ len =>
      let d := str_take (Z.to_nat (Z.min len k)) (str_drop (String.length (received fd t)) stream) in
      mkAnswer (slen d) 0 d 0 0 0 []
  | _ => answer0
  end.
Lemma serve_malloc fd stream k : @MallocLaws (serve fd stream k).
Proof. by split. Qed.
Lemma serve_serves fd stream k : 0 < k -> @Serves (serve fd stream k) fd [] stream.
Proof.
  intros Hk. split; [by intros t timeout|]. intros t len rest _ Hlen E. unfold os, serve. cbn.
  assert (str_drop (String.length (received fd t)) stream = rest) as -> by (rewrite E; apply str_drop_app).
  split; [done|]. split; [unfold slen; rewrite str_take_length; lia|].
  split; [eexists; symmetry; apply str_take_drop|].
  destruct rest as [|c rest]; [done|]. destruct (Z.to_nat (len `min` k)) eqn:Ek; [lia|done].
Qed.

#[local] Instance patience_2000 : Patience := 2000%nat.
Definition demo_fields : list (string * string) :=
  [("Server", "gw"); ("Transfer-Encoding", "chunked"); ("Connection", "close")].
Definition demo_cuts : list string := ["<?xml version='1.0'?>"; "<a>1"; "</a>"].
Definition demo_stream : string :=
  print_head (print_status "HTTP/1.1" "200" "OK") demo_fields +:+ print_chunks "" demo_cuts.


(** ** Where the reader departs from HTTP *)
(** Any beginning of a name is taken for the name. *)
Example header_name_prefix : field_effect ("C", "5") (-1, false) = (5, false).
Proof. reflexivity. Qed.
(** The extension of a chunk size is skipped within its packet only: with the packet
    cut inside it, its hexadecimal letters are added to the size. *)
Example extension_cut_in_two :
  let st := mkHttp "" 0 "" 0 1 true (-1) 0 "" None in
  let size s := chunk_value 0 (take_xdigits s "").1 in
  size "3;ab" = 3 /\
  match @chunk_loop (serve 5 "" 1) 9 "3;a" st sys0 with
  | Ok (_, st', _) => chunk_value 0 (take_xdigits ("b" +:+ CRLF) (chunksize_buf st')).1 = 59
  | Err _ => False
  end.
Proof. vm_compute. done. Qed.
