(* ===== verification/Connect.v ===== *)
(** * Connect

    [connecthostport] (src/peer/external/miniupnpc-2.1.20190408/connecthostport.c, with
    [getaddrinfo], a timeout and interruptions ignored, as the build configures it)
    and [httpWrite], [soapPostSubmit] (minisoap.c): a connection is made and a request
    goes out on it. *)
From S2P Require Import Prelude.
From S2P Require Import CStr.
From S2P Require Import CSys.
From S2P Require Import XmlDocument.
From S2P Require Import ParseUrl.
From S2P Require Import UpnpReply.
From S2P Require Import HttpResponse.
From S2P Require Import HttpHeaders.

Definition INVALID_SOCKET : Z := -1.
Definition SIGINT_ERRORS (e : Z) : bool := (e =? EINTR) || (e =? EINPROGRESS).

(** The host between brackets, [%25] read as [%]. *)
Fixpoint unbracket (fuel : nat) (host : string) : string :=
  match fuel, host with
  | Datatypes.S fuel', String c host' =>
      if Ascii.eqb c "]" then ""
      else String c (unbracket fuel' (if starts_with "%25" host then str_drop 2 host' else host'))
  | _, _ => ""
  end.
Definition tmp_host (host : string) : string :=
  match host with
  | String c host' =>
      if Ascii.eqb c "[" then unbracket (Z.to_nat MAXHOSTNAMELEN) host'
      else str_take (Z.to_nat MAXHOSTNAMELEN) host
  | EmptyString => ""
  end.

Section Connect.
Context `{Os} `{Patience}.

(** The loop behind an interrupted [connect], which returned [n]: its last value, or
    [None] when the socket was closed. *)
Fixpoint wait_connect (fuel : nat) (s n : Z) : M Sys (option Z) :=
  let! e := get_errno in
  if (n <? 0) && SIGINT_ERRORS e then
    match fuel with
    | O => fail Undefined
    | Datatypes.S fuel' =>
        let! a := sys (Select s 3) in
        let! e := get_errno in
        if (a_ret a =? -1) && (e =? EINTR) then wait_connect fuel' s (a_ret a)
        else if a_ret a =? 0 then set_errno ETIMEDOUT ;;; ret (Some (-1))
        else
          let! err := sys (GetSockoptError s) in
          if a_ret err <? 0 then
            let! _ := sys (Close s) in ret None
          else if negb (a_num1 err =? 0) then
            set_errno (a_num1 err) ;;; wait_connect fuel' s (-1)
          else wait_connect fuel' s (a_ret a)
    end
  else ret (Some n).

(** The loop over the addresses; [inl] is a return from inside it. *)
Fixpoint try_addresses (port scope_id : Z) (ai : list (Z * string)) (s n : Z) : M Sys (Z + Z * Z) :=
  match ai with
  | [] => ret (inr (s, n))
  | (family, addr) :: ai' =>
      (if s <? 0 then ret tt else let! _ := sys (Close s) in ret tt) ;;;
      let! a := sys (Socket family) in
      let s := a_ret a in
      if s <? 0 then try_addresses port scope_id ai' s n
      else
        let scope := if (family =? AF_INET6) && (0 <? scope_id) then scope_id else 0 in
        let! _ := sys (Setsockopt s "SO_RCVTIMEO") in
        let! _ := sys (Setsockopt s "SO_SNDTIMEO") in
        let! c := sys (Connect s addr port scope) in
        let! r := wait_connect patience s (a_ret c) in
        match r with
        | None => ret (inl INVALID_SOCKET)
        | Some n => if 0 <=? n then ret (inr (s, n)) else try_addresses port scope_id ai' s n
        end
  end.

Definition connecthostport (host : string) (port scope_id : Z) : M Sys Z :=
  let! a := sys (Getaddrinfo (tmp_host host) (dec port)) in
  if negb (a_ret a =? 0) then ret INVALID_SOCKET
  else
    let! r := try_addresses port scope_id (a_list a) INVALID_SOCKET (a_ret a) in
    match r with
    | inl s => ret s
    | inr (s, n) =>
        if s <? 0 then ret INVALID_SOCKET
        else if n <? 0 then let! _ := sys (Close s) in ret INVALID_SOCKET
        else ret s
    end.

(** ** A SOAP request *)
Definition OS_STRING : string := "Unknown".
Definition MINIUPNPC_VERSION_STRING : string := "2.1".
Definition UPNP_VERSION_STRING : string := "UPnP/1.1".
Definition USER_AGENT : string :=
  "User-Agent: " +:+ OS_STRING +:+ ", " +:+ UPNP_VERSION_STRING +:+ ", MiniUPnPc/" +:+
  MINIUPNPC_VERSION_STRING +:+ CRLF.
Definition DQ : ascii := XmlDocument.quote.

Definition httpWrite (fd : Z) (body headers : string) : M Sys Z :=
  let! ok := malloc (slen headers + slen body) in
  if negb ok then ret (-1)
  else let! a := sys (Send fd (headers +:+ body)) in ret (a_ret a).

Definition port_str (port : Z) : string := if port =? 80 then "" else ":" +:+ dec port.
Definition soap_headers (url host : string) (port : Z) (action : string) (bodysize : Z)
    (httpversion : string) : string :=
  "POST " +:+ url +:+ " HTTP/" +:+ httpversion +:+ CRLF +:+
  "Host: " +:+ host +:+ port_str port +:+ CRLF +:+
  USER_AGENT +:+
  "Content-Length: " +:+ dec bodysize +:+ CRLF +:+
  "Content-Type: text/xml" +:+ CRLF +:+
  "SOAPAction: " +:+ String DQ (action +:+ String DQ CRLF) +:+
  "Connection: Close" +:+ CRLF +:+
  "Cache-Control: no-cache" +:+ CRLF +:+
  "Pragma: no-cache" +:+ CRLF +:+ CRLF.

Definition soapPostSubmit (fd : Z) (url host : string) (port : Z) (action body httpversion : string) :
    M Sys Z :=
  let headers := soap_headers url host port action (slen body) httpversion in
  if 512 <=? slen headers then ret (-1) else httpWrite fd body headers.
End Connect.
