(* ===== verification/Soap.v ===== *)
(** * Soap

    [simpleUPnPcommand] (src/peer/external/miniupnpc-2.1.20190408/miniupnpc.c): the
    envelope of an action is written into a buffer, posted, and the reply read; and
    the downloads of miniwget.c. *)
From S2P Require Import Prelude.
From S2P Require Import CStr.
From S2P Require Import CSys.
From S2P Require Import XmlDocument.
From S2P Require Import ParseUrl.
From S2P Require Import UpnpReply.
From S2P Require Import HttpResponse.
From S2P Require Import HttpHeaders.
From S2P Require Import HttpBody.
From S2P Require Import Connect.

(** ** The envelope *)
Definition SOAPBODY : nat := Z.to_nat 2048.
Definition quoted (s : string) : string := String DQ (s +:+ String DQ "").
Definition envelope_head : string :=
  "<?xml version=" +:+ quoted "1.0" +:+ "?>" +:+ CRLF +:+
  "<s:Envelope xmlns:s=" +:+ quoted "http://schemas.xmlsoap.org/soap/envelope/" +:+
  " s:encodingStyle=" +:+ quoted "http://schemas.xmlsoap.org/soap/encoding/" +:+ "><s:Body>".
Definition action_head (action service : string) : string :=
  "<u:" +:+ action +:+ " xmlns:u=" +:+ quoted service +:+ ">".
Definition envelope_tail : string := "></s:Body></s:Envelope>" +:+ CRLF.

(** [struct UPNParg]: the name of an argument and its value, which may be null. *)
Definition UPNParg : Type := string * option string.
Definition sizeof_UPNParg : Z := 16.

(** The writer moves [p] through [char soapbody[2048]]: [b] is what stands in front of
    [p].  It goes on behind what it wrote, returns null, or leaves the buffer. *)
Definition writer : Type := string -> outcome (option string).
Definition andthen (f g : writer) : writer := fun b =>
  let? r := f b in match r with Some b => g b | None => Ok None end.
(** [*(p++) = c]: the byte must be one of the buffer. *)
Definition put (c : ascii) : writer := fun b =>
  if (String.length b <? SOAPBODY)%nat then Ok (Some (b +:+ String c "")) else Err Undefined.
(** [if(p + n > pend) return NULL;], for [n = 1] written [p >= pend]. *)
Definition room (n : nat) : writer := fun b =>
  if (SOAPBODY <? String.length b + n)%nat then Ok None else Ok (Some b).
(** [while(p < pend && *pe) *(p++) = *(pe++);] *)
Fixpoint put_str (s : string) : writer := fun b =>
  match s with
  | EmptyString => Ok (Some b)
  | String c s' => if (String.length b <? SOAPBODY)%nat then andthen (put c) (put_str s') b else Ok (Some b)
  end.
Fixpoint put_chars (s : string) : writer := fun b =>
  match s with
  | EmptyString => Ok (Some b)
  | String c s' => andthen (put c) (put_chars s') b
  end.
(** [strncpy(p, s, pend - p)], which fills the buffer with zeros behind [s], and the test
    for a zero in its last byte. *)
Definition put_tail (s : string) : writer := fun b =>
  if (SOAPBODY <? String.length b)%nat then Err Undefined
  else if (SOAPBODY <=? String.length b + String.length s)%nat then Ok None
  else Ok (Some (b +:+ s)).

Infix ">>>" := andthen (at level 60, right associativity).
Definition put_arg (a : UPNParg) : writer :=
  room 1 >>> put "<" >>> put_str a.1 >>> room 1 >>> put ">" >>>
  put_str (default "" a.2) >>>
  room 2 >>> put_chars "</" >>> put_str a.1 >>> room 1 >>> put ">".
Fixpoint put_args (args : list UPNParg) : writer :=
  match args with
  | [] => fun b => Ok (Some b)
  | a :: args' => put_arg a >>> put_args args'
  end.

(** The envelope in [soapbody]; [None] when the function returns null. *)
Definition soap_body (service action : string) (args : option (list UPNParg)) :
    outcome (option string) :=
  match args with
  | None =>
      let b := envelope_head +:+ action_head action service +:+ "</u:" +:+ action +:+ envelope_tail in
      if (SOAPBODY <=? String.length b)%nat then Ok None else Ok (Some b)
  | Some args =>
      let b := envelope_head +:+ action_head action service in
      if (SOAPBODY <=? String.length b)%nat then Ok None
      else (put_args args >>> room 4 >>> put_chars "</u:" >>> put_str action >>> put_tail envelope_tail) b
  end.

Section Soap.
Context `{Os} `{Patience}.

Definition simpleUPnPcommand2 (s : Z) (url service : option string) (action : string)
    (args : option (list UPNParg)) (httpversion : string) : M Sys (option (string * Z)) :=
  match service with
  | None => fail Undefined
  | Some service =>
      let soapact := str_take 127 (service +:+ "#" +:+ action) in
      let! body := lift_out (soap_body service action args) in
      match body with
      | None => ret None
      | Some body =>
          let! (u, _) := parseURL url None in
          match u with
          | None => ret None
          | Some u =>
              let! s := (if s <? 0 then connecthostport (hostname u) (port u) 0 else ret s) in
              if s <? 0 then ret None
              else
                let! n := soapPostSubmit s (path u) (hostname u) (port u) soapact body httpversion in
                if n <=? 0 then let! _ := sys (Close s) in ret None
                else
                  let! (buf, size, _) := getHTTPResponse s (Some 0) in
                  let! _ := sys (Close s) in
                  ret (match buf with Some buf => Some (buf, size) | None => None end)
          end
      end
  end.

Definition simpleUPnPcommand (s : Z) (url service : option string) (action : string)
    (args : option (list UPNParg)) : M Sys (option (string * Z)) :=
  simpleUPnPcommand2 s url service action args "1.1".

(** ** Downloads *)
(** [while(sent < len) ...]: false when [send] failed. *)
Fixpoint send_all (fuel : nat) (s : Z) (buf : string) : M Sys bool :=
  match buf, fuel with
  | EmptyString, _ => ret true
  | _, O => fail Undefined
  | _, Datatypes.S fuel' =>
      let! a := sys (Send s buf) in
      if a_ret a <? 0 then ret false else send_all fuel' s (str_drop (Z.to_nat (a_ret a)) buf)
  end.

Definition get_request (path host : string) (port : Z) (httpversion : string) : string :=
  "GET " +:+ path +:+ " HTTP/" +:+ httpversion +:+ CRLF +:+
  "Host: " +:+ host +:+ ":" +:+ dec port +:+ CRLF +:+
  "Connection: Close" +:+ CRLF +:+ USER_AGENT +:+ CRLF.

(** What a download gives: the content, [*size], [addr_str] and [*status_code]. *)
Record download : Type := mkDownload {
  content : option string;
  size : Z;
  addr_str : option string;
  status : option Z
}.

(** The address of the socket for the caller. *)
Definition local_address (s : Z) (addr_str : option string) (addr_str_len : Z) :
    M Sys (option string) :=
  match addr_str with
  | None => ret None
  | Some _ =>
      let! a := sys (Getsockname s) in
      if a_ret a <? 0 then ret addr_str
      else
        let! n := sys (Getnameinfo (a_data a) addr_str_len) in
        ret (if a_ret n =? 0 then Some (a_data n) else addr_str)
  end.

Definition miniwget3 (host : string) (port : Z) (path : string) (addr_str : option string)
    (addr_str_len : Z) (httpversion : string) (scope_id : Z) (status_code : option Z) :
    M Sys download :=
  let! s := connecthostport host port scope_id in
  if s <? 0 then ret (mkDownload None 0 addr_str status_code)
  else
    let! addr_str := local_address s addr_str addr_str_len in
    let buf := get_request path host port httpversion in
    if BUF <=? slen buf then
      let! _ := sys (Close s) in ret (mkDownload None 0 addr_str status_code)
    else
      let! ok := send_all patience s buf in
      if negb ok then
        let! _ := sys (Close s) in ret (mkDownload None 0 addr_str status_code)
      else
        let! (content, size, status_code) := getHTTPResponse s status_code in
        let! _ := sys (Close s) in
        ret (mkDownload content size addr_str status_code).

Definition miniwget2 (host : string) (port : Z) (path : string) (addr_str : option string)
    (addr_str_len scope_id : Z) (status_code : option Z) : M Sys download :=
  miniwget3 host port path addr_str addr_str_len "1.1" scope_id status_code.

Definition miniwget (url : option string) (scope_id : Z) (status_code : option Z) : M Sys download :=
  let! (u, scope_id) := parseURL url (Some scope_id) in
  match u with
  | None => ret (mkDownload None 0 None status_code)
  | Some u => miniwget2 (hostname u) (port u) (path u) None 0 (default 0 scope_id) status_code
  end.

Definition miniwget_getaddr (url addr : option string) (addrlen scope_id : Z)
    (status_code : option Z) : M Sys download :=
  let addr := option_map (fun _ => "") addr in
  let! (u, scope_id) := parseURL url (Some scope_id) in
  match u with
  | None => ret (mkDownload None 0 addr status_code)
  | Some u =>
      miniwget2 (hostname u) (port u) (path u) addr addrlen (default 0 scope_id) status_code
  end.
End Soap.

(** ** The envelope, in one piece *)
Definition print_arg (a : UPNParg) : string :=
  "<" +:+ a.1 +:+ ">" +:+ default "" a.2 +:+ "</" +:+ a.1 +:+ ">".
Definition envelope (service action : string) (args : list UPNParg) : string :=
  envelope_head +:+ action_head action service +:+ join (map print_arg args) +:+
  "</u:" +:+ action +:+ envelope_tail.

(** The buffer holds the beginning of [ideal] as far as it fits. *)
Definition clipped (ideal b : string) : Prop := b = str_take SOAPBODY ideal.

Lemma clipped_length ideal b : clipped ideal b -> String.length b = Nat.min SOAPBODY (String.length ideal).
Proof. intros ->. apply str_take_length. Qed.
Lemma clipped_whole ideal b : clipped ideal b -> (String.length b < SOAPBODY)%nat -> ideal = b.
Proof.
  intros Hb Hl. pose proof (clipped_length _ _ Hb). unfold clipped in Hb. by rewrite Hb, str_take_all by lia.
Qed.
Lemma clipped_more ideal b s : clipped ideal b -> (SOAPBODY <= String.length b)%nat -> clipped (ideal +:+ s) b.
Proof.
  intros Hb Hl. pose proof (clipped_length _ _ Hb). unfold clipped in *. by rewrite str_take_app_le by lia.
Qed.
Lemma clipped_fits b : (String.length b <= SOAPBODY)%nat -> clipped b b.
Proof. intros Hl. unfold clipped. by rewrite str_take_all. Qed.

(** What a run of writes promises: it stays in the buffer, and leaves the ideal text
    clipped, or refuses a text that does not fit. *)
Definition writes (f : writer) (s : string) : Prop :=
  forall ideal b, clipped ideal b ->
    match f b with
    | Ok (Some b') => clipped (ideal +:+ s) b'
    | Ok None => (SOAPBODY < String.length (ideal +:+ s))%nat
    | Err _ => False
    end.
(** The same where [n] bytes are known to be free. *)
Definition writes_in (n : nat) (f : writer) (s : string) : Prop :=
  forall b, (String.length b + n <= SOAPBODY)%nat ->
    match f b with
    | Ok (Some b') => clipped (b +:+ s) b'
    | Ok None => (SOAPBODY < String.length (b +:+ s))%nat
    | Err _ => False
    end.

Lemma writes_bind f g s t : writes f s -> writes g t -> writes (f >>> g) (s +:+ t).
Proof.
  intros Hf Hg ideal b Hb. specialize (Hf ideal b Hb). unfold andthen.
  destruct (f b) as [[b'|]|]; cbn [obind]; [| |done].
  - specialize (Hg _ _ Hf). by rewrite str_app_assoc in Hg.
  - rewrite <- str_app_assoc, length_app_str. lia.
Qed.
Lemma writes_ext f s t : writes f s -> s = t -> writes f t.
Proof. by intros Hf <-. Qed.
Lemma put_chars_in s : writes_in (String.length s) (put_chars s) s.
Proof.
  induction s as [|c s IH]; intros b Hl; cbn [put_chars String.length] in *.
  - rewrite str_app_nil_r. apply clipped_fits. lia.
  - unfold andthen, put. destruct (Nat.ltb_spec (String.length b) SOAPBODY); [|lia]. cbn [obind].
    specialize (IH (b +:+ String c "")). rewrite str_app_assoc in IH. apply IH.
    rewrite length_app_str. cbn [String.length]. lia.
Qed.
(** A guarded run of bytes. *)
Lemma writes_guarded s : s <> "" -> writes (room (String.length s) >>> put_chars s) s.
Proof.
  intros Hs ideal b Hb. pose proof (clipped_length _ _ Hb) as Hl. unfold andthen at 1, room.
  destruct (Nat.ltb_spec SOAPBODY (String.length b + String.length s)); cbn [obind].
  - rewrite length_app_str. lia.
  - assert (0 < String.length s)%nat by (destruct s; [done|cbn [String.length]; lia]).
    apply clipped_whole in Hb as ->; [|lia]. by apply put_chars_in.
Qed.
Lemma put_one c b : put_chars (String c "") b = put c b.
Proof. cbn [put_chars]. unfold andthen. by destruct (put c b) as [[b'|]|]. Qed.
Lemma andthen_ext f g h b : (forall b', g b' = h b') -> (f >>> g) b = (f >>> h) b.
Proof. intros E. unfold andthen. destruct (f b) as [[b'|]|]; cbn [obind]; by rewrite ?E. Qed.
Lemma andthen_assoc f g h b : ((f >>> g) >>> h) b = (f >>> g >>> h) b.
Proof. unfold andthen. by destruct (f b) as [[b'|]|]. Qed.
Lemma writes_char c : writes (room 1 >>> put c) (String c "").
Proof.
  intros ideal b Hb. rewrite <- (andthen_ext (room 1) (put_chars (String c ""))) by apply put_one.
  by apply (writes_guarded (String c "")).
Qed.
Lemma writes_str s : writes (put_str s) s.
Proof.
  induction s as [|c s IH]; intros ideal b Hb; cbn [put_str]; [by rewrite str_app_nil_r|].
  destruct (Nat.ltb_spec (String.length b) SOAPBODY) as [Hlt|Hge]; [|by apply clipped_more].
  apply clipped_whole in Hb as ->; [|done]. unfold andthen, put.
  destruct (Nat.ltb_spec (String.length b) SOAPBODY); [|lia]. cbn [obind].
  specialize (IH (b +:+ String c "") (b +:+ String c "")). rewrite str_app_assoc in IH. apply IH.
  apply clipped_fits. rewrite length_app_str. cbn [String.length]. lia.
Qed.

(** Reading a chain of writes two steps at a time. *)
Lemma writes_step f g h s t :
  writes (f >>> g) s -> writes h t -> writes (f >>> g >>> h) (s +:+ t).
Proof.
  intros Hf Hh ideal b Hb. rewrite <- andthen_assoc. by apply (writes_bind (f >>> g) h).
Qed.
Lemma writes_arg a : writes (put_arg a) (print_arg a).
Proof.
  unfold put_arg, print_arg. change "<" with (String "<" "") at 1.
  repeat first [apply writes_step; [apply (writes_char "<") || apply (writes_char ">") ||
                                    apply (writes_guarded "</"); done|]
               |apply writes_bind; [apply writes_str|]].
  apply (writes_char ">").
Qed.
Lemma writes_args args : writes (put_args args) (join (map print_arg args)).
Proof.
  induction args as [|a args IH]; [|by apply (writes_bind (put_arg a)); [apply writes_arg|]].
  intros ideal b Hb. cbn. by rewrite str_app_nil_r.
Qed.
(** Behind a text that may be clipped, the tail shows whether all of it is there. *)
Lemma put_tail_whole f s b : writes f s -> (String.length b <= SOAPBODY)%nat ->
  (f >>> put_tail envelope_tail) b =
  Ok (if (String.length (b +:+ s +:+ envelope_tail) <? SOAPBODY)%nat
      then Some (b +:+ s +:+ envelope_tail) else None).
Proof.
  intros Hf Hl. specialize (Hf b b (clipped_fits b Hl)). rewrite <- str_app_assoc.
  set (ideal := b +:+ s) in *. rewrite (length_app_str ideal). unfold andthen.
  destruct (f b) as [[b'|]|]; cbn [obind]; [| |done].
  - pose proof (clipped_length _ _ Hf) as Hb. unfold put_tail.
    destruct (Nat.ltb_spec SOAPBODY (String.length b')); [lia|].
    destruct (Nat.leb_spec SOAPBODY (String.length b' + String.length envelope_tail)),
      (Nat.ltb_spec (String.length ideal + String.length envelope_tail) SOAPBODY); try done; try lia.
    apply clipped_whole in Hf as ->; [done|]. assert (0 < String.length envelope_tail)%nat by (vm_compute; lia). lia.
  - by destruct (Nat.ltb_spec (String.length ideal + String.length envelope_tail) SOAPBODY); [lia|].
Qed.

Lemma soap_body_text service action args :
  soap_body service action args =
  let text := envelope service action (default [] args) in
  Ok (if slen text <? 2048 then Some text else None).
Proof.
  cbv zeta. assert (forall s, (slen s <? 2048) = (String.length s <? SOAPBODY)%nat) as ->.
  { intros s. unfold slen, SOAPBODY. destruct (Z.ltb_spec (Z.of_nat (String.length s)) 2048),
      (Nat.ltb_spec (String.length s) (Z.to_nat 2048)); done || lia. }
  unfold soap_body, envelope. cbv zeta. destruct args as [args|].
  - change (default [] (Some args)) with args. set (h := envelope_head +:+ action_head action service).
    replace (envelope_head +:+ action_head action service +:+ join (map print_arg args) +:+
      "</u:" +:+ action +:+ envelope_tail)
      with (h +:+ (join (map print_arg args) +:+ "</u:" +:+ action) +:+ envelope_tail)
      by (unfold h; by rewrite !str_app_assoc).
    destruct (Nat.leb_spec SOAPBODY (String.length h)) as [Hh|Hh].
    { match goal with |- _ = Ok (if ?c then _ else _) => assert (c = false) as -> end; [|done].
      apply Nat.ltb_ge. rewrite !length_app_str. lia. }
    rewrite <- (put_tail_whole (put_args args >>> room 4 >>> put_chars "</u:" >>> put_str action)); [|clear Hh|lia].
    + by repeat (rewrite andthen_assoc; apply andthen_ext; intros ?).
    + apply writes_bind; [apply writes_args|]. apply writes_step; [by apply (writes_guarded "</u:")|apply writes_str].
  - change (join (map print_arg (default [] None))) with "". rewrite nil_app_str. set (t := envelope_head +:+ _).
    destruct (Nat.leb_spec SOAPBODY (String.length t)), (Nat.ltb_spec (String.length t) SOAPBODY); done || lia.
Qed.

(** C14: The envelope is written whole or not at all.  The byte-by-byte writer of
    [simpleUPnPcommand2], whose every byte must fall into the 2048 of the buffer, never
    leaves it, gives exactly the reference text of the action and its arguments when
    that text and a terminator fit, and returns null otherwise: no envelope is sent
    truncated. *)
Theorem soap_body_reference service action args :
  soap_body service action args =
  let text := envelope service action (default [] args) in
  Ok (if slen text <? 2048 then Some text else None).
Proof. apply soap_body_text. Qed.
