(* ===== verification/Exchange.v ===== *)
(** * Exchange

    A whole [simpleUPnPcommand] against a peer that answers it: the connection is made, the
    request goes out in one piece, the response is read however the network cuts it, and
    the connection is closed. *)
From S2P Require Import Prelude.
From S2P Require Import CStr.
From S2P Require Import CSys.
From S2P Require Import XmlDocument.
From S2P Require Import ParseUrl.
From S2P Require Import UpnpReply.
From S2P Require Import HttpResponse.
From S2P Require Import HttpHeaders.
From S2P Require Import HttpBody.
From S2P Require Import Connect.
From S2P Require Import Soap.

(** ** Calls that send nothing *)
Definition silent (x : call * Answer) : Prop := match x.1 with Send _ _ => False | _ => True end.
(** From [s] to [s'] nothing was sent. *)
Definition silently (s s' : Sys) : Prop := exists u, trace s' = trace s ++ u /\ Forall silent u.
#[export] Instance silently_refl : Reflexive silently.
Proof. intros s. exists []. by rewrite app_nil_r. Qed.
#[export] Instance silently_trans : Transitive silently.
Proof.
  intros s1 s2 s3 (u & E1 & H1) (v & E2 & H2). exists (u ++ v).
  rewrite E2, E1, <- app_assoc. split; [done|by apply Forall_app].
Qed.
Lemma own_silent fd u : Forall (own fd) u -> Forall silent u.
Proof. intros Hu. eapply Forall_impl; [exact Hu|]. by intros [[] a]. Qed.
Lemma sys_silently `{Os} c s a s' :
  silent (c, a) -> sys c s = Ok (a, s') -> silently s s'.
Proof. intros Hc [_ E]%sys_ok. exists [(c, a)]. split; [done|by repeat constructor]. Qed.

(** The URL, as [parseURL] reads it. *)
Definition reads_url `{Os} (url : string) (u : url_parts) : Prop :=
  forall s, exists scope, parseURL (Some url) None s = Ok ((Some u, scope), s).
(** What is sent for an action. *)
Definition soapact (service action : string) : string := str_take 127 (service +:+ "#" +:+ action).
Definition request (u : url_parts) (service action : string) (args : list UPNParg) : string :=
  let body := envelope service action args in
  soap_headers (path u) (hostname u) (port u) (soapact service action) (slen body) "1.1" +:+ body.
(** It fits the buffers of [simpleUPnPcommand2] and [soapPostSubmit]. *)
Definition sendable (u : url_parts) (service action : string) (args : list UPNParg) : bool :=
  let body := envelope service action args in
  (slen body <? 2048) &&
  (slen (soap_headers (path u) (hostname u) (port u) (soapact service action) (slen body) "1.1") <? 512).

Section Exchange.
Context `{Os} `{Patience} {ML : MallocLaws}.

(** The host has an address and takes connections. *)
Class Reaches (host : string) (port : Z) : Prop := {
  reach_name : forall t, let a := os t (Getaddrinfo (tmp_host host) (dec port)) in
    a_ret a = 0 /\ a_list a <> [];
  reach_socket : forall t family, 0 <= a_ret (os t (Socket family));
  reach_connect : forall t fd addr port scope, 0 <= a_ret (os t (Connect fd addr port scope))
}.

(** After [t] a response with this document comes in on the socket: status line and
    header fields, then [<?xml ... ?>] and the document in any framing, in any pieces. *)
Definition responds (t : list (call * Answer)) (fd : Z) (dc : doc) : Prop :=
  exists prolog fr version code reason l,
    let body := prolog +:+ print dc in
    let stream := print_head (print_status version code reason) l +:+ encode fr body in
    (prolog_ok prolog = true /\ body <> "") /\
    (status_ok version code reason = true /\ l <> [] /\ forallb field_ok l = true /\
     forallb length_ok l = true /\ announces l fr body) /\
    slen body < 2 ^ 30 /\ slen stream < 2 ^ 30 /\ (String.length stream + 1 < patience)%nat /\
    Serves fd t stream.

Lemma connecthostport_reaches host port scope s :
  Reaches host port -> (0 < patience)%nat ->
  exists fd s', connecthostport host port scope s = Ok (fd, s') /\ 0 <= fd /\ silently s s'.
Proof using.
  intros R Hp. unfold connecthostport. destruct (reach_name (trace s)) as [Hr Hl].
  unfold bind at 1, sys at 1. cbv zeta in *. set (a := os (trace s) _) in *. rewrite Hr. cbn [Z.eqb negb Z.ltb Z.compare].
  set (s1 := mkSys _ _). assert (silently s s1) as H1 by (eexists [_]; split; [done|by repeat constructor]).
  destruct (a_list a) as [|[family addr] ai]; [done|]. cbn [try_addresses]. cbn [INVALID_SOCKET Z.ltb Z.compare].
  pose proof (reach_socket (trace s1) family) as Hs. unfold bind, sys, ret. set (fd := os (trace s1) (Socket family)) in *.
  destruct (Z.ltb_spec (a_ret fd) 0); [lia|]. cbv zeta.
  match goal with |- context [os ?t (Connect ?f ?ad ?p ?sc)] => pose proof (reach_connect t f ad p sc) as Hc;
    set (c := os t (Connect f ad p sc)) in * end.
  assert (forall n s2, 0 <= n -> wait_connect patience (a_ret fd) n s2 = Ok (Some n, s2)) as Hw.
  { intros n s2 Hn. destruct patience as [|k]; [lia|]. cbn [wait_connect]. unfold bind, get_errno, gets, ret.
    destruct (Z.ltb_spec n 0); [lia|done]. }
  rewrite Hw by done. destruct (Z.leb_spec 0 (a_ret c)); [|lia].
  destruct (Z.ltb_spec (a_ret fd) 0); [lia|]. destruct (Z.ltb_spec (a_ret c) 0); [lia|].
  eexists _, _. split; [done|]. split; [done|]. etrans; [exact H1|].
  eexists. cbn [trace]. rewrite <- !app_assoc. split; [done|]. by repeat constructor.
Qed.

(** The request goes out, the response comes back. *)
Lemma exchange url u service action args dc s :
  reads_url url u -> Reaches (hostname u) (port u) -> (0 < patience)%nat ->
  sendable u service action (default [] args) = true ->
  let req := request u service action (default [] args) in
  (forall fd s1, silently s s1 -> 0 <= fd ->
     let a := os (trace s1) (Send fd req) in
     0 < a_ret a /\ responds (trace s1 ++ [(Send fd req, a)]) fd dc) ->
  exists prolog tail s', prolog_ok prolog = true /\
    simpleUPnPcommand (-1) (Some url) (Some service) action args s =
      Ok (Some (prolog +:+ print dc +:+ tail, slen (prolog +:+ print dc)), s') /\
    exists fd s1 s2, silently s s1 /\ 0 <= fd /\
      trace s2 = trace s1 ++ [(Send fd req, os (trace s1) (Send fd req))] /\ silently s2 s'.
Proof using ML.
  intros Hu HR Hpat [Hbody%Z.ltb_lt Hhead%Z.ltb_lt]%andb_prop req Hreq.
  unfold simpleUPnPcommand, simpleUPnPcommand2. fold (soapact service action).
  erewrite bind_step by (unfold lift_out; rewrite soap_body_text; reflexivity). cbv zeta.
  destruct (Z.ltb_spec (slen (envelope service action (default [] args))) 2048); [|lia].
  set (body := envelope service action (default [] args)) in *.
  destruct (Hu s) as [scope E1]. erewrite bind_step by exact E1. cbn iota. cbn [Z.ltb Z.compare].
  destruct (connecthostport_reaches (hostname u) (port u) 0 s HR Hpat) as (fd & s1 & E2 & Hfd & Hs1).
  erewrite bind_step by exact E2. destruct (Z.ltb_spec fd 0); [lia|].
  unfold soapPostSubmit.
  match goal with |- context [slen (soap_headers ?a ?b ?c ?d ?e ?f)] => set (head := soap_headers a b c d e f) in * end.
  destruct (Z.leb_spec 512 (slen head)); [lia|].
  destruct (malloc_true (slen head + slen body) s1) as [s2 E3].
  assert (silently s1 s2) as Hs2.
  { unfold malloc, sys, bind, ret in E3. injection E3 as _ <-. eexists [_]. split; [done|by repeat constructor]. }
  destruct (Hreq fd s2 ltac:(by etrans) Hfd) as [Hsent Hresp]. change req with (head +:+ body) in Hsent, Hresp.
  set (a := os (trace s2) (Send fd (head +:+ body))) in *.
  assert (exists s3, httpWrite fd body head s1 = Ok (a_ret a, s3) /\
    trace s3 = trace s2 ++ [(Send fd (head +:+ body), a)]) as (s3 & E4 & Es3).
  { unfold httpWrite. erewrite bind_step by exact E3. by eexists. }
  erewrite bind_step by exact E4. destruct (Z.leb_spec (a_ret a) 0); [lia|].
  destruct Hresp as (prolog & fr & version & code & reason & l & (Hp & Hne) & (Hst & Hl & Hf & Hlen & Hann)
    & Hb30 & Hs30 & Hpt & SV).
  rewrite <- Es3 in SV.
  destruct (getHTTPResponse_reads fd (trace s3) _ fr version code reason l _ eq_refl Hst Hl Hf Hlen Hann Hb30 Hs30 Hpt
    s3 (Some 0) eq_refl) as (r & s4 & E5 & Hr & (w & Ew & Hw)).
  rewrite bool_decide_false in Hr by done. destruct Hr as [tail ->].
  exists prolog, tail. eexists. split; [done|]. split.
  - erewrite bind_step by exact E5. cbn iota beta. unfold bind, sys, ret. by rewrite str_app_assoc.
  - exists fd, s2, s3. split; [by etrans|]. split; [done|]. split; [exact Es3|].
    eexists (w ++ [_]). cbn [trace]. rewrite Ew, <- app_assoc. split; [done|].
    apply Forall_app. split; [by eapply own_silent|by repeat constructor].
Qed.
End Exchange.

(** ** A peer that answers requests

    [answer] gives the stream it sends for a request, from what happened before it; it
    hands out [k] bytes at a time. *)
Section Responder.
Context (answer : list (call * Answer) -> string -> string) (k : Z).

(** The calls so far, the stream of the last request, and what was read of it. *)
Definition heard (st : list (call * Answer) * string * string) (x : call * Answer) :=
  let '(t, stream, got) := st in
  match x.1 with
  | Send _ r => (t ++ [x], answer t r, "")
  | Recv _ _ => (t ++ [x], stream, got +:+ a_data x.2)
  | _ => (t ++ [x], stream, got)
  end.
Definition hear (t : list (call * Answer)) := foldl heard ([], "", "") t.
Definition responder : Os := fun t c =>
  let '(_, stream, got) := hear t in
  match c with
  | Malloc _ | Poll _ _ => mkAnswer 1 0 "" 0 0 0 []
  | Getaddrinfo _ _ => mkAnswer 0 0 "" 0 0 0 [(2, "192.168.1.1")]
  | Socket _ => mkAnswer 5 0 "" 0 0 0 []
  | Send _ r => mkAnswer (slen r) 0 "" 0 0 0 []
  | Recv _ len =>
      let d := str_take (Z.to_nat (Z.min len k)) (str_drop (String.length got) stream) in
      mkAnswer (slen d) 0 d 0 0 0 []
  | _ => answer0
  end.
#[local] Existing Instance responder.

Lemma responder_malloc : MallocLaws.
Proof using. split. intros t size. unfold os, responder. by destruct (hear t) as [[? ?] ?]. Qed.
Lemma responder_reaches host port : Reaches host port.
Proof using.
  split; [intros t a; subst a|intros..]; unfold os, responder; destruct (hear t) as [[? ?] ?];
    [by split|vm_compute; discriminate..].
Qed.
Lemma hear_trace t : (hear t).1.1 = t.
Proof using.
  unfold hear. induction t as [|[c a] t IH] using rev_ind; [done|]. rewrite foldl_app. cbn [foldl].
  destruct (foldl _ _ t) as [[u str] got]. cbn in IH. subst u. by destruct c.
Qed.
Lemma heard_own fd t stream got u :
  Forall (own fd) u ->
  foldl heard (t, stream, got) u = (t ++ u, stream, got +:+ received fd u).
Proof using.
  revert t got. induction u as [|[c a] u IH]; intros t got Hu; [cbn; by rewrite app_nil_r, str_app_nil_r|].
  apply Forall_cons in Hu as [Hc Hu].
  destruct c; try done; cbn [foldl heard received fst snd]; rewrite IH by done; rewrite <- app_assoc; try done.
  cbn in Hc. subst. by rewrite Z.eqb_refl, str_app_assoc.
Qed.
Lemma responder_serves fd t req a : 0 < k ->
  Serves fd (t ++ [(Send fd req, a)]) (answer t req).
Proof using.
  intros Hk.
  assert (forall u, Forall (own fd) u -> exists v, hear ((t ++ [(Send fd req, a)]) ++ u) = (v, answer t req, received fd u)) as Hh.
  { intros u Hu. unfold hear. rewrite !foldl_app. cbn [foldl]. pose proof (hear_trace t) as Ht. unfold hear in Ht.
    destruct (foldl heard _ t) as [[w str] got]. cbn in Ht. subst w. cbn [heard fst].
    rewrite (heard_own fd) by done. by eexists. }
  split.
  - intros u timeout Hu. unfold os, responder. destruct (Hh u Hu) as [v ->]. done.
  - intros u len rest Hu Hlen E. unfold os, responder. destruct (Hh u Hu) as [v ->]. cbn.
    assert (str_drop (String.length (received fd u)) (answer t req) = rest) as -> by (rewrite E; apply str_drop_app).
    split; [done|]. split; [unfold slen; rewrite str_take_length; lia|].
    split; [eexists; symmetry; apply str_take_drop|].
    destruct rest as [|c rest]; [done|]. destruct (Z.to_nat (len `min` k)) eqn:Ek; [lia|done].
Qed.
Lemma responder_sends t fd req : a_ret (os t (Send fd req)) = slen req.
Proof using. unfold os, responder. by destruct (hear t) as [[? ?] ?]. Qed.
End Responder.

(** An HTTP response that ends with the connection. *)
Definition closing_fields : list (string * string) := [("Server", "gw"); ("Connection", "close")].
Definition http_response (dc : doc) : string :=
  print_head (print_status "HTTP/1.1" "200" "OK") closing_fields +:+ encode ByClose (xml_declaration +:+ print dc).

Lemma http_response_responds `{Os} `{Patience} t fd dc :
  Serves fd t (http_response dc) -> slen (http_response dc) < 2 ^ 30 ->
  (String.length (http_response dc) + 1 < patience)%nat -> responds t fd dc.
Proof.
  intros SV Hl Hp. exists xml_declaration, ByClose, "HTTP/1.1", "200", "OK", closing_fields. cbv zeta.
  split; [by split|]. split; [repeat split; (reflexivity || discriminate)|].
  split; [|exact (conj Hl (conj Hp SV))].
  unfold http_response in Hl. rewrite slen_app in Hl. pose proof (slen_nonneg (print_head (print_status "HTTP/1.1" "200" "OK") closing_fields)).
  unfold encode in Hl. lia.
Qed.
