(* ===== verification/UpnpCommands.v ===== *)
(** * UpnpCommands

    The actions of a gateway (src/peer/external/miniupnpc-2.1.20190408/upnpcommands.c)
    over [simpleUPnPcommand] of Soap, which sends one action and gives back the reply, and the texts
    of their errors (upnperrors.c).  A pointer argument is an [option]: [None] is the
    null pointer.  A function that writes through pointers returns its [int] and what
    the pointers hold afterwards. *)
From S2P Require Import Prelude.
From S2P Require Import CStr.
From S2P Require Import CSys.
From S2P Require Import MiniXml.
From S2P Require Import XmlDocument.
From S2P Require Import UpnpReply.
From S2P Require Import PortListing.
From S2P Require Import ParseUrl.
From S2P Require Import HttpHeaders.
From S2P Require Import HttpBody.
From S2P Require Import Connect.
From S2P Require Import Soap.
From S2P Require Import Exchange.

Definition UPNPCOMMAND_SUCCESS : Z := 0.
Definition UPNPCOMMAND_UNKNOWN_ERROR : Z := -1.
Definition UPNPCOMMAND_INVALID_ARGS : Z := -2.
Definition UPNPCOMMAND_HTTP_ERROR : Z := -3.
Definition UPNPCOMMAND_INVALID_RESPONSE : Z := -4.
Definition UPNPCOMMAND_MEM_ALLOC_ERROR : Z := -5.
Definition UPNPDISCOVER_SOCKET_ERROR : Z := -101.
Definition UPNPDISCOVER_MEMORY_ERROR : Z := -102.

Definition my_atoui (s : option string) : Z :=
  match s with Some s => strtoull 0 s | None => 0 end.

Section UpnpCommands.
Context `{Os} `{Patience}.
Context (controlURL servicetype : option string).

(** Send the action and read the reply: [None] when there is none. *)
Definition call_action (action : string) (args : option (list UPNParg)) :
    M Sys (option NameValueParserData) :=
  let! b := simpleUPnPcommand (-1) controlURL servicetype action args in
  match b with
  | None => ret None
  | Some (buffer, bufsize) => let! pdata := ParseNameValue buffer bufsize in ret (Some pdata)
  end.

(** The same with a table of [n] arguments allocated first: on the left the code to
    return when that fails. *)
Definition call_with_args (n : Z) (action : string) (args : list UPNParg) :
    M Sys (Z + NameValueParserData) :=
  let! ok := malloc (n * sizeof_UPNParg) in
  if negb ok then ret (inl UPNPCOMMAND_MEM_ALLOC_ERROR)
  else
    let! r := call_action action (Some args) in
    match r with
    | None => ret (inl UPNPCOMMAND_HTTP_ERROR)
    | Some pdata => ret (inr pdata)
    end.

(** [p = ...("errorCode"); if(p) { ret = UNKNOWN_ERROR; sscanf(p, "%d", &ret); }] *)
Definition error_or (pdata : NameValueParserData) (r : Z) : Z :=
  match GetValueFromNameValueList pdata "errorCode" with
  | Some p => default UPNPCOMMAND_UNKNOWN_ERROR (scan_d p)
  | None => r
  end.
(** [ret] once a value was looked for. *)
Definition success_if (p : option string) : Z :=
  match p with Some _ => UPNPCOMMAND_SUCCESS | None => UPNPCOMMAND_UNKNOWN_ERROR end.
(** [if(p && dst) { strncpy(dst, p, n); dst[n-1] = 0; }] *)
Definition copy_if (n : Z) (dst p : option string) : option string :=
  match dst, p with Some _, Some v => Some (strncpy_term n v) | _, _ => dst end.
(** [if(dst) { if(p) { strncpy(dst, p, n); dst[n-1] = 0; } else dst[0] = 0; }] *)
Definition copy_or_empty (n : Z) (dst p : option string) : option string :=
  match dst with
  | Some _ => Some (match p with Some v => strncpy_term n v | None => "" end)
  | None => None
  end.
(** [if(p) { strncpy(dst, p, n); dst[n-1] = 0; }] for a pointer that was not tested. *)
Definition copy_unchecked (n : Z) (dst p : option string) : M Sys (option string) :=
  match dst, p with
  | Some _, Some v => ret (Some (strncpy_term n v))
  | None, Some _ => fail Undefined
  | _, None => ret dst
  end.
(** [if(dst) { if(p) sscanf(p, "%u", dst); else *dst = 0; }] *)
Definition scan_or_zero (dst : option Z) (p : option string) : option Z :=
  match dst with
  | Some v => Some (match p with Some s => default v (scan_u s) | None => 0 end)
  | None => None
  end.

(** ** Traffic counters *)
Definition get_total (action name : string) : M Sys Z :=
  let! r := call_action action None in
  match r with
  | None => ret (wrap_u 64 UPNPCOMMAND_HTTP_ERROR)
  | Some pdata => ret (wrap_u 32 (my_atoui (GetValueFromNameValueList pdata name)))
  end.
Definition UPNP_GetTotalBytesSent : M Sys Z := get_total "GetTotalBytesSent" "NewTotalBytesSent".
Definition UPNP_GetTotalBytesReceived : M Sys Z :=
  get_total "GetTotalBytesReceived" "NewTotalBytesReceived".
Definition UPNP_GetTotalPacketsSent : M Sys Z :=
  get_total "GetTotalPacketsSent" "NewTotalPacketsSent".
Definition UPNP_GetTotalPacketsReceived : M Sys Z :=
  get_total "GetTotalPacketsReceived" "NewTotalPacketsReceived".

(** ** State of the connection *)
Definition UPNP_GetStatusInfo (status : option string) (uptime : option Z)
    (lastconnerror : option string) : M Sys (Z * (option string * option Z * option string)) :=
  if bool_decide (status = None) && bool_decide (uptime = None)
  then ret (UPNPCOMMAND_INVALID_ARGS, (status, uptime, lastconnerror))
  else
    let! r := call_action "GetStatusInfo" None in
    match r with
    | None => ret (UPNPCOMMAND_HTTP_ERROR, (status, uptime, lastconnerror))
    | Some pdata =>
        let up := GetValueFromNameValueList pdata "NewUptime" in
        let p := GetValueFromNameValueList pdata "NewConnectionStatus" in
        let err := GetValueFromNameValueList pdata "NewLastConnectionError" in
        let r := match p, up with
                 | Some _, Some _ => UPNPCOMMAND_SUCCESS
                 | _, _ => UPNPCOMMAND_UNKNOWN_ERROR
                 end in
        ret (error_or pdata r,
             (copy_or_empty 64 status p, scan_or_zero uptime up, copy_or_empty 64 lastconnerror err))
    end.

Definition UPNP_GetConnectionTypeInfo (connectionType : option string) :
    M Sys (Z * option string) :=
  if bool_decide (connectionType = None) then ret (UPNPCOMMAND_INVALID_ARGS, connectionType)
  else
    let! r := call_action "GetConnectionTypeInfo" None in
    match r with
    | None => ret (UPNPCOMMAND_HTTP_ERROR, connectionType)
    | Some pdata =>
        let p := GetValueFromNameValueList pdata "NewConnectionType" in
        let r := success_if p in
        ret (error_or pdata r, copy_or_empty 64 connectionType p)
    end.

Definition UPNP_GetLinkLayerMaxBitRates (bitrateDown bitrateUp : option Z) :
    M Sys (Z * (option Z * option Z)) :=
  if bool_decide (bitrateDown = None) && bool_decide (bitrateUp = None)
  then ret (UPNPCOMMAND_INVALID_ARGS, (bitrateDown, bitrateUp))
  else
    let! r := call_action "GetCommonLinkProperties" None in
    match r with
    | None => ret (UPNPCOMMAND_HTTP_ERROR, (bitrateDown, bitrateUp))
    | Some pdata =>
        let down := GetValueFromNameValueList pdata "NewLayer1DownstreamMaxBitRate" in
        let up := GetValueFromNameValueList pdata "NewLayer1UpstreamMaxBitRate" in
        let r := match down, up with
                 | Some _, Some _ => UPNPCOMMAND_SUCCESS
                 | _, _ => UPNPCOMMAND_UNKNOWN_ERROR
                 end in
        ret (error_or pdata r, (scan_or_zero bitrateDown down, scan_or_zero bitrateUp up))
    end.

Definition UPNP_GetExternalIPAddress (extIpAdd : option string) : M Sys (Z * option string) :=
  match extIpAdd, controlURL, servicetype with
  | Some _, Some _, Some _ =>
      let! r := call_action "GetExternalIPAddress" None in
      match r with
      | None => ret (UPNPCOMMAND_HTTP_ERROR, extIpAdd)
      | Some pdata =>
          let p := GetValueFromNameValueList pdata "NewExternalIPAddress" in
          let r := success_if p in
          ret (error_or pdata r, copy_or_empty 16 extIpAdd p)
      end
  | _, _, _ => ret (UPNPCOMMAND_INVALID_ARGS, extIpAdd)
  end.

(** ** Port mappings *)
Definition result_code (r : Z + NameValueParserData) : Z :=
  match r with inl e => e | inr pdata => error_or pdata UPNPCOMMAND_SUCCESS end.

Definition AddPortMappingArgs (extPort inPort inClient desc proto remoteHost leaseDuration :
    option string) : list UPNParg :=
  [("NewRemoteHost", remoteHost); ("NewExternalPort", extPort); ("NewProtocol", proto);
   ("NewInternalPort", inPort); ("NewInternalClient", inClient); ("NewEnabled", Some "1");
   ("NewPortMappingDescription", Some (default "libminiupnpc" desc));
   ("NewLeaseDuration", Some (default "0" leaseDuration))].

Definition UPNP_AddPortMapping (extPort inPort inClient desc proto remoteHost leaseDuration :
    option string) : M Sys Z :=
  match inPort, inClient, proto, extPort with
  | Some _, Some _, Some _, Some _ =>
      let! r := call_with_args 9 "AddPortMapping"
        (AddPortMappingArgs extPort inPort inClient desc proto remoteHost leaseDuration) in
      ret (result_code r)
  | _, _, _, _ => ret UPNPCOMMAND_INVALID_ARGS
  end.

Definition UPNP_AddAnyPortMapping (extPort inPort inClient desc proto remoteHost leaseDuration
    reservedPort : option string) : M Sys (Z * option string) :=
  match inPort, inClient, proto, extPort with
  | Some _, Some _, Some _, Some _ =>
      let! r := call_with_args 9 "AddAnyPortMapping"
        (AddPortMappingArgs extPort inPort inClient desc proto remoteHost leaseDuration) in
      match r with
      | inl e => ret (e, reservedPort)
      | inr pdata =>
          match GetValueFromNameValueList pdata "errorCode" with
          | Some resVal =>
              ret (default UPNPCOMMAND_UNKNOWN_ERROR (scan_d resVal), reservedPort)
          | None =>
              match GetValueFromNameValueList pdata "NewReservedPort" with
              | Some p =>
                  let! reservedPort := copy_unchecked 6 reservedPort (Some p) in
                  ret (UPNPCOMMAND_SUCCESS, reservedPort)
              | None => ret (UPNPCOMMAND_INVALID_RESPONSE, reservedPort)
              end
          end
      end
  | _, _, _, _ => ret (UPNPCOMMAND_INVALID_ARGS, reservedPort)
  end.

Definition UPNP_DeletePortMapping (extPort proto remoteHost : option string) : M Sys Z :=
  match extPort, proto with
  | Some _, Some _ =>
      let! r := call_with_args 4 "DeletePortMapping"
        [("NewRemoteHost", remoteHost); ("NewExternalPort", extPort); ("NewProtocol", proto)] in
      ret (result_code r)
  | _, _ => ret UPNPCOMMAND_INVALID_ARGS
  end.

Definition UPNP_DeletePortMappingRange (extPortStart extPortEnd proto manage : option string) :
    M Sys Z :=
  match extPortStart, extPortEnd, proto, manage with
  | Some _, Some _, Some _, Some _ =>
      let! r := call_with_args 5 "DeletePortMappingRange"
        [("NewStartPort", extPortStart); ("NewEndPort", extPortEnd); ("NewProtocol", proto);
         ("NewManage", manage)] in
      ret (result_code r)
  | _, _, _, _ => ret UPNPCOMMAND_INVALID_ARGS
  end.

(** What the pointer arguments of the two lookups hold. *)
Record mapping_out : Type := mkOut {
  o_extPort : option string;
  o_intClient : option string;
  o_intPort : option string;
  o_protocol : option string;
  o_desc : option string;
  o_enabled : option string;
  o_rHost : option string;
  o_duration : option string
}.

(** The clearing of [intClient] and [intPort] and the reading of the reply. *)
Definition generic_cleared (o : mapping_out) : mapping_out :=
  mkOut (o_extPort o) (Some "") (Some "") (o_protocol o) (o_desc o) (o_enabled o) (o_rHost o)
    (o_duration o).
Definition generic_entry (pdata : NameValueParserData) (o : mapping_out) : Z * mapping_out :=
  let v := GetValueFromNameValueList pdata in
  let r := match v "NewExternalPort", o_extPort o with
           | Some _, Some _ => UPNPCOMMAND_SUCCESS
           | _, _ => UPNPCOMMAND_UNKNOWN_ERROR
           end in
  let r := match v "NewInternalClient" with Some _ => 0 | None => r end in
  (error_or pdata r,
   mkOut (copy_if 6 (o_extPort o) (v "NewExternalPort"))
     (copy_if 16 (o_intClient o) (v "NewInternalClient"))
     (copy_if 6 (o_intPort o) (v "NewInternalPort"))
     (copy_if 4 (o_protocol o) (v "NewProtocol"))
     (copy_if 80 (o_desc o) (v "NewPortMappingDescription"))
     (copy_if 4 (o_enabled o) (v "NewEnabled"))
     (copy_if 64 (o_rHost o) (v "NewRemoteHost"))
     (copy_if 16 (o_duration o) (v "NewLeaseDuration"))).

Definition UPNP_GetGenericPortMappingEntry (index : option string) (o : mapping_out) :
    M Sys (Z * mapping_out) :=
  match index with
  | None => ret (UPNPCOMMAND_INVALID_ARGS, o)
  | Some _ =>
      match o_intClient o, o_intPort o with
      | Some _, Some _ =>
          let o := generic_cleared o in
          let! r := call_with_args 2 "GetGenericPortMappingEntry" [("NewPortMappingIndex", index)] in
          ret match r with inl e => (e, o) | inr pdata => generic_entry pdata o end
      | _, _ => fail Undefined
      end
  end.

Definition UPNP_GetPortMappingNumberOfEntries (numEntries : option Z) : M Sys (Z * option Z) :=
  let! r := call_action "GetPortMappingNumberOfEntries" None in
  match r with
  | None => ret (UPNPCOMMAND_HTTP_ERROR, numEntries)
  | Some pdata =>
      let '(r, numEntries) :=
        match numEntries, GetValueFromNameValueList pdata "NewPortMappingNumberOfEntries" with
        | Some _, Some p => (UPNPCOMMAND_SUCCESS, Some (default 0 (scan_u p)))
        | _, _ => (UPNPCOMMAND_UNKNOWN_ERROR, numEntries)
        end in
      ret (error_or pdata r, numEntries)
  end.

Definition specific_entry (pdata : NameValueParserData) (o : mapping_out) : Z * mapping_out :=
  let v := GetValueFromNameValueList pdata in
  let r := success_if (v "NewInternalClient") in
  (error_or pdata r,
   mkOut (o_extPort o)
     (copy_or_empty 16 (o_intClient o) (v "NewInternalClient"))
     (copy_or_empty 6 (o_intPort o) (v "NewInternalPort"))
     (o_protocol o)
     (copy_if 80 (o_desc o) (v "NewPortMappingDescription"))
     (copy_if 4 (o_enabled o) (v "NewEnabled"))
     (o_rHost o)
     (copy_if 16 (o_duration o) (v "NewLeaseDuration"))).

Definition UPNP_GetSpecificPortMappingEntry (extPort proto remoteHost : option string)
    (o : mapping_out) : M Sys (Z * mapping_out) :=
  match o_intPort o, o_intClient o, extPort, proto with
  | Some _, Some _, Some _, Some _ =>
      let! r := call_with_args 4 "GetSpecificPortMappingEntry"
        [("NewRemoteHost", remoteHost); ("NewExternalPort", extPort); ("NewProtocol", proto)] in
      ret match r with inl e => (e, o) | inr pdata => specific_entry pdata o end
  | _, _, _, _ => ret (UPNPCOMMAND_INVALID_ARGS, o)
  end.

(** The listing is a string of its own, followed by its terminator. *)
Definition UPNP_GetListOfPortMappings (startPort endPort protocol numberOfPorts : option string)
    (data : PortMappingParserData) : M Sys (Z * PortMappingParserData) :=
  match startPort, endPort, protocol with
  | Some _, Some _, Some _ =>
      let! r := call_with_args 6 "GetListOfPortMappings"
        [("NewStartPort", startPort); ("NewEndPort", endPort); ("NewProtocol", protocol);
         ("NewManage", Some "1"); ("NewNumberOfPorts", Some (default "1000" numberOfPorts))] in
      match r with
      | inl e => ret (e, data)
      | inr pdata =>
          match UpnpReply.portListing pdata with
          | Some l =>
              let! data := ParsePortListing (l +:+ String NUL "") (portListingLength pdata) in
              ret (error_or pdata UPNPCOMMAND_SUCCESS, data)
          | None => ret (error_or pdata UPNPCOMMAND_UNKNOWN_ERROR, data)
          end
      end
  | _, _, _ => ret (UPNPCOMMAND_INVALID_ARGS, data)
  end.

(** ** The IPv6 firewall *)
Definition UPNP_GetFirewallStatus (firewallEnabled inboundPinholeAllowed : option Z) :
    M Sys (Z * (option Z * option Z)) :=
  match firewallEnabled, inboundPinholeAllowed with
  | Some fe0, Some ipa0 =>
      let! r := call_action "GetFirewallStatus" None in
      match r with
      | None => ret (UPNPCOMMAND_HTTP_ERROR, (firewallEnabled, inboundPinholeAllowed))
      | Some pdata =>
          let fe := GetValueFromNameValueList pdata "FirewallEnabled" in
          let ipa := GetValueFromNameValueList pdata "InboundPinholeAllowed" in
          let r := match ipa, fe with
                   | Some _, Some _ => UPNPCOMMAND_SUCCESS
                   | _, _ => UPNPCOMMAND_UNKNOWN_ERROR
                   end in
          let value v0 p := match p with Some _ => wrap_s 32 (my_atoui p) | None => v0 end in
          ret (error_or pdata r, (Some (value fe0 fe), Some (value ipa0 ipa)))
      end
  | _, _ => ret (UPNPCOMMAND_INVALID_ARGS, (firewallEnabled, inboundPinholeAllowed))
  end.

(** [if(p) *dst = my_atoui(p);] for a pointer that was not tested. *)
Definition atoui_unchecked (dst : option Z) (p : option string) : M Sys (option Z) :=
  match dst, p with
  | Some _, Some _ => ret (Some (wrap_s 32 (my_atoui p)))
  | None, Some _ => fail Undefined
  | _, None => ret dst
  end.

Definition UPNP_GetOutboundPinholeTimeout (remoteHost remotePort intClient intPort proto :
    option string) (opTimeout : option Z) : M Sys (Z * option Z) :=
  match intPort, intClient, proto, remotePort, remoteHost with
  | Some _, Some _, Some _, Some _, Some _ =>
      let! r := call_with_args 6 "GetOutboundPinholeTimeout"
        [("RemoteHost", remoteHost); ("RemotePort", remotePort); ("Protocol", proto);
         ("InternalPort", intPort); ("InternalClient", intClient)] in
      match r with
      | inl e => ret (e, opTimeout)
      | inr pdata =>
          match GetValueFromNameValueList pdata "errorCode" with
          | Some resVal => ret (default UPNPCOMMAND_UNKNOWN_ERROR (scan_d resVal), opTimeout)
          | None =>
              let p := GetValueFromNameValueList pdata "OutboundPinholeTimeout" in
              let! opTimeout := atoui_unchecked opTimeout p in
              ret (UPNPCOMMAND_SUCCESS, opTimeout)
          end
      end
  | _, _, _, _, _ => ret (UPNPCOMMAND_INVALID_ARGS, opTimeout)
  end.

(** A host given as [empty...] is sent as nothing. *)
Definition wildcard (host : option string) : option string :=
  match host with
  | Some h => if starts_with "empty" h then Some "" else host
  | None => None
  end.

Definition UPNP_AddPinhole (remoteHost remotePort intClient intPort proto leaseTime uniqueID :
    option string) : M Sys (Z * option string) :=
  match intPort, intClient, proto, remoteHost, remotePort, leaseTime with
  | Some _, Some _, Some _, Some _, Some _, Some _ =>
      let! r := call_with_args 7 "AddPinhole"
        [("RemoteHost", wildcard remoteHost); ("RemotePort", remotePort); ("Protocol", proto);
         ("InternalPort", intPort); ("InternalClient", wildcard intClient);
         ("LeaseTime", leaseTime)] in
      match r with
      | inl e => ret (e, uniqueID)
      | inr pdata =>
          let p := GetValueFromNameValueList pdata "UniqueID" in
          let! uniqueID := copy_unchecked 8 uniqueID p in
          ret (error_or pdata UPNPCOMMAND_SUCCESS, uniqueID)
      end
  | _, _, _, _, _, _ => ret (UPNPCOMMAND_INVALID_ARGS, uniqueID)
  end.

Definition UPNP_UpdatePinhole (uniqueID leaseTime : option string) : M Sys Z :=
  match uniqueID, leaseTime with
  | Some _, Some _ =>
      let! r := call_with_args 3 "UpdatePinhole"
        [("UniqueID", uniqueID); ("NewLeaseTime", leaseTime)] in
      ret (result_code r)
  | _, _ => ret UPNPCOMMAND_INVALID_ARGS
  end.

Definition UPNP_DeletePinhole (uniqueID : option string) : M Sys Z :=
  match uniqueID with
  | Some _ =>
      let! r := call_with_args 2 "DeletePinhole" [("UniqueID", uniqueID)] in
      ret (result_code r)
  | None => ret UPNPCOMMAND_INVALID_ARGS
  end.

Definition UPNP_CheckPinholeWorking (uniqueID : option string) (isWorking : option Z) :
    M Sys (Z * option Z) :=
  match uniqueID with
  | Some _ =>
      let! r := call_with_args 4 "CheckPinholeWorking" [("UniqueID", uniqueID)] in
      match r, isWorking with
      | inl e, _ => ret (e, isWorking)
      | inr _, None => fail Undefined
      | inr pdata, Some _ =>
          let p := GetValueFromNameValueList pdata "IsWorking" in
          ret (error_or pdata (success_if p), Some (wrap_s 32 (my_atoui p)))
      end
  | None => ret (UPNPCOMMAND_INVALID_ARGS, isWorking)
  end.

Definition UPNP_GetPinholePackets (uniqueID : option string) (packets : option Z) :
    M Sys (Z * option Z) :=
  match uniqueID with
  | Some _ =>
      let! r := call_with_args 4 "GetPinholePackets" [("UniqueID", uniqueID)] in
      match r with
      | inl e => ret (e, packets)
      | inr pdata =>
          let p := GetValueFromNameValueList pdata "PinholePackets" in
          let! packets := atoui_unchecked packets p in
          ret (error_or pdata (success_if p), packets)
      end
  | None => ret (UPNPCOMMAND_INVALID_ARGS, packets)
  end.
End UpnpCommands.

(** ** [strupnperror] (upnperrors.c) *)
Definition strupnperror (err : Z) : string :=
  if err =? UPNPCOMMAND_SUCCESS then "Success"
  else if err =? UPNPCOMMAND_UNKNOWN_ERROR then "Miniupnpc Unknown Error"
  else if err =? UPNPCOMMAND_INVALID_ARGS then "Miniupnpc Invalid Arguments"
  else if err =? UPNPCOMMAND_INVALID_RESPONSE then "Miniupnpc Invalid response"
  else if err =? UPNPDISCOVER_SOCKET_ERROR then "Miniupnpc Socket error"
  else if err =? UPNPDISCOVER_MEMORY_ERROR then "Miniupnpc Memory allocation error"
  else match err with
       | 401 => "Invalid Action"
       | 402 => "Invalid Args"
       | 501 => "Action Failed"
       | 606 => "Action not authorized"
       | 701 => "PinholeSpaceExhausted"
       | 702 => "FirewallDisabled"
       | 703 => "InboundPinholeNotAllowed"
       | 704 => "NoSuchEntry"
       | 705 => "ProtocolNotSupported"
       | 706 => "InternalPortWildcardingNotAllowed"
       | 707 => "ProtocolWildcardingNotAllowed"
       | 708 => "WildcardNotPermittedInSrcIP"
       | 709 => "NoPacketSent"
       | 713 => "SpecifiedArrayIndexInvalid"
       | 714 => "NoSuchEntryInArray"
       | 715 => "WildCardNotPermittedInSrcIP"
       | 716 => "WildCardNotPermittedInExtPort"
       | 718 => "ConflictInMappingEntry"
       | 724 => "SamePortValuesRequired"
       | 725 => "OnlyPermanentLeasesSupported"
       | 726 => "RemoteHostOnlySupportsWildcard"
       | 727 => "ExternalPortOnlySupportsWildcard"
       | _ => "UnknownError"
       end.

(** ** What the actions make of a reply *)
Section Replies.
Context `{Os} `{Patience} {ML : MallocLaws}.

(** The gateway can be reached, and answers the request of this action with a response
    that holds this document. *)
Definition gateway_replies (url service action : string) (args : list UPNParg) (dc : doc) : Prop :=
  doc_ok dc = true /\
  exists u, reads_url url u /\ Reaches (hostname u) (port u) /\ sendable u service action args = true /\
    forall t fd, 0 <= fd ->
      let req := request u service action args in
      let a := os t (Send fd req) in
      0 < a_ret a /\ responds (t ++ [(Send fd req, a)]) fd dc.

(** The value of the last element of that name. *)
Definition value_in (dc : doc) (name : string) : option string :=
  find_value (reverse (values dc)) name.

Lemma call_action_reply url service action args dc s :
  gateway_replies url service action (default [] args) dc ->
  exists pdata s', call_action (Some url) (Some service) action args s = Ok (Some pdata, s') /\
    (forall name, GetValueFromNameValueList pdata name = value_in dc name).
Proof using ML.
  intros (Hd & u & Hu & HR & Hs & Hr).
  assert (0 < patience)%nat as Hpat.
  { destruct (Hr [] 0 ltac:(done)) as [_ (? & ? & ? & ? & ? & ? & _ & _ & _ & _ & Hp & _)]. lia. }
  destruct (exchange url u service action args dc s Hu HR Hpat Hs) as (prolog & tail & s1 & Hp & E & _);
    [intros; by apply Hr|].
  unfold call_action. erewrite bind_step by exact E. cbn beta iota.
  destruct (ParseNameValue_document prolog dc tail s1 Hp Hd) as (d & s2 & E2 & H1 & _).
  erewrite bind_step by exact E2. eexists _, _. split; [done|].
  intros name. unfold GetValueFromNameValueList. by rewrite H1.
Qed.

Lemma call_with_args_reply n url service action args dc s :
  gateway_replies url service action args dc ->
  exists pdata s', call_with_args (Some url) (Some service) n action args s = Ok (inr pdata, s') /\
    (forall name, GetValueFromNameValueList pdata name = value_in dc name).
Proof using ML.
  intros Hr. unfold call_with_args.
  destruct (malloc_true (n * sizeof_UPNParg) s) as [s1 E]. erewrite bind_step by exact E. cbn [negb].
  destruct (call_action_reply url service action (Some args) dc s1 Hr) as (pdata & s2 & E2 & H1).
  erewrite bind_step by exact E2. by eexists _, _.
Qed.

(** Success, or the gateway's own error code. *)
Definition outcome_of (dc : doc) : Z :=
  match value_in dc "errorCode" with
  | Some p => default UPNPCOMMAND_UNKNOWN_ERROR (scan_d p)
  | None => UPNPCOMMAND_SUCCESS
  end.

(** Adding a mapping tells the truth about the gateway's answer.  The action goes
    out with the eight arguments the standard asks for, defaults filled in; when the
    gateway answers with any well-formed document the result is its [errorCode] if it
    has one and success if it has none.  When one of the four required arguments is
    missing the call fails with nothing sent. *)
Theorem add_port_mapping_result url service extPort inPort inClient desc proto remoteHost lease dc s :
  gateway_replies url service "AddPortMapping"
    (AddPortMappingArgs extPort inPort inClient desc proto remoteHost lease) dc ->
  if bool_decide (None ∈ [extPort; inPort; inClient; proto])
  then UPNP_AddPortMapping (Some url) (Some service) extPort inPort inClient desc proto remoteHost lease s =
       Ok (UPNPCOMMAND_INVALID_ARGS, s)
  else exists s', UPNP_AddPortMapping (Some url) (Some service) extPort inPort inClient desc proto remoteHost lease s =
       Ok (outcome_of dc, s').
Proof using ML.
  intros Hr. case_bool_decide as Hn.
  - unfold UPNP_AddPortMapping. rewrite !elem_of_cons, elem_of_nil in Hn.
    destruct inPort, inClient, proto, extPort; try done. exfalso. naive_solver.
  - rewrite !elem_of_cons in Hn.
    destruct extPort, inPort, inClient, proto; try (exfalso; naive_solver).
    destruct (call_with_args_reply 9 _ _ _ _ _ s Hr) as (pdata & st & E & Hv).
    unfold UPNP_AddPortMapping. erewrite bind_step by exact E. exists st.
    unfold result_code, error_or, outcome_of. by rewrite Hv.
Qed.

(** ** Reading a mapping back *)
Record entry : Type := mkEntry {
  rHost : string;
  extPort : string;
  protocol : string;
  intPort : string;
  intClient : string;
  enabled : string;
  desc : string;
  duration : string
}.
Definition entry_reply (e : entry) : doc :=
  soap (Node (mkName "u" "GetGenericPortMappingEntryResponse")
    [("xmlns:u", "urn:schemas-upnp-org:service:WANIPConnection:1")] ""
    (leaf "NewRemoteHost" (rHost e) (leaf "NewExternalPort" (extPort e)
    (leaf "NewProtocol" (protocol e) (leaf "NewInternalPort" (intPort e)
    (leaf "NewInternalClient" (intClient e) (leaf "NewEnabled" (enabled e)
    (leaf "NewPortMappingDescription" (desc e) (leaf "NewLeaseDuration" (duration e) Empty))))))))
    "" Empty).
(** A text of at most [n] characters an element can hold. *)
Definition text_fits (n : nat) (s : string) : bool :=
  str_all (fun c => text_char c && negb (Ascii.eqb c NUL)) s && (String.length s <=? n)%nat.
Definition entry_fits (e : entry) : bool :=
  text_fits 63 (rHost e) && text_fits 5 (extPort e) && text_fits 3 (protocol e) &&
  text_fits 5 (intPort e) && text_fits 15 (intClient e) && text_fits 3 (enabled e) &&
  text_fits 79 (desc e) && text_fits 15 (duration e).
Definition entry_out (e : entry) : mapping_out :=
  mkOut (Some (extPort e)) (Some (intClient e)) (Some (intPort e)) (Some (protocol e))
    (Some (desc e)) (Some (enabled e)) (Some (rHost e)) (Some (duration e)).
Definition all_given (o : mapping_out) : bool :=
  forallb (fun p => bool_decide (is_Some p))
    [o_extPort o; o_intClient o; o_intPort o; o_protocol o; o_desc o; o_enabled o; o_rHost o;
     o_duration o].

Lemma text_fits_char n s : text_fits n s = true -> str_all text_char s = true.
Proof using.
  intros [Hs _]%andb_prop. eapply str_all_impl; [|exact Hs].
  intros c Hc. by apply andb_prop in Hc as [].
Qed.
Lemma text_fits_c_str n s : text_fits n s = true -> c_str s = s.
Proof using.
  intros [Hs _]%andb_prop. induction s as [|c s IH]; [done|]. simpl in *.
  apply andb_prop in Hs as [[_ Hc]%andb_prop Hs]. apply negb_true_iff in Hc.
  by rewrite Hc, IH.
Qed.
Lemma text_fits_take n m s : text_fits n s = true -> (n <= m)%nat -> str_take m s = s.
Proof using. intros [_ Hl%Nat.leb_le]%andb_prop Hm. apply str_take_all. lia. Qed.
Lemma value_of_fits n name s :
  text_fits n s = true -> (n <= 127)%nat -> c_str (str_take 63 name) = name ->
  value_of (name, s) = (name, s).
Proof using.
  intros Hs Hn Hname. unfold value_of. cbn [fst snd].
  by rewrite Hname, (text_fits_take n), (text_fits_c_str n).
Qed.

Lemma entry_reply_values e :
  entry_fits e = true ->
  values (entry_reply e) =
    [("NewRemoteHost", rHost e); ("NewExternalPort", extPort e); ("NewProtocol", protocol e);
     ("NewInternalPort", intPort e); ("NewInternalClient", intClient e); ("NewEnabled", enabled e);
     ("NewPortMappingDescription", desc e); ("NewLeaseDuration", duration e)].
Proof using.
  unfold entry_fits. rewrite !andb_true_iff. intros [[[[[[[H1 H2] H3] H4] H5] H6] H7] H8].
  unfold values, entry_reply, soap, leaf. cbn [leaves app].
  repeat (rewrite filter_cons_True by reflexivity). rewrite filter_nil. unfold fmap. cbn [map local].
  repeat f_equal; eapply value_of_fits; (eassumption || reflexivity || lia).
Qed.

Lemma entry_reply_ok e : entry_fits e = true -> doc_ok (entry_reply e) = true.
Proof using.
  unfold entry_fits. rewrite !andb_true_iff. intros [[[[[[[H1 H2] H3] H4] H5] H6] H7] H8].
  apply text_fits_char in H1, H2, H3, H4, H5, H6, H7, H8.
  unfold entry_reply, soap, leaf. cbn [doc_ok is_empty negb].
  rewrite H1, H2, H3, H4, H5, H6, H7, H8. reflexivity.
Qed.

(** What the lookup makes of the standard's response, and of a fault. *)
Lemma generic_entry_reply pdata e o :
  entry_fits e = true -> all_given o = true ->
  (forall name, GetValueFromNameValueList pdata name = value_in (entry_reply e) name) ->
  generic_entry pdata (generic_cleared o) = (UPNPCOMMAND_SUCCESS, entry_out e).
Proof using.
  intros Hf Ho Hv. destruct o as [o1 o2 o3 o4 o5 o6 o7 o8].
  destruct o1, o2, o3, o4, o5, o6, o7, o8; try discriminate Ho. clear Ho.
  unfold generic_entry, error_or, value_in in *. rewrite entry_reply_values in Hv by done.
  rewrite !Hv. cbn [reverse rev_append find_value]. unfold entry_fits in Hf.
  rewrite !andb_true_iff in Hf. destruct Hf as [[[[[[[H1 H2] H3] H4] H5] H6] H7] H8].
  unfold entry_out, generic_cleared. cbn. unfold strncpy_term.
  repeat f_equal; eapply text_fits_take; (eassumption || lia).
Qed.

End Replies.

(** ** A gateway *)
Definition fault (code : string) : doc :=
  soap (Node (mkName "s" "Fault") [] ""
    (leaf "faultcode" "s:Client" (Node (mkName "" "detail") [] ""
      (Node (mkName "" "UPnPError") [] "" (leaf "errorCode" code Empty) "" Empty) "" Empty)) "" Empty).
Definition game_entry : entry :=
  mkEntry "" "7001" "UDP" "7001" "192.168.1.20" "1" "game" "3600".
Definition totals : doc :=
  soap (Node (mkName "u" "GetTotalBytesSentResponse") [] "" (leaf "NewTotalBytesSent" "5000000000" Empty) "" Empty).
(** It answers every request with the same document, in packets of 100 bytes. *)
Definition fixed_os (dc : doc) : Os := responder (fun _ _ => http_response dc) 100.
#[local] Instance patience_1500 : Patience := 1500%nat.
Definition demo_url : string := "http://192.168.1.1:80/ctl".
Definition demo_parts : url_parts := mkParts "192.168.1.1" 80 "/ctl".

Lemma fixed_replies dc action args :
  doc_ok dc = true -> sendable demo_parts "urn:x" action args = true ->
  (String.length (http_response dc) <? 1400)%nat = true ->
  @gateway_replies (fixed_os dc) _ demo_url "urn:x" action args dc.
Proof.
  intros Hd Hs Hl%Nat.ltb_lt. split; [done|]. exists demo_parts.
  split; [intros s; eexists; vm_compute; reflexivity|]. split; [apply responder_reaches|]. split; [done|].
  intros t fd _. cbv zeta. unfold fixed_os. rewrite responder_sends. split.
  { unfold request. generalize (envelope "urn:x" action args) as b. intros b. cbv zeta. rewrite slen_app.
    pose proof (slen_nonneg b). assert (0 < slen (soap_headers (path demo_parts) (hostname demo_parts) (port demo_parts)
      (soapact "urn:x" action) (slen b) "1.1")); [|lia].
    unfold soap_headers. rewrite slen_app. change (slen "POST ") with 5.
    match goal with |- _ < _ + slen ?x => pose proof (slen_nonneg x) end. lia. }
  apply http_response_responds; [by apply responder_serves| |].
  - unfold slen. lia.
  - unfold patience, patience_1500. lia.
Qed.

Lemma add_port_mapping_result_witness :
  exists s', @UPNP_AddPortMapping (fixed_os (fault "718")) _ (Some demo_url) (Some "urn:x") (Some "7001")
    (Some "7001") (Some "192.168.1.20") None (Some "UDP") None None sys0 = Ok (718, s').
Proof.
  pose proof (responder_malloc (fun _ _ => http_response (fault "718")) 100) as ML.
  apply (@add_port_mapping_result (fixed_os (fault "718")) _ ML demo_url "urn:x" (Some "7001")
    (Some "7001") (Some "192.168.1.20") None (Some "UDP") None None (fault "718") sys0).
  apply fixed_replies; vm_compute; reflexivity.
Defined.


(** The counters are kept in an [unsigned int]: 5 000 000 000 bytes read as
    705 032 704. *)
Example total_is_truncated :
  exists s', @UPNP_GetTotalBytesSent (fixed_os totals) _ (Some demo_url) (Some "urn:x") sys0 = Ok (705032704, s').
Proof. eexists. vm_compute. reflexivity. Qed.
(** Two codes of the library have no text of their own. *)
Example http_error_has_no_text :
  strupnperror UPNPCOMMAND_HTTP_ERROR = "UnknownError" /\
  strupnperror UPNPCOMMAND_MEM_ALLOC_ERROR = "UnknownError".
Proof. done. Qed.
