(* ===== verification/SocketLeaks.v ===== *)
(** * SocketLeaks

    Every path of a request closes the socket it opened: the connection
    ([connecthostport]), the SOAP action ([simpleUPnPcommand]) and the download
    ([miniwget]). *)
From S2P Require Import Prelude.
From S2P Require Import CStr.
From S2P Require Import CSys.
From S2P Require Import XmlDocument.
From S2P Require Import ParseUrl.
From S2P Require Import UpnpReply.
From S2P Require Import HttpResponse.
From S2P Require Import HttpHeaders.
From S2P Require Import Connect.
From S2P Require Import UpnpCommands.
From S2P Require Import Soap.

Definition opened (s : Sys) : list Z := open_after (trace s) [].
(** [socket] gives a descriptor that is not in use. *)
Class FreshSockets `{Os} : Prop :=
  fresh_socket : forall t family, a_ret (os t (Socket family)) ∉ open_after t [].

Lemma open_after_app t u l : open_after (t ++ u) l = open_after u (open_after t l).
Proof.
  revert l. induction t as [|[c a] t IH]; intros l; [done|]. rewrite <- app_comm_cons.
  destruct c; cbn [open_after]; apply IH.
Qed.

(** Runs that leave the descriptors as they are. *)
Definition neutral {A} (m : M Sys A) : Prop :=
  forall st a st', m st = Ok (a, st') -> opened st' = opened st.
Definition plain_call (c : call) : bool :=
  match c with Socket _ | Close _ => false | _ => true end.

Lemma neutral_ret {A} (a : A) : neutral (ret a).
Proof. intros st b st' E. by msteps. Qed.
Lemma neutral_fail {A} f : neutral (fail f : M Sys A).
Proof. intros st b st' E. by msteps. Qed.
Lemma neutral_bind {A B} (m : M Sys A) (k : A -> M Sys B) :
  neutral m -> (forall a, neutral (k a)) -> neutral (bind m k).
Proof.
  intros Hm Hk st b st' E. apply bind_ok in E as (a & st1 & E1 & E2).
  apply Hm in E1. apply Hk in E2. congruence.
Qed.
Lemma neutral_gets {A} (f : Sys -> A) : neutral (gets f).
Proof. intros st b st' E. by msteps. Qed.
Lemma neutral_set_errno e : neutral (set_errno e).
Proof. intros st b st' E. unfold set_errno in E. by msteps. Qed.
Lemma neutral_lift {A} (o : outcome A) : neutral (lift_out o).
Proof. intros st b st' E. unfold lift_out in E. destruct o; [|done]. by injection E as <- <-. Qed.

Lemma neutral_sys `{Os} c : plain_call c = true -> neutral (sys c).
Proof.
  intros Hc st a st' E. apply sys_ok in E as [_ E]. unfold opened. rewrite E, open_after_app.
  by destruct c.
Qed.
Create HintDb neutral.
#[export] Hint Resolve neutral_ret neutral_fail neutral_gets neutral_set_errno neutral_lift : neutral.
#[export] Hint Extern 1 (neutral (sys _)) => apply neutral_sys; reflexivity : neutral.
Ltac neutral :=
  repeat first
    [ solve [auto with neutral nocore]
    | apply neutral_bind; [|intros]
    | case_match ].

Section Neutral.
Context `{Os} `{Patience}.


Lemma neutral_malloc size : neutral (malloc size).
Proof using. unfold malloc. neutral. Qed.
Lemma neutral_alloc size : neutral (alloc size).
Proof using. unfold alloc. neutral. Qed.
Hint Resolve neutral_malloc neutral_alloc : neutral.
Lemma neutral_realloc old size : neutral (realloc old size).
Proof using. unfold realloc. neutral. Qed.
Hint Resolve neutral_realloc : neutral.

Lemma neutral_poll_loop fuel s t : neutral (poll_loop fuel s t).
Proof using. induction fuel; cbn [poll_loop]; unfold get_errno; neutral. Qed.
Hint Resolve neutral_poll_loop : neutral.
Lemma neutral_receivedata s l t sc : neutral (receivedata s l t sc).
Proof using. unfold receivedata. neutral. Qed.
Hint Resolve neutral_receivedata : neutral.

Lemma neutral_grow_content k st : neutral (grow_content k st).
Proof using. unfold grow_content. neutral. Qed.
Lemma neutral_append_content s st : neutral (append_content s st).
Proof using. unfold append_content. neutral. Qed.
Lemma neutral_grow_header n st : neutral (grow_header n st).
Proof using. unfold grow_header. neutral. Qed.
Hint Resolve neutral_grow_content neutral_append_content neutral_grow_header : neutral.
Lemma neutral_chunk_data s st : neutral (chunk_data s st).
Proof using. unfold chunk_data. neutral. Qed.
Hint Resolve neutral_chunk_data : neutral.
Lemma neutral_chunk_turn s st : neutral (chunk_turn s st).
Proof using. unfold chunk_turn, chunk_size. neutral. Qed.
Hint Resolve neutral_chunk_turn : neutral.
Lemma neutral_chunk_loop fuel s st : neutral (chunk_loop fuel s st).
Proof using. revert s st. induction fuel; intros s st; destruct s; cbn [chunk_loop]; neutral. Qed.
Lemma neutral_plain_content s st : neutral (plain_content s st).
Proof using. unfold plain_content. neutral. Qed.
Hint Resolve neutral_chunk_loop neutral_plain_content : neutral.
Lemma neutral_content s st : neutral (HttpResponse.content s st).
Proof using. unfold HttpResponse.content. neutral. Qed.
Hint Resolve neutral_content : neutral.
Lemma neutral_on_packet b st : neutral (on_packet b st).
Proof using. unfold on_packet, header_block. neutral. Qed.
Hint Resolve neutral_on_packet : neutral.
Lemma neutral_http_loop fuel s st : neutral (http_loop fuel s st).
Proof using. revert st. induction fuel; intros st; cbn [http_loop]; neutral. Qed.
Hint Resolve neutral_http_loop : neutral.
Lemma neutral_getHTTPResponse s sc : neutral (getHTTPResponse s sc).
Proof using. unfold getHTTPResponse. neutral. Qed.

Lemma neutral_parseURL u sc : neutral (parseURL u sc).
Proof using. unfold parseURL, parse_scope. neutral. Qed.
Lemma neutral_soapPostSubmit fd u h p a b v : neutral (soapPostSubmit fd u h p a b v).
Proof using. unfold soapPostSubmit, httpWrite. neutral. Qed.
Lemma neutral_send_all fuel s b : neutral (send_all fuel s b).
Proof using. revert b. induction fuel; intros b; destruct b; cbn [send_all]; neutral. Qed.
Lemma neutral_local_address s a l : neutral (local_address s a l).
Proof using. unfold local_address. neutral. Qed.

(** ** A connection *)
Lemma close_spec fd st a st' : sys (Close fd) st = Ok (a, st') ->
  opened st' = filter (fun x => x <> fd) (opened st).
Proof using. intros E. apply sys_ok in E as [_ E]. unfold opened. by rewrite E, open_after_app. Qed.
Lemma filter_fresh (s : Z) (l : list Z) : s ∉ l -> filter (fun x => x <> s) l = l.
Proof using.
  induction l as [|x l IH]; intros Hs; [done|]. rewrite filter_cons, IH by set_solver.
  destruct (decide (x <> s)); [done|]. exfalso. set_solver.
Qed.
Lemma close_top fd st a st' l : sys (Close fd) st = Ok (a, st') -> opened st = fd :: l -> fd ∉ l ->
  opened st' = l.
Proof using.
  intros E Ho Hf. rewrite (close_spec fd st a st' E), Ho, filter_cons, filter_fresh by done.
  by destruct (decide (fd <> fd)).
Qed.

(** [s] is open on top of [l]; no socket is when it is negative. *)
Definition holding (s : Z) (l : list Z) (st : Sys) : Prop :=
  opened st = (if s <? 0 then l else s :: l) /\ (0 <= s -> s ∉ l).

Lemma wait_connect_spec fuel s n st r st' l :
  wait_connect fuel s n st = Ok (r, st') -> holding s l st -> 0 <= s ->
  match r with Some _ => opened st' = s :: l | None => opened st' = l end.
Proof using.
  intros E [Ho Hs] Hpos. destruct (Z.ltb_spec s 0); [lia|]. specialize (Hs Hpos).
  revert n st Ho E. induction fuel as [|fuel IH]; intros n st Ho E; cbn [wait_connect] in E;
    apply bind_ok in E as (e & st1 & E1 & E); apply neutral_gets in E1;
    (destruct (_ && _); [|msteps; congruence]); [by msteps|].
  apply bind_ok in E as (a & st2 & E2 & E). apply neutral_sys in E2; [|done].
  apply bind_ok in E as (e2 & st3 & E3 & E). apply neutral_gets in E3.
  destruct (_ && _); [eapply IH; [|exact E]; congruence|].
  destruct (a_ret a =? 0).
  { apply bind_ok in E as ([] & st4 & E4 & E). apply neutral_set_errno in E4. msteps. congruence. }
  apply bind_ok in E as (err & st4 & E4 & E). apply neutral_sys in E4; [|done].
  destruct (a_ret err <? 0).
  { apply bind_ok in E as (c & st5 & E5 & E). apply (close_top s _ _ _ l) in E5; [by msteps|congruence|done]. }
  destruct (negb _); [|eapply IH; [|exact E]; congruence].
  apply bind_ok in E as ([] & st5 & E5 & E). apply neutral_set_errno in E5. eapply IH; [|exact E]; congruence.
Qed.

Context {FS : FreshSockets}.

Lemma try_addresses_spec port scope_id ai s n st r st' l :
  try_addresses port scope_id ai s n st = Ok (r, st') -> holding s l st ->
  match r with inl s' => s' = INVALID_SOCKET /\ opened st' = l | inr (s', _) => holding s' l st' end.
Proof using FS.
  revert s n st. induction ai as [|[family addr] ai IH]; intros s n st E Hh; cbn [try_addresses] in E;
    [by msteps|].
  apply bind_ok in E as ([] & st1 & E1 & E).
  assert (opened st1 = l) as Ho1.
  { destruct Hh as [Ho Hs]. destruct (Z.ltb_spec s 0); [msteps; congruence|].
    apply bind_ok in E1 as (a & st2 & E1 & E2). msteps. by apply (close_top s _ _ _ l) in E1; [..|apply Hs]. }
  apply bind_ok in E as (a & st2 & E2 & E). apply sys_ok in E2 as [-> E2].
  pose proof (fresh_socket (trace st1) family) as Hfr. fold (opened st1) in Hfr. rewrite Ho1 in Hfr.
  set (s2 := a_ret (os (trace st1) (Socket family))) in *.
  assert (holding s2 l st2) as Hh2.
  { split; [|done]. unfold opened. rewrite E2, open_after_app. fold (opened st1). rewrite Ho1. done. }
  destruct (Z.ltb_spec s2 0); [by apply (IH s2 n st2)|].
  apply bind_ok in E as (b1 & st3 & E3 & E). apply neutral_sys in E3; [|done].
  apply bind_ok in E as (b2 & st4 & E4 & E). apply neutral_sys in E4; [|done].
  apply bind_ok in E as (c & st5 & E5 & E). apply neutral_sys in E5; [|done].
  assert (holding s2 l st5) as Hh5 by (destruct Hh2; split; [congruence|done]).
  apply bind_ok in E as (w & st6 & E6 & E). pose proof (wait_connect_spec _ _ _ _ _ _ l E6 Hh5 ltac:(done)) as Hw.
  destruct w as [n'|]; [|by msteps].
  assert (holding s2 l st6) as Hh6 by (split; [destruct (Z.ltb_spec s2 0); [lia|done]|done]).
  destruct (0 <=? n'); [by msteps|]. by apply (IH s2 n' st6).
Qed.

Lemma connecthostport_spec host port scope_id st s st' :
  connecthostport host port scope_id st = Ok (s, st') -> holding s (opened st) st'.
Proof using FS.
  intros E. unfold connecthostport in E. apply bind_ok in E as (a & st1 & E1 & E).
  apply neutral_sys in E1; [|done]. destruct (negb _); [msteps; by split|].
  apply bind_ok in E as (r & st2 & E2 & E).
  apply try_addresses_spec with (l := opened st) in E2; [|by split].
  destruct r as [s'|[s' n]].
  - destruct E2 as [-> Ho]. msteps. by split.
  - destruct (Z.ltb_spec s' 0) as [Hn|Hp].
    { destruct E2 as [Ho _]. msteps. destruct (Z.ltb_spec s' 0); [|lia]. by split. }
    destruct E2 as [Ho Hs]. destruct (n <? 0); [|by msteps].
    apply bind_ok in E as (c & st3 & E3 & E). destruct (Z.ltb_spec s' 0); [lia|].
    apply (close_top s' _ _ _ (opened st)) in E3; [|done|by apply Hs]. msteps. by split.
Qed.

(** A run that holds the socket [s], up to the close at its end. *)
Lemma run_and_close {A B} (m : M Sys A) (k : A -> B) s st b st' l :
  neutral m -> opened st = s :: l -> s ∉ l ->
  bind m (fun a => bind (sys (Close s)) (fun _ => ret (k a))) st = Ok (b, st') -> opened st' = l.
Proof using.
  intros Hm Ho Hs E. apply bind_ok in E as (a & st1 & E1 & E). apply Hm in E1.
  apply bind_ok in E as (c & st2 & E2 & E). apply (close_top s _ _ _ l) in E2; [|congruence|done].
  by msteps.
Qed.

Lemma simpleUPnPcommand2_spec url service action args v st r st' :
  simpleUPnPcommand2 (-1) url service action args v st = Ok (r, st') -> opened st' = opened st.
Proof using FS.
  unfold simpleUPnPcommand2. destruct service as [service|]; [|done].
  intros (body & st0 & E0 & E)%bind_ok. apply neutral_lift in E0. rewrite <- E0. clear E0. revert E.
  destruct body as [body|]; [|intros; by msteps].
  intros ([u sc] & st1 & E1 & E)%bind_ok. apply neutral_parseURL in E1.
  destruct u as [u|]; [|by msteps].
  apply bind_ok in E as (s & st2 & E2 & E). cbn [Z.ltb Z.compare] in E2.
  apply connecthostport_spec in E2 as [Ho Hs]. rewrite E1 in Ho, Hs.
  destruct (Z.ltb_spec s 0); [by msteps|]. specialize (Hs ltac:(done)).
  apply bind_ok in E as (n & st3 & E3 & E). apply neutral_soapPostSubmit in E3.
  destruct (n <=? 0).
  - apply (run_and_close (ret tt) (fun _ => None) s st3 r); [apply neutral_ret|congruence|done|done].
  - apply (run_and_close (getHTTPResponse s (Some 0))
      (fun x => match x.1.1 with Some buf => Some (buf, x.1.2) | None => None end) s st3 r);
      [apply neutral_getHTTPResponse|congruence|done|].
    rewrite <- E. apply bind_cong. by intros [[buf size] sc2].
Qed.

Lemma miniwget3_spec host port path addr len v scope_id status st r st' :
  miniwget3 host port path addr len v scope_id status st = Ok (r, st') -> opened st' = opened st.
Proof using FS.
  unfold miniwget3. intros (s & st1 & E1 & E)%bind_ok.
  apply connecthostport_spec in E1 as [Ho Hs]. destruct (Z.ltb_spec s 0); [by msteps|].
  specialize (Hs ltac:(done)). apply bind_ok in E as (a & st2 & E2 & E).
  apply neutral_local_address in E2. destruct (BUF <=? _).
  { apply (run_and_close (ret tt) (fun _ => mkDownload None 0 a status) s st2 r);
      [apply neutral_ret|congruence|done|done]. }
  apply bind_ok in E as (ok & st3 & E3 & E). apply neutral_send_all in E3. destruct (negb ok).
  { apply (run_and_close (ret tt) (fun _ => mkDownload None 0 a status) s st3 r);
      [apply neutral_ret|congruence|done|done]. }
  apply (run_and_close (getHTTPResponse s status) (fun x => mkDownload x.1.1 x.1.2 a x.2) s st3 r);
    [apply neutral_getHTTPResponse|congruence|done|].
  rewrite <- E. apply bind_cong. by intros [[buf size] sc2].
Qed.

(** No request leaks a socket.  Whatever the network and the gateway do, with
    failed connections, refused or interrupted calls, short or broken replies, when an
    action or a download returns exactly the descriptors are open that were open
    before it. *)
Theorem no_socket_leak url service action args addr addrlen scope_id status st :
  (forall r st', simpleUPnPcommand (-1) url service action args st = Ok (r, st') ->
     opened st' = opened st) /\
  (forall r st', miniwget_getaddr url addr addrlen scope_id status st = Ok (r, st') ->
     opened st' = opened st).
Proof using FS.
  split; intros r st' E.
  - by apply simpleUPnPcommand2_spec in E.
  - unfold miniwget_getaddr in E. apply bind_ok in E as ([u sc] & st1 & E1 & E).
    apply neutral_parseURL in E1. destruct u as [u|]; [|by msteps].
    unfold miniwget2 in E. apply miniwget3_spec in E. congruence.
Qed.
End Neutral.
#[export] Hint Resolve neutral_malloc neutral_receivedata neutral_parseURL : neutral.

(** ** A number no open descriptor has *)
Lemma fresh_max (l : list Z) : 1 + foldr Z.max 5 l ∉ l.
Proof.
  assert (forall x, x ∈ l -> x <= foldr Z.max 5 l) as Hmax.
  { induction l as [|y l IH]; intros x; [by rewrite elem_of_nil|]. cbn.
    rewrite elem_of_cons. intros [->|Hx]; [lia|]. specialize (IH x Hx). lia. }
  intros Hin. apply Hmax in Hin. lia.
Qed.
Lemma open_nonneg t l : Forall (Z.le 0) l -> Forall (Z.le 0) (open_after t l).
Proof.
  revert l. induction t as [|[c a] t IH]; intros l Hl; [done|]. destruct c; cbn [open_after]; try by apply IH.
  - apply IH. destruct (Z.ltb_spec (a_ret a) 0); [done|by constructor].
  - apply IH. rewrite !Forall_forall in Hl |- *. intros x [_ Hx]%list_elem_of_filter. by apply Hl.
Qed.

(** ** A gateway that drops the connection while it is being made *)
#[local] Instance dropping_os : Os := fun t c =>
  match c with
  | Malloc _ => mkAnswer 1 0 "" 0 0 0 []
  | Getaddrinfo _ _ => mkAnswer 0 0 "" 0 0 0 [(2, "192.168.1.1")]
  | Socket _ => mkAnswer (1 + foldr Z.max 5 (open_after t [])) 0 "" 0 0 0 []
  | Connect _ _ _ _ => mkAnswer (-1) EINPROGRESS "" 0 0 0 []
  | Select _ _ => mkAnswer 1 0 "" 0 0 0 []
  | GetSockoptError _ => mkAnswer 0 0 "" 0 ECONNREFUSED 0 []
  | _ => answer0
  end.
#[local] Instance dropping_fresh : FreshSockets.
Proof. intros t family. apply fresh_max. Qed.
#[local] Instance patience_10 : Patience := 10%nat.

Lemma no_socket_leak_witness :
  exists st', simpleUPnPcommand (-1) (Some "http://192.168.1.1:5000/ctl") (Some "urn:x") "GetStatusInfo" None sys0 =
    Ok (None, st') /\ opened st' = [] /\ length (trace st') = 8%nat.
Proof.
  destruct (simpleUPnPcommand (-1) (Some "http://192.168.1.1:5000/ctl") (Some "urn:x") "GetStatusInfo" None sys0)
    as [[r st']|] eqn:E; [|vm_compute in E; discriminate E].
  pose proof (proj1 (no_socket_leak (Some "http://192.168.1.1:5000/ctl") (Some "urn:x") "GetStatusInfo" None
    None 0 0 None sys0) r st' E) as Ho.
  exists st'. rewrite Ho. vm_compute in E. injection E as <- <-. split; [|split]; reflexivity.
Defined.
