(* ===== verification/MiniSsdp.v ===== *)
(** * MiniSsdp

    The search for UPnP devices (src/peer/external/miniupnpc-2.1.20190408/minissdpc.c,
    upnpdev.h, codelength.h): the devices a minissdpd daemon knows, read from its Unix
    socket, and the answers to an SSDP search sent to the multicast address.  The POSIX
    branches, with [getaddrinfo] and [struct ip_mreqn]. *)
From S2P Require Import Prelude.
From S2P Require Import CStr.
From S2P Require Import CSys.
From S2P Require Import XmlDocument.
From S2P Require Import UpnpReply.
From S2P Require Import HttpResponse.
From S2P Require Import HttpHeaders.

Definition MINISSDPC_SUCCESS : Z := 0.
Definition MINISSDPC_UNKNOWN_ERROR : Z := -1.
Definition MINISSDPC_SOCKET_ERROR : Z := -101.
Definition MINISSDPC_MEMORY_ERROR : Z := -102.
Definition MINISSDPC_INVALID_INPUT : Z := -103.
Definition MINISSDPC_INVALID_SERVER_REPLY : Z := -104.

(** A device: the block behind its pointers, and where they point.  The chained list is
    a list, its head first. *)
Record UPNPDev : Type := mkDev {
  dev_buffer : string;
  st_at : nat;
  usn_at : nat;
  dev_scope_id : Z
}.
Definition sizeof_UPNPDev : Z := 40.
Definition NULs : string := String NUL EmptyString.
Definition make_dev (url st usn : string) (scope_id : Z) : UPNPDev :=
  mkDev (url +:+ NULs +:+ st +:+ NULs +:+ usn +:+ NULs) (String.length url + 1)
    (String.length url + 1 + String.length st + 1) scope_id.
(** The strings the pointers give. *)
Definition dev_descURL (d : UPNPDev) : string := c_str (dev_buffer d).
Definition dev_st (d : UPNPDev) : string := c_str (str_drop (st_at d) (dev_buffer d)).
Definition dev_usn (d : UPNPDev) : string := c_str (str_drop (usn_at d) (dev_buffer d)).

(** [if (error) *error = e;] *)
Definition set_error (e : Z) (error : option Z) : option Z := option_map (fun _ => e) error.

(** ** Lengths: seven bits a byte, the most significant first *)
Definition low7 (z : Z) : ascii := ascii_of_byte (Z.land z 127).
Definition high_bit (z : Z) : ascii := ascii_of_byte (Z.land (Z.lor z 128) 255).
Definition more (c : bool) (n k : Z) : string :=
  if c then String (high_bit (Z.shiftr n k)) EmptyString else "".
Definition CODELENGTH (n : Z) : string :=
  more (268435456 <=? n) n 28 +:+ more (2097152 <=? n) n 21 +:+ more (16384 <=? n) n 14 +:+
  more (128 <=? n) n 7 +:+ String (low7 n) EmptyString.

Section MiniSsdp.
Context `{Os} `{Patience}.

(** ** The daemon

    What was read and not consumed yet is a string; [None] when [read] gave no more. *)
Definition READ_BUFFER : Z := 256.
Definition refill (s : Z) (rest : string) : M Sys (option string) :=
  match rest with
  | EmptyString =>
      let! a := sys (Recv s READ_BUFFER) in ret (if a_ret a <=? 0 then None else Some (a_data a))
  | _ => ret (Some rest)
  end.
Definition READ_BYTE_BUFFER (s : Z) (rest : string) : M Sys (option (ascii * string)) :=
  let! r := refill s rest in
  match r with
  | Some (String c rest) => ret (Some (c, rest))
  | Some EmptyString => fail Undefined
  | None => ret None
  end.
(** The loop of [DECODELENGTH_READ], [n] so far. *)
Fixpoint DECODELENGTH_READ (fuel : nat) (s n : Z) (rest : string) : M Sys (option (Z * string)) :=
  match fuel with
  | O => fail Undefined
  | Datatypes.S fuel' =>
      let! r := READ_BYTE_BUFFER s rest in
      match r with
      | None => ret None
      | Some (c, rest) =>
          let c := byte_of_ascii c in
          let n := Z.lor (wrap_u 32 (Z.shiftl n 7)) (Z.land c 127) in
          if Z.land c 128 =? 0 then ret (Some (n, rest))
          else if n <? Z.shiftl 1 25 then DECODELENGTH_READ fuel' s n rest
          else ret (Some (n, rest))
      end
  end.
(** [READ_COPY_BUFFER]: [l] bytes, those copied already in [dst]. *)
Fixpoint READ_COPY_BUFFER (fuel : nat) (s l : Z) (dst rest : string) :
    M Sys (option (string * string)) :=
  if l <=? 0 then ret (Some (dst, rest))
  else
    match fuel with
    | O => fail Undefined
    | Datatypes.S fuel' =>
        let! r := refill s rest in
        match r with
        | None => ret None
        | Some rest =>
            let lcopy := Z.min l (slen rest) in
            READ_COPY_BUFFER fuel' s (l - lcopy) (dst +:+ str_take (Z.to_nat lcopy) rest)
              (str_drop (Z.to_nat lcopy) rest)
        end
    end.

Definition AF_UNIX : Z := 1.
Definition DEFAULT_SOCKET : string := "/var/run/minissdpd.sock".
Definition connectToMiniSSDPD (socketpath : option string) : M Sys Z :=
  let! a := sys (Socket AF_UNIX) in
  let s := a_ret a in
  if s <? 0 then ret MINISSDPC_SOCKET_ERROR
  else
    let! _ := sys (Setsockopt s "SO_RCVTIMEO") in
    let! _ := sys (Setsockopt s "SO_SNDTIMEO") in
    let! c := sys (Connect s (str_take 108 (default DEFAULT_SOCKET socketpath)) 0 0) in
    if a_ret c <? 0 then let! _ := sys (Close s) in ret MINISSDPC_SOCKET_ERROR else ret s.

Definition disconnectFromMiniSSDPD (s : Z) : M Sys Z :=
  let! a := sys (Close s) in
  ret (if a_ret a <? 0 then MINISSDPC_SOCKET_ERROR else MINISSDPC_SUCCESS).

Definition requestDevicesFromMiniSSDPD (s : Z) (devtype : string) : M Sys Z :=
  let type := if bool_decide (devtype = "ssdp:all") then 3 else 1 in
  let head := String (ascii_of_byte type) (CODELENGTH (slen devtype)) in
  if 256 <? slen head + slen devtype then ret MINISSDPC_INVALID_INPUT
  else
    let! a := sys (Send s (head +:+ devtype)) in
    ret (if a_ret a <? 0 then MINISSDPC_SOCKET_ERROR else MINISSDPC_SUCCESS).

(** A length and as many bytes in memory of their own; [inr] is the error of a return. *)
Definition read_string (s : Z) (rest : string) : M Sys (string * string + Z) :=
  let! r := DECODELENGTH_READ patience s 0 rest in
  match r with
  | None => ret (inr MINISSDPC_INVALID_SERVER_REPLY)
  | Some (size, rest) =>
      let! ok := malloc size in
      if negb ok then ret (inr MINISSDPC_MEMORY_ERROR)
      else
        let! r := READ_COPY_BUFFER patience s size "" rest in
        match r with
        | None => ret (inr MINISSDPC_INVALID_SERVER_REPLY)
        | Some r => ret (inl r)
        end
  end.
(** One device.  The sizes are unsigned: when they wrap, a terminator is missing. *)
Definition read_device (s : Z) (rest : string) : M Sys (UPNPDev * string + Z) :=
  let! r := read_string s rest in
  match r with
  | inr e => ret (inr e)
  | inl (url, rest) =>
      let! r := read_string s rest in
      match r with
      | inr e => ret (inr e)
      | inl (st, rest) =>
          let! r := DECODELENGTH_READ patience s 0 rest in
          match r with
          | None => ret (inr MINISSDPC_INVALID_SERVER_REPLY)
          | Some (usnsize, rest) =>
              let! ok := malloc (sizeof_UPNPDev + slen url + slen st + usnsize) in
              if negb ok then ret (inr MINISSDPC_MEMORY_ERROR)
              else if 2 ^ 32 <=? slen url + 1 + slen st + 1 + usnsize then fail Undefined
              else
                let! r := READ_COPY_BUFFER patience s usnsize "" rest in
                match r with
                | None => ret (inr MINISSDPC_INVALID_SERVER_REPLY)
                | Some (usn, rest) => ret (inl (make_dev url st usn 0, rest))
                end
          end
      end
  end.
Fixpoint read_devices (ndev : nat) (s : Z) (rest : string) (devlist : list UPNPDev)
    (error : option Z) : M Sys (list UPNPDev * option Z) :=
  match ndev with
  | O => ret (devlist, set_error MINISSDPC_SUCCESS error)
  | Datatypes.S ndev' =>
      let! r := read_device s rest in
      match r with
      | inr e => ret (devlist, set_error e error)
      | inl (d, rest) => read_devices ndev' s rest (d :: devlist) error
      end
  end.
Definition receiveDevicesFromMiniSSDPD (s : Z) (error : option Z) :
    M Sys (list UPNPDev * option Z) :=
  let! a := sys (Recv s READ_BUFFER) in
  if a_ret a <=? 0 then ret ([], set_error MINISSDPC_SOCKET_ERROR error)
  else
    match a_data a with
    | EmptyString => fail Undefined
    | String ndev rest => read_devices (Z.to_nat (byte_of_ascii ndev)) s rest [] error
    end.

Definition getDevicesFromMiniSSDPD (devtype : string) (socketpath : option string)
    (error : option Z) : M Sys (list UPNPDev * option Z) :=
  let! s := connectToMiniSSDPD socketpath in
  if s <? 0 then ret ([], set_error s error)
  else
    let! res := requestDevicesFromMiniSSDPD s devtype in
    let! r := (if res <? 0 then ret ([], set_error res error)
               else receiveDevicesFromMiniSSDPD s error) in
    let! _ := disconnectFromMiniSSDPD s in
    ret r.
End MiniSsdp.

(** ** The answers to a search *)
Record msearch : Type := mkMsearch {
  m_location : option string;
  m_st : option string;
  m_usn : option string
}.
Definition reply_at (reply : string) (i : nat) : outcome ascii :=
  match String.get i reply with Some c => Ok c | None => Err Undefined end.
(** [do { b++; } while(reply[b]==' ');] *)
Fixpoint skip_colon (fuel : nat) (reply : string) (b : nat) : outcome nat :=
  match fuel with
  | O => Err Undefined
  | S fuel' =>
      let b := (b + 1)%nat in
      let? c := reply_at reply b in
      if Ascii.eqb c SP then skip_colon fuel' reply b else Ok b
  end.
(** The header line from [a], whose value is [v].  The comparison ends at the end of the
    line at the latest, as no name holds a line feed. *)
Definition set_header (line v : string) (m : msearch) : msearch :=
  if strncasecmp_eq 9 line "location:" then mkMsearch (Some v) (m_st m) (m_usn m)
  else if strncasecmp_eq 3 line "st:" then mkMsearch (m_location m) (Some v) (m_usn m)
  else if strncasecmp_eq 4 line "usn:" then mkMsearch (m_location m) (m_st m) (Some v)
  else m.
(** The loop at [i], with [s] the bytes from there on. *)
Fixpoint parse_from (reply s : string) (i a b : nat) (m : msearch) : outcome msearch :=
  match s with
  | EmptyString => Ok m
  | String c s' =>
      if Ascii.eqb c ":" then parse_from reply s' (i + 1) a (if (b =? 0)%nat then i else b) m
      else if is_eol c then
        if (b =? 0)%nat then parse_from reply s' (i + 1) (i + 1) 0 m
        else
          let? b := skip_colon (String.length reply) reply b in
          parse_from reply s' (i + 1) (i + 1) 0
            (set_header (str_drop a reply) (str_take (i - b) (str_drop b reply)) m)
      else parse_from reply s' (i + 1) a b m
  end.
Definition parseMSEARCHReply (reply : string) : outcome msearch :=
  parse_from reply reply 0 0 0 (mkMsearch None None None).

(** [memcmp(block, s, strlen(s)) == 0]; the bytes behind the block are not the program's. *)
Fixpoint same_bytes (block s : string) : outcome bool :=
  match s, block with
  | EmptyString, _ => Ok true
  | String _ _, EmptyString => Err Undefined
  | String c s', String d block' => if Ascii.eqb c d then same_bytes block' s' else Ok false
  end.
Definition same_text (block s : string) : outcome bool :=
  let? same := same_bytes block s in
  if negb same then Ok false
  else let? c := reply_at block (String.length s) in Ok (Ascii.eqb c NUL).
Definition same_device (d : UPNPDev) (url st usn : string) : outcome bool :=
  let? u := same_text (dev_buffer d) url in
  if negb u then Ok false
  else
    let? t := same_text (str_drop (st_at d) (dev_buffer d)) st in
    if negb t then Ok false else same_text (str_drop (usn_at d) (dev_buffer d)) usn.
Fixpoint known_device (devlist : list UPNPDev) (url st usn : string) : outcome bool :=
  match devlist with
  | [] => Ok false
  | d :: devlist' =>
      let? same := same_device d url st usn in
      if same then Ok true else known_device devlist' url st usn
  end.
Definition SSDP_PORT : Z := 1900.
Definition UPNP_MCAST_ADDR : string := "239.255.255.250".
Definition UPNP_MCAST_LL_ADDR : string := "FF02::C".
Definition UPNP_MCAST_SL_ADDR : string := "FF05::C".
Definition UPNP_LOCAL_PORT_SAME : Z := 1.
Definition bufr_size : Z := 1536.

Definition mcast_addr (ipv6 linklocal : bool) : string :=
  if ipv6 then if linklocal then UPNP_MCAST_LL_ADDR else UPNP_MCAST_SL_ADDR else UPNP_MCAST_ADDR.
Definition msearch_request (ipv6 linklocal : bool) (devtype : string) (mx : Z) : string :=
  let host := mcast_addr ipv6 linklocal in
  "M-SEARCH * HTTP/1.1" +:+ CRLF +:+
  "HOST: " +:+ (if ipv6 then "[" +:+ host +:+ "]" else host) +:+ ":" +:+ dec SSDP_PORT +:+ CRLF +:+
  "ST: " +:+ devtype +:+ CRLF +:+
  "MAN: " +:+ String XmlDocument.quote ("ssdp:discover" +:+ String XmlDocument.quote CRLF) +:+
  "MX: " +:+ dec mx +:+ CRLF +:+ CRLF.

Section Ssdp.
Context `{Os} `{Patience}.

(** What a search has so far: the devices, [scope_id] and [*error]. *)
Record search : Type := mkSearch {
  devlist : list UPNPDev;
  scope_id : Z;
  s_error : option Z
}.
Definition fails_with (e : Z) (st : search) : search :=
  mkSearch (devlist st) (scope_id st) (set_error e (s_error st)).

(** A reply of the buffer: [true] is a jump to the end of the search. *)
Definition on_reply (reply : string) (st : search) : M Sys (bool * search) :=
  let! m := lift_out (parseMSEARCHReply reply) in
  match m_st m, m_location m with
  | Some t, Some url =>
      let usn := default "" (m_usn m) in
      let! known := lift_out (known_device (devlist st) url t usn) in
      if known then ret (false, st)
      else
        let! ok := malloc (sizeof_UPNPDev + slen url + slen t + slen usn) in
        if negb ok then ret (true, fails_with MINISSDPC_MEMORY_ERROR st)
        else ret (false, mkSearch (make_dev url t usn (scope_id st) :: devlist st) (scope_id st) (s_error st))
  | _, _ => ret (false, st)
  end.
(** [do { ... } while(n > 0);] *)
Fixpoint receive_replies (fuel : nat) (sudp delay : Z) (searchalltypes : bool) (st : search) :
    M Sys (bool * search) :=
  match fuel with
  | O => fail Undefined
  | S fuel' =>
      let! (n, reply, scope) := receivedata sudp bufr_size delay (Some (scope_id st)) in
      let st := mkSearch (devlist st) (default 0 scope) (s_error st) in
      if n <? 0 then ret (true, fails_with MINISSDPC_SOCKET_ERROR st)
      else if n =? 0 then
        match devlist st with
        | [] => ret (false, st)
        | _ => if searchalltypes then ret (false, st) else ret (true, fails_with MINISSDPC_SUCCESS st)
        end
      else
        let! (stop, st) := on_reply reply st in
        if stop then ret (true, st) else receive_replies fuel' sudp delay searchalltypes st
  end.

(** The loop over the addresses.  [n] is overwritten by the result of [sendto]: after a
    failure the next call is given a length of [(size_t)-1]. *)
Fixpoint send_search (sudp : Z) (bufr : string) (n : Z) (addrs : list (Z * string)) (sentok : bool) :
    M Sys bool :=
  match addrs with
  | [] => ret sentok
  | (_, addr) :: addrs' =>
      if n <? 0 then fail Undefined
      else
        let! a := sys (Sendto sudp (str_take (Z.to_nat n) bufr) addr) in
        send_search sudp bufr (a_ret a) addrs' (sentok || (0 <=? a_ret a))
  end.

(** One turn of the loop over the types. *)
Definition search_type (sudp delay mx : Z) (ipv6 linklocal searchalltypes last : bool)
    (devtype : string) (st : search) : M Sys (bool * search) :=
  let bufr := msearch_request ipv6 linklocal devtype mx in
  if bufr_size <=? slen bufr then ret (true, fails_with MINISSDPC_MEMORY_ERROR st)
  else
    let! r := sys (Getaddrinfo (mcast_addr ipv6 linklocal) (dec SSDP_PORT)) in
    if negb (a_ret r =? 0) then ret (true, fails_with MINISSDPC_SOCKET_ERROR st)
    else
      let! sentok := send_search sudp bufr (slen bufr) (a_list r) false in
      let st := if sentok then st else fails_with MINISSDPC_SOCKET_ERROR st in
      if (sentok && negb searchalltypes) || last
      then receive_replies patience sudp delay searchalltypes st
      else ret (false, st).
(** The loop; an IPv6 search sends to the link-local and then to the site-local address. *)
Fixpoint search_types (sudp delay mx : Z) (ipv6 searchalltypes : bool) (deviceTypes : list string)
    (st : search) : M Sys search :=
  match deviceTypes with
  | [] => ret st
  | t :: deviceTypes' =>
      let last := bool_decide (deviceTypes' = []) in
      let! (stop, st) := search_type sudp delay mx ipv6 true searchalltypes last t st in
      if stop then ret st
      else
        let! (stop, st) :=
          (if ipv6 then search_type sudp delay mx ipv6 false searchalltypes last t st
           else ret (false, st)) in
        if stop then ret st
        else search_types sudp delay mx ipv6 searchalltypes deviceTypes' st
  end.

(** The interface to send on, and the address to receive at. *)
Definition INADDR_NONE : Z := 4294967295.
Definition set_interface (sudp : Z) (multicastif : option string) (ipv6 : bool) : M Sys string :=
  match multicastif with
  | None => ret ""
  | Some i =>
      if ipv6 then
        let! _ := sys (IfNametoindex i) in
        let! _ := sys (Setsockopt sudp "IPV6_MULTICAST_IF") in ret ""
      else
        let! a := sys (InetAddr i) in
        if negb (a_num1 a =? INADDR_NONE) then
          let! _ := sys (Setsockopt sudp "IP_MULTICAST_IF") in ret i
        else
          let! _ := sys (IfNametoindex i) in
          let! _ := sys (Setsockopt sudp "IP_MULTICAST_IF") in ret ""
  end.

Definition ssdpDiscoverDevices (deviceTypes : list string) (delay : Z) (multicastif : option string)
    (localport : Z) (ipv6 : bool) (error : option Z) (searchalltypes : bool) :
    M Sys (list UPNPDev * option Z) :=
  let error := set_error MINISSDPC_UNKNOWN_ERROR error in
  let localport := if localport =? UPNP_LOCAL_PORT_SAME then SSDP_PORT else localport in
  let! a := sys (Socket (if ipv6 then AF_INET6 else 2)) in
  let sudp := a_ret a in
  if sudp <? 0 then ret ([], set_error MINISSDPC_SOCKET_ERROR error)
  else
    let! o := sys (Setsockopt sudp "SO_REUSEADDR") in
    if a_ret o <? 0 then
      let! _ := sys (Close sudp) in ret ([], set_error MINISSDPC_SOCKET_ERROR error)
    else
      let! _ := sys (Setsockopt sudp (if ipv6 then "IPV6_MULTICAST_HOPS" else "IP_MULTICAST_TTL")) in
      let! addr := set_interface sudp multicastif ipv6 in
      let port := if (0 <? localport) && (localport <? 65536) then localport else 0 in
      let! b := sys (Bind sudp port addr) in
      if negb (a_ret b =? 0) then
        let! _ := sys (Close sudp) in ret ([], set_error MINISSDPC_SOCKET_ERROR error)
      else
        let mx := wrap_u 32 delay / 1000 in
        let '(mx, delay) := if mx =? 0 then (1, 1000) else (mx, delay) in
        let! st := search_types sudp delay mx ipv6 searchalltypes deviceTypes
                     (mkSearch [] 0 (set_error MINISSDPC_SUCCESS error)) in
        let! _ := sys (Close sudp) in
        ret (devlist st, s_error st).
End Ssdp.
