(* ===== verification/SsdpReplies.v ===== *)
(** * SsdpReplies

    What a search makes of the answers: [parseMSEARCHReply] on a reply made of header
    lines, and the devices kept, which are all different. *)
From S2P Require Import Prelude.
From S2P Require Import CStr.
From S2P Require Import CSys.
From S2P Require Import XmlDocument.
From S2P Require Import UpnpReply.
From S2P Require Import ParserKeeps.
From S2P Require Import HttpResponse.
From S2P Require Import HttpHeaders.
From S2P Require Import MiniSsdp.

(** ** A reply in lines *)
Inductive reply_line : Type :=
  | Plain (text : string)
  | Header (name : string) (blanks : nat) (value : string).
Fixpoint spaces (n : nat) : string := match n with O => "" | S n' => String SP (spaces n') end.
Definition print_line (l : reply_line) : string :=
  match l with
  | Plain t => t +:+ CRLF
  | Header n k v => n +:+ String ":" (spaces k +:+ v +:+ CRLF)
  end.
Definition plain_char (c : ascii) : bool := negb (Ascii.eqb c ":") && negb (is_eol c).
Definition value_char (c : ascii) : bool := negb (is_eol c).
Definition no_blank (s : string) : bool :=
  match s with String c _ => negb (Ascii.eqb c SP) | EmptyString => true end.
Definition line_ok (l : reply_line) : bool :=
  match l with
  | Plain t => str_all plain_char t
  | Header n _ v =>
      negb (bool_decide (n = "")) && str_all plain_char n && str_all value_char v && no_blank v
  end.
(** What a line says: the names are those of the protocol in any case of letters. *)
Fixpoint lower (s : string) : string :=
  match s with String c s' => String (to_lower c) (lower s') | EmptyString => "" end.
Definition apply_line (m : msearch) (l : reply_line) : msearch :=
  match l with
  | Plain _ => m
  | Header n _ v =>
      if bool_decide (lower n = "location") then mkMsearch (Some v) (m_st m) (m_usn m)
      else if bool_decide (lower n = "st") then mkMsearch (m_location m) (Some v) (m_usn m)
      else if bool_decide (lower n = "usn") then mkMsearch (m_location m) (m_st m) (Some v)
      else m
  end.

(** ** Names *)
Lemma to_lower_colon c : to_lower c = ":"%char -> c = ":"%char.
Proof. destruct c as [[] [] [] [] [] [] [] []]; vm_compute; congruence. Qed.
Definition literal_char (c : ascii) : bool :=
  Ascii.eqb (to_lower c) c && negb (Ascii.eqb c ":") && negb (Ascii.eqb c NUL).
Lemma name_match n h t : str_all plain_char n = true -> str_all literal_char h = true ->
  strncasecmp_eq (S (String.length h)) (n +:+ String ":" t) (h +:+ ":") = bool_decide (lower n = h).
Proof.
  revert n. induction h as [|y h IH]; intros [|c n] Hn Hh; rewrite ?nil_app_str, ?app_cons;
    cbn [String.length strncasecmp_eq lower str_all] in *.
  - by rewrite bool_decide_true.
  - apply andb_prop in Hn as [Hc Hn]. unfold plain_char in Hc. rewrite bool_decide_false by done.
    destruct (Ascii.eqb_spec (to_lower c) (to_lower ":")) as [E|]; [|done].
    change (to_lower ":") with ":"%char in E. apply to_lower_colon in E as ->. done.
  - apply andb_prop in Hh as [[[Hy Hc]%andb_prop _]%andb_prop _]. apply Ascii.eqb_eq in Hy.
    rewrite bool_decide_false, Hy by done. change (to_lower ":") with ":"%char.
    rewrite Ascii.eqb_sym. apply negb_true_iff in Hc. by rewrite Hc.
  - apply andb_prop in Hn as [_ Hn], Hh as [[[Hy _]%andb_prop Hz]%andb_prop Hh]. apply Ascii.eqb_eq in Hy.
    rewrite IH, Hy by done. destruct (Ascii.eqb_spec (to_lower c) y) as [<-|Hne]; cbn [andb].
    + apply negb_true_iff in Hz. assert (Ascii.eqb c NUL = false) as ->.
      { destruct (Ascii.eqb_spec c NUL) as [->|]; [discriminate Hz|done]. }
      cbn [orb]. apply bool_decide_ext. split; congruence.
    + symmetry. apply bool_decide_false. congruence.
Qed.

Lemma set_header_line n t v m : str_all plain_char n = true ->
  set_header (n +:+ String ":" t) v m = apply_line m (Header n 0 v).
Proof.
  intros Hn. unfold set_header, apply_line.
  rewrite (name_match n "location" t Hn eq_refl : strncasecmp_eq 9 _ "location:" = _).
  rewrite (name_match n "st" t Hn eq_refl : strncasecmp_eq 3 _ "st:" = _).
  by rewrite (name_match n "usn" t Hn eq_refl : strncasecmp_eq 4 _ "usn:" = _).
Qed.

(** ** Lines *)
Lemma parse_plain reply s t i a b m : str_all plain_char s = true ->
  parse_from reply (s +:+ t) i a b m = parse_from reply t (i + String.length s) a b m.
Proof.
  revert i. induction s as [|c s IH]; intros i Hs; [by rewrite nil_app_str, Nat.add_0_r|].
  cbn [str_all] in Hs. apply andb_prop in Hs as [[Hc He]%andb_prop Hs].
  apply negb_true_iff in Hc, He. rewrite app_cons. cbn [parse_from String.length].
  rewrite Hc, He, IH by done. f_equal. lia.
Qed.
Lemma parse_value reply s t i a b m : str_all value_char s = true -> b <> 0%nat ->
  parse_from reply (s +:+ t) i a b m = parse_from reply t (i + String.length s) a b m.
Proof.
  intros Hs Hb. revert i Hs. induction s as [|c s IH]; intros i Hs; [by rewrite nil_app_str, Nat.add_0_r|].
  cbn [str_all] in Hs. apply andb_prop in Hs as [He Hs]. apply negb_true_iff in He.
  rewrite app_cons. cbn [parse_from String.length]. destruct (Nat.eqb_spec b 0); [done|].
  rewrite He. destruct (Ascii.eqb c ":"); rewrite IH by done; f_equal; lia.
Qed.
Lemma reply_at_app p c t : reply_at (p +:+ String c t) (String.length p) = Ok c.
Proof. unfold reply_at. induction p as [|d p IH]; [done|]. by rewrite app_cons. Qed.
Lemma skip_colon_spec fuel p c k d t : Ascii.eqb d SP = false -> (k < fuel)%nat ->
  skip_colon fuel (p +:+ String c (spaces k +:+ String d t)) (String.length p) =
  Ok (String.length p + 1 + k)%nat.
Proof.
  intros Hd. revert p c k. induction fuel as [|fuel IH]; intros p c k Hk; [lia|]. cbn [skip_colon].
  assert (forall s, p +:+ String c s = (p +:+ String c "") +:+ s) as E by
    (intros s; rewrite str_app_assoc, app_cons; by rewrite nil_app_str).
  assert (String.length (p +:+ String c "") = (String.length p + 1)%nat) as El by
    (rewrite length_app_str; done).
  rewrite (E (spaces k +:+ String d t)), <- El. destruct k as [|k]; cbn [spaces].
  - rewrite nil_app_str, reply_at_app. cbn [obind]. rewrite Hd. f_equal. lia.
  - rewrite app_cons, reply_at_app. cbn [obind]. change (Ascii.eqb SP SP) with true. cbn [Ascii.eqb].
    rewrite IH by lia. f_equal. lia.
Qed.
Lemma length_spaces k : String.length (spaces k) = k.
Proof. induction k; cbn; lia. Qed.
Lemma spaces_value k : str_all value_char (spaces k) = true.
Proof. by induction k. Qed.
Lemma value_head v t : no_blank v = true -> exists d u, v +:+ CRLF +:+ t = String d u /\ Ascii.eqb d SP = false.
Proof.
  destruct v as [|c v]; intros Hv.
  - exists CR, (String LF t). by split.
  - exists c, (v +:+ CRLF +:+ t). rewrite app_cons. split; [done|]. by apply negb_true_iff.
Qed.
Lemma parse_crlf reply t i a m :
  parse_from reply (CRLF +:+ t) i a 0 m = parse_from reply t (i + 2) (i + 2) 0 m.
Proof.
  unfold CRLF. rewrite !app_cons, nil_app_str. cbn [parse_from]. change (is_eol CR) with true.
  change (is_eol LF) with true. cbn. f_equal; lia.
Qed.

(** The value of a header line, found from its colon at [length p]. *)
Lemma header_value p k v t : no_blank v = true ->
  let reply := p +:+ String ":" (spaces k +:+ v +:+ CRLF +:+ t) in
  let b := (String.length p + 1 + k)%nat in
  skip_colon (String.length reply) reply (String.length p) = Ok b /\
  str_take (b + String.length v - b) (str_drop b reply) = v.
Proof.
  intros Hv. cbv zeta. split.
  - destruct (value_head v t Hv) as (d & u & -> & Hd). apply skip_colon_spec; [done|].
    rewrite !length_app_str. cbn [String.length]. rewrite !length_app_str, length_spaces. cbn. lia.
  - replace (_ + String.length v - _)%nat with (String.length v) by lia.
    replace (p +:+ _) with ((p +:+ String ":" (spaces k)) +:+ v +:+ CRLF +:+ t).
    + rewrite str_drop_app'; [apply str_take_app|]. rewrite !length_app_str. cbn [String.length].
      rewrite length_spaces. lia.
    + repeat (rewrite str_app_assoc || rewrite app_cons). done.
Qed.

Lemma parse_line l p t m : line_ok l = true ->
  let reply := p +:+ print_line l +:+ t in
  parse_from reply (print_line l +:+ t) (String.length p) (String.length p) 0 m =
  let i := (String.length p + String.length (print_line l))%nat in
  parse_from reply t i i 0 (apply_line m l).
Proof.
  intros Hl. cbv zeta. destruct l as [s|n k v]; cbn [print_line apply_line line_ok] in *.
  - rewrite (str_app_assoc s), parse_plain, parse_crlf by done.
    rewrite length_app_str. f_equal; unfold CRLF; cbn [String.length]; lia.
  - apply andb_prop in Hl as [[[Hne Hn]%andb_prop Hv]%andb_prop Hb]. apply negb_true_iff, bool_decide_eq_false in Hne.
    assert (String.length n <> 0%nat) as Hn0 by (by destruct n).
    assert (print_line (Header n k v) +:+ t = n +:+ String ":" (spaces k +:+ v +:+ CRLF +:+ t)) as El
      by (cbn [print_line]; repeat (rewrite str_app_assoc || rewrite app_cons); done).
    cbn [print_line] in El. rewrite El. set (reply := p +:+ _).
    rewrite parse_plain by done. cbn [parse_from]. change (Ascii.eqb ":" ":") with true. cbn [Nat.eqb].
    rewrite parse_value, parse_value; [|done|lia|apply spaces_value|lia]. rewrite length_spaces.
    unfold CRLF at 1. rewrite !app_cons, nil_app_str. cbn [parse_from].
    change (Ascii.eqb CR ":") with false. change (is_eol CR) with true.
    destruct (Nat.eqb_spec (String.length p + String.length n) 0) as [|_]; [lia|].
    destruct (header_value (p +:+ n) k v t Hb) as [Hs Ht]. rewrite str_app_assoc in Hs, Ht. fold reply in Hs, Ht.
    rewrite length_app_str in Hs, Ht. rewrite Hs. cbn [obind].
    replace (_ + String.length v)%nat with (String.length p + String.length n + 1 + k + String.length v)%nat by lia.
    rewrite Ht, (str_drop_app p _ : str_drop _ reply = _), set_header_line by done.
    change (Ascii.eqb LF ":") with false. change (is_eol LF) with true. cbn [Nat.eqb].
    f_equal; rewrite length_app_str; cbn [String.length]; rewrite !length_app_str, length_spaces; unfold CRLF;
      cbn [String.length]; lia.
Qed.

Definition print_reply (ls : list reply_line) : string := join (map print_line ls).
Lemma parse_lines ls p m : forallb line_ok ls = true ->
  parse_from (p +:+ print_reply ls) (print_reply ls) (String.length p) (String.length p) 0 m =
  Ok (foldl apply_line m ls).
Proof.
  revert p m. induction ls as [|l ls IH]; intros p m Hl; [done|]. cbn [forallb] in Hl.
  apply andb_prop in Hl as [Hl Hls]. change (print_reply (l :: ls)) with (print_line l +:+ print_reply ls).
  rewrite (parse_line l p (print_reply ls) m Hl). cbv zeta. rewrite <- length_app_str, <- str_app_assoc.
  by apply IH.
Qed.

(** C38: An answer to a search is read correctly and within its bounds.  From a reply made of
    lines, where header names come in any case of letters and values after any number of
    blanks and may hold colons, the parser takes the last [location], [st] and [usn], skips
    every other header and the status line, and reads no byte that was not received. *)
Theorem msearch_reply_parsed ls : forallb line_ok ls = true ->
  parseMSEARCHReply (print_reply ls) = Ok (foldl apply_line (mkMsearch None None None) ls).
Proof. intros Hl. by apply (parse_lines ls ""). Qed.

Definition router_reply : list reply_line :=
  [Plain "HTTP/1.1 200 OK"; Header "CACHE-CONTROL" 1 "max-age=1800";
   Header "Location" 2 "http://192.168.1.1:5000/rootDesc.xml"; Header "EXT" 0 "";
   Header "St" 1 "upnp:rootdevice"; Header "USN" 1 "uuid:7::upnp:rootdevice"; Plain ""].
Lemma msearch_reply_parsed_witness :
  parseMSEARCHReply (print_reply router_reply) =
  Ok (mkMsearch (Some "http://192.168.1.1:5000/rootDesc.xml") (Some "upnp:rootdevice")
        (Some "uuid:7::upnp:rootdevice")).
Proof.
  rewrite (msearch_reply_parsed router_reply); [|vm_compute; reflexivity]. vm_compute. reflexivity.
Defined.

(** ** The devices kept *)
Definition text (s : string) : bool := str_all (fun c => negb (Ascii.eqb c NUL)) s.
(** Location, type and name of a device, as C reads them. *)
Definition dev_names (d : UPNPDev) : string * string * string := (dev_descURL d, dev_st d, dev_usn d).
(** The device an answer names. *)
Definition names_of (reply : string) : option (string * string * string) :=
  match parseMSEARCHReply reply with
  | Ok m => match m_st m, m_location m with
            | Some t, Some url => Some (url, t, default "" (m_usn m))
            | _, _ => None
            end
  | Err _ => None
  end.
(** The devices named by the answers that came in, in their order. *)
Definition announced_by (x : call * Answer) : list (string * string * string) :=
  match x.1 with
  | Recv _ _ => if 0 <? a_ret x.2 then option_list (names_of (a_data x.2)) else []
  | _ => []
  end.
Definition announced (s : Sys) : list (string * string * string) := flat_map announced_by (trace s).

Lemma same_bytes_app s t : same_bytes (s +:+ t) s = Ok true.
Proof. induction s as [|c s IH]; [by destruct t|]. rewrite app_cons. cbn. by rewrite Ascii.eqb_refl. Qed.
Lemma same_text_app s t : same_text (s +:+ NULs +:+ t) s = Ok true.
Proof.
  unfold same_text. rewrite same_bytes_app. cbn [obind negb]. unfold NULs. rewrite app_cons.
  by rewrite reply_at_app.
Qed.
Lemma same_text_eq s s' t : text s = true -> text s' = true ->
  same_text (s' +:+ NULs +:+ t) s = Ok true -> s = s'.
Proof.
  revert s'. induction s as [|c s IH]; intros s' Hs Hs' E.
  - destruct s' as [|d s']; [done|]. rewrite app_cons in E. cbn in E.
    cbn [text str_all] in Hs'. apply andb_prop in Hs' as [Hd _]. apply negb_true_iff in Hd.
    unfold reply_at in E. cbn in E. rewrite Hd in E. done.
  - cbn [text str_all] in Hs. apply andb_prop in Hs as [Hc Hs]. apply negb_true_iff in Hc.
    destruct s' as [|d s'].
    + unfold same_text, NULs in E. rewrite nil_app_str, app_cons in E. cbn [same_bytes] in E.
      by rewrite Hc in E.
    + cbn [text str_all] in Hs'. apply andb_prop in Hs' as [_ Hs']. unfold same_text in *.
      rewrite app_cons in E. cbn [same_bytes] in E. destruct (Ascii.eqb_spec c d) as [->|]; [|done].
      f_equal. apply IH; [done..|]. exact E.
Qed.
Lemma c_str_NUL s t : text s = true -> c_str (s +:+ NULs +:+ t) = s.
Proof.
  induction s as [|c s IH]; [done|]. cbn [text str_all]. intros [Hc Hs]%andb_prop. apply negb_true_iff in Hc.
  rewrite app_cons. cbn [c_str]. by rewrite Hc, IH.
Qed.

(** The block of a device from its second and third string on. *)
Lemma dev_from_st url t usn : str_drop (String.length url + 1) (url +:+ NULs +:+ t +:+ NULs +:+ usn +:+ NULs) =
  t +:+ NULs +:+ usn +:+ NULs.
Proof. rewrite <- (str_app_assoc url). apply str_drop_app'. by rewrite length_app_str. Qed.
Lemma dev_from_usn url t usn :
  str_drop (String.length url + 1 + String.length t + 1) (url +:+ NULs +:+ t +:+ NULs +:+ usn +:+ NULs) =
  usn +:+ NULs +:+ "".
Proof.
  rewrite str_app_nil_r.
  replace (url +:+ _) with ((url +:+ NULs +:+ t +:+ NULs) +:+ usn +:+ NULs) by (by rewrite !str_app_assoc).
  apply str_drop_app'. rewrite !length_app_str. cbn. lia.
Qed.
Definition made (d : UPNPDev) : Prop :=
  exists url t usn scope, d = make_dev url t usn scope /\ text url = true /\ text t = true /\ text usn = true.
Lemma made_names url t usn sc : text url = true -> text t = true -> text usn = true ->
  dev_names (make_dev url t usn sc) = (url, t, usn).
Proof.
  intros H1 H2 H3. unfold dev_names, dev_descURL, dev_st, dev_usn, make_dev. cbn [dev_buffer st_at usn_at].
  rewrite dev_from_st, dev_from_usn, !c_str_NUL by done. done.
Qed.
(** The test for a device that is known compares the three texts. *)
Lemma same_device_names d url t usn b : made d -> text url = true -> text t = true -> text usn = true ->
  same_device d url t usn = Ok b -> b = bool_decide ((url, t, usn) = dev_names d).
Proof.
  intros (url' & t' & usn' & sc & -> & H1 & H2 & H3) Hu Ht Hn. rewrite made_names by done.
  unfold same_device, make_dev. cbn [dev_buffer st_at usn_at]. rewrite dev_from_st, dev_from_usn.
  destruct (same_text (url' +:+ _) url) as [[]|] eqn:E1; cbn [obind negb]; [| |done].
  2:{ intros [= <-]. symmetry. apply bool_decide_false. intros [= -> -> ->]. by rewrite same_text_app in E1. }
  apply same_text_eq in E1 as <-; [|done..].
  destruct (same_text (t' +:+ _) t) as [[]|] eqn:E2; cbn [obind negb]; [| |done].
  2:{ intros [= <-]. symmetry. apply bool_decide_false. intros [= -> ->]. by rewrite same_text_app in E2. }
  apply same_text_eq in E2 as <-; [|done..].
  destruct b; intros E3.
  - apply same_text_eq in E3 as <-; [|done..]. symmetry. by apply bool_decide_true.
  - symmetry. apply bool_decide_false. intros [= ->]. by rewrite same_text_app in E3.
Qed.
Lemma known_device_names l url t usn b : Forall made l -> text url = true -> text t = true -> text usn = true ->
  known_device l url t usn = Ok b -> b = bool_decide ((url, t, usn) ∈ map dev_names l).
Proof.
  intros Hl Hu Ht Hn. induction Hl as [|d l Hd Hl IH]; cbn [known_device map].
  { intros [= <-]. symmetry. apply bool_decide_false. by intros ?%elem_of_nil. }
  destruct (same_device d url t usn) as [c|] eqn:Ed; [|done]. cbn [obind].
  apply same_device_names in Ed; [|done..]. subst c.
  destruct (bool_decide_reflect ((url, t, usn) = dev_names d)) as [Hc|Hc].
  - intros [= <-]. symmetry. apply bool_decide_true. rewrite Hc. by left.
  - intros E. rewrite (IH E). apply bool_decide_ext. rewrite elem_of_cons. tauto.
Qed.

(** A value is a piece of its answer. *)
Lemma text_take n s : text s = true -> text (str_take n s) = true.
Proof.
  revert s. induction n as [|n IH]; [done|]. intros [|c s]; [done|]. cbn [str_take text str_all].
  intros [-> Hs]%andb_prop. by apply IH.
Qed.
Lemma text_drop n s : text s = true -> text (str_drop n s) = true.
Proof.
  revert s. induction n as [|n IH]; [done|]. intros [|c s]; [done|]. cbn [str_drop text str_all].
  intros [_ Hs]%andb_prop. by apply IH.
Qed.
Definition text_fields (m : msearch) : Prop :=
  text (default "" (m_location m)) = true /\ text (default "" (m_st m)) = true /\
  text (default "" (m_usn m)) = true.
Lemma parse_from_text reply s i a b m m' : text reply = true ->
  parse_from reply s i a b m = Ok m' -> text_fields m -> text_fields m'.
Proof.
  intros Hr. revert i a b m. induction s as [|c s IH]; intros i a b m E Hm; cbn [parse_from] in E; [congruence|].
  destruct (Ascii.eqb c ":"); [by eapply IH|]. destruct (is_eol c); [|by eapply IH].
  destruct (b =? 0)%nat; [by eapply IH|].
  destruct (skip_colon _ _ _) as [b'|]; [|done]. cbn [obind] in E. eapply IH; [exact E|].
  set (v := str_take _ _) in *. assert (text v = true) as Hv by (by apply text_take, text_drop).
  destruct Hm as (H1 & H2 & H3). unfold set_header.
  repeat match goal with |- context [if ?c then _ else _] => destruct c end; by repeat split.
Qed.
Lemma names_of_text reply url t usn : text reply = true -> names_of reply = Some (url, t, usn) ->
  text url = true /\ text t = true /\ text usn = true.
Proof.
  intros Hr. unfold names_of. destruct (parseMSEARCHReply reply) as [m|] eqn:E; [|done].
  assert (text_fields m) as (H1 & H2 & H3) by (by eapply parse_from_text; [exact Hr|exact E|]).
  destruct (m_st m), (m_location m); try done. intros [= <- <- <-]. done.
Qed.

(** The devices so far are those announced, once each. *)
Definition collects (l : list UPNPDev) (names : list (string * string * string)) : Prop :=
  Forall made l /\ NoDup (map dev_names l) /\ forall x, x ∈ map dev_names l <-> x ∈ names.

Section Collected.
Context `{Os} `{Patience} {ML : MallocLaws}.
(** The answers are text. *)
Class TextAnswers : Prop := {
  answers_text : forall t fd len, text (a_data (os t (Recv fd len))) = true
}.
Context {TA : TextAnswers}.

Lemma announced_sys c s a s' : sys c s = Ok (a, s') ->
  a = os (trace s) c /\ announced s' = announced s ++ announced_by (c, a).
Proof using.
  intros [-> E]%sys_ok. split; [done|]. unfold announced. rewrite E, flat_map_app. cbn [flat_map].
  by rewrite app_nil_r.
Qed.
Lemma leaves_call c : (forall a, announced_by (c, a) = []) -> leaves announced (sys c).
Proof using. intros Hc s a s' [_ ->]%announced_sys. by rewrite Hc, app_nil_r. Qed.
Lemma leaves_poll fuel fd timeout : leaves announced (poll_loop fuel fd timeout).
Proof using.
  induction fuel as [|fuel IH]; cbn [poll_loop]; intros s a s' E; [done|].
  apply bind_ok in E as (p & s1 & E1 & E). apply leaves_call in E1; [|done].
  apply bind_ok in E as (e & s2 & E2 & E). assert (s2 = s1) as -> by (unfold get_errno, gets in E2; by injection E2).
  destruct (_ && _); [apply IH in E; congruence|]. injection E as _ <-. done.
Qed.
Lemma leaves_send_search fd b n addrs ok : leaves announced (send_search fd b n addrs ok).
Proof using.
  revert n ok. induction addrs as [|[f a] addrs IH]; intros n ok s r s' E; cbn [send_search] in E; [by injection E as _ <-|].
  destruct (n <? 0); [done|]. apply bind_ok in E as (x & s1 & E1 & E). apply leaves_call in E1; [|done].
  apply IH in E. congruence.
Qed.
Lemma leaves_set_interface fd m v6 : leaves announced (set_interface fd m v6).
Proof using.
  unfold set_interface. destruct m as [i|]; [|apply leaves_ret].
  destruct v6; repeat first [apply leaves_ret | apply leaves_bind; [by apply leaves_call|intros] | case_match].
Qed.

(** One wait: nothing, or an answer. *)
Lemma receivedata_announced fd len timeout scope s n reply scope' s' :
  receivedata fd len timeout scope s = Ok ((n, reply, scope'), s') ->
  text reply = true /\ announced s' = announced s ++ (if 0 <? n then option_list (names_of reply) else []).
Proof using TA.
  unfold receivedata. intros (p & s1 & E1 & E)%bind_ok. apply leaves_poll in E1.
  destruct (p <? 0); [injection E as <- <- <- <-; by rewrite app_nil_r|].
  destruct (p =? 0); [injection E as <- <- <- <-; by rewrite app_nil_r|].
  apply bind_ok in E as (a & s2 & [-> E2]%announced_sys & E). set (a := os (trace s1) (Recv fd len)) in *.
  injection E as <- <- <- <-. rewrite E2, E1. unfold announced_by. cbn [fst snd]. split.
  - destruct (a_ret a <? 0); [done|]. apply answers_text.
  - destruct (Z.ltb_spec 0 (a_ret a)), (Z.ltb_spec (a_ret a) 0); (done || lia).
Qed.
Lemma on_reply_collects reply st s stop st' s' names :
  on_reply reply st s = Ok ((stop, st'), s') -> text reply = true -> collects (devlist st) names ->
  stop = false /\ announced s' = announced s /\ collects (devlist st') (names ++ option_list (names_of reply)).
Proof using ML.
  unfold on_reply, names_of. intros (m & s1 & E1 & E)%bind_ok Ht (Hm & Hnd & Hc).
  unfold lift_out in E1. destruct (parseMSEARCHReply reply) as [m'|] eqn:Ep; [|done]. injection E1 as -> <-.
  pose proof (names_of_text reply) as Hn. unfold names_of in Hn. rewrite Ep in Hn.
  destruct (m_st m) as [t|], (m_location m) as [url|];
    [|injection E as <- <- <-; unfold option_list; by rewrite app_nil_r..].
  destruct (Hn url t (default "" (m_usn m)) Ht eq_refl) as (H1 & H2 & H3). clear Hn.
  change (option_list (Some (url, t, default "" (m_usn m)))) with [(url, t, default "" (m_usn m))].
  set (usn := default "" (m_usn m)) in *.
  apply bind_ok in E as (known & s2 & E2 & E). unfold lift_out in E2.
  destruct (known_device (devlist st) url t usn) as [b|] eqn:Ek; [|done]. injection E2 as -> <-.
  apply known_device_names in Ek; [|done..]. subst known. case_bool_decide as Hk.
  - injection E as <- <- <-. split; [done|]. split; [done|]. split; [done|]. split; [done|].
    intros x. rewrite elem_of_app, list_elem_of_singleton, <- Hc. naive_solver.
  - destruct (malloc_true (sizeof_UPNPDev + slen url + slen t + slen usn) s) as [s3 E3].
    rewrite (bind_step _ _ _ _ _ E3) in E. cbn [negb] in E. injection E as <- <- <-. cbn [devlist].
    split; [done|]. split.
    { unfold malloc, sys, bind, ret in E3. injection E3 as _ <-. unfold announced. cbn [trace].
      rewrite flat_map_app. cbn. by rewrite app_nil_r. }
    split; [constructor; [by exists url, t, usn, (scope_id st)|done]|].
    cbn [map]. rewrite made_names by done. split; [by apply NoDup_cons|].
    intros x. rewrite elem_of_cons, elem_of_app, list_elem_of_singleton, <- Hc. tauto.
Qed.

(** What a search that began with [a0] announced has so far is what was announced since. *)
Definition gathered (a0 : list (string * string * string)) (st : search) (s : Sys) : Prop :=
  exists names, announced s = a0 ++ names /\ collects (devlist st) names.
Lemma gathered_same a0 st s st' s' :
  announced s' = announced s -> devlist st' = devlist st -> gathered a0 st s -> gathered a0 st' s'.
Proof using. intros Ea El (names & E & Hc). exists names. by rewrite Ea, El. Qed.
Lemma receive_replies_gathers a0 fuel fd delay all st s stop st' s' :
  receive_replies fuel fd delay all st s = Ok ((stop, st'), s') -> gathered a0 st s -> gathered a0 st' s'.
Proof using ML TA.
  revert st s. induction fuel as [|fuel IH]; intros st s E Hg; [done|]. cbn [receive_replies] in E.
  apply bind_ok in E as ([[n reply] scope] & s1 & E1 & E).
  apply receivedata_announced in E1 as [Ht Ea].
  set (st1 := mkSearch (devlist st) (default 0 scope) (s_error st)) in *.
  destruct (Z.ltb_spec 0 n) as [Hn|Hn].
  - destruct (Z.ltb_spec n 0); [lia|]. destruct (Z.eqb_spec n 0); [lia|].
    apply bind_ok in E as ([b st2] & s2 & E2 & E). destruct Hg as (names & En & Hc).
    apply (on_reply_collects _ _ _ _ _ _ names) in E2 as (-> & Ea2 & Hc2); [|done..].
    eapply IH; [exact E|]. exists (names ++ option_list (names_of reply)).
    by rewrite Ea2, Ea, En, app_assoc.
  - rewrite app_nil_r in Ea. apply (gathered_same a0 st s); [| |done].
    + destruct (Z.ltb_spec n 0); [injection E as _ _ <-; done|]. destruct (Z.eqb_spec n 0); [|lia].
      destruct (devlist st1); [|destruct all]; injection E as _ _ <-; done.
    + destruct (Z.ltb_spec n 0); [injection E as _ <- _; done|]. destruct (Z.eqb_spec n 0); [|lia].
      destruct (devlist st1); [|destruct all]; injection E as _ <- _; done.
Qed.
Lemma search_type_gathers a0 sudp delay mx ipv6 ll all last t st s stop st' s' :
  search_type sudp delay mx ipv6 ll all last t st s = Ok ((stop, st'), s') -> gathered a0 st s -> gathered a0 st' s'.
Proof using ML TA.
  unfold search_type. intros E Hg. destruct (_ <=? _).
  { injection E as _ <- <-. by apply (gathered_same a0 st s). }
  apply bind_ok in E as (r & s1 & E1 & E). apply leaves_call in E1; [|done]. destruct (negb _).
  { injection E as _ <- <-. by apply (gathered_same a0 st s). }
  apply bind_ok in E as (ok & s2 & E2 & E). apply leaves_send_search in E2.
  assert (gathered a0 (if ok then st else fails_with MINISSDPC_SOCKET_ERROR st) s2) as Hg2.
  { apply (gathered_same a0 st s); [congruence|by destruct ok|done]. }
  destruct (_ || _); [by eapply receive_replies_gathers|]. injection E as _ <- <-. done.
Qed.
Lemma search_types_gathers a0 sudp delay mx ipv6 all ts st s st' s' :
  search_types sudp delay mx ipv6 all ts st s = Ok (st', s') -> gathered a0 st s -> gathered a0 st' s'.
Proof using ML TA.
  revert st s. induction ts as [|t ts IH]; intros st s E Hg; cbn [search_types] in E; [by injection E as <- <-|].
  apply bind_ok in E as ([b st1] & s1 & E1 & E). eapply search_type_gathers in E1; [|exact Hg].
  destruct b; [by injection E as <- <-|]. apply bind_ok in E as ([b st2] & s2 & E2 & E).
  assert (gathered a0 st2 s2) as Hg2.
  { destruct ipv6; [by eapply search_type_gathers in E2|]. injection E2 as _ <- <-. done. }
  destruct b; [by injection E as <- <-|]. by apply IH in E.
Qed.

(** C39: A search finds every device once.  When memory lasts and the answers hold no zero
    byte, the devices a search returns are exactly those that the answers it received name
    (with a location, a type and perhaps a name), however often and in whatever order
    the answers come; and no two of them have the same location, type and name. *)
Theorem ssdp_no_duplicates types delay multicastif localport ipv6 error all s l e s' :
  ssdpDiscoverDevices types delay multicastif localport ipv6 error all s = Ok ((l, e), s') ->
  NoDup (map dev_names l) /\
  exists found, announced s' = announced s ++ found /\ forall x, x ∈ map dev_names l <-> x ∈ found.
Proof using ML TA.
  assert (forall s1, announced s1 = announced s -> NoDup (map dev_names []) /\
    exists found, announced s1 = announced s ++ found /\ forall x, x ∈ map dev_names [] <-> x ∈ found) as Hnone.
  { intros s1 E1. split; [constructor|]. exists []. by rewrite app_nil_r. }
  unfold ssdpDiscoverDevices. intros (a & s1 & E1 & E)%bind_ok. apply leaves_call in E1; [|done].
  destruct (_ <? 0); [injection E as <- _ <-; by apply Hnone|].
  apply bind_ok in E as (o & s2 & E2 & E). apply leaves_call in E2; [|done]. destruct (_ <? 0).
  { apply bind_ok in E as (? & s3 & E3 & E). apply leaves_call in E3; [|done].
    injection E as <- _ <-. apply Hnone. congruence. }
  apply bind_ok in E as (? & s3 & E3 & E). apply leaves_call in E3; [|done].
  apply bind_ok in E as (addr & s4 & E4 & E). apply leaves_set_interface in E4.
  apply bind_ok in E as (b & s5 & E5 & E). apply leaves_call in E5; [|done]. destruct (negb _).
  { apply bind_ok in E as (? & s6 & E6 & E). apply leaves_call in E6; [|done].
    injection E as <- _ <-. apply Hnone. congruence. }
  destruct (if _ =? 0 then _ else _) as [mx d]. apply bind_ok in E as (st & s6 & E6 & E).
  apply bind_ok in E as (? & s7 & E7 & E). apply leaves_call in E7; [|done]. injection E as <- _ <-.
  eapply (search_types_gathers (announced s)) in E6 as (found & Ef & _ & Hnd & Hc).
  - split; [done|]. exists found. split; [congruence|done].
  - exists []. rewrite app_nil_r. split; [congruence|]. split; [constructor|]. split; [constructor|done].
Qed.
End Collected.

(** ** A router that answers twice, and another device *)
Definition replies : list string :=
  [print_reply router_reply; print_reply router_reply;
   print_reply [Plain "HTTP/1.1 200 OK"; Header "LOCATION" 1 "http://192.168.1.7/desc";
                Header "ST" 1 "upnp:rootdevice"; Plain ""]].
Definition received_before (t : list (call * Answer)) : nat :=
  length (List.filter (fun e => match e.1 with Recv _ _ => true | _ => false end) t).
#[local] Instance search_os : Os := fun t c =>
  match c with
  | Malloc _ | Socket _ => mkAnswer 5 0 "" 0 0 0 []
  | Getaddrinfo h _ => mkAnswer 0 0 "" 0 0 0 [(2, h)]
  | Sendto _ data _ => mkAnswer (slen data) 0 "" 0 0 0 []
  | Poll _ _ => mkAnswer (if (received_before t <? 3)%nat then 1 else 0) 0 "" 0 0 0 []
  | Recv _ _ => let data := nth (received_before t) replies "" in
                mkAnswer (slen data) 0 data 0 2 0 []
  | _ => answer0
  end.
#[local] Instance search_malloc : MallocLaws.
Proof. split. done. Qed.
#[local] Instance search_text : TextAnswers.
Proof.
  split. intros t fd len. unfold os, search_os. cbv zeta. cbn [a_data].
  generalize (received_before t) as n. intros [|[|[|n]]]; [vm_compute; reflexivity..|]. by destruct n.
Qed.
#[local] Instance patience_8 : Patience := 8%nat.
Definition demo_search : outcome (list UPNPDev * option Z * Sys) :=
  ssdpDiscoverDevices ["upnp:rootdevice"] 1000 None 0 false (Some 0) false sys0.
Lemma ssdp_no_duplicates_witness :
  match demo_search with
  | Ok (l, e, s) => NoDup (map dev_names l) /\ (forall x, x ∈ map dev_names l <-> x ∈ announced s) /\
      e = Some 0 /\ length (announced s) = 3%nat /\
      map dev_descURL l = ["http://192.168.1.7/desc"; "http://192.168.1.1:5000/rootDesc.xml"]
  | Err _ => False
  end.
Proof.
  destruct demo_search as [[[l e] s]|f] eqn:E; [unfold demo_search in E|vm_compute in E; discriminate].
  destruct (ssdp_no_duplicates _ _ _ _ _ _ _ _ _ _ _ E) as (Hnd & found & Ef & Hf).
  split; [exact Hnd|]. split; [by rewrite Ef|]. clear -E.
  vm_compute in E. injection E as <- <- <-. vm_compute. done.
Defined.
