(* ===== verification/MiniUpnp.v ===== *)
(** * MiniUpnp

    Finding the Internet gateway (src/peer/external/miniupnpc-2.1.20190408/miniupnpc.c):
    the discovery of devices, the absolute URLs of a description's services, and
    [UPNP_GetValidIGD], which downloads the descriptions and picks a gateway. *)
From S2P Require Import Prelude.
From S2P Require Import CStr.
From S2P Require Import CSys.
From S2P Require Import IgdDesc.
From S2P Require Import UpnpCommands.
From S2P Require Import HttpResponse.
From S2P Require Import Connect.
From S2P Require Import Soap.
From S2P Require Import MiniSsdp.

Definition UPNPDISCOVER_SUCCESS : Z := 0.
Definition UPNPDISCOVER_UNKNOWN_ERROR : Z := -1.

(** A private address. *)
Definition is_rfc1918addr (addr : string) : bool :=
  if COMPARE addr "192.168." then true
  else if COMPARE addr "10." then true
  else if COMPARE addr "172." then
    let i := atoi (str_drop 4 addr) in (16 <=? i) && (i <=? 31)
  else false.

(** The URLs of the services; [None] is a null pointer. *)
Record UPNPUrls : Type := mkUrls {
  controlURL : option string;
  ipcondescURL : option string;
  controlURL_CIF : option string;
  controlURL_6FC : option string;
  rootdescURL : option string
}.
Definition no_urls : UPNPUrls := mkUrls None None None None None.

Section MiniUpnp.
Context `{Os} `{Patience}.

(** ** Discovery *)
Definition is_rootdevice (d : UPNPDev) : bool := bool_decide (is_Some (strstr (dev_st d) "rootdevice")).
(** The head is looked at, and all others but the last. *)
Definition only_rootdevice (l : list UPNPDev) : bool :=
  match l with [] => true | d :: _ => is_rootdevice d && forallb is_rootdevice (removelast l) end.
Fixpoint ask_minissdpd (deviceTypes : list string) (minissdpdsock : string) (searchalltypes : bool)
    (devlist : list UPNPDev) : M Sys (list UPNPDev) :=
  match deviceTypes with
  | [] => ret devlist
  | t :: deviceTypes' =>
      let! (l, _) := getDevicesFromMiniSSDPD t (Some minissdpdsock) None in
      match l with
      | [] => ask_minissdpd deviceTypes' minissdpdsock searchalltypes devlist
      | _ =>
          let devlist := l ++ devlist in
          if negb searchalltypes && negb (only_rootdevice l) then ret devlist
          else ask_minissdpd deviceTypes' minissdpdsock searchalltypes devlist
      end
  end.
Definition upnpDiscoverDevices (deviceTypes : list string) (delay : Z)
    (multicastif minissdpdsock : option string) (localport : Z) (ipv6 : bool) (error : option Z)
    (searchalltypes : bool) : M Sys (list UPNPDev * option Z) :=
  let error := set_error UPNPDISCOVER_UNKNOWN_ERROR error in
  let minissdpdsock := default DEFAULT_SOCKET minissdpdsock in
  let! devlist :=
    (if bool_decide (minissdpdsock = "") then ret []
     else ask_minissdpd deviceTypes minissdpdsock searchalltypes []) in
  if existsb (fun d => negb (is_rootdevice d)) devlist
  then ret (devlist, set_error UPNPDISCOVER_SUCCESS error)
  else
    let! (discovered, error) :=
      ssdpDiscoverDevices deviceTypes delay multicastif localport ipv6 error searchalltypes in
    ret (devlist ++ discovered, error).

Definition gateway_types : list string :=
  ["urn:schemas-upnp-org:device:InternetGatewayDevice:1";
   "urn:schemas-upnp-org:service:WANIPConnection:1";
   "urn:schemas-upnp-org:service:WANPPPConnection:1"; "upnp:rootdevice"].
Definition upnpDiscover (delay : Z) (multicastif minissdpdsock : option string) (localport : Z)
    (ipv6 : bool) (error : option Z) : M Sys (list UPNPDev * option Z) :=
  upnpDiscoverDevices gateway_types delay multicastif minissdpdsock localport ipv6 error false.
Definition upnpDiscoverAll (delay : Z) (multicastif minissdpdsock : option string) (localport : Z)
    (ipv6 : bool) (error : option Z) : M Sys (list UPNPDev * option Z) :=
  upnpDiscoverDevices ["ssdp:all"] delay multicastif minissdpdsock localport ipv6 error false.
Definition upnpDiscoverDevice (device : string) (delay : Z) (multicastif minissdpdsock : option string)
    (localport : Z) (ipv6 : bool) (error : option Z) : M Sys (list UPNPDev * option Z) :=
  upnpDiscoverDevices [device] delay multicastif minissdpdsock localport ipv6 error false.

(** ** URLs *)
Definition strdup (s : string) : M Sys (option string) :=
  let! ok := malloc (slen s + 1) in ret (if ok then Some s else None).
(** The scheme and host of a URL. *)
Definition host_part (base : string) : string :=
  if (7 <? String.length base)%nat then
    match index_of "/" (str_drop 7 base) with
    | Some i => str_take (7 + i) base
    | None => base
    end
  else base.
(** The scope of a link-local address goes in front of its bracket.  The name is not set when
    [if_indextoname] failed. *)
Definition insert_scope (s : string) (ifname : option string) : outcome string :=
  if starts_with "http://[fe80:" s then
    match index_of "]" s with
    | None => Ok s
    | Some p =>
        match ifname with
        | None => Err Undefined
        | Some i => Ok (str_take p s +:+ "%25" +:+ i +:+ str_drop p s)
        end
    end
  else Ok s.
(** The copy of [url] may run over its end, within its struct; the string ends before. *)
Definition build_absolute_url (baseurl descURL url : string) (scope_id : Z) : M Sys (option string) :=
  if starts_with "http://" url then strdup url
  else
    let base := host_part (if bool_decide (baseurl = "") then descURL else baseurl) in
    let slash := if starts_with "/" url then "" else "/" in
    let! ifname :=
      (if scope_id =? 0 then ret None
       else
         let! a := sys (IfIndextoname scope_id) in
         ret (if a_ret a =? 0 then None else Some (c_str (a_data a)))) in
    let l := slen base + slen url + 1 + slen slash +
             match ifname with Some i => 3 + slen i | None => 0 end in
    let! ok := malloc l in
    if negb ok then ret None
    else
      let! s := (if scope_id =? 0 then ret base else lift_out (insert_scope base ifname)) in
      ret (Some (s +:+ slash +:+ url)).

Definition GetUPNPUrls (data : IGDdatas) (descURL : string) (scope_id : Z) : M Sys UPNPUrls :=
  let! root := strdup descURL in
  let! ipcon := build_absolute_url (urlbase data) descURL (scpdurl (first data)) scope_id in
  let! ctl := build_absolute_url (urlbase data) descURL (controlurl (first data)) scope_id in
  let! cif := build_absolute_url (urlbase data) descURL (controlurl (CIF data)) scope_id in
  let! fc := build_absolute_url (urlbase data) descURL (controlurl (IPv6FC data)) scope_id in
  ret (mkUrls ctl ipcon cif fc root).
Definition FreeUPNPUrls (urls : UPNPUrls) : UPNPUrls := no_urls.

(** ** The gateway *)
Definition UPNPIGD_IsConnected (urls : UPNPUrls) (data : IGDdatas) : M Sys bool :=
  let! (_, (status, _, _)) :=
    UPNP_GetStatusInfo (controlURL urls) (Some (servicetype (first data))) (Some "") (Some 0) None in
  ret (bool_decide (status = Some "Connected") || bool_decide (status = Some "Up")).

(** A description: its text and size, and whether it is a gateway's. *)
Record xml_desc : Type := mkDesc { xml : option (string * Z); is_igd : bool }.
Definition sizeof_xml_desc : Z := 16.
Definition describes_igd (data : IGDdatas) : bool :=
  COMPARE (servicetype (CIF data)) WANCommonInterfaceConfig.

(** Step 1 for one device; [lan] is what was stored in [lanaddr]. *)
Definition download_desc (dev : UPNPDev) (has_lanaddr : bool) (lanaddrlen : Z) (lan : option string) :
    M Sys (xml_desc * option string) :=
  let! d := miniwget_getaddr (Some (dev_descURL dev)) (Some "") 40 (dev_scope_id dev) (Some (-1)) in
  match Soap.content d with
  | None => ret (mkDesc None false, lan)
  | Some text =>
      let! data := lift_out (parserootdesc text (Soap.size d) IGD_zero) in
      let igd := describes_igd data in
      ret (mkDesc (Some (text, Soap.size d)) igd,
           if igd && has_lanaddr
           then Some (str_take (Z.to_nat lanaddrlen) (default "" (addr_str d))) else lan)
  end.
Fixpoint download_all (devlist : list UPNPDev) (has_lanaddr : bool) (lanaddrlen : Z)
    (lan : option string) : M Sys (list (UPNPDev * xml_desc) * option string) :=
  match devlist with
  | [] => ret ([], lan)
  | dev :: devlist' =>
      let! (d, lan) := download_desc dev has_lanaddr lanaddrlen lan in
      let! (l, lan) := download_all devlist' has_lanaddr lanaddrlen lan in
      ret ((dev, d) :: l, lan)
  end.

(** [UPNP_GetExternalIPAddress]'s result and the address. *)
Definition external_ip (urls : UPNPUrls) (data : IGDdatas) : M Sys (Z * string) :=
  let! (r, ip) :=
    UPNP_GetExternalIPAddress (controlURL urls) (Some (servicetype (first data))) (Some "") in
  ret (r, default "" ip).
Definition swap_services (data : IGDdatas) : IGDdatas :=
  mkIGD (cureltname data) (urlbase data) (presentationurl data) (level data) (CIF data)
    (second data) (first data) (IPv6FC data) (first data).

(** State 1: the device is connected; [Some] is the jump out.  In the first test the jump is
    not part of the [if] on the address. *)
Definition try_connected (dev : UPNPDev) (data : IGDdatas) (urls : UPNPUrls) :
    M Sys (option (UPNPUrls * IGDdatas)) :=
  let! c := UPNPIGD_IsConnected urls data in
  let! (r, _) := (if c then external_ip urls data else ret (-1, "")) in
  if r =? 0 then ret (Some (urls, data))
  else if bool_decide (servicetype (second data) = "") then ret None
  else
    let data := swap_services data in
    let! urls := GetUPNPUrls data (dev_descURL dev) (dev_scope_id dev) in
    let! c := UPNPIGD_IsConnected urls data in
    let! (r, ip) := (if c then external_ip urls data else ret (-1, "")) in
    if (r =? 0) && negb (is_rfc1918addr ip) && negb (bool_decide (ip = "")) &&
       negb (bool_decide (ip = "0.0.0.0"))
    then ret (Some (urls, data)) else ret None.
(** One device in one state. *)
Definition try_device (state : Z) (dev : UPNPDev) (desc : xml_desc) :
    M Sys (option (UPNPUrls * IGDdatas)) :=
  match xml desc with
  | None => ret None
  | Some (text, size) =>
      let! data := lift_out (parserootdesc text size IGD_zero) in
      if is_igd desc || (3 <=? state) then
        let! urls := GetUPNPUrls data (dev_descURL dev) (dev_scope_id dev) in
        if 2 <=? state then ret (Some (urls, data)) else try_connected dev data urls
      else ret None
  end.
Fixpoint try_devices (state : Z) (l : list (UPNPDev * xml_desc)) :
    M Sys (option (UPNPUrls * IGDdatas)) :=
  match l with
  | [] => ret None
  | (dev, desc) :: l' =>
      let! r := try_device state dev desc in
      match r with Some r => ret (Some r) | None => try_devices state l' end
  end.
(** The states from [state] on: the one a device was found in, 0 for none. *)
Fixpoint try_states (states : list Z) (l : list (UPNPDev * xml_desc)) :
    M Sys (Z * option (UPNPUrls * IGDdatas)) :=
  match states with
  | [] => ret (0, None)
  | state :: states' =>
      let! r := try_devices state l in
      match r with Some r => ret (state, Some r) | None => try_states states' l end
  end.

(** The result: the state, the URLs and the data (cleared when a description was read and
    no device found), and what was stored in [lanaddr]. *)
Definition UPNP_GetValidIGD (devlist : list UPNPDev) (urls : UPNPUrls) (data : IGDdatas)
    (has_lanaddr : bool) (lanaddrlen : Z) : M Sys (Z * UPNPUrls * IGDdatas * option string) :=
  match devlist with
  | [] => ret (0, urls, data, None)
  | _ =>
      let! ok := malloc (Z.of_nat (length devlist) * sizeof_xml_desc) in
      if negb ok then ret (-1, urls, data, None)
      else
        let! (l, lan) := download_all devlist has_lanaddr lanaddrlen None in
        let! (state, found) := try_states [1; 2; 3] l in
        ret match found with
            | Some (urls, data) => (state, urls, data, lan)
            | None =>
                if existsb (fun e => bool_decide (is_Some (xml e.2))) l
                then (state, no_urls, IGD_zero, lan) else (state, urls, data, lan)
            end
  end.

Definition UPNP_GetIGDFromUrl (rootdescurl : string) (urls : UPNPUrls) (data : IGDdatas)
    (lanaddr : option string) (lanaddrlen : Z) :
    M Sys (bool * UPNPUrls * IGDdatas * option string) :=
  let! d := miniwget_getaddr (Some rootdescurl) lanaddr lanaddrlen 0 None in
  match Soap.content d with
  | None => ret (false, urls, data, addr_str d)
  | Some text =>
      let! data := lift_out (parserootdesc text (Soap.size d) IGD_zero) in
      let! urls := GetUPNPUrls data rootdescurl 0 in
      ret (true, urls, data, addr_str d)
  end.
End MiniUpnp.
