(* ===== verification/PortMapping.v ===== *)
(** * PortMapping

    [wga::PortMappingHandler] (src/peer/src/base/PortMappingHandler.cpp and .hpp): the
    ports of the game are opened at the gateway through miniupnpc. *)
From S2P Require Import Prelude.
From S2P Require Import CStr.
From S2P Require Import CSys.
From S2P Require Import IgdDesc.
From S2P Require Import UpnpCommands.
From S2P Require Import MiniSsdp.
From S2P Require Import MiniUpnp.

(** [std::stoi]: it throws without a number, and when the number is no [int]. *)
Definition stoi (s : string) : outcome Z :=
  match strtol s with
  | None => Err RuntimeError
  | Some n => if in_s 32 n then Ok n else Err OutOfRange
  end.

Section PortMapping.
Context `{Os} `{Patience}.

(** A null [upnpDevice] is the empty list. *)
Record PortMappingHandler : Type := mkPortMapping {
  mappedExternalPorts : list Z;
  upnpDevice : list UPNPDev;
  lanAddress : string;
  wanAddress : string;
  upnp_urls : option UPNPUrls;
  upnp_data : option IGDdatas
}.

(** The constructor.  Both address arrays are on the stack and not set before the calls. *)
Definition PortMappingHandler_init (DISABLE_PORT_MAPPING : bool) : M Sys PortMappingHandler :=
  if DISABLE_PORT_MAPPING then ret (mkPortMapping [] [] "" "" None None)
  else
    let! (devices, error) := upnpDiscover 1000 None None 0 false (Some 0) in
    if negb (default 0 error =? 0) then fail LogFatal
    else
      match devices with
      | [] => ret (mkPortMapping [] [] "" "" None (Some IGD_zero))
      | _ =>
          let! (status, urls, data, lan) := UPNP_GetValidIGD devices no_urls IGD_zero true 4096 in
          match lan with
          | None => fail Undefined
          | Some lanAddress =>
              if negb (status =? 1) then ret (mkPortMapping [] [] lanAddress "" None (Some data))
              else
                let! (r, wan) :=
                  UPNP_GetExternalIPAddress (controlURL urls) (Some (servicetype (first data))) (Some "") in
                if negb (r =? 0) then ret (mkPortMapping [] [] lanAddress "" None (Some data))
                else
                  ret (mkPortMapping [] devices lanAddress (default "" wan) (Some urls) (Some data))
          end
      end.

(** [upnp_urls->controlURL], [upnp_data->first.servicetype] *)
Definition control (h : PortMappingHandler) : M Sys (option string * option string) :=
  match upnp_urls h, upnp_data h with
  | Some urls, Some data => ret (controlURL urls, Some (servicetype (first data)))
  | _, _ => fail Undefined
  end.

Definition unmapPort (sourcePort : Z) (h : PortMappingHandler) : M Sys unit :=
  match upnpDevice h with
  | [] => ret tt
  | _ =>
      let! (url, service) := control h in
      let! _ := UPNP_DeletePortMapping url service (Some (dec sourcePort)) (Some "UDP") None in
      let! _ := UPNP_DeletePortMapping url service (Some (dec sourcePort)) (Some "TCP") None in
      ret tt
  end.

Definition empty_entry : mapping_out :=
  mkOut (Some "") (Some "") (Some "") (Some "") (Some "") (Some "") (Some "") (Some "").
(** The loop over the mappings of the gateway: false for a return of -1. *)
Fixpoint clear_mappings (fuel : nat) (index destinationPort : Z) (url service : option string)
    (h : PortMappingHandler) : M Sys bool :=
  match fuel with
  | O => fail Undefined
  | S fuel' =>
      let! (error, o) :=
        UPNP_GetGenericPortMappingEntry url service (Some (dec index)) empty_entry in
      if error =? 713 then ret true
      else if negb (error =? 0) then ret false
      else
        let! lan_port := lift_out (stoi (default "" (o_intPort o))) in
        if (lan_port =? destinationPort) && bool_decide (default "" (o_intClient o) = lanAddress h) then
          let! error := UPNP_DeletePortMapping url service (o_extPort o) (o_protocol o) None in
          if negb (error =? 0) then ret false
          else clear_mappings fuel' (index + 1) destinationPort url service h
        else clear_mappings fuel' (index + 1) destinationPort url service h
  end.

Definition add_mapping (url service : option string) (port : Z) (description proto : string)
    (h : PortMappingHandler) : M Sys Z :=
  UPNP_AddPortMapping url service (Some (dec port)) (Some (dec port)) (Some (lanAddress h))
    (Some description) (Some proto) None (Some "86400").
Definition mapPort (destinationPort : Z) (description : string) (h : PortMappingHandler) : M Sys Z :=
  match upnpDevice h with
  | [] => ret (-1)
  | _ =>
      let! (url, service) := control h in
      let! cleared := clear_mappings patience 0 destinationPort url service h in
      if negb cleared then ret (-1)
      else
        let sourcePort := destinationPort in
        let! error := add_mapping url service sourcePort description "UDP" h in
        if negb (error =? 0) then ret (-1)
        else
          let! error := add_mapping url service sourcePort description "TCP" h in
          if negb (error =? 0) then unmapPort sourcePort h ;;; ret (-1)
          else ret sourcePort
  end.

(** The destructor; freeing the URLs and the devices only gives memory back. *)
Fixpoint unmap_all (ports : list Z) (h : PortMappingHandler) : M Sys unit :=
  match ports with
  | [] => ret tt
  | p :: ports' => unmapPort p h ;;; unmap_all ports' h
  end.
Definition PortMappingHandler_destroy (h : PortMappingHandler) : M Sys unit :=
  unmap_all (mappedExternalPorts h) h.
End PortMapping.
