(* ===== verification/Discovery.v ===== *)
(** * Discovery

    The search for a gateway and its use, from [PortMappingHandler] down to the sockets:
    what [UPNP_GetValidIGD] finds, and that every socket opened on the way is closed. *)
From S2P Require Import Prelude.
From S2P Require Import CStr.
From S2P Require Import CSys.
From S2P Require Import MiniXml.
From S2P Require Import XmlDocument.
From S2P Require Import UpnpReply.
From S2P Require Import ParserKeeps.
From S2P Require Import IgdDesc.
From S2P Require Import UpnpCommands.
From S2P Require Import HttpResponse.
From S2P Require Import HttpHeaders.
From S2P Require Import Connect.
From S2P Require Import Soap.
From S2P Require Import SocketLeaks.
From S2P Require Import MiniSsdp.
From S2P Require Import MiniUpnp.
From S2P Require Import PortMapping.

(** ** Sockets *)
Section Sockets.
Context `{Os} `{Patience}.

Lemma neutral_refill s rest : neutral (refill s rest).
Proof using. unfold refill. neutral. Qed.
Hint Resolve neutral_refill : neutral.
Lemma neutral_READ_BYTE_BUFFER s rest : neutral (READ_BYTE_BUFFER s rest).
Proof using. unfold READ_BYTE_BUFFER. neutral. Qed.
Hint Resolve neutral_READ_BYTE_BUFFER : neutral.
Lemma neutral_DECODELENGTH_READ fuel s n rest : neutral (DECODELENGTH_READ fuel s n rest).
Proof using. revert n rest. induction fuel; intros; cbn [DECODELENGTH_READ]; neutral. Qed.
Lemma neutral_READ_COPY_BUFFER fuel s l dst rest : neutral (READ_COPY_BUFFER fuel s l dst rest).
Proof using. revert l dst rest. induction fuel; intros; cbn [READ_COPY_BUFFER]; neutral. Qed.
Hint Resolve neutral_DECODELENGTH_READ neutral_READ_COPY_BUFFER : neutral.
Lemma neutral_read_string s rest : neutral (read_string s rest).
Proof using. unfold read_string. neutral. Qed.
Hint Resolve neutral_read_string : neutral.
Lemma neutral_read_device s rest : neutral (read_device s rest).
Proof using. unfold read_device. neutral. Qed.
Hint Resolve neutral_read_device : neutral.
Lemma neutral_read_devices n s rest l e : neutral (read_devices n s rest l e).
Proof using. revert rest l. induction n; intros; cbn [read_devices]; neutral. Qed.
Hint Resolve neutral_read_devices : neutral.
Lemma neutral_receiveDevices s e : neutral (receiveDevicesFromMiniSSDPD s e).
Proof using. unfold receiveDevicesFromMiniSSDPD. neutral. Qed.
Lemma neutral_requestDevices s t : neutral (requestDevicesFromMiniSSDPD s t).
Proof using. unfold requestDevicesFromMiniSSDPD. neutral. Qed.

Lemma neutral_on_reply reply st : neutral (on_reply reply st).
Proof using. unfold on_reply. neutral. Qed.
Hint Resolve neutral_on_reply : neutral.
Lemma neutral_receive_replies fuel s d all st : neutral (receive_replies fuel s d all st).
Proof using. revert st. induction fuel; intros; cbn [receive_replies]; neutral. Qed.
Hint Resolve neutral_receive_replies : neutral.
Lemma neutral_send_search s b n l ok : neutral (send_search s b n l ok).
Proof using. revert n ok. induction l as [|[]]; intros; cbn [send_search]; neutral. Qed.
Hint Resolve neutral_send_search : neutral.
Lemma neutral_search_type s d mx i ll all last t st : neutral (search_type s d mx i ll all last t st).
Proof using. unfold search_type. neutral. Qed.
Hint Resolve neutral_search_type : neutral.
Lemma neutral_search_types s d mx i all ts st : neutral (search_types s d mx i all ts st).
Proof using. revert st. induction ts; intros; cbn [search_types]; neutral. Qed.
Lemma neutral_set_interface s i v : neutral (set_interface s i v).
Proof using. unfold set_interface. neutral. Qed.

Hint Resolve neutral_receiveDevices neutral_requestDevices neutral_search_types neutral_set_interface : neutral.

(** Runs that close [s], the socket opened last, and nothing else. *)
Definition closes {A} (s : Z) (m : M Sys A) : Prop :=
  forall l st a st', opened st = s :: l -> s ∉ l -> m st = Ok (a, st') -> opened st' = l.
Lemma closes_bind {A B} s (m : M Sys A) (k : A -> M Sys B) :
  neutral m -> (forall a, closes s (k a)) -> closes s (bind m k).
Proof using.
  intros Hm Hk l st b st' Ho Hs (a & st1 & E1 & E)%bind_ok. apply Hm in E1.
  eapply Hk; [|done|exact E]. congruence.
Qed.
Lemma closes_now {A} s (k : Answer -> M Sys A) : (forall a, neutral (k a)) -> closes s (bind (sys (Close s)) k).
Proof using.
  intros Hk l st b st' Ho Hs (a & st1 & E1 & E)%bind_ok. apply (close_top s _ _ _ l) in E1; [|done..].
  apply Hk in E. congruence.
Qed.
Ltac closes :=
  repeat first
    [ apply closes_now; intros; solve [neutral]
    | apply closes_bind; [solve [neutral]|intros]
    | case_match ].

Context {FS : FreshSockets}.

(** [m] opens the socket [fd] of its result; what follows closes it. *)
Definition opens {X} (fd : X -> Z) (m : M Sys X) : Prop :=
  forall st x st', m st = Ok (x, st') -> holding (fd x) (opened st) st'.
Lemma neutral_opens {X A} (fd : X -> Z) (m : M Sys X) (k : X -> M Sys A) :
  opens fd m -> (forall x, fd x < 0 -> neutral (k x)) -> (forall x, 0 <= fd x -> closes (fd x) (k x)) ->
  neutral (bind m k).
Proof using.
  intros Hm Hn Hc st b st' (s & st1 & E1 & E)%bind_ok. apply Hm in E1 as [Ho Hs].
  destruct (Z.ltb_spec (fd s) 0).
  - apply Hn in E; [congruence|done].
  - by eapply Hc in E; [..|apply Hs].
Qed.
Lemma opens_socket family : opens a_ret (sys (Socket family)).
Proof using FS.
  intros st a st' [-> E1]%sys_ok.
  split; [unfold opened; by rewrite E1, open_after_app|]. intros _. apply fresh_socket.
Qed.

Lemma neutral_ssdpDiscoverDevices types delay mif port ipv6 error all :
  neutral (ssdpDiscoverDevices types delay mif port ipv6 error all).
Proof using FS.
  unfold ssdpDiscoverDevices. cbv zeta. apply (neutral_opens a_ret); [apply opens_socket|intros a Ha..];
    destruct (Z.ltb_spec (a_ret a) 0); try lia; [neutral|closes].
Qed.

Lemma opens_connect path : opens id (connectToMiniSSDPD path).
Proof using FS.
  intros st s st'. unfold connectToMiniSSDPD.
  intros (a & st1 & E1 & E)%bind_ok. apply opens_socket in E1 as [Ho Hs].
  destruct (Z.ltb_spec (a_ret a) 0); [msteps; by split|].
  apply bind_ok in E as (b1 & st2 & E2 & E). apply neutral_sys in E2; [|done].
  apply bind_ok in E as (b2 & st3 & E3 & E). apply neutral_sys in E3; [|done].
  apply bind_ok in E as (c & st4 & E4 & E). apply neutral_sys in E4; [|done].
  destruct (a_ret c <? 0).
  - apply bind_ok in E as (d & st5 & E5 & E).
    apply (close_top _ _ _ _ (opened st)) in E5; [|congruence|by apply Hs]. msteps. by split.
  - msteps. split; unfold id in *; [|done]. destruct (Z.ltb_spec (a_ret a) 0); [lia|congruence].
Qed.
Lemma neutral_getDevices t path error : neutral (getDevicesFromMiniSSDPD t path error).
Proof using FS.
  unfold getDevicesFromMiniSSDPD. apply (neutral_opens id); [apply opens_connect|intros s Hs..];
    unfold id in Hs; destruct (Z.ltb_spec s 0); try lia; [neutral|]. unfold disconnectFromMiniSSDPD.
  apply closes_bind; [neutral|intros res]. apply closes_bind; [neutral|intros r].
  intros l st a st' Ho Hf E. rewrite bind_assoc in E.
  revert E. apply closes_now; [intros; neutral|done..].
Qed.
Hint Resolve neutral_ssdpDiscoverDevices neutral_getDevices : neutral.

Lemma neutral_upnpDiscoverDevices types delay mif sock port ipv6 error all :
  neutral (upnpDiscoverDevices types delay mif sock port ipv6 error all).
Proof using FS.
  unfold upnpDiscoverDevices.
  assert (forall s ts l, neutral (ask_minissdpd ts s all l)) as Hask
    by (intros s ts; induction ts; intros; cbn [ask_minissdpd]; neutral).
  neutral.
Qed.

(** The actions and the downloads. *)
Lemma neutral_simpleUPnPcommand url service action args :
  neutral (simpleUPnPcommand (-1) url service action args).
Proof using FS. intros st r st' E. by apply simpleUPnPcommand2_spec in E. Qed.

Lemma neutral_ParseNameValue b n : neutral (ParseNameValue b n).
Proof using. apply (ParseNameValue_leaves opened). intros m. exact (neutral_malloc m). Qed.
Hint Resolve neutral_simpleUPnPcommand neutral_ParseNameValue neutral_upnpDiscoverDevices : neutral.
Lemma neutral_call_action u s action args : neutral (call_action u s action args).
Proof using FS. unfold call_action. neutral. Qed.
Hint Resolve neutral_call_action : neutral.
Lemma neutral_call_with_args u s n action args : neutral (call_with_args u s n action args).
Proof using FS. unfold call_with_args. neutral. Qed.
Hint Resolve neutral_call_with_args : neutral.
Lemma neutral_miniwget_getaddr url addr len scope status : neutral (miniwget_getaddr url addr len scope status).
Proof using FS.
  unfold miniwget_getaddr. apply neutral_bind; [neutral|]. intros [[u|] sc]; [|neutral].
  intros st r st' E. by apply miniwget3_spec in E.
Qed.
Hint Resolve neutral_miniwget_getaddr : neutral.

Lemma neutral_build_absolute_url b d u sc : neutral (build_absolute_url b d u sc).
Proof using. unfold build_absolute_url, strdup. neutral. Qed.
Hint Resolve neutral_build_absolute_url : neutral.
Lemma neutral_GetUPNPUrls d url sc : neutral (GetUPNPUrls d url sc).
Proof using. unfold GetUPNPUrls, strdup. neutral. Qed.
Hint Resolve neutral_GetUPNPUrls : neutral.
Lemma neutral_connected urls d : neutral (UPNPIGD_IsConnected urls d).
Proof using FS. unfold UPNPIGD_IsConnected, UPNP_GetStatusInfo. neutral. Qed.
Lemma neutral_external_ip u s x : neutral (UPNP_GetExternalIPAddress u s x).
Proof using FS. unfold UPNP_GetExternalIPAddress. neutral. Qed.
Hint Resolve neutral_connected neutral_external_ip : neutral.
Lemma neutral_try_device state dev d : neutral (try_device state dev d).
Proof using FS. unfold try_device, try_connected, external_ip. neutral. Qed.
Hint Resolve neutral_try_device : neutral.
Lemma neutral_try_devices state l : neutral (try_devices state l).
Proof using FS. induction l as [|[]]; cbn [try_devices]; neutral. Qed.
Hint Resolve neutral_try_devices : neutral.
Lemma neutral_try_states states l : neutral (try_states states l).
Proof using FS. induction states; cbn [try_states]; neutral. Qed.
Lemma neutral_download_all l has len lan : neutral (download_all l has len lan).
Proof using FS. revert lan. induction l; intros; cbn [download_all]; unfold download_desc; neutral. Qed.
Hint Resolve neutral_try_states neutral_download_all : neutral.
Lemma neutral_GetValidIGD l urls d has len : neutral (UPNP_GetValidIGD l urls d has len).
Proof using FS. unfold UPNP_GetValidIGD. neutral. Qed.
Hint Resolve neutral_GetValidIGD : neutral.

Lemma neutral_delete u s a b c : neutral (UPNP_DeletePortMapping u s a b c).
Proof using FS. unfold UPNP_DeletePortMapping. neutral. Qed.
Lemma neutral_control h : neutral (control h).
Proof using. unfold control. neutral. Qed.
Hint Resolve neutral_delete neutral_control : neutral.
Lemma neutral_unmapPort p h : neutral (unmapPort p h).
Proof using FS. unfold unmapPort. neutral. Qed.
Hint Resolve neutral_unmapPort : neutral.
Lemma neutral_clear_mappings fuel i p u s h : neutral (clear_mappings fuel i p u s h).
Proof using FS.
  revert i. induction fuel; intros; cbn [clear_mappings]; unfold UPNP_GetGenericPortMappingEntry; neutral.
Qed.
Hint Resolve neutral_clear_mappings : neutral.
Lemma neutral_mapPort p d h : neutral (mapPort p d h).
Proof using FS. unfold mapPort, add_mapping, UPNP_AddPortMapping. neutral. Qed.
Lemma neutral_unmap_all ports h : neutral (unmap_all ports h).
Proof using FS. induction ports; cbn [unmap_all]; neutral. Qed.
Lemma neutral_init off : neutral (PortMappingHandler_init off).
Proof using FS.
  unfold PortMappingHandler_init, upnpDiscover. neutral.
Qed.
End Sockets.

Section Gateway.
Context `{Os} `{Patience} {FS : FreshSockets}.

(** C13: Opening ports at the gateway leaks no socket.  Looking for a gateway (asking the
    daemon, searching by multicast, downloading and trying every description), mapping and
    unmapping ports and giving up leave exactly the descriptors open that were open before,
    whatever the daemon, the devices and the gateway answer. *)
Theorem gateway_leaks_no_socket off port description h st :
  (forall r st', PortMappingHandler_init off st = Ok (r, st') -> opened st' = opened st) /\
  (forall r st', mapPort port description h st = Ok (r, st') -> opened st' = opened st) /\
  (forall r st', unmapPort port h st = Ok (r, st') -> opened st' = opened st) /\
  (forall r st', PortMappingHandler_destroy h st = Ok (r, st') -> opened st' = opened st).
Proof using FS.
  split; [|split; [|split]]; intros r st' E.
  - by eapply neutral_init in E.
  - by eapply neutral_mapPort in E.
  - by eapply neutral_unmapPort in E.
  - unfold PortMappingHandler_destroy in E. by eapply neutral_unmap_all in E.
Qed.
End Gateway.

(** ** What is found *)
Definition has_text (e : UPNPDev * xml_desc) : bool := bool_decide (is_Some (xml e.2)).
Definition is_gateway (e : UPNPDev * xml_desc) : bool := is_igd e.2.

Section Found.
Context `{Os} `{Patience}.

Lemma download_all_spec devlist has len lan l lan' st st' :
  download_all devlist has len lan st = Ok ((l, lan'), st') ->
  l.*1 = devlist /\ Forall (fun e => is_gateway e = true -> has_text e = true) l /\
  (is_Some lan' <-> is_Some lan \/ existsb is_gateway l && has = true).
Proof using.
  revert lan l st. induction devlist as [|d ds IH]; intros lan l st E; cbn [download_all] in E.
  { msteps. cbn. split; [done|]. split; [constructor|]. naive_solver. }
  apply bind_ok in E as ([x lan1] & st1 & E1 & E). apply bind_ok in E as ([l1 lan2] & st2 & E2 & E).
  msteps. apply IH in E2 as (<- & Hf & Hl). split; [done|].
  unfold download_desc in E1. apply bind_ok in E1 as (dl & st3 & _ & E1).
  destruct (Soap.content dl) as [t|].
  - apply bind_ok in E1 as (data & st4 & _ & E1). msteps. split; [by constructor|]. rewrite Hl.
    cbn [existsb is_gateway is_igd snd]. unfold is_Some.
    destruct (describes_igd data), has; cbn [andb orb]; rewrite ?andb_true_r, ?andb_false_r; naive_solver.
  - msteps. split; [by constructor|]. by rewrite Hl.
Qed.

Lemma try_device_spec state dev d st r st' : try_device state dev d st = Ok (r, st') ->
  (is_igd d = true -> has_text (dev, d) = true) -> 1 <= state ->
  (is_Some r -> has_text (dev, d) = true /\ (is_igd d || (3 <=? state)) = true) /\
  (2 <= state -> has_text (dev, d) = true -> (is_igd d || (3 <=? state)) = true -> is_Some r).
Proof using.
  intros E Hd Hs. unfold try_device, has_text in *. cbn [snd] in *. destruct (xml d) as [[t n]|].
  2:{ msteps. split; [by intros []|done]. }
  apply bind_ok in E as (data & st1 & _ & E). destruct (is_igd d || (3 <=? state)).
  - apply bind_ok in E as (urls & st2 & _ & E). split; [done|]. intros H2 _ _.
    destruct (Z.leb_spec 2 state); [|lia]. msteps. by eexists.
  - msteps. split; [by intros []|done].
Qed.
Lemma try_devices_spec state l st r st' : try_devices state l st = Ok (r, st') ->
  Forall (fun e => is_gateway e = true -> has_text e = true) l -> 1 <= state ->
  let fits e := has_text e && (is_gateway e || (3 <=? state)) in
  (is_Some r -> existsb fits l = true) /\ (2 <= state -> existsb fits l = true -> is_Some r).
Proof using.
  intros E Hl Hs. revert st E. induction Hl as [|[dev d] l Hd Hl IH]; intros st E; cbn [try_devices] in E.
  { msteps. split; [by intros []|done]. }
  apply bind_ok in E as (r1 & st1 & E1 & E). apply try_device_spec in E1 as [P1 P2]; [|done..].
  cbn [existsb]. unfold is_gateway in *. cbn [snd] in *. destruct r1 as [r1|].
  - msteps. destruct P1 as [-> ->]; [by eexists|]. done.
  - destruct (IH _ E) as [P3 P4]. split.
    + intros Hr. by rewrite (P3 Hr), orb_true_r.
    + intros P5 [[Ht Hg]%andb_prop|Hx]%orb_true_iff; [|auto]. by destruct (P2 P5 Ht Hg).
Qed.

Lemma existsb_weaken {A} (f g : A -> bool) l :
  (forall x, x ∈ l -> f x = true -> g x = true) -> existsb f l = true -> existsb g l = true.
Proof using.
  intros Hfg. rewrite !existsb_exists. intros (x & Hx & Hf). exists x. split; [done|].
  apply Hfg; [by apply list_elem_of_In|done].
Qed.
Lemma try_states_spec l st state r st' : try_states [1; 2; 3] l st = Ok ((state, r), st') ->
  Forall (fun e => is_gateway e = true -> has_text e = true) l ->
  (existsb is_gateway l = true /\ (state = 1 \/ state = 2) /\ is_Some r) \/
  (existsb is_gateway l = false /\ existsb has_text l = true /\ state = 3 /\ is_Some r) \/
  (existsb is_gateway l = false /\ existsb has_text l = false /\ state = 0 /\ r = None).
Proof using.
  intros E Hl. cbn [try_states] in E.
  assert (forall s, s < 3 -> existsb (fun e => has_text e && (is_gateway e || (3 <=? s))) l = existsb is_gateway l) as S12.
  { intros s Hs. apply eq_true_iff_eq. destruct (Z.leb_spec 3 s); [lia|]. split; apply existsb_weaken; intros x Hx.
    - intros [_ Hg]%andb_prop. by rewrite orb_false_r in Hg.
    - intros Hg. rewrite orb_false_r, Hg, andb_true_r. exact (proj1 (Forall_forall _ l) Hl x Hx Hg). }
  assert (existsb (fun e => has_text e && (is_gateway e || (3 <=? 3))) l = existsb has_text l) as S3.
  { apply eq_true_iff_eq. split; apply existsb_weaken; intros x _; change (3 <=? 3) with true;
      rewrite orb_true_r, andb_true_r; done. }
  apply bind_ok in E as (r1 & st1 & E1 & E). apply try_devices_spec in E1 as [A1 _]; [|done|lia].
  cbv beta zeta in A1. rewrite S12 in A1 by lia.
  destruct r1 as [r1|]; [msteps; left; split; [apply A1; by eexists|split; [by left|by eexists]]|].
  apply bind_ok in E as (r2 & st2 & E2 & E). apply try_devices_spec in E2 as [A2 B2]; [|done|lia].
  cbv beta zeta in A2, B2. rewrite S12 in A2, B2 by lia.
  destruct r2 as [r2|]; [msteps; left; split; [apply A2; by eexists|split; [by right|by eexists]]|].
  right. assert (existsb is_gateway l = false) as ->.
  { apply not_true_iff_false. intros Hg. destruct (B2 ltac:(lia) Hg) as [? [=]]. }
  apply bind_ok in E as (r3 & st3 & E3 & E). apply try_devices_spec in E3 as [A3 B3]; [|done|lia].
  cbv beta zeta in A3, B3. rewrite S3 in A3, B3.
  destruct r3 as [r3|]; msteps; [left; split; [done|]; split; [apply A3; by eexists|split; [done|by eexists]]|].
  right. split; [done|]. split; [|done]. apply not_true_iff_false. intros Hg.
  destruct (B3 ltac:(lia) Hg) as [? [=]].
Qed.

Lemma GetValidIGD_spec devlist urls data has len st state urls' data' lan st' :
  devlist <> [] -> UPNP_GetValidIGD devlist urls data has len st = Ok ((state, urls', data', lan), st') ->
  (state = -1 /\ lan = None) \/
  exists l st1 st2, l.*1 = devlist /\ download_all devlist has len None st1 = Ok ((l, lan), st2) /\
    (is_Some lan <-> existsb is_gateway l && has = true) /\
    ((existsb is_gateway l = true /\ (state = 1 \/ state = 2)) \/
     (existsb is_gateway l = false /\ existsb has_text l = true /\ state = 3) \/
     (existsb is_gateway l = false /\ existsb has_text l = false /\ state = 0)).
Proof using.
  intros Hd E. destruct devlist as [|d ds]; [done|]. unfold UPNP_GetValidIGD in E.
  apply bind_ok in E as (ok & st0 & _ & E). destruct ok; cbn [negb] in E; [|msteps; by left].
  right. apply bind_ok in E as ([l lan1] & st1 & E1 & E). apply bind_ok in E as ([s r] & st2 & E2 & E).
  pose proof (download_all_spec _ _ _ _ _ _ _ _ E1) as (P1 & P2 & P3).
  apply try_states_spec in E2; [|done]. exists l, st0, st1.
  assert (lan = lan1 /\ state = s) as [-> ->] by (unfold ret in E; repeat case_match; by simplify_eq).
  split; [done|]. split; [done|]. split.
  { rewrite P3. split; [by intros [[? [=]]|]|by right]. }
  destruct E2 as [(?&?&_)|[(?&?&?&_)|(?&?&?&_)]]; auto.
Qed.

(** ** Which gateway is returned

    A gateway that said it is connected, and whose external address could be asked. *)
Definition says_connected (urls : UPNPUrls) (data : IGDdatas) (s s' : Sys) : Prop :=
  exists s1 ip, UPNPIGD_IsConnected urls data s = Ok (true, s1) /\
    external_ip urls data s1 = Ok ((0, ip), s').
Definition does_not (urls : UPNPUrls) (data : IGDdatas) (s : Sys) : Prop :=
  exists c s1, UPNPIGD_IsConnected urls data s = Ok (c, s1) /\
    (c = false \/ exists r ip s2, external_ip urls data s1 = Ok ((r, ip), s2) /\ r <> 0).
(** What the description of a device says. *)
Definition described (d : xml_desc) (data : IGDdatas) : Prop :=
  exists text size, xml d = Some (text, size) /\ parserootdesc text size IGD_zero = Ok data.
(** The device was asked, and did not say so. *)
Definition refused (e : UPNPDev * xml_desc) : Prop :=
  exists data s urls s1, described e.2 data /\
    GetUPNPUrls data (dev_descURL e.1) (dev_scope_id e.1) s = Ok (urls, s1) /\ does_not urls data s1.
(** It was asked, and its last answer is where the search ends; the second service of the
    description may have taken the place of the first. *)
Definition accepted (e : UPNPDev * xml_desc) (urls : UPNPUrls) (data : IGDdatas) (s' : Sys) : Prop :=
  is_gateway e = true /\ exists data0 s, described e.2 data0 /\ (data = data0 \/ data = swap_services data0) /\
    says_connected urls data s s'.
(** It was taken without asking. *)
Definition taken (e : UPNPDev * xml_desc) (urls : UPNPUrls) (data : IGDdatas) (s' : Sys) : Prop :=
  described e.2 data /\
  exists s, GetUPNPUrls data (dev_descURL e.1) (dev_scope_id e.1) s = Ok (urls, s').

Lemma try_connected_some dev data0 urls0 s urls data s' :
  try_connected dev data0 urls0 s = Ok (Some (urls, data), s') ->
  (data = data0 \/ data = swap_services data0) /\ exists s1, says_connected urls data s1 s'.
Proof using.
  unfold try_connected. intros (c & s1 & E1 & E)%bind_ok. apply bind_ok in E as ([r ip] & s2 & E2 & E).
  destruct (Z.eqb_spec r 0) as [->|_].
  - msteps. split; [by left|]. destruct c; [|discriminate]. by exists s, s1, ip.
  - case_bool_decide; [msteps; discriminate|]. split.
    + apply bind_ok in E as (u & s3 & _ & E). apply bind_ok in E as (c2 & s4 & _ & E).
      apply bind_ok in E as ([r2 ip2] & s5 & _ & E). destruct (_ && _); msteps; [by right|discriminate].
    + apply bind_ok in E as (u & s3 & _ & E). apply bind_ok in E as (c2 & s4 & E4 & E).
      apply bind_ok in E as ([r2 ip2] & s5 & E5 & E). destruct (Z.eqb_spec r2 0) as [->|]; [|msteps; discriminate].
      destruct (_ && _); msteps; [|discriminate]. destruct c2; [|discriminate]. by exists s3, s4, ip2.
Qed.
Lemma try_connected_none dev data urls s s' :
  try_connected dev data urls s = Ok (None, s') -> does_not urls data s.
Proof using.
  unfold try_connected. intros (c & s1 & E1 & E)%bind_ok. apply bind_ok in E as ([r ip] & s2 & E2 & E).
  exists c, s1. split; [done|]. destruct c; [right|by left].
  destruct (Z.eqb_spec r 0) as [->|]; [msteps; discriminate|]. by exists r, ip, s2.
Qed.
Lemma try_device_1 dev d s r s' : try_device 1 dev d s = Ok (r, s') ->
  match r with
  | Some (urls, data) => accepted (dev, d) urls data s'
  | None => is_igd d = true -> is_Some (xml d) -> refused (dev, d)
  end.
Proof using.
  intros E. unfold try_device in E. destruct (xml d) as [[text size]|] eqn:Ex; [|injection E as <- <-; by intros ? []].
  apply bind_ok in E as (data & s1 & E1 & E).
  assert (described d data) as Hd.
  { exists text, size. split; [done|]. unfold lift_out in E1. by destruct (parserootdesc _ _ _); simplify_eq. }
  change (3 <=? 1) with false in E. rewrite orb_false_r in E. destruct (is_igd d) eqn:Ei; [|msteps; discriminate].
  apply bind_ok in E as (urls & s2 & E2 & E). change (2 <=? 1) with false in E. cbv iota in E.
  destruct r as [[urls' data']|].
  - apply try_connected_some in E as (Hs & s3 & Hc). split; [done|]. by exists data, s3.
  - intros _ _. exists data, s1, urls, s2. split; [done|]. split; [done|]. by eapply try_connected_none.
Qed.
Lemma try_devices_1 l s r s' : try_devices 1 l s = Ok (r, s') ->
  Forall (fun e => is_gateway e = true -> has_text e = true) l ->
  match r with
  | Some (urls, data) => exists e, e ∈ l /\ accepted e urls data s'
  | None => Forall (fun e => is_gateway e = true -> refused e) l
  end.
Proof using.
  intros E Hl. revert s E. induction Hl as [|[dev d] l Hd Hl IH]; intros s E; cbn [try_devices] in E; [by msteps|].
  apply bind_ok in E as (r1 & s1 & E1 & E). apply try_device_1 in E1. destruct r1 as [[urls data]|].
  - msteps. exists (dev, d). split; [by left|done].
  - specialize (IH _ E). destruct r as [[urls data]|].
    + destruct IH as (e & He & Ha). exists e. split; [by right|done].
    + constructor; [|done]. intros Hg. apply E1; [done|]. by apply bool_decide_eq_true_1 in Hd.
Qed.
Lemma try_devices_later state l s urls data s' : 2 <= state ->
  try_devices state l s = Ok (Some (urls, data), s') ->
  exists e, List.find (fun e => has_text e && (is_gateway e || (3 <=? state))) l = Some e /\ taken e urls data s'.
Proof using.
  intros Hs. revert s. induction l as [|[dev d] l IH]; intros s E; cbn [try_devices] in E; [msteps; discriminate|].
  apply bind_ok in E as (r1 & s1 & E1 & E). cbn [List.find]. unfold has_text, is_gateway in *. cbn [snd] in *.
  unfold try_device in E1. destruct (xml d) as [[text size]|] eqn:Ex.
  2:{ rewrite bool_decide_false by (by intros []). msteps. by eapply IH. }
  rewrite bool_decide_true by (by eexists). cbn [andb].
  apply bind_ok in E1 as (data1 & s2 & E2 & E1). destruct (is_igd d || (3 <=? state)).
  - apply bind_ok in E1 as (urls1 & s3 & E3 & E1). destruct (Z.leb_spec 2 state); [|lia]. msteps.
    exists (dev, d). split; [done|]. split; [|by exists s2].
    exists text, size. split; [done|]. unfold lift_out in E2. by destruct (parserootdesc _ _ _); simplify_eq.
  - msteps. by eapply IH.
Qed.
Lemma find_gateway l : Forall (fun e => is_gateway e = true -> has_text e = true) l ->
  List.find (fun e => has_text e && (is_gateway e || (3 <=? 2))) l = List.find is_gateway l.
Proof using.
  intros Hl. induction Hl as [|e l He Hl IH]; [done|]. cbn [List.find]. rewrite IH, orb_false_r.
  destruct (is_gateway e); [by rewrite He|by rewrite andb_false_r].
Qed.

(** What is returned with each state. *)
Definition choice (l : list (UPNPDev * xml_desc)) (state : Z) (urls : UPNPUrls) (data : IGDdatas) (s' : Sys) : Prop :=
  (state = 1 -> exists e, e ∈ l /\ accepted e urls data s') /\
  (state = 2 -> Forall (fun e => is_gateway e = true -> refused e) l /\
     exists e, List.find is_gateway l = Some e /\ taken e urls data s') /\
  (state = 3 -> exists e, List.find has_text l = Some e /\ taken e urls data s').
Lemma try_states_choice l s state r s' : try_states [1; 2; 3] l s = Ok ((state, r), s') ->
  Forall (fun e => is_gateway e = true -> has_text e = true) l ->
  forall urls data, r = Some (urls, data) -> choice l state urls data s'.
Proof using.
  intros E Hl urls data ->. cbn [try_states] in E. unfold choice.
  apply bind_ok in E as (r1 & s1 & E1 & E). pose proof (try_devices_1 _ _ _ _ E1 Hl) as H1.
  destruct r1 as [[u1 d1]|]; [msteps; by simplify_eq|].
  apply bind_ok in E as (r2 & s2 & E2 & E). destruct r2 as [[u2 d2]|].
  { msteps. simplify_eq. apply try_devices_later in E2; [|lia]. rewrite find_gateway in E2 by done. by split_and!. }
  apply bind_ok in E as (r3 & s3 & E3 & E). destruct r3 as [[u3 d3]|]; msteps; simplify_eq.
  apply try_devices_later in E3; [|lia]. split_and!; [done..|]. intros _.
  destruct E3 as (e & Hf & Ht). exists e. split; [|done]. rewrite <- Hf. clear.
  induction l as [|e l IH]; [done|]. cbn [List.find]. change (3 <=? 3) with true. by rewrite orb_true_r, andb_true_r, IH.
Qed.


(** On a network with UPnP devices but no gateway the game reads uninitialised memory.
    When the search found devices and none of their descriptions is a gateway's (or memory
    ran out), [UPNP_GetValidIGD] stores no address, and the constructor makes a string of
    the array on its stack before it looks at the result. *)
Theorem no_gateway_reads_stack st devices st1 state urls data lan st2 :
  upnpDiscover 1000 None None 0 false (Some 0) st = Ok ((devices, Some 0), st1) -> devices <> [] ->
  UPNP_GetValidIGD devices no_urls IGD_zero true 4096 st1 = Ok ((state, urls, data, lan), st2) ->
  state <> 1 -> state <> 2 -> PortMappingHandler_init false st = Err Undefined.
Proof using.
  intros E1 Hd E2 S1 S2. unfold PortMappingHandler_init.
  rewrite (bind_step _ _ _ _ _ E1). destruct devices as [|d ds]; [done|]. cbv beta iota.
  change (negb (default 0 (Some 0) =? 0)) with false. cbv iota.
  rewrite (bind_step _ _ _ _ _ E2).
  assert (lan = None) as ->; [|done].
  destruct (GetValidIGD_spec _ _ _ _ _ _ _ _ _ _ _ Hd E2) as [[_ ->]|(l & ? & ? & _ & _ & P3 & P4)]; [done|].
  destruct lan as [a|]; [|done]. exfalso. assert (existsb is_gateway l && true = true) as Hg by (apply P3; by eexists).
  rewrite andb_true_r in Hg. destruct P4 as [(_ & [|])|[(Eg & _)|(Eg & _)]]; [done..|congruence|congruence].
Qed.
End Found.

(** ** A network with one device *)
Section Network.
Variable desc : string.
Definition ssdp_reply : string :=
  "HTTP/1.1 200 OK" +:+ CRLF +:+ "LOCATION: http://192.168.1.7:80/desc.xml" +:+ CRLF +:+
  "ST: upnp:rootdevice" +:+ CRLF +:+ CRLF.
Definition http_reply : string :=
  "HTTP/1.1 200 OK" +:+ CRLF +:+ "Content-Length: " +:+ dec (slen desc) +:+ CRLF +:+ CRLF +:+ desc.
Definition calls_of (f : call -> bool) (t : list (call * Answer)) : nat :=
  length (List.filter (fun e => f e.1) t).
(** The daemon is absent; one answer comes to the search, and one to the download. *)
Definition network_os : Os := fun t c =>
  match c with
  | Malloc _ => mkAnswer 1 0 "" 0 0 0 []
  | Socket family => if family =? 1 then failed
                     else mkAnswer (1 + foldr Z.max 5 (open_after t [])) 0 "" 0 0 0 []
  | Getaddrinfo h _ => mkAnswer 0 0 "" 0 0 0 [(2, h)]
  | Send _ data | Sendto _ data _ => mkAnswer (slen data) 0 "" 0 0 0 []
  | Poll _ _ =>
      let n := calls_of (fun c => match c with Poll _ _ => true | _ => false end) t in
      mkAnswer (if (n =? 1)%nat then 0 else 1) 0 "" 0 0 0 []
  | Recv _ _ =>
      let n := calls_of (fun c => match c with Recv _ _ => true | _ => false end) t in
      let data := if (n =? 0)%nat then ssdp_reply else if (n =? 1)%nat then http_reply else "" in
      mkAnswer (slen data) 0 data 0 2 0 []
  | Getnameinfo _ _ => mkAnswer 0 0 "192.168.1.20" 0 0 0 []
  | _ => answer0
  end.
Lemma network_fresh : @FreshSockets network_os.
Proof using.
  intros t family. unfold os, network_os. destruct (family =? 1); [|apply fresh_max].
  intros Hin. pose proof (open_nonneg t [] (Forall_nil_2 _)) as Hf. rewrite Forall_forall in Hf.
  specialize (Hf _ Hin). cbn in Hf. lia.
Qed.
End Network.

#[local] Instance patience_12 : Patience := 12%nat.
Definition tv_desc : string := print (leaf "root" "A television" Empty).
Definition gateway_desc : string :=
  print (root_desc "" [mkService "/ctl/CIF" "/evt/CIF" "/CIF.xml" (WANCommonInterfaceConfig +:+ "1");
                       mkService "/ctl/IP" "/evt/IP" "/IP.xml" (WANIPConnection +:+ "1")]).
Definition tv_os : Os := network_os tv_desc.
Definition gateway_os : Os := network_os gateway_desc.
Definition found_with (o : Os) : outcome (list UPNPDev * option Z * Sys) :=
  @upnpDiscover o _ 1000 None None 0 false (Some 0) sys0.
Definition igd_with (o : Os) (devices : list UPNPDev) (st : Sys) :
    outcome (Z * UPNPUrls * IGDdatas * option string * Sys) :=
  @UPNP_GetValidIGD o _ devices no_urls IGD_zero true 4096 st.


Lemma no_gateway_reads_stack_witness :
  @PortMappingHandler_init tv_os _ false sys0 = Err Undefined.
Proof.
  destruct (found_with tv_os) as [[[devices e] st]|f] eqn:E1; [|vm_compute in E1; discriminate].
  destruct (igd_with tv_os devices st) as [[[[[state urls] data] lan] st']|f] eqn:E2;
    [|vm_compute in E1; injection E1 as <- <- <-; vm_compute in E2; discriminate].
  assert (e = Some 0 /\ devices <> [] /\ state = 3) as (He & Hd & Hs).
  { vm_compute in E1. injection E1 as <- <- <-. vm_compute in E2. by injection E2 as <- <- <- <- <-. }
  unfold found_with in E1. unfold igd_with in E2. rewrite He in E1.
  refine (no_gateway_reads_stack _ _ _ _ _ _ _ _ E1 Hd E2 _ _); by rewrite Hs.
Defined.

Lemma gateway_leaks_no_socket_witness :
  match @PortMappingHandler_init gateway_os _ false sys0 with
  | Ok (h, st) => opened st = [] /\ lanAddress h = "192.168.1.20" /\ (30 <= length (trace st))%nat
  | Err _ => False
  end.
Proof.
  destruct (@PortMappingHandler_init gateway_os _ false sys0)
    as [[h st]|f] eqn:E; [|vm_compute in E; discriminate].
  split; [exact (proj1 (@gateway_leaks_no_socket gateway_os _ (network_fresh gateway_desc) false 0 "" h sys0) h st E)|].
  vm_compute in E. injection E as <- <-. vm_compute. split; [done|lia].
Defined.
