(* ===== verification/ListDevices.v ===== *)
(** * ListDevices

    The command line tool that lists the UPnP devices of the network
    (src/peer/external/miniupnpc-2.1.20190408/listdevices.c): its arguments, the discovery
    and the devices grouped by the URL of their description. *)
From S2P Require Import Prelude.
From S2P Require Import CStr.
From S2P Require Import CSys.
From S2P Require Import UpnpReply.
From S2P Require Import UpnpCommands.
From S2P Require Import MiniSsdp.
From S2P Require Import MiniUpnp.
From S2P Require Import Console.

Definition dev_usn (d : UPNPDev) : string := c_str (str_drop (usn_at d) (dev_buffer d)).

(** [struct upnp_dev_list]: [count] is the length of [array]; [capacity] is the number of
    elements its block has room for. *)
Record upnp_dev_list : Type := mkGroup {
  descURL : string;
  array : list UPNPDev;
  allocated_count : Z;
  capacity : Z
}.
Definition count (g : upnp_dev_list) : Z := Z.of_nat (length (array g)).
Definition ADD_DEVICE_COUNT_STEP : Z := 16.
Definition sizeof_pointer : Z := 8.
Definition sizeof_upnp_dev_list : Z := 40.

Section ListDevices.
Context `{Os} `{Patience}.
(** What ["%p"] prints for the array. *)
Context (pointer_text : string).

Definition same_st_usn (a b : UPNPDev) : bool :=
  bool_decide (dev_st a = dev_st b) && bool_decide (dev_usn a = dev_usn b).
(** [elt->array[elt->count++] = dev] *)
Definition append (elt : upnp_dev_list) (dev : UPNPDev) : Tool upnp_dev_list :=
  if capacity elt <=? count elt then fail Undefined
  else ret (mkGroup (descURL elt) (array elt ++ [dev]) (allocated_count elt) (capacity elt)).
(** The device is added to a group of its URL. *)
Definition add_to_group (elt : upnp_dev_list) (dev : UPNPDev) : Tool upnp_dev_list :=
  if existsb (fun d => same_st_usn d dev) (array elt) then ret elt
  else if allocated_count elt <=? count elt then
    let n := allocated_count elt + ADD_DEVICE_COUNT_STEP in
    let! ok := lib (malloc (n * sizeof_pointer)) in
    if ok then append (mkGroup (descURL elt) (array elt) n n) dev
    else
      eprintf ["Failed to realloc("; pointer_text; ", "; dec (n * sizeof_pointer); ")"; nl] ;;;
      ret (mkGroup (descURL elt) (array elt) n (capacity elt))
  else append elt dev.
(** The walk over the groups; [None] when none has the URL. *)
Fixpoint find_group (l : list upnp_dev_list) (dev : UPNPDev) : Tool (option (list upnp_dev_list)) :=
  match l with
  | [] => ret None
  | elt :: l' =>
      if bool_decide (descURL elt = dev_descURL dev) then
        let! elt := add_to_group elt dev in ret (Some (elt :: l'))
      else
        let! r := find_group l' dev in ret (option_map (cons elt) r)
  end.
(** A new group in front of the others. *)
Definition new_group (list_head : list upnp_dev_list) (dev : UPNPDev) : Tool (list upnp_dev_list) :=
  let! ok := lib (malloc sizeof_upnp_dev_list) in
  if negb ok then
    eprintf ["Failed to malloc("; dec sizeof_upnp_dev_list; ")"; nl] ;;; ret list_head
  else
    let! url := lib (strdup (dev_descURL dev)) in
    match url with
    | None => eprintf ["Failed to strdup("; dev_descURL dev; ")"; nl] ;;; ret list_head
    | Some url =>
        let! ok := lib (malloc (ADD_DEVICE_COUNT_STEP * sizeof_pointer)) in
        if negb ok then
          eprintf ["Failed to malloc("; dec (ADD_DEVICE_COUNT_STEP * sizeof_pointer); ")"; nl] ;;;
          ret list_head
        else ret (mkGroup url [dev] ADD_DEVICE_COUNT_STEP ADD_DEVICE_COUNT_STEP :: list_head)
    end.
Definition add_device (list_head : list upnp_dev_list) (dev : UPNPDev) : Tool (list upnp_dev_list) :=
  let! r := find_group list_head dev in
  match r with Some l => ret l | None => new_group list_head dev end.

(** The first listing: every device as it was found, added to the groups. *)
Fixpoint list_found (i : Z) (devlist : list UPNPDev) (sorted_list : list upnp_dev_list) :
    Tool (list upnp_dev_list) :=
  match devlist with
  | [] => ret sorted_list
  | dev :: devlist' =>
      printf [pad_left 3 (dec i); ": "; pad_right 48 (dev_st dev); nl] ;;;
      printf ["     "; dev_descURL dev; nl] ;;;
      printf ["     "; dev_usn dev; nl] ;;;
      let! sorted_list := add_device sorted_list dev in
      list_found (i + 1) devlist' sorted_list
  end.
(** The second listing, by groups. *)
Fixpoint list_group (i : Z) (devs : list UPNPDev) : Tool unit :=
  match devs with
  | [] => ret tt
  | d :: devs' =>
      printf [pad_left 2 (dec (i + 1)); ": "; dev_st d; nl] ;;;
      printf ["    "; dev_usn d; nl] ;;;
      list_group (i + 1) devs'
  end.
Definition list_groups (l : list upnp_dev_list) : Tool unit :=
  for_each l (fun g => printf [descURL g; " :"; nl] ;;; list_group 0 (array g) ;;; printf [nl]).

(** ** Arguments *)
Record search_options : Type := mkSearchOptions {
  searched_device : option string;
  searched_devices : option (list string);
  multicastif : option string;
  ipv6 : bool;
  ttl : Z
}.
Definition search_options0 : search_options := mkSearchOptions None None None false 2.
Definition usage (argv0 : string) : Tool unit :=
  printf ["usage : "; argv0; " [options] [-l <device1> <device2> ...]"; nl] ;;;
  printf ["options :"; nl] ;;;
  printf ["   -6 : use IPv6"; nl] ;;;
  printf ["   -m address/ifname : network interface to use for multicast"; nl] ;;;
  printf ["   -d <device string> : search only for this type of device"; nl] ;;;
  printf ["   -l <device1> <device2> ... : search only for theses types of device"; nl] ;;;
  printf ["   -t ttl : set multicast TTL. Default value is 2."; nl] ;;;
  printf ["   -h : this help"; nl].
Definition needs_one (option : string) : Tool (Z + search_options) :=
  eprintf [option; " option needs one argument"; nl] ;;; ret (inl 1).

Fixpoint parse_args (argv0 : string) (args : list string) (o : search_options) :
    Tool (Z + search_options) :=
  match args with
  | [] => ret (inr o)
  | arg :: rest =>
      if bool_decide (arg = "-6") then
        parse_args argv0 rest (mkSearchOptions (searched_device o) (searched_devices o) (multicastif o) true (ttl o))
      else if bool_decide (arg = "-d") then
        match rest with
        | [] => needs_one "-d"
        | v :: rest' =>
            parse_args argv0 rest' (mkSearchOptions (Some v) (searched_devices o) (multicastif o) (ipv6 o) (ttl o))
        end
      else if bool_decide (arg = "-t") then
        match rest with
        | [] => needs_one "-t"
        | v :: rest' =>
            parse_args argv0 rest' (mkSearchOptions (searched_device o) (searched_devices o) (multicastif o)
              (ipv6 o) (wrap_u 8 (atoi v)))
        end
      else if bool_decide (arg = "-l") then
        match rest with
        | [] => eprintf ["-l option needs at least one argument"; nl] ;;; ret (inl 1)
        | _ =>
            ret (inr (mkSearchOptions (searched_device o) (Some rest) (multicastif o) (ipv6 o) (ttl o)))
        end
      else if bool_decide (arg = "-m") then
        match rest with
        | [] => needs_one "-m"
        | v :: rest' =>
            parse_args argv0 rest' (mkSearchOptions (searched_device o) (searched_devices o) (Some v) (ipv6 o) (ttl o))
        end
      else usage argv0 ;;; ret (inl 1)
  end.

(** The search; the ttl is an argument of [setsockopt] only. *)
Definition search (o : search_options) : Tool (list UPNPDev) :=
  match searched_device o, searched_devices o with
  | Some d, _ =>
      printf ["searching UPnP device type "; d; nl] ;;;
      let! (l, _) := lib (upnpDiscoverDevice d 2000 (multicastif o) None 0 (ipv6 o) (Some 0)) in ret l
  | None, Some ds =>
      printf ["searching UPnP device types :"; nl] ;;;
      for_each ds (fun d => printf [tab; d; nl]) ;;;
      let! (l, _) := lib (upnpDiscoverDevices ds 2000 (multicastif o) None 0 (ipv6 o) (Some 0) true) in
      ret l
  | None, None =>
      printf ["searching all UPnP devices"; nl] ;;;
      let! (l, _) := lib (upnpDiscoverAll 2000 (multicastif o) None 0 (ipv6 o) (Some 0)) in ret l
  end.
Definition show_devices (devlist : list UPNPDev) : Tool unit :=
  match devlist with
  | [] => printf ["no device found."; nl]
  | _ =>
      let! sorted_list := list_found 1 devlist [] in
      printf [nl] ;;; list_groups sorted_list
  end.
Definition main (argv : list string) : Tool Z :=
  let! o := parse_args (str (argv !! 0%nat)) (drop 1 argv) search_options0 in
  match o with
  | inl code => ret code
  | inr o =>
      let! devlist := search o in
      show_devices devlist ;;; ret 0
  end.
End ListDevices.

(** ** What the groups hold *)
Definition key (d : UPNPDev) : string * string * string := (dev_descURL d, dev_st d, dev_usn d).
Definition keys (g : upnp_dev_list) : list (string * string * string) := key <$> array g.

Section Grouped.
Context `{Os} {ML : MallocLaws} (pointer_text : string).

Definition group_ok (g : upnp_dev_list) : Prop :=
  (forall d, d ∈ array g -> dev_descURL d = descURL g) /\ NoDup (keys g) /\
  allocated_count g = capacity g /\ count g <= capacity g.
Definition groups_ok (l : list upnp_dev_list) : Prop :=
  NoDup (descURL <$> l) /\ Forall group_ok l.

Lemma runs_malloc size (s : Sys) (Q : bool -> Sys -> Prop) :
  (forall s', Q true s') -> runs (malloc size) s Q.
Proof using ML.
  intros HQ. unfold malloc. run. pose proof (malloc_ok (trace s) size).
  destruct (Z.eqb_spec (a_ret (os (trace s) (Malloc size))) 0); [done|]. apply HQ.
Qed.
Lemma key_eq a b :
  dev_descURL a = dev_descURL b -> same_st_usn a b = bool_decide (key a = key b).
Proof using.
  intros E. unfold same_st_usn, key. rewrite E.
  repeat case_bool_decide; simpl; try congruence; by simplify_eq.
Qed.
Lemma known_in_group g dev :
  group_ok g -> descURL g = dev_descURL dev ->
  existsb (fun d => same_st_usn d dev) (array g) = bool_decide (key dev ∈ keys g).
Proof using.
  intros (Hu & _) E. apply eq_bool_prop_intro.
  rewrite bool_decide_spec, existb_True, Exists_exists. unfold keys. rewrite list_elem_of_fmap.
  split; intros (d & H1 & H2); exists d.
  - rewrite key_eq in H2 by (rewrite Hu by done; done). apply bool_decide_spec in H2. auto.
  - split; [done|]. rewrite key_eq by (rewrite Hu by done; done). by apply bool_decide_spec.
Qed.
(** A device that is new to its group can be put behind the others, in a block that has room. *)
Lemma append_ends g dev n (st : Sys * Console) :
  group_ok g -> descURL g = dev_descURL dev -> key dev ∉ keys g -> count g < n ->
  runs (append (mkGroup (descURL g) (array g) n n) dev) st (fun g' _ => group_ok g' /\
    descURL g' = descURL g /\ forall k, k ∈ keys g' <-> k = key dev \/ k ∈ keys g).
Proof using.
  intros (Hu & Hnd & Ha & Hc) E Hnew Hn. unfold append, count in *. cbn [capacity array].
  destruct (Z.leb_spec n (Z.of_nat (length (array g)))); [lia|]. run. unfold group_ok, keys, count. simpl.
  rewrite fmap_app. split.
  - split; [|split; [|split; [done|rewrite length_app; simpl; lia]]].
    + intros d [Hd| ->%list_elem_of_singleton]%elem_of_app; [by apply Hu|done].
    + apply NoDup_app. split; [done|]. split; [|apply NoDup_singleton].
      intros k Hk ->%list_elem_of_singleton. done.
  - split; [done|]. intros k. rewrite elem_of_app. simpl. rewrite list_elem_of_singleton. tauto.
Qed.
Lemma add_to_group_ends g dev (st : Sys * Console) :
  group_ok g -> descURL g = dev_descURL dev ->
  runs (add_to_group pointer_text g dev) st (fun g' _ => group_ok g' /\
    descURL g' = descURL g /\ forall k, k ∈ keys g' <-> k = key dev \/ k ∈ keys g).
Proof using ML.
  intros Hok E. unfold add_to_group. rewrite known_in_group by done. case_bool_decide as Hin.
  { run. split; [done|]. split; [done|]. intros k. naive_solver. }
  pose proof Hok as (_ & _ & Ha & Hc). unfold ADD_DEVICE_COUNT_STEP.
  destruct (Z.leb_spec (allocated_count g) (count g)).
  - apply runs_bind, runs_lib, runs_malloc. intros s. apply append_ends; try done. lia.
  - replace g with (mkGroup (descURL g) (array g) (allocated_count g) (allocated_count g)) at 1
      by (rewrite Ha at 2; by destruct g). by apply append_ends.
Qed.

Definition keys_of (l : list upnp_dev_list) : list (string * string * string) := l ≫= keys.
Lemma keys_of_cons g l : keys_of (g :: l) = keys g ++ keys_of l.
Proof using. done. Qed.
Lemma find_group_ends l dev (st : Sys * Console) :
  groups_ok l ->
  runs (find_group pointer_text l dev) st (fun r _ =>
    match r with
    | None => dev_descURL dev ∉ descURL <$> l
    | Some l' => descURL <$> l' = descURL <$> l /\ Forall group_ok l' /\
        forall k, k ∈ keys_of l' <-> k = key dev \/ k ∈ keys_of l
    end).
Proof using ML.
  intros [Hnd Hok]. induction Hok as [|g l Hg Hl IH]; cbn [find_group]; [run; apply not_elem_of_nil|].
  apply NoDup_cons in Hnd as [Hng Hnd]. specialize (IH Hnd). case_bool_decide as E; apply runs_bind.
  - eapply runs_impl; [by apply add_to_group_ends|]. intros g' s (Hg' & Eu & Hk). run. csimpl.
    split; [by rewrite Eu|]. split; [by constructor|]. intros k.
    rewrite !elem_of_app, Hk. tauto.
  - eapply runs_impl; [exact IH|]. intros [l'|] s.
    + intros (Eu & Hl' & Hk). run. csimpl. split; [by rewrite Eu|]. split; [by constructor|].
      intros k. rewrite !elem_of_app, Hk. tauto.
    + intros Hn. run. csimpl. rewrite not_elem_of_cons. split; [congruence|done].
Qed.
Lemma add_device_ends l dev (st : Sys * Console) :
  groups_ok l ->
  runs (add_device pointer_text l dev) st (fun l' _ => groups_ok l' /\
    forall k, k ∈ keys_of l' <-> k = key dev \/ k ∈ keys_of l).
Proof using ML.
  intros Hl. unfold add_device. apply runs_bind. eapply runs_impl; [by apply find_group_ends|].
  pose proof Hl as [Hnd Hok]. intros [l'|] s.
  - intros (Eu & Hl' & Hk). run. split; [|done]. split; [by rewrite Eu|done].
  - intros Hnew. unfold new_group. apply runs_bind, runs_lib, runs_malloc. intros s1. cbn [negb].
    apply runs_bind, runs_lib. unfold strdup. apply runs_bind, runs_malloc. intros s2. run.
    apply runs_malloc. intros s3. cbn [negb]. run. split.
    + split; [by rewrite fmap_cons; constructor|]. constructor; [|done].
      split; [by intros d ->%list_elem_of_singleton|]. split; [apply NoDup_singleton|]. done.
    + intros k. rewrite keys_of_cons, elem_of_app. unfold keys at 1. simpl.
      rewrite list_elem_of_singleton. tauto.
Qed.

Lemma keys_of_nodup l : groups_ok l -> NoDup (keys_of l).
Proof using.
  intros [Hnd Hok]. induction Hok as [|g l (Hu & Hg & _) Hl IH]; [constructor|].
  apply NoDup_cons in Hnd as [Hng Hnd]. rewrite keys_of_cons. apply NoDup_app.
  split; [done|]. split; [|by apply IH]. intros k Hk Hk'.
  unfold keys in Hk. apply list_elem_of_fmap in Hk as (d & -> & Hd).
  apply list_elem_of_bind in Hk' as (g' & Hk' & Hg'). unfold keys in Hk'.
  apply list_elem_of_fmap in Hk' as (d' & Ek & Hd'). apply Hng, list_elem_of_fmap. exists g'. split; [|done].
  rewrite Forall_forall in Hl. destruct (Hl g' Hg') as (Hu' & _).
  rewrite <- (Hu d Hd), <- (Hu' d' Hd'). unfold key in Ek. congruence.
Qed.

Lemma list_found_ends i devlist l (st : Sys * Console) :
  groups_ok l ->
  runs (list_found pointer_text i devlist l) st (fun l' _ => groups_ok l' /\
    forall k, k ∈ keys_of l' <-> k ∈ keys_of l \/ k ∈ key <$> devlist).
Proof using ML.
  revert i l st. induction devlist as [|dev devlist IH]; intros i l st Hl; cbn [list_found].
  { run. split; [done|]. intros k. rewrite elem_of_nil. tauto. }
  run. eapply runs_impl; [by apply add_device_ends|]. intros l1 s1 [Hl1 Hk1].
  eapply runs_impl; [by apply IH|]. intros l2 s2 [Hl2 Hk2]. split; [done|].
  intros k. rewrite Hk2, Hk1. csimpl. rewrite elem_of_cons. tauto.
Qed.

(** The listing by groups shows every device once.  Whatever the search found, with
    duplicates and in any order, when allocations succeed the groups are built without a
    step that is undefined; no two groups have the same URL, every device stands under its
    own, and the devices of all groups are those found, without duplicates. *)
Theorem devices_grouped devlist st :
  exists l st', list_found pointer_text 1 devlist [] st = Ok (l, st') /\
    NoDup (descURL <$> l) /\
    (forall g d, g ∈ l -> d ∈ array g -> dev_descURL d = descURL g) /\
    keys_of l ≡ₚ remove_dups (key <$> devlist).
Proof using ML.
  destruct (list_found_ends 1 devlist [] st) as (l & st' & E & Hl & Hk); [by split; constructor|].
  exists l, st'. split; [done|]. pose proof Hl as [Hnd Hok]. split; [done|]. split.
  - intros g d Hg. rewrite Forall_forall in Hok. by apply Hok.
  - apply NoDup_Permutation; [by apply keys_of_nodup|apply NoDup_remove_dups|].
    intros k. rewrite Hk, elem_of_remove_dups. unfold keys_of. simpl. rewrite elem_of_nil. tauto.
Qed.
End Grouped.

(** ** A network with a router and a printer *)
#[local] Instance plenty : Os := fun _ _ => mkAnswer 1 0 "" 0 0 0 [].
#[local] Instance plenty_laws : MallocLaws.
Proof. by split. Qed.
Definition router : UPNPDev := make_dev "http://192.168.1.1/d.xml" "urn:x:InternetGatewayDevice:1" "uuid:1" 0.
Definition router_root : UPNPDev := make_dev "http://192.168.1.1/d.xml" "upnp:rootdevice" "uuid:1" 0.
Definition printer : UPNPDev := make_dev "http://192.168.1.9/p.xml" "upnp:rootdevice" "uuid:9" 0.
Lemma devices_grouped_witness :
  exists l st', list_found "" 1 [router; printer; router; router_root] [] (sys0, []) = Ok (l, st') /\
    keys_of l ≡ₚ [key printer; key router; key router_root] /\
    descURL <$> l = ["http://192.168.1.9/p.xml"; "http://192.168.1.1/d.xml"].
Proof.
  destruct (devices_grouped "" [router; printer; router; router_root] (sys0, []))
    as (l & st' & E & _ & _ & Hk).
  exists l, st'. split; [exact E|]. split.
  - rewrite Hk. apply (bool_decide_unpack _). vm_compute. exact I.
  - assert (match list_found "" 1 [router; printer; router; router_root] [] (sys0, []) with
      | Ok (l, _) => bool_decide (descURL <$> l = ["http://192.168.1.9/p.xml"; "http://192.168.1.1/d.xml"])
      | Err _ => false end = true) as Hb by (vm_compute; reflexivity).
    rewrite E in Hb. exact (bool_decide_eq_true_1 _ Hb).
Defined.

(** [allocated_count] grows also when [realloc] fails: the device after it is written behind
    the array. *)
Definition no_memory : Os := fun _ c =>
  match c with Malloc 256 => answer0 | _ => mkAnswer 1 0 "" 0 0 0 [] end.
Example realloc_failure_overruns :
  let devs n := map (fun i => make_dev "http://192.168.1.1/d.xml" "upnp:rootdevice" (dec (Z.of_nat i)) 0) (seq 0 n) in
  is_ok (list_found (H := no_memory) "" 1 (devs 17%nat) [] (sys0, [])) = true /\
  list_found (H := no_memory) "" 1 (devs 18%nat) [] (sys0, []) = Err Undefined.
Proof. vm_compute. split; reflexivity. Qed.
