(* ===== verification/UpnpTool.v ===== *)
(** * UpnpTool

    The command line tool of miniupnpc (src/peer/external/miniupnpc-2.1.20190408/upnpc.c):
    its options, the search for a gateway, and one function per command. *)
From S2P Require Import Prelude.
From S2P Require Import CStr.
From S2P Require Import CSys.
From S2P Require Import IgdDesc.
From S2P Require Import PortListing.
From S2P Require Import UpnpCommands.
From S2P Require Import MiniSsdp.
From S2P Require Import MiniUpnp.
From S2P Require Import Console.

(** ** Checks of arguments *)
(** The comparison with one name: each character is the name's, or that with bit 5 set,
    through the terminating zero. *)
Fixpoint proto_match (proto name : string) {struct name} : bool :=
  match name with
  | EmptyString =>
      let c := arg_char proto 0 in Ascii.eqb c NUL || Ascii.eqb c (chr 32)
  | String n name' =>
      match proto with
      | String c proto' =>
          (Ascii.eqb c n || Ascii.eqb c (ascii_of_byte (Z.lor (byte_of_ascii n) 32))) &&
          proto_match proto' name'
      | EmptyString => false
      end
  end.
Definition protofix (proto : string) : option string :=
  if proto_match proto "TCP" then Some "TCP"
  else if proto_match proto "UDP" then Some "UDP"
  else None.
Definition is_int (s : option string) : bool :=
  match s with None => false | Some s => digits_only s end.

Section UpnpTool.
Context `{Os} `{Patience}.
(** [ctime]; what the local arrays and integers hold before anything is stored there (an
    array up to its first zero). *)
Context (ctime : Z -> string) (stack : string) (stack_word : Z).

Section Commands.
Context (urls : UPNPUrls) (data : IGDdatas).

(** The actions on the connection, on the common interface and on the IPv6 firewall. *)
Definition wan {A} (f : option string -> option string -> M Sys A) : Tool A :=
  lib (f (controlURL urls) (Some (servicetype (first data)))).
Definition cif {A} (f : option string -> option string -> M Sys A) : Tool A :=
  lib (f (controlURL_CIF urls) (Some (servicetype (CIF data)))).
Definition firewall {A} (f : option string -> option string -> M Sys A) : Tool A :=
  lib (f (controlURL_6FC urls) (Some (servicetype (IPv6FC data)))).
Definition failed_with (r : Z) : list string :=
  ["failed with code "; dec r; " ("; strupnperror r; ")"; nl].

(** ** State of the connection *)
Definition bit_rate (rate : Z) : Tool unit :=
  if 1000000 <=? rate then
    printf [" ("; dec (rate / 1000000); "."; dec (rate / 100000 mod 10); " Mbps)"]
  else if 1000 <=? rate then printf [" ("; dec (rate / 1000); " Kbps)"]
  else ret tt.
Definition show_connection_type : Tool unit :=
  let! (r, connectionType) :=
    wan (fun u t => UPNP_GetConnectionTypeInfo u t (Some stack)) in
  if negb (r =? UPNPCOMMAND_SUCCESS) then printf ["GetConnectionTypeInfo failed."; nl]
  else printf ["Connection Type : "; str connectionType; nl].
Definition show_status : Tool unit :=
  let! (r, (status, uptime, lastconnerr)) :=
    wan (fun u t => UPNP_GetStatusInfo u t (Some stack) (Some 0) (Some stack)) in
  let uptime := default 0 uptime in
  (if negb (r =? UPNPCOMMAND_SUCCESS) then printf ["GetStatusInfo failed."; nl]
   else printf ["Status : "; str status; ", uptime="; dec uptime; "s, LastConnectionError : ";
                str lastconnerr; nl]) ;;;
  if 0 <? uptime then
    let! timenow := lib (sys Time) in
    printf ["  Time started : "; ctime (a_ret timenow - uptime)]
  else ret tt.
Definition show_bit_rates : Tool unit :=
  let! (r, (brDown, brUp)) :=
    cif (fun u t => UPNP_GetLinkLayerMaxBitRates u t (Some stack_word) (Some stack_word)) in
  let brDown := default 0 brDown in
  let brUp := default 0 brUp in
  if negb (r =? UPNPCOMMAND_SUCCESS) then printf ["GetLinkLayerMaxBitRates failed."; nl]
  else
    printf ["MaxBitRateDown : "; dec brDown; " bps"] ;;; bit_rate brDown ;;;
    printf ["   MaxBitRateUp "; dec brUp; " bps"] ;;; bit_rate brUp ;;;
    printf [nl].
Definition DisplayInfos : Tool unit :=
  show_connection_type ;;; show_status ;;; show_bit_rates ;;;
  let! (r, externalIPAddress) := wan (fun u t => UPNP_GetExternalIPAddress u t (Some stack)) in
  if negb (r =? UPNPCOMMAND_SUCCESS)
  then printf ["GetExternalIPAddress failed. (errorcode="; dec r; ")"; nl]
  else printf ["ExternalIPAddress = "; str externalIPAddress; nl].

Definition show_totals : Tool unit :=
  let! bytessent := cif UPNP_GetTotalBytesSent in
  let! bytesreceived := cif UPNP_GetTotalBytesReceived in
  let! packetssent := cif UPNP_GetTotalPacketsSent in
  let! packetsreceived := cif UPNP_GetTotalPacketsReceived in
  let u8 z := pad_left 8 (dec (wrap_u 32 z)) in
  printf ["Bytes:   Sent: "; u8 bytessent; tab; "Recv: "; u8 bytesreceived; nl] ;;;
  printf ["Packets: Sent: "; u8 packetssent; tab; "Recv: "; u8 packetsreceived; nl].
Definition GetConnectionStatus : Tool unit := DisplayInfos ;;; show_totals.

(** ** Listing the port mappings *)
Definition listing_header : Tool unit :=
  printf [" i protocol exPort->inAddr:inPort description remoteHost leaseTime"; nl].
Definition mapping_line (i : Z) (protocol extPort intClient intPort desc rHost duration : string) :
    list string :=
  [pad_left 2 (dec i); " "; protocol; " "; pad_left 5 extPort; "->"; intClient; ":";
   pad_right 5 intPort; " '"; desc; "' '"; rHost; "' "; duration; nl].
(** The arrays of a turn: all but [protocol] start with a zero. *)
Definition turn_arrays (protocol : string) : mapping_out :=
  mkOut (Some "") (Some "") (Some "") (Some protocol) (Some "") (Some "") (Some "") (Some "").
Fixpoint list_redirections (fuel : nat) (i : Z) (protocol : string) : Tool unit :=
  match fuel with
  | O => fail Undefined
  | S fuel' =>
      let! (r, o) :=
        wan (fun u t => UPNP_GetGenericPortMappingEntry u t (Some (str_take 5 (dec i)))
                          (turn_arrays protocol)) in
      (if r =? 0 then
         printf (mapping_line i (str (o_protocol o)) (str (o_extPort o)) (str (o_intClient o))
           (str (o_intPort o)) (str (o_desc o)) (str (o_rHost o)) (str (o_duration o)))
       else
         printf (["GetGenericPortMappingEntry() returned "; dec r; " ("; strupnperror r; ")"; nl])) ;;;
      if r =? 0 then
        if in_s 32 (i + 1) then list_redirections fuel' (i + 1) (str (o_protocol o)) else fail Undefined
      else ret tt
  end.
Definition ListRedirections : Tool unit := listing_header ;;; list_redirections patience 0 stack.

Fixpoint list_mappings (i : Z) (l : list PortMapping) : Tool Z :=
  match l with
  | [] => ret i
  | pm :: l' =>
      printf (mapping_line i (PortListing.protocol pm) (dec (externalPort pm)) (internalClient pm)
        (dec (internalPort pm)) (description pm) (remoteHost pm) (dec (leaseTime pm))) ;;;
      list_mappings (i + 1) l'
  end.
Definition get_list (protocol : string) (pdata : PortMappingParserData) :
    Tool (Z * PortMappingParserData) :=
  wan (fun u t => UPNP_GetListOfPortMappings u t (Some "0") (Some "65535") (Some protocol)
                    (Some "1000") pdata).
Definition list_failed (r : Z) : Tool unit :=
  printf ["GetListOfPortMappings() returned "; dec r; " ("; strupnperror r; ")"; nl].
(** The data of a call that failed is left for the next one. *)
Definition NewListRedirections : Tool unit :=
  let! (r, pdata) := get_list "TCP" PM_zero in
  let! (i, pdata) :=
    (if r =? UPNPCOMMAND_SUCCESS then
       listing_header ;;; let! i := list_mappings 0 (l_head pdata) in ret (i, FreePortListing pdata)
     else list_failed r ;;; ret (0, pdata)) in
  let! (r, pdata) := get_list "UDP" pdata in
  if r =? UPNPCOMMAND_SUCCESS then list_mappings i (l_head pdata) ;;; ret tt else list_failed r.

(** ** Adding and removing port mappings *)
(** The mapping that is looked up, in arrays of their own. *)
Definition lookup_arrays : mapping_out :=
  mkOut None (Some stack) (Some stack) None None None None (Some stack).
Definition confirm_mapping (externalIPAddress eport proto : string) : Tool Z :=
  let! (r, o) := wan (fun u t => UPNP_GetSpecificPortMappingEntry u t (Some eport) (Some proto) None
                                   lookup_arrays) in
  if negb (r =? UPNPCOMMAND_SUCCESS) then
    printf ("GetSpecificPortMappingEntry() " :: failed_with r) ;;; ret (-2)
  else
    printf ["InternalIP:Port = "; str (o_intClient o); ":"; str (o_intPort o); nl] ;;;
    printf ["external "; externalIPAddress; ":"; eport; " "; proto; " is redirected to internal ";
            str (o_intClient o); ":"; str (o_intPort o); " (duration="; str (o_duration o); ")"; nl] ;;;
    ret 0.
Definition add_failed (action iaddr iport eport : string) (r : Z) : Tool unit :=
  printf ([action; "("; eport; ", "; iport; ", "; iaddr; ") "] ++ failed_with r).
(** The external port in effect; [None] is the return with -2. *)
Definition add_mapping (iaddr iport eport proto leaseDuration : string) (description : option string)
    (addAny : bool) : Tool (option string) :=
  if addAny then
    let! (r, reservedPort) :=
      wan (fun u t => UPNP_AddAnyPortMapping u t (Some eport) (Some iport) (Some iaddr) description
                        (Some proto) None (Some leaseDuration) (Some stack)) in
    if r =? UPNPCOMMAND_SUCCESS then ret (Some (str reservedPort))
    else add_failed "AddAnyPortMapping" iaddr iport eport r ;;; ret (Some eport)
  else
    let! r :=
      wan (fun u t => UPNP_AddPortMapping u t (Some eport) (Some iport) (Some iaddr) description
                        (Some proto) None (Some leaseDuration)) in
    if negb (r =? UPNPCOMMAND_SUCCESS)
    then add_failed "AddPortMapping" iaddr iport eport r ;;; ret None
    else ret (Some eport).
Definition SetRedirectAndTest (iaddr iport eport proto : option string) (leaseDuration : string)
    (description : option string) (addAny : bool) : Tool Z :=
  match iaddr, iport, eport, proto with
  | Some iaddr, Some iport, Some eport, Some proto =>
      match protofix proto with
      | None => eprintf ["invalid protocol"; nl] ;;; ret (-1)
      | Some proto =>
          let! (r, externalIPAddress) := wan (fun u t => UPNP_GetExternalIPAddress u t (Some stack)) in
          (if negb (r =? UPNPCOMMAND_SUCCESS) then printf ["GetExternalIPAddress failed."; nl]
           else printf ["ExternalIPAddress = "; str externalIPAddress; nl]) ;;;
          let! eport := add_mapping iaddr iport eport proto leaseDuration description addAny in
          match eport with
          | None => ret (-2)
          | Some eport => confirm_mapping (str externalIPAddress) eport proto
          end
      end
  | _, _, _, _ => eprintf ["Wrong arguments"; nl] ;;; ret (-1)
  end.

(** How a removal ends. *)
Definition removal (action : string) (r : Z) : Tool Z :=
  if negb (r =? UPNPCOMMAND_SUCCESS)
  then printf [action; " failed with code : "; dec r; nl] ;;; ret (-2)
  else printf [action; " returned : "; dec r; nl] ;;; ret 0.
Definition RemoveRedirect (eport proto remoteHost : option string) : Tool Z :=
  match proto, eport with
  | Some proto, Some eport =>
      match protofix proto with
      | None => eprintf ["protocol invalid"; nl] ;;; ret (-1)
      | Some proto =>
          let! r := wan (fun u t => UPNP_DeletePortMapping u t (Some eport) (Some proto) remoteHost) in
          removal "UPNP_DeletePortMapping()" r
      end
  | _, _ => eprintf ["invalid arguments"; nl] ;;; ret (-1)
  end.
Definition RemoveRedirectRange (ePortStart ePortEnd proto manage : option string) : Tool Z :=
  let manage := default "0" manage in
  match proto, ePortStart, ePortEnd with
  | Some proto, Some ePortStart, Some ePortEnd =>
      match protofix proto with
      | None => eprintf ["protocol invalid"; nl] ;;; ret (-1)
      | Some proto =>
          let! r := wan (fun u t => UPNP_DeletePortMappingRange u t (Some ePortStart) (Some ePortEnd)
                                      (Some proto) (Some manage)) in
          removal "UPNP_DeletePortMappingRange()" r
      end
  | _, _, _ => eprintf ["invalid arguments"; nl] ;;; ret (-1)
  end.

(** ** The IPv6 firewall *)
Definition yes_no (z : Z) : string := if z =? 0 then "No" else "Yes".
Definition GetFirewallStatus : Tool unit :=
  let! (_, (enabled, allowed)) := firewall (fun u t => UPNP_GetFirewallStatus u t (Some 0) (Some 0)) in
  let firewallEnabled := default 0 enabled in
  let inboundPinholeAllowed := default 0 allowed in
  printf ["FirewallEnabled: "; dec firewallEnabled; " & Inbound Pinhole Allowed: ";
          dec inboundPinholeAllowed; nl] ;;;
  printf ["GetFirewallStatus:"; nl; "   Firewall Enabled: "; yes_no firewallEnabled; nl;
          "   Inbound Pinhole Allowed: "; yes_no inboundPinholeAllowed; nl] ;;;
  show_totals.

Definition IPPROTO_TCP : Z := 6.
Definition IPPROTO_UDP : Z := 17.
(** The protocol of a pinhole as a number; one that [atoi] reads as other than 0 is kept. *)
Definition pinhole_proto (proto : string) : option string :=
  if atoi proto =? 0 then
    match protofix proto with
    | Some p =>
        if bool_decide (p = "TCP") then Some (dec IPPROTO_TCP)
        else if bool_decide (p = "UDP") then Some (dec IPPROTO_UDP) else None
    | None => None
    end
  else Some proto.
Definition pinhole (from fport to tport : string) : string :=
  join ["(["; from; "]:"; fport; " -> ["; to; "]:"; tport; ")"].
Definition SetPinholeAndTest (remoteaddr eport intaddr iport proto lease_time : option string) :
    Tool unit :=
  match intaddr, remoteaddr, iport, eport, proto, lease_time with
  | Some ia, Some ra, Some ip, Some ep, Some proto, Some _ =>
      match pinhole_proto proto with
      | None => eprintf ["invalid protocol"; nl]
      | Some proto =>
          let! (r, uniqueID) :=
            firewall (fun u t => UPNP_AddPinhole u t remoteaddr eport intaddr iport (Some proto)
                                   lease_time (Some stack)) in
          if negb (r =? UPNPCOMMAND_SUCCESS)
          then printf (["AddPinhole"; pinhole ra ep ia ip; " "] ++ failed_with r)
          else printf ["AddPinhole: "; pinhole ra ep ia ip; " / Pinhole ID = "; str uniqueID; nl]
      end
  | _, _, _, _, _, _ => eprintf ["Wrong arguments"; nl]
  end.
Definition check_failed (r : Z) : Tool unit := printf ("CheckPinholeWorking() " :: failed_with r).
Definition working_line (uniqueID : string) (isWorking : Z) : Tool unit :=
  printf ["CheckPinholeWorking: Pinhole ID = "; uniqueID; " / IsWorking = "; yes_no isWorking; nl].
Definition GetPinholeAndUpdate (uniqueID lease_time : option string) : Tool unit :=
  match uniqueID, lease_time with
  | Some uid, Some lease =>
      let! (r, isWorking) := firewall (fun u t => UPNP_CheckPinholeWorking u t uniqueID (Some 0)) in
      let isWorking := default 0 isWorking in
      working_line uid isWorking ;;;
      (if negb (r =? UPNPCOMMAND_SUCCESS) then check_failed r else ret tt) ;;;
      if negb (isWorking =? 0) || (r =? 709) then
        let! r := firewall (fun u t => UPNP_UpdatePinhole u t uniqueID lease_time) in
        printf ["UpdatePinhole: Pinhole ID = "; uid; " with Lease Time: "; lease; nl] ;;;
        if negb (r =? UPNPCOMMAND_SUCCESS)
        then printf (["UpdatePinhole: ID ("; uid; ") "] ++ failed_with r) else ret tt
      else ret tt
  | _, _ => eprintf ["Wrong arguments"; nl]
  end.
(** Outbound: from the internal to the remote address. *)
Definition GetPinholeOutboundTimeout (remoteaddr eport intaddr iport proto : option string) : Tool unit :=
  match intaddr, remoteaddr, iport, eport, proto with
  | Some ia, Some ra, Some ip, Some ep, Some _ =>
      let! (r, timeout) :=
        firewall (fun u t => UPNP_GetOutboundPinholeTimeout u t remoteaddr eport intaddr iport proto
                               (Some 0)) in
      if negb (r =? UPNPCOMMAND_SUCCESS)
      then printf (["GetOutboundPinholeTimeout"; pinhole ia ip ra ep; " "] ++ failed_with r)
      else printf ["GetOutboundPinholeTimeout: "; pinhole ia ip ra ep; " / Timeout = ";
                   dec (default 0 timeout); nl]
  | _, _, _, _, _ => eprintf ["Wrong arguments"; nl]
  end.
Definition GetPinholePackets (uniqueID : option string) : Tool unit :=
  match uniqueID with
  | None => eprintf ["invalid arguments"; nl]
  | Some uid =>
      let! (r, packets) := firewall (fun u t => UPNP_GetPinholePackets u t uniqueID (Some 0)) in
      if negb (r =? UPNPCOMMAND_SUCCESS) then printf ("GetPinholePackets() " :: failed_with r)
      else printf ["GetPinholePackets: Pinhole ID = "; uid; " / PinholePackets = ";
                   dec (default 0 packets); nl]
  end.
Definition CheckPinhole (uniqueID : option string) : Tool unit :=
  match uniqueID with
  | None => eprintf ["invalid arguments"; nl]
  | Some uid =>
      let! (r, isWorking) := firewall (fun u t => UPNP_CheckPinholeWorking u t uniqueID (Some 0)) in
      if negb (r =? UPNPCOMMAND_SUCCESS) then check_failed r
      else working_line uid (default 0 isWorking)
  end.
Definition RemovePinhole (uniqueID : option string) : Tool unit :=
  match uniqueID with
  | None => eprintf ["invalid arguments"; nl]
  | Some _ =>
      let! r := firewall (fun u t => UPNP_DeletePinhole u t uniqueID) in
      printf ["UPNP_DeletePinhole() returned : "; dec r; nl]
  end.
End Commands.

(** ** Options *)
Record options : Type := mkOptions {
  command : ascii;
  commandargv : list string;
  rootdescurl : option string;
  multicastif : option string;
  minissdpdpath : option string;
  localport : Z;
  ipv6 : bool;
  ttl : Z;
  o_description : option string
}.
Definition UPNP_LOCAL_PORT_ANY : Z := 0.
Definition options0 : options := mkOptions NUL [] None None None UPNP_LOCAL_PORT_ANY false 2 None.
Definition set_command c args o := mkOptions c args (rootdescurl o) (multicastif o) (minissdpdpath o)
  (localport o) (ipv6 o) (ttl o) (o_description o).
Definition set_rootdescurl v o := mkOptions (command o) (commandargv o) v (multicastif o)
  (minissdpdpath o) (localport o) (ipv6 o) (ttl o) (o_description o).
Definition set_multicastif v o := mkOptions (command o) (commandargv o) (rootdescurl o) v
  (minissdpdpath o) (localport o) (ipv6 o) (ttl o) (o_description o).
Definition set_minissdpdpath v o := mkOptions (command o) (commandargv o) (rootdescurl o)
  (multicastif o) v (localport o) (ipv6 o) (ttl o) (o_description o).
Definition set_localport v o := mkOptions (command o) (commandargv o) (rootdescurl o)
  (multicastif o) (minissdpdpath o) v (ipv6 o) (ttl o) (o_description o).
Definition set_ipv6 o := mkOptions (command o) (commandargv o) (rootdescurl o) (multicastif o)
  (minissdpdpath o) (localport o) true (ttl o) (o_description o).
Definition set_ttl v o := mkOptions (command o) (commandargv o) (rootdescurl o) (multicastif o)
  (minissdpdpath o) (localport o) (ipv6 o) v (o_description o).
Definition set_description v o := mkOptions (command o) (commandargv o) (rootdescurl o)
  (multicastif o) (minissdpdpath o) (localport o) (ipv6 o) (ttl o) v.

(** [sscanf(s, "%d%c", &localport, &junk)] gives 1, the port is in range: the port. *)
Definition scan_port (s : string) : option Z :=
  let (_, t) := signed (skip_space s) in
  match scan_d s with
  | Some v =>
      if digits_only t && negb ((v <? 0) || (65535 <? v) || ((1 <? v) && (v <? 1024)))
      then Some v else None
  | None => None
  end.

(** What [argv[++i]] is, and the arguments behind it. *)
Definition next_arg (rest : list string) : option string * list string :=
  match rest with [] => (None, []) | v :: rest' => (Some v, rest') end.
(** The loop over the arguments: [args] are those from [argv[i]] on. *)
Fixpoint parse_options (fuel : nat) (args : list string) (o : options) : Tool options :=
  match fuel, args with
  | _, [] => ret o
  | O, _ => fail Undefined
  | S fuel', arg :: rest =>
      let (v, rest') := next_arg rest in
      if bool_decide (arg = "--help") || bool_decide (arg = "-h") then ret (set_command NUL [] o)
      else if negb (Ascii.eqb (arg_char arg 0) "-") then
        eprintf ["option '"; arg; "' invalid"; nl] ;;; parse_options fuel' rest o
      else
        let c := arg_char arg 1 in
        if Ascii.eqb c "u" then parse_options fuel' rest' (set_rootdescurl v o)
        else if Ascii.eqb c "m" then
          parse_options fuel' rest' (set_minissdpdpath (Some "") (set_multicastif v o))
        else if Ascii.eqb c "z" then
          match v with
          | None => fail Undefined   (* sscanf of a null pointer *)
          | Some p =>
              match scan_port p with
              | Some port => parse_options fuel' rest' (set_localport port o)
              | None =>
                  eprintf ["Invalid localport '"; p; "'"; nl] ;;;
                  ret (set_localport UPNP_LOCAL_PORT_ANY o)
              end
          end
        else if Ascii.eqb c "p" then parse_options fuel' rest' (set_minissdpdpath v o)
        else if Ascii.eqb c "6" then parse_options fuel' rest (set_ipv6 o)
        else if Ascii.eqb c "e" then parse_options fuel' rest' (set_description v o)
        else if Ascii.eqb c "t" then
          match v with
          | None => fail Undefined   (* atoi of a null pointer *)
          | Some t => parse_options fuel' rest' (set_ttl (wrap_u 8 (atoi t)) o)
          end
        else ret (set_command c rest o)
  end.

Definition usage_lines : list (string * string) :=
  [("-a ip port external_port protocol [duration]", "Add port redirection");
   ("-d external_port protocol <remote host>", "Delete port redirection");
   ("-s", "Get Connection status");
   ("-l", "List redirections");
   ("-L", "List redirections (using GetListOfPortMappings (for IGD:2 only)");
   ("-n ip port external_port protocol [duration]",
    "Add (any) port redirection allowing IGD to use alternative external_port (for IGD:2 only)");
   ("-N external_port_start external_port_end protocol [manage]",
    "Delete range of port redirections (for IGD:2 only)");
   ("-r port1 [external_port1] protocol1 [port2 [external_port2] protocol2] [...]",
    "Add all redirections to the current host");
   ("-A remote_ip remote_port internal_ip internal_port protocol lease_time",
    "Add Pinhole (for IGD:2 only)");
   ("-U uniqueID new_lease_time", "Update Pinhole (for IGD:2 only)");
   ("-C uniqueID", "Check if Pinhole is Working (for IGD:2 only)");
   ("-K uniqueID", "Get Number of packets going through the rule (for IGD:2 only)");
   ("-D uniqueID", "Delete Pinhole (for IGD:2 only)");
   ("-S", "Get Firewall status (for IGD:2 only)");
   ("-G remote_ip remote_port internal_ip internal_port protocol",
    "Get Outbound Pinhole Timeout (for IGD:2 only)");
   ("-P", "Get Presentation url")].
Fixpoint usage_commands (head argv0 : string) (l : list (string * string)) : Tool unit :=
  match l with
  | [] => ret tt
  | (c, what) :: l' =>
      eprintf [head; tab; argv0; " [options] "; c; nl; tab; tab; what; nl] ;;;
      usage_commands "       " argv0 l'
  end.
Definition usage (argv0 : string) : Tool unit :=
  usage_commands "Usage :" argv0 usage_lines ;;;
  eprintf [nl; "protocol is UDP or TCP"; nl] ;;;
  eprintf ["Options:"; nl] ;;;
  eprintf ["  -e description : set description for port mapping."; nl] ;;;
  eprintf ["  -6 : use ip v6 instead of ip v4."; nl] ;;;
  eprintf ["  -u url : bypass discovery process by providing the XML root description url."; nl] ;;;
  eprintf ["  -m address/interface : provide ip address (ip v4) or interface name (ip v4 or v6) to use for sending SSDP multicast packets."; nl] ;;;
  eprintf ["  -z localport : SSDP packets local (source) port (1024-65535)."; nl] ;;;
  eprintf ["  -p path : use this path for MiniSSDPd socket."; nl] ;;;
  eprintf ["  -t ttl : set multicast TTL. Default value is 2."; nl].
(** The guards of the commands; those of [d] and [r] look at [argc]. *)
Definition too_few (argc : Z) (o : options) : bool :=
  let commandargc := Z.of_nat (length (commandargv o)) in
  let cmd (c : ascii) := Ascii.eqb (command o) c in
  cmd NUL || (cmd "a"%char && (commandargc <? 4)) || (cmd "d"%char && (argc <? 2)) || (cmd "r"%char && (argc <? 2)) ||
  (cmd "A"%char && (commandargc <? 6)) || (cmd "U"%char && (commandargc <? 2)) || (cmd "D"%char && (commandargc <? 1)).

(** ** Commands *)
Section Dispatch.
Context (urls : UPNPUrls) (data : IGDdatas) (lanaddr : string) (o : options).

(** [commandargv[k]] *)
Definition carg (k : nat) : Tool (option string) := lift_out (argv_at (commandargv o) k).
(** [commandargc > k ? commandargv[k] : d] *)
Definition carg_or (k : nat) (d : option string) : option string :=
  match commandargv o !! k with Some s => Some s | None => d end.
Definition retcode_of (r : Z) : Z := if r <? 0 then 2 else 0.

Definition add_command (addAny : bool) : Tool Z :=
  let! a0 := carg 0 in let! a1 := carg 1 in let! a2 := carg 2 in let! a3 := carg 3 in
  let! r := SetRedirectAndTest urls data a0 a1 a2 a3 (default "0" (carg_or 4 None)) (o_description o) addAny in
  ret (retcode_of r).
Definition delete_command : Tool Z :=
  let! a0 := carg 0 in let! a1 := carg 1 in
  let! r := RemoveRedirect urls data a0 a1 (carg_or 2 None) in ret (retcode_of r).
Definition delete_range_command : Tool Z :=
  (if (length (commandargv o) <? 3)%nat then eprintf ["too few arguments"; nl] else ret tt) ;;;
  let! a0 := carg 0 in let! a1 := carg 1 in let! a2 := carg 2 in
  let! r := RemoveRedirectRange urls data a0 a1 a2 (carg_or 3 None) in ret (retcode_of r).
(** [-r]: the redirections to this host, from argument [i] on. *)
Fixpoint redirect_all (fuel : nat) (i : nat) (retcode : Z) : Tool Z :=
  match fuel with
  | O => fail Undefined
  | S fuel' =>
      if (length (commandargv o) <=? i)%nat then ret retcode
      else
        let! a0 := carg i in
        if negb (is_int a0) then
          eprintf ["command -r : "; str a0; " is not an port number"; nl] ;;; ret 1
        else
          let! a1 := carg (i + 1) in
          let worse r := if r <? 0 then 2 else retcode in
          if is_int a1 then
            let! a2 := carg (i + 2) in
            let! r := SetRedirectAndTest urls data (Some lanaddr) a0 a1 a2 "0" (o_description o) false in
            redirect_all fuel' (i + 3) (worse r)
          else
            let! r := SetRedirectAndTest urls data (Some lanaddr) a0 a0 a1 "0" (o_description o) false in
            redirect_all fuel' (i + 2) (worse r)
  end.
Definition pinhole_command : Tool Z :=
  let! a0 := carg 0 in let! a1 := carg 1 in let! a2 := carg 2 in
  let! a3 := carg 3 in let! a4 := carg 4 in let! a5 := carg 5 in
  SetPinholeAndTest urls data a0 a1 a2 a3 a4 a5 ;;; ret 0.
Definition outbound_command : Tool Z :=
  let! a0 := carg 0 in let! a1 := carg 1 in let! a2 := carg 2 in let! a3 := carg 3 in let! a4 := carg 4 in
  GetPinholeOutboundTimeout urls data a0 a1 a2 a3 a4 ;;; ret 0.
Definition for_args (f : option string -> Tool unit) : Tool Z :=
  for_each (commandargv o) (fun a => f (Some a)) ;;; ret 0.

Definition run_command : Tool Z :=
  let cmd (c : ascii) := Ascii.eqb (command o) c in
  if cmd "l"%char then DisplayInfos urls data ;;; ListRedirections urls data ;;; ret 0
  else if cmd "L"%char then NewListRedirections urls data ;;; ret 0
  else if cmd "a"%char then add_command false
  else if cmd "d"%char then delete_command
  else if cmd "n"%char then add_command true
  else if cmd "N"%char then delete_range_command
  else if cmd "s"%char then GetConnectionStatus urls data ;;; ret 0
  else if cmd "r"%char then redirect_all (S (length (commandargv o))) 0 0
  else if cmd "A"%char then pinhole_command
  else if cmd "U"%char then
    let! a0 := carg 0 in let! a1 := carg 1 in GetPinholeAndUpdate urls data a0 a1 ;;; ret 0
  else if cmd "C"%char then for_args (CheckPinhole urls data)
  else if cmd "K"%char then for_args (GetPinholePackets urls data)
  else if cmd "D"%char then for_args (RemovePinhole urls data)
  else if cmd "S"%char then GetFirewallStatus urls data ;;; ret 0
  else if cmd "G"%char then outbound_command
  else if cmd "P"%char then
    printf ["Presentation URL found:"; nl] ;;;
    printf ["            "; presentationurl data; nl] ;;; ret 0
  else eprintf ["Unknown switch -"; char_text (command o); nl] ;;; ret 1.
End Dispatch.

(** ** The gateway *)
Definition show_devlist (devlist : list UPNPDev) : Tool unit :=
  match devlist with
  | [] => ret tt
  | _ =>
      printf ["List of UPNP devices found on the network :"; nl] ;;;
      for_each devlist (fun d => printf [" desc: "; dev_descURL d; nl; " st: "; dev_st d; nl; nl])
  end.
(** The gateway of the URL that was given, else the best of the search; [lanaddr] with it.
    0 for none. *)
Definition choose_gateway (devlist : list UPNPDev) (o : options) :
    Tool (Z * UPNPUrls * IGDdatas * string) :=
  let! (given, urls, data, lanaddr) :=
    match rootdescurl o with
    | Some url =>
        let! (ok, urls, data, lan) :=
          lib (UPNP_GetIGDFromUrl url no_urls IGD_zero (Some "unset") 64) in
        ret (ok, urls, data, default "unset" lan)
    | None => ret (false, no_urls, IGD_zero, "unset")
    end in
  if (given : bool) then ret (1, urls, data, lanaddr)
  else
    let! (i, urls, data, lan) := lib (UPNP_GetValidIGD devlist urls data true 64) in
    ret (i, urls, data, default lanaddr lan).
Definition found_lines (i : Z) (url : string) : Tool unit :=
  let continue what := printf [what; url; nl] ;;; printf ["Trying to continue anyway"; nl] in
  if i =? 1 then printf ["Found valid IGD : "; url; nl]
  else if i =? 2 then continue "Found a (not connected?) IGD : "
  else if i =? 3 then continue "UPnP device found. Is it an IGD ? : "
  else continue "Found device (igd ?) : ".
Definition use_gateway (devlist : list UPNPDev) (o : options) : Tool Z :=
  let! (i, urls, data, lanaddr) := choose_gateway devlist o in
  if i =? 0 then eprintf ["No valid UPNP Internet Gateway Device found."; nl] ;;; ret 1
  else if i <? 0 then fail Undefined   (* no memory: urls was not stored, and is printed *)
  else
    found_lines i (str (controlURL urls)) ;;;
    printf ["Local LAN ip address : "; lanaddr; nl] ;;;
    run_command urls data lanaddr o.

Definition MINIUPNPC_VERSION_STRING : string := "2.1".
Definition main (argv : list string) : Tool Z :=
  printf ["upnpc : miniupnpc library test client, version "; MINIUPNPC_VERSION_STRING; "."; nl] ;;;
  printf [" (c) 2005-2019 Thomas Bernard."; nl] ;;;
  printf ["Go to http://miniupnp.free.fr/ or https://miniupnp.tuxfamily.org/"; nl;
          "for more information."; nl] ;;;
  let! o := parse_options (length argv) (drop 1 argv) options0 in
  if too_few (Z.of_nat (length argv)) o then usage (str (argv !! 0%nat)) ;;; ret 1
  else
    match rootdescurl o with
    | Some _ => use_gateway [] o
    | None =>
        let! (devlist, error) :=
          lib (upnpDiscover 2000 (multicastif o) (minissdpdpath o) (localport o) (ipv6 o) (Some 0)) in
        match devlist with
        | [] => eprintf ["No IGD UPnP Device found on the network !"; nl] ;;; ret 1
        | _ => show_devlist devlist ;;; use_gateway devlist o
        end
    end.
End UpnpTool.

(** ** The checks *)
(** A protocol is taken in any case, and also when a space and anything else follow: bit 5
    set in the terminating zero of the name gives a space. *)
Lemma same_letter (c : ascii) :
  (Ascii.eqb c "T" || Ascii.eqb c "t" = Ascii.eqb (to_lower c) "t") /\
  (Ascii.eqb c "C" || Ascii.eqb c "c" = Ascii.eqb (to_lower c) "c") /\
  (Ascii.eqb c "P" || Ascii.eqb c "p" = Ascii.eqb (to_lower c) "p").
Proof. destruct c as [[] [] [] [] [] [] [] []]; vm_compute; auto. Qed.
Theorem protofix_tcp proto :
  protofix proto = Some "TCP" <->
  strcasecmp_eq (str_take 3 proto) "tcp" = true /\
  (arg_char proto 3 = NUL \/ arg_char proto 3 = " "%char).
Proof.
  assert (protofix proto = Some "TCP" <-> proto_match proto "TCP" = true) as ->.
  { unfold protofix. repeat case_match; simplify_eq; naive_solver. }
  destruct proto as [|a [|b [|c proto]]]; [simpl; naive_solver|simpl; rewrite ?andb_false_r; naive_solver..|].
  change (proto_match (String a (String b (String c proto))) "TCP") with
    ((Ascii.eqb a "T" || Ascii.eqb a "t") && ((Ascii.eqb b "C" || Ascii.eqb b "c") &&
     ((Ascii.eqb c "P" || Ascii.eqb c "p") &&
      (Ascii.eqb (arg_char proto 0) NUL || Ascii.eqb (arg_char proto 0) (chr 32))))).
  destruct (same_letter a) as (-> & _), (same_letter b) as (_ & -> & _), (same_letter c) as (_ & _ & ->).
  change (str_take 3 (String a (String b (String c proto)))) with (String a (String b (String c ""))).
  change (strcasecmp_eq (String a (String b (String c ""))) "tcp") with
    (Ascii.eqb (to_lower a) "t" && (Ascii.eqb (to_lower b) "c" && (Ascii.eqb (to_lower c) "p" && true))).
  change (arg_char (String a (String b (String c proto))) 3) with (arg_char proto 0).
  rewrite !andb_true_iff, orb_true_iff, !Ascii.eqb_eq. change (chr 32) with " "%char. tauto.
Qed.
Example protofix_space : protofix "tcp and more" = Some "TCP" /\ protofix "TCPx" = None.
Proof. done. Qed.

(** ** Arguments that are not there *)
(** The guard of [-d] looks at [argc], which is never below 2 with a command: without
    arguments the second one is read behind [argv]. *)
Example delete_reads_past_argv `{Os} `{Patience} urls data argc st :
  let o := set_command "d" [] options0 in
  (2 <= argc -> too_few argc o = false) /\ delete_command urls data o st = Err Undefined.
Proof.
  intros o. split; [|reflexivity]. intros Ha. unfold too_few. cbn -[Z.ltb].
  by destruct (Z.ltb_spec argc 2); [lia|].
Qed.
(** [-N] prints that the arguments are too few and reads them. *)
Example delete_range_reads_past_argv `{Os} `{Patience} urls data st :
  delete_range_command urls data (set_command "N" ["80"] options0) st = Err Undefined.
Proof. reflexivity. Qed.
