(* ===== verification/GatewayTable.v ===== *)
(** * GatewayTable

    A gateway as its table of port mappings (the service WANIPConnection:1), and what the
    program makes of it through the whole path of an action: [simpleUPnPcommand] connects,
    writes the envelope, sends the request and reads the response, and the mapping of the
    game's port by [PortMappingHandler] is made of such actions.  The gateway is a hypothesis
    on the operating system: what a request it is sent does to its table, and with which
    document it responds. *)
From S2P Require Import Prelude.
From S2P Require Import CStr.
From S2P Require Import CSys.
From S2P Require Import XmlDocument.
From S2P Require Import ParseUrl.
From S2P Require Import UpnpReply.
From S2P Require Import ParserKeeps.
From S2P Require Import HttpResponse.
From S2P Require Import HttpHeaders.
From S2P Require Import HttpBody.
From S2P Require Import Connect.
From S2P Require Import Soap.
From S2P Require Import Exchange.
From S2P Require Import IgdDesc.
From S2P Require Import UpnpCommands.
From S2P Require Import MiniSsdp.
From S2P Require Import MiniUpnp.
From S2P Require Import PortMapping.
From S2P Require Import Console.
From S2P Require Import UpnpTool.

(** ** The table

    A mapping is identified by the remote host, the external port and the protocol. *)
Definition mapping_key (e : entry) : string * string * string := (rHost e, extPort e, protocol e).
Definition has_key (k : string * string * string) (e : entry) : bool := bool_decide (mapping_key e = k).
Definition gw_find (k : string * string * string) (t : list entry) : option entry := List.find (has_key k) t.
(** A mapping of the same client is overwritten, one of another client is a conflict. *)
Definition gw_add (e : entry) (t : list entry) : Z * list entry :=
  match gw_find (mapping_key e) t with
  | Some e' =>
      if bool_decide (intClient e' = intClient e)
      then (0, (fun x => if has_key (mapping_key e) x then e else x) <$> t) else (718, t)
  | None => (0, t ++ [e])
  end.
Definition without (k : string * string * string) (t : list entry) : list entry :=
  filter (fun e => has_key k e = false) t.
Definition gw_delete (k : string * string * string) (t : list entry) : Z * list entry :=
  match gw_find k t with Some _ => (0, without k t) | None => (714, t) end.

(** The number of mappings and their index are of 16 bits. *)
Definition max_mappings : Z := 65536.

(** What the gateway says. *)
Definition done_reply (action : string) : doc :=
  soap (Leaf (mkName "u" (action +:+ "Response")) [] "" "" Empty).
Definition code_reply (action : string) (code : Z) : doc :=
  if code =? 0 then done_reply action else fault (dec code).
Definition index_reply (t : list entry) (i : Z) : doc :=
  match t !! Z.to_nat i with Some e => entry_reply e | None => fault "713" end.

(** What an action does at the gateway: the document it answers with and the table it
    leaves. *)
Definition delete_args (port proto : string) : list UPNParg :=
  [("NewRemoteHost", None); ("NewExternalPort", Some port); ("NewProtocol", Some proto)].
Inductive does (t : list entry) : string -> list UPNParg -> doc -> list entry -> Prop :=
  | does_get i : 0 <= i < max_mappings ->
      (forall e, t !! Z.to_nat i = Some e -> entry_fits e = true) ->
      does t "GetGenericPortMappingEntry" [("NewPortMappingIndex", Some (dec i))] (index_reply t i) t
  | does_add port int client desc proto lease r t' :
      gw_add (mkEntry "" port proto int client "1" desc lease) t = (r, t') ->
      does t "AddPortMapping"
        (AddPortMappingArgs (Some port) (Some int) (Some client) (Some desc) (Some proto) None (Some lease))
        (code_reply "AddPortMapping" r) t'
  | does_delete port proto r t' :
      gw_delete ("", port, proto) t = (r, t') ->
      does t "DeletePortMapping" (delete_args port proto) (code_reply "DeletePortMapping" r) t'.

(** Values that need no escape in XML. *)
Definition clean (s : string) : bool :=
  str_all (fun c => negb (Ascii.eqb c "<") && negb (Ascii.eqb c "&") && negb (Ascii.eqb c NUL)) s.
Definition clean_args (args : list UPNParg) : bool := forallb (fun a => clean (default "" a.2)) args.

(** ** The gateway on the network

    It can be reached under the URL, it hears nothing but what is sent, and a request for
    one of the three actions, with values that need no escape, is answered with a response
    that holds the document, and changes the table. *)
Class TableGateway `{Os} `{Patience} (url service : string) : Type := {
  gw_parts : url_parts;
  gw_url : reads_url url gw_parts;
  gw_reach : Reaches (hostname gw_parts) (port gw_parts);
  gw_short : slen (path gw_parts) + slen (hostname gw_parts) <= 128 /\ slen service <= 100;
  table_at : list (call * Answer) -> list entry;
  table_keys_at : forall t, NoDup (mapping_key <$> table_at t);
  table_silent : forall t x, silent x -> table_at (t ++ [x]) = table_at t;
  table_answers : forall t fd action args dc t', 0 <= fd ->
    does (table_at t) action args dc t' -> clean_args args = true ->
    sendable gw_parts service action args = true ->
    let req := request gw_parts service action args in
    let a := os t (Send fd req) in
    0 < a_ret a /\ table_at (t ++ [(Send fd req, a)]) = t' /\ responds (t ++ [(Send fd req, a)]) fd dc
}.
Definition table `{TableGateway} (s : Sys) : list entry := table_at (trace s).

(** ** Facts about the table *)
Definition foreign (lan : string) (t : list entry) : list entry := filter (fun e => intClient e <> lan) t.

Lemma gw_find_some k t e : gw_find k t = Some e -> e ∈ t /\ mapping_key e = k.
Proof.
  intros E. apply find_some in E as [Hin Hk]. split; [by apply list_elem_of_In|].
  by apply bool_decide_eq_true_1 in Hk.
Qed.
Lemma gw_find_none k t e : gw_find k t = None -> e ∈ t -> mapping_key e <> k.
Proof.
  intros E Hin. apply list_elem_of_In in Hin. pose proof (find_none _ _ E _ Hin) as Hk.
  by apply bool_decide_eq_false_1 in Hk.
Qed.
Lemma gw_find_elem k t e :
  NoDup (mapping_key <$> t) -> e ∈ t -> mapping_key e = k -> gw_find k t = Some e.
Proof.
  intros Hnd He Hk. destruct (gw_find k t) as [e'|] eqn:E; [|by destruct (gw_find_none _ _ _ E He)].
  apply gw_find_some in E as [He' Hk']. f_equal.
  apply list_elem_of_lookup in He as [i Hi]. apply list_elem_of_lookup in He' as [j Hj].
  assert (i = j) as ->; [|congruence].
  eapply NoDup_lookup; [exact Hnd|rewrite list_lookup_fmap, Hi; simpl; reflexivity|].
  rewrite list_lookup_fmap, Hj. simpl. congruence.
Qed.
Lemma without_other k t e : e ∈ without k t <-> mapping_key e <> k /\ e ∈ t.
Proof. unfold without. rewrite list_elem_of_filter. unfold has_key. by rewrite bool_decide_eq_false. Qed.

(** Another client holds the key. *)
Definition held (lan : string) (k : string * string * string) (t : list entry) : bool :=
  existsb (has_key k) (foreign lan t).
Lemma held_spec lan k t :
  held lan k t = true <-> exists e, e ∈ t /\ intClient e <> lan /\ mapping_key e = k.
Proof.
  unfold held. rewrite existsb_exists. split.
  - intros (e & He & Hk). apply list_elem_of_In, list_elem_of_filter in He as [Hc He].
    exists e. by apply bool_decide_eq_true_1 in Hk.
  - intros (e & He & Hc & Hk). exists e. split; [by apply list_elem_of_In, list_elem_of_filter|].
    by apply bool_decide_eq_true_2.
Qed.
Lemma not_held lan k t e :
  NoDup (mapping_key <$> t) -> e ∈ t -> mapping_key e = k -> intClient e = lan -> held lan k t = false.
Proof.
  intros Hnd He Hk Hc. apply not_true_iff_false. rewrite held_spec. intros (e' & He' & Hc' & Hk').
  pose proof (gw_find_elem k t e Hnd He Hk). pose proof (gw_find_elem k t e' Hnd He' Hk'). congruence.
Qed.

Lemma foreign_without lan k t : foreign lan (without k t) = without k (foreign lan t).
Proof.
  unfold foreign, without. rewrite !list_filter_filter. apply list_filter_iff. intros x. tauto.
Qed.
Lemma without_all k t : existsb (has_key k) t = false -> without k t = t.
Proof.
  unfold without. induction t as [|e t IH]; [done|]. simpl. intros [He Ht]%orb_false_elim.
  rewrite filter_cons_True by done. by rewrite IH.
Qed.
Lemma foreign_without_same lan k t : held lan k t = false -> foreign lan (without k t) = foreign lan t.
Proof. intros Hh. rewrite foreign_without. by apply without_all. Qed.

(** Removing leaves the other clients' mappings, except that of the key. *)
Lemma gw_delete_foreign lan k t :
  foreign lan (gw_delete k t).2 = without k (foreign lan t).
Proof.
  unfold gw_delete. destruct (gw_find k t) as [e|] eqn:E; [apply foreign_without|].
  symmetry. apply without_all. destruct (existsb _ _) eqn:Ex; [|done]. exfalso.
  apply existsb_exists in Ex as (e & He & Hk). apply list_elem_of_In, list_elem_of_filter in He as [_ He].
  apply (gw_find_none k t e E He). by apply bool_decide_eq_true_1 in Hk.
Qed.
(** Overwriting in place. *)
Definition overwritten (e : entry) (t : list entry) : list entry :=
  (fun x => if has_key (mapping_key e) x then e else x) <$> t.
Lemma has_key_true k e : has_key k e = true <-> mapping_key e = k.
Proof. unfold has_key. apply bool_decide_eq_true. Qed.
Lemma has_key_false k e : has_key k e = false <-> mapping_key e <> k.
Proof. unfold has_key. apply bool_decide_eq_false. Qed.
Lemma overwritten_find e t :
  (exists e', e' ∈ t /\ mapping_key e' = mapping_key e) -> gw_find (mapping_key e) (overwritten e t) = Some e.
Proof.
  intros (e' & He' & Hk). unfold overwritten, gw_find.
  induction t as [|x t IH]; [by apply not_elem_of_nil in He'|]. cbn [fmap list_fmap List.find].
  destruct (has_key (mapping_key e) x) eqn:Ex; [by rewrite (proj2 (has_key_true _ e) eq_refl)|].
  rewrite Ex. apply elem_of_cons in He' as [->|He']; [|by apply IH].
  by apply has_key_false in Ex.
Qed.
Lemma overwritten_other e t k : k <> mapping_key e -> gw_find k (overwritten e t) = gw_find k t.
Proof.
  intros Hk. unfold overwritten, gw_find. induction t as [|x t IH]; [done|]. cbn [fmap list_fmap List.find].
  destruct (has_key (mapping_key e) x) eqn:Ex; [|by rewrite IH].
  rewrite (proj2 (has_key_false k e)) by done. apply has_key_true in Ex.
  rewrite (proj2 (has_key_false k x)) by congruence. exact IH.
Qed.
Lemma overwritten_foreign e t :
  (forall x, x ∈ t -> mapping_key x = mapping_key e -> intClient x = intClient e) ->
  foreign (intClient e) (overwritten e t) = foreign (intClient e) t.
Proof.
  intros Hown. unfold overwritten, foreign. induction t as [|x t IH]; [done|]. cbn [fmap list_fmap].
  assert (forall y, y ∈ t -> mapping_key y = mapping_key e -> intClient y = intClient e) as Ht
    by (intros y Hy; apply Hown; by right).
  destruct (has_key (mapping_key e) x) eqn:Ex.
  - apply has_key_true in Ex. rewrite !filter_cons_False; [by apply IH| |]; [|by intros []].
    intros Hc. apply Hc, Hown; [by left|done].
  - rewrite !filter_cons. case_decide; [f_equal|]; by apply IH.
Qed.

(** Adding: a conflict when another client holds the key, otherwise the mapping is there. *)
Lemma gw_add_effect e t :
  NoDup (mapping_key <$> t) ->
  let (r, t') := gw_add e t in
  if held (intClient e) (mapping_key e) t then r = 718 /\ t' = t
  else r = 0 /\ gw_find (mapping_key e) t' = Some e /\
    foreign (intClient e) t' = foreign (intClient e) t /\
    (forall k, k <> mapping_key e -> gw_find k t' = gw_find k t).
Proof.
  intros Hnd. unfold gw_add. destruct (gw_find (mapping_key e) t) as [e'|] eqn:E.
  - pose proof (gw_find_some _ _ _ E) as [He' Hk']. case_bool_decide as Hc.
    + rewrite (not_held _ _ _ e') by done. split; [done|]. fold (overwritten e t).
      split; [by apply overwritten_find; exists e'|]. split; [|by intros; apply overwritten_other].
      apply overwritten_foreign. intros x Hx Hkx.
      pose proof (gw_find_elem _ _ _ Hnd Hx Hkx). congruence.
    + assert (held (intClient e) (mapping_key e) t = true) as -> by (apply held_spec; by exists e').
      done.
  - destruct (held _ _ _) eqn:Eh.
    { apply held_spec in Eh as (x & Hx & _ & Hk). by destruct (gw_find_none _ _ _ E Hx). }
    split; [done|]. assert (forall k l, gw_find k (t ++ l) =
      match gw_find k t with Some x => Some x | None => gw_find k l end) as Happ.
    { intros k l. unfold gw_find. clear. induction t as [|x t IH]; [done|]. simpl.
      by destruct (has_key k x). }
    rewrite Happ, E. split; [unfold gw_find; simpl; by rewrite (proj2 (has_key_true _ e) eq_refl)|].
    split.
    + unfold foreign. rewrite filter_app, filter_cons_False, filter_nil; [by rewrite app_nil_r|by intros []].
    + intros k Hk. rewrite Happ. destruct (gw_find k t); [done|]. unfold gw_find. simpl.
      by rewrite (proj2 (has_key_false k e)) by done.
Qed.

(** ** Sizes and characters of what is sent *)
Lemma str_all_dec_digits f fuel z :
  (forall d, 0 <= d < 10 -> f (ascii_of_byte (48 + d)) = true) -> str_all f (dec_digits fuel z) = true.
Proof.
  intros Hf. revert z. induction fuel as [|fuel IH]; intros z; [done|]. cbn [dec_digits].
  assert (f (ascii_of_byte (48 + z mod 10)) = true) as Hd by (apply Hf, Z.mod_pos_bound; lia).
  destruct (z <? 10); [cbn [str_all]; by rewrite Hd|]. rewrite str_all_app, IH. cbn [str_all]. by rewrite Hd.
Qed.
Lemma str_all_dec f z :
  f "-"%char = true -> (forall d, 0 <= d < 10 -> f (ascii_of_byte (48 + d)) = true) -> str_all f (dec z) = true.
Proof.
  intros Hm Hf. unfold dec. destruct (z <? 0); [cbn [str_all]; rewrite Hm|]; by apply str_all_dec_digits.
Qed.
Lemma digits_all f : forallb (fun d => f (ascii_of_byte (48 + d))) [0; 1; 2; 3; 4; 5; 6; 7; 8; 9] = true ->
  forall d, 0 <= d < 10 -> f (ascii_of_byte (48 + d)) = true.
Proof.
  intros Hf d Hd. rewrite forallb_forall in Hf. apply Hf. cbn [In]. lia.
Qed.
Lemma clean_dec z : clean (dec z) = true.
Proof.
  unfold clean. set (f := fun c => _). apply str_all_dec; [done|]. by apply (digits_all f).
Qed.
Lemma length_dec_digits_fuel fuel z : (String.length (dec_digits fuel z) <= fuel)%nat.
Proof.
  revert z. induction fuel as [|fuel IH]; intros z; [done|]. cbn [dec_digits].
  destruct (z <? 10); [cbn [String.length]; lia|]. rewrite length_app_str. cbn [String.length]. specialize (IH (z / 10)). lia.
Qed.
Lemma slen_dec z : slen (dec z) <= 21.
Proof.
  unfold dec, slen. pose proof (length_dec_digits_fuel 20 z). pose proof (length_dec_digits_fuel 20 (- z)).
  destruct (z <? 0); cbn [String.length]; lia.
Qed.
Lemma slen_print_arg n v : slen (print_arg (n, v)) = 5 + 2 * slen n + slen (default "" v).
Proof.
  unfold print_arg. cbn [fst snd]. rewrite !slen_app. change (slen "<") with 1. change (slen ">") with 1.
  change (slen "</") with 2. lia.
Qed.
Lemma slen_envelope service action args :
  slen (envelope service action args) = slen envelope_head + 2 * slen action + slen service + 44 +
    slen (join (map print_arg args)).
Proof.
  unfold envelope, action_head, quoted. rewrite !slen_app. change (String DQ (service +:+ String DQ "")) with
    (String DQ "" +:+ service +:+ String DQ ""). rewrite !slen_app.
  change (slen envelope_tail) with 25. change (slen (String DQ "")) with 1. change (slen "<u:") with 3.
  change (slen " xmlns:u=") with 9. change (slen ">") with 1. change (slen "</u:") with 4. lia.
Qed.
Lemma slen_head u service action n :
  slen (path u) + slen (hostname u) <= 128 ->
  slen (soap_headers (path u) (hostname u) (port u) (soapact service action) n "1.1") < 512.
Proof.
  intros Hp. unfold soap_headers.
  change (String DQ (soapact service action +:+ String DQ CRLF)) with
    (String DQ "" +:+ soapact service action +:+ String DQ CRLF).
  rewrite !slen_app. pose proof (slen_dec n).
  assert (slen (port_str (port u)) <= 22).
  { unfold port_str. destruct (_ =? 80); [by vm_compute|]. rewrite slen_app. pose proof (slen_dec (port u)).
    change (slen ":") with 1. lia. }
  assert (slen (soapact service action) <= 127).
  { unfold soapact, slen. rewrite str_take_length. lia. }
  change (slen "POST ") with 5. change (slen " HTTP/") with 6. change (slen "1.1") with 3.
  change (slen CRLF) with 2. change (slen "Host: ") with 6. assert (slen USER_AGENT <= 60) by (by vm_compute).
  change (slen "Content-Length: ") with 16. change (slen "Content-Type: text/xml") with 22.
  change (slen "SOAPAction: ") with 12. change (slen (String DQ "")) with 1.
  change (slen (String DQ CRLF)) with 3. change (slen "Connection: Close") with 17.
  change (slen "Cache-Control: no-cache") with 23. change (slen "Pragma: no-cache") with 16.
  lia.
Qed.

(** ** The actions on it *)
Section Actions.
Context `{Os} `{Patience} {ML : MallocLaws} (url service : string)
  {G : TableGateway url service}.

Lemma table_keys s : NoDup (mapping_key <$> table s).
Proof using. apply table_keys_at. Qed.
Lemma table_silent_app t u : Forall silent u -> table_at (t ++ u) = table_at t.
Proof using.
  intros Hu. induction u as [|x u IH] using rev_ind; [by rewrite app_nil_r|].
  apply Forall_app in Hu as [Hu Hx]. apply Forall_cons in Hx as [Hx _]. by rewrite app_assoc, table_silent, IH.
Qed.
Lemma table_silently s s' : silently s s' -> table s' = table s.
Proof using. intros (u & E & Hu). unfold table. rewrite E. by apply table_silent_app. Qed.
Lemma table_malloc size : leaves table (malloc size).
Proof using.
  intros s a s' E. apply table_silently. unfold malloc, sys, bind, ret in E. injection E as _ <-.
  eexists [_]. split; [done|by repeat constructor].
Qed.

(** What the headers leave of the limits. *)
Lemma sendable_fits action args :
  sendable gw_parts service action args = (slen (envelope service action args) <? 2048).
Proof using.
  unfold sendable. rewrite (proj2 (Z.ltb_lt _ 512)); [by rewrite andb_true_r|]. apply slen_head. apply gw_short.
Qed.
Lemma sendable_short action args :
  slen action <= 40 -> slen (join (map print_arg args)) <= 1500 -> sendable gw_parts service action args = true.
Proof using.
  intros Ha Hl. rewrite sendable_fits. apply Z.ltb_lt. rewrite slen_envelope.
  pose proof (proj2 gw_short). change (slen envelope_head) with 155. lia.
Qed.

(** A whole action. *)
Lemma runs_call n action args dc t' s (Q : Z + NameValueParserData -> Sys -> Prop) :
  doc_ok dc = true -> does (table s) action args dc t' -> clean_args args = true ->
  sendable gw_parts service action args = true ->
  (forall pdata s', (forall name, GetValueFromNameValueList pdata name = value_in dc name) ->
    table s' = t' -> Q (inr pdata) s') ->
  runs (call_with_args (Some url) (Some service) n action args) s Q.
Proof using ML.
  intros Hd Ha Hc Hs HQ. unfold call_with_args.
  destruct (malloc_true (n * sizeof_UPNParg) s) as [s1 E1].
  pose proof (table_malloc _ _ _ _ E1) as Ht1. rewrite <- Ht1 in Ha.
  assert (0 < patience)%nat as Hpat.
  { destruct (table_answers (trace s1) 0 _ _ _ _ ltac:(done) Ha Hc Hs) as (_ & _ & (? & ? & ? & ? & ? & ? & _ & _ & _ & _ & Hp & _)). lia. }
  destruct (exchange url gw_parts service action (Some args) dc s1 gw_url gw_reach Hpat Hs)
    as (prolog & tail & s2 & Hp & E2 & fd & s3 & s4 & H13 & Hfd & E4 & H42).
  { intros fd s3 H13 Hfd. cbv zeta. pose proof (table_silently _ _ H13) as Ht3. rewrite <- Ht3 in Ha.
    by destruct (table_answers (trace s3) fd _ _ _ _ Hfd Ha Hc Hs) as (? & _ & ?). }
  assert (table s2 = t') as Ht2.
  { rewrite (table_silently _ _ H42). pose proof (table_silently _ _ H13) as Ht3. rewrite <- Ht3 in Ha.
    unfold table. rewrite E4. by destruct (table_answers (trace s3) fd _ _ _ _ Hfd Ha Hc Hs) as (_ & ? & _). }
  destruct (ParseNameValue_document prolog dc tail s2 Hp Hd) as (pdata & s5 & E5 & Hl & _).
  pose proof (ParseNameValue_leaves table table_malloc _ _ _ _ _ E5) as Ht5.
  exists (inr pdata), s5. split.
  - erewrite bind_step by exact E1. cbn [negb]. unfold call_action.
    unfold bind. rewrite E2, E5. done.
  - apply HQ; [|congruence]. intros name. unfold GetValueFromNameValueList. by rewrite Hl.
Qed.
(** An action whose envelope does not fit is not sent. *)
Lemma too_long n action args s :
  2048 <= slen (envelope service action args) ->
  runs (call_with_args (Some url) (Some service) n action args) s (fun r s' =>
    r = inl UPNPCOMMAND_HTTP_ERROR /\ table s' = table s).
Proof using ML.
  intros Hl. unfold call_with_args. destruct (malloc_true (n * sizeof_UPNParg) s) as [s1 E1].
  exists (inl UPNPCOMMAND_HTTP_ERROR), s1. split; [|split; [done|by eapply table_malloc]].
  erewrite bind_step by exact E1. cbn [negb]. unfold call_action, simpleUPnPcommand, simpleUPnPcommand2.
  unfold bind at 1 2 3. unfold lift_out. rewrite soap_body_text. cbv zeta. change (default [] (Some args)) with args.
  destruct (Z.ltb_spec (slen (envelope service action args)) 2048); [lia|]. done.
Qed.

Lemma get_entry i o s :
  0 <= i < max_mappings -> Forall (fun e => entry_fits e = true) (table s) -> all_given o = true ->
  runs (UPNP_GetGenericPortMappingEntry (Some url) (Some service) (Some (dec i)) o) s (fun '(r, o') s' =>
    table s' = table s /\
    match table s !! Z.to_nat i with Some e => r = 0 /\ o' = entry_out e | None => r = 713 end).
Proof using ML.
  intros Hi Hf Ho. unfold UPNP_GetGenericPortMappingEntry.
  assert (is_Some (o_intClient o) /\ is_Some (o_intPort o)) as [[? ->] [? ->]].
  { unfold all_given in Ho. rewrite forallb_forall in Ho.
    split; apply (bool_decide_unpack _), Is_true_eq_left, Ho; simpl; auto. }
  apply runs_bind. eapply (runs_call _ _ _ (index_reply (table s) i) (table s)).
  - unfold index_reply. destruct (table s !! Z.to_nat i) as [e|] eqn:E; [|reflexivity].
    apply entry_reply_ok. rewrite Forall_lookup in Hf. by eapply Hf.
  - apply does_get; [done|]. intros e E. rewrite Forall_lookup in Hf. by eapply Hf.
  - unfold clean_args. cbn [forallb fst snd default]. unfold id. by rewrite clean_dec.
  - apply sendable_short; [done|]. unfold join. cbn [map foldr]. rewrite str_app_nil_r, slen_print_arg.
    pose proof (slen_dec i). cbn [default]. unfold id. change (slen "NewPortMappingIndex") with 19. lia.
  - intros pdata s' Hv Ht. apply runs_ret. unfold index_reply in Hv.
    destruct (table s !! Z.to_nat i) as [e|] eqn:E.
    + rewrite Forall_lookup in Hf.
      rewrite (generic_entry_reply pdata e); [by repeat split|by eapply Hf|done|done].
    + unfold generic_entry, error_or. rewrite !Hv. by split.
Qed.

Lemma code_of_reply action code pdata :
  action = "AddPortMapping" \/ action = "DeletePortMapping" -> code = 0 \/ code = 714 \/ code = 718 ->
  doc_ok (code_reply action code) = true /\
  ((forall name, GetValueFromNameValueList pdata name = value_in (code_reply action code) name) ->
   result_code (inr pdata) = code).
Proof using.
  intros Ha Hc. split; [by destruct Ha as [-> | ->], Hc as [-> | [-> | ->]]|]. intros Hv.
  unfold result_code, error_or. rewrite Hv. by destruct Ha as [-> | ->], Hc as [-> | [-> | ->]].
Qed.

Lemma delete_ends port proto s :
  clean port = true -> clean proto = true -> slen port + slen proto <= 1000 ->
  runs (UPNP_DeletePortMapping (Some url) (Some service) (Some port) (Some proto) None) s (fun r s' =>
    gw_delete ("", port, proto) (table s) = (r, table s')).
Proof using ML.
  intros Hp Hq Hl. unfold UPNP_DeletePortMapping. apply runs_bind.
  destruct (gw_delete ("", port, proto) (table s)) as [r t'] eqn:E.
  assert (r = 0 \/ r = 714 \/ r = 718) as Hr.
  { unfold gw_delete in E. destruct (gw_find _ _); injection E as <- <-; auto. }
  eapply runs_call.
  - apply (code_of_reply "DeletePortMapping" r NV_zero); auto.
  - by apply does_delete.
  - unfold clean_args, delete_args. cbn [forallb fst snd default]. unfold id. by rewrite Hp, Hq.
  - apply sendable_short; [done|]. unfold join. cbn [map foldr]. rewrite str_app_nil_r, !slen_app, !slen_print_arg.
    cbn [default]. unfold id. change (slen "NewRemoteHost") with 13. change (slen "NewExternalPort") with 15.
    change (slen "NewProtocol") with 11. change (slen "") with 0. lia.
  - intros pdata s' Hv <-. apply runs_ret. f_equal. symmetry.
    by apply (code_of_reply "DeletePortMapping" r pdata); auto.
Qed.
Definition add_args (port int client desc proto lease : string) : list UPNParg :=
  AddPortMappingArgs (Some port) (Some int) (Some client) (Some desc) (Some proto) None (Some lease).
Lemma add_ends port int client desc proto lease s :
  clean_args (add_args port int client desc proto lease) = true ->
  runs (UPNP_AddPortMapping (Some url) (Some service) (Some port) (Some int) (Some client) (Some desc)
          (Some proto) None (Some lease)) s (fun r s' =>
    if slen (envelope service "AddPortMapping" (add_args port int client desc proto lease)) <? 2048
    then gw_add (mkEntry "" port proto int client "1" desc lease) (table s) = (r, table s')
    else r = UPNPCOMMAND_HTTP_ERROR /\ table s' = table s).
Proof using ML.
  intros Hc. unfold UPNP_AddPortMapping. apply runs_bind. fold (add_args port int client desc proto lease).
  destruct (Z.ltb_spec (slen (envelope service "AddPortMapping" (add_args port int client desc proto lease))) 2048)
    as [Hfit|Hlong].
  2: { eapply runs_impl; [by apply too_long|]. intros r s' [-> Ht]. by apply runs_ret. }
  destruct (gw_add (mkEntry "" port proto int client "1" desc lease) (table s)) as [r t'] eqn:E.
  assert (r = 0 \/ r = 714 \/ r = 718) as Hr.
  { unfold gw_add in E. destruct (gw_find _ _); [case_bool_decide|]; injection E as <- <-; auto. }
  eapply runs_call.
  - apply (code_of_reply "AddPortMapping" r NV_zero); auto.
  - by apply does_add.
  - exact Hc.
  - rewrite sendable_fits. by apply Z.ltb_lt.
  - intros pdata s' Hv <-. apply runs_ret. f_equal. symmetry.
    by apply (code_of_reply "AddPortMapping" r pdata); auto.
Qed.

(** ** The port of the game *)
Context (urls : UPNPUrls) (data : IGDdatas) (h : PortMappingHandler).
Hypothesis has_device : upnpDevice h <> [].
Hypothesis has_urls : upnp_urls h = Some urls /\ controlURL urls = Some url.
Hypothesis has_data : upnp_data h = Some data /\ servicetype (first data) = service.
Hypothesis lan_clean : clean (lanAddress h) = true.

(** The mappings can be read back, with ports and protocols that need no escape, and the
    host's own are for any remote host. *)
Definition readable (t : list entry) : Prop :=
  Forall (fun e => entry_fits e && (clean (extPort e) && clean (protocol e)) = true) t /\
  Forall (fun e => is_ok (stoi (intPort e)) = true) t /\
  Forall (fun e => intClient e = lanAddress h -> rHost e = "") t.
Lemma readable_without k t : readable t -> readable (without k t).
Proof using.
  unfold readable, without. rewrite !Forall_forall. setoid_rewrite list_elem_of_filter.
  intros (H1 & H2 & H3). repeat split; intros x [_ Hx]; auto with nocore.
Qed.
Lemma length_without k t : (length (without k t) <= length t)%nat.
Proof using. apply length_filter. Qed.

Lemma clear_mappings_ends fuel index p s n :
  readable (table s) -> (length (table s) - Z.to_nat index < fuel)%nat ->
  0 <= index <= n -> Z.of_nat (length (table s)) <= n -> n < max_mappings ->
  runs (clear_mappings fuel index p (Some url) (Some service) h) s (fun b s' =>
    b = true /\ foreign (lanAddress h) (table s') = foreign (lanAddress h) (table s)).
Proof using ML.
  revert index s. induction fuel as [|fuel IH]; intros index s Hr Hl Hi Ht Hn; [lia|]. cbn [clear_mappings].
  pose proof Hr as (Hf & Hp & Ho). apply runs_bind.
  eapply runs_impl; [apply get_entry; [lia| |done]|].
  { eapply Forall_impl; [exact Hf|]. by intros e [He _]%andb_prop. }
  intros [r o] s1 [Et Hget]. destruct (table s !! Z.to_nat index) as [e|] eqn:Ee.
  2: { rewrite Hget. cbn. apply runs_ret. by rewrite Et. }
  destruct Hget as [-> ->]. pose proof (lookup_lt_Some _ _ _ Ee). cbn [Z.eqb negb].
  pose proof (list_elem_of_lookup_2 _ _ _ Ee) as He. rewrite Forall_forall in Hp, Ho, Hf.
  specialize (Hp e He). destruct (andb_prop _ _ (Hf e He)) as [Hfe [Hce Hcp]%andb_prop]. apply runs_bind. cbn [entry_out o_intPort o_intClient o_extPort o_protocol default]. unfold id.
  destruct (stoi (intPort e)) as [q|]; [|done]. exists q, s1. split; [done|].
  assert (forall s2, readable (table s2) -> (length (table s2) <= length (table s))%nat ->
    foreign (lanAddress h) (table s2) = foreign (lanAddress h) (table s) ->
    runs (clear_mappings fuel (index + 1) p (Some url) (Some service) h) s2 (fun b s' =>
      b = true /\ foreign (lanAddress h) (table s') = foreign (lanAddress h) (table s))) as Hrest.
  { intros s2 Hr2 Hl2 <-. apply IH; [done|rewrite Z2Nat.inj_add by lia; simpl; lia|lia..]. }
  destruct ((q =? p) && bool_decide (intClient e = lanAddress h)) eqn:Hmine.
  2: { apply Hrest; by rewrite Et. }
  apply andb_prop in Hmine as [_ Hc%bool_decide_eq_true_1]. specialize (Ho e He Hc).
  apply runs_bind. eapply runs_impl; [apply delete_ends; [done..|]|].
  { unfold entry_fits in Hfe. rewrite !andb_true_iff in Hfe. destruct Hfe as [[[[[[[_ H2] H3] _] _] _] _] _].
    unfold text_fits in H2, H3. apply andb_prop in H2 as [_ H2%Nat.leb_le]. apply andb_prop in H3 as [_ H3%Nat.leb_le].
    unfold slen. lia. }
  intros r s2. rewrite Et. intros Ed.
  assert (gw_find ("", extPort e, protocol e) (table s) = Some e) as Hfind.
  { apply gw_find_elem; [apply table_keys|done|]. unfold mapping_key. by rewrite Ho. }
  unfold gw_delete in Ed. rewrite Hfind in Ed. injection Ed as <- Ed. cbn [Z.eqb negb].
  apply Hrest; rewrite <- Ed; [by apply readable_without|apply length_without|].
  apply foreign_without_same. apply (not_held _ _ _ e); [apply table_keys|done| |done].
  unfold mapping_key. by rewrite Ho.
Qed.

Lemma device_known : exists d l, upnpDevice h = d :: l.
Proof using has_device. destruct (upnpDevice h) as [|d l]; [done|]. by exists d, l. Qed.
Definition game_mapping (p : Z) (proto desc : string) : entry :=
  mkEntry "" (dec p) proto (dec p) (lanAddress h) "1" desc "86400".
(** The request for the mapping can be written. *)
Definition mapping_args (p : Z) (proto desc : string) : list UPNParg :=
  add_args (dec p) (dec p) (lanAddress h) desc proto "86400".
Definition mapping_fits (p : Z) (desc : string) : bool :=
  slen (envelope service "AddPortMapping" (mapping_args p "UDP" desc)) <? 2048.
Lemma mapping_fits_proto p desc proto : slen proto = 3 ->
  (slen (envelope service "AddPortMapping" (mapping_args p proto desc)) <? 2048) = mapping_fits p desc.
Proof using.
  intros Hp. unfold mapping_fits. f_equal. rewrite !slen_envelope. f_equal.
  unfold mapping_args, add_args, AddPortMappingArgs, join. cbn [map foldr]. rewrite !slen_app, !slen_print_arg.
  cbn [default]. unfold id. change (slen "UDP") with 3. lia.
Qed.
Lemma mapping_ends p proto desc s :
  slen proto = 3 -> clean proto = true -> clean desc = true ->
  runs (PortMapping.add_mapping (Some url) (Some service) p desc proto h) s (fun r s' =>
    let k := ("", dec p, proto) in let lan := lanAddress h in
    if negb (mapping_fits p desc) then r = UPNPCOMMAND_HTTP_ERROR /\ table s' = table s
    else if held lan k (table s) then r = 718 /\ table s' = table s
    else r = 0 /\ gw_find k (table s') = Some (game_mapping p proto desc) /\
      foreign lan (table s') = foreign lan (table s) /\
      (forall k', k' <> k -> gw_find k' (table s') = gw_find k' (table s))).
Proof using ML lan_clean.
  intros Hp Hcp Hcd. unfold PortMapping.add_mapping. eapply runs_impl; [apply add_ends|].
  { unfold clean_args, add_args, AddPortMappingArgs. cbn [forallb fst snd default]. unfold id.
    by rewrite clean_dec, Hcp, Hcd, lan_clean. }
  intros r s'. fold (mapping_args p proto desc). rewrite mapping_fits_proto by done.
  destruct (mapping_fits p desc); [|done]. cbn [negb]. intros E.
  pose proof (gw_add_effect (game_mapping p proto desc) (table s) (table_keys s)) as Hadd.
  unfold game_mapping in *. rewrite E in Hadd. exact Hadd.
Qed.
Lemma unmap_ends p s :
  runs (unmapPort p h) s (fun _ s' => forall lan,
    foreign lan (table s') = without ("", dec p, "TCP") (without ("", dec p, "UDP") (foreign lan (table s)))).
Proof using ML has_device has_urls has_data.
  unfold unmapPort. destruct device_known as (d & l & ->). unfold control.
  rewrite (proj1 has_urls), (proj1 has_data), (proj2 has_urls), (proj2 has_data). apply runs_bind, runs_ret.
  assert (forall proto, slen proto = 3 -> slen (dec p) + slen proto <= 1000) as Hshort
    by (intros proto ->; pose proof (slen_dec p); lia).
  apply runs_bind. eapply runs_impl; [apply delete_ends; [apply clean_dec|done|by apply Hshort]|]. intros r1 s1 E1.
  apply runs_bind. eapply runs_impl; [apply delete_ends; [apply clean_dec|done|by apply Hshort]|]. intros r2 s2 E2.
  apply runs_ret.
  intros lan. pose proof (gw_delete_foreign lan ("", dec p, "UDP") (table s)) as H1.
  pose proof (gw_delete_foreign lan ("", dec p, "TCP") (table s1)) as H2.
  rewrite E1 in H1. rewrite E2 in H2. simpl in *. by rewrite H2, H1.
Qed.

End Actions.

(** Both operations keep the keys apart. *)
Lemma gw_delete_keys k t : NoDup (mapping_key <$> t) -> NoDup (mapping_key <$> (gw_delete k t).2).
Proof.
  intros Hnd. unfold gw_delete. destruct (gw_find k t); [|done]. simpl. unfold without.
  induction t as [|x t IH]; [constructor|]. apply NoDup_cons in Hnd as [Hx Hnd].
  rewrite filter_cons. case_decide; [|by apply IH]. apply NoDup_cons. split; [|by apply IH].
  intros (y & Hk & Hy)%list_elem_of_fmap. apply list_elem_of_filter in Hy as [_ Hy].
  apply Hx, list_elem_of_fmap. by exists y.
Qed.
Lemma gw_add_keys e t : NoDup (mapping_key <$> t) -> NoDup (mapping_key <$> (gw_add e t).2).
Proof.
  intros Hnd. unfold gw_add. destruct (gw_find _ t) as [e'|] eqn:E.
  - case_bool_decide; [|done]. simpl. replace (mapping_key <$> _) with (mapping_key <$> t); [done|].
    rewrite <- list_fmap_compose. apply list_fmap_ext. intros i x _. simpl.
    destruct (has_key (mapping_key e) x) eqn:Ex; [by apply has_key_true in Ex|done].
  - simpl. rewrite fmap_app. apply NoDup_app. split; [done|]. split; [|apply NoDup_singleton].
    intros k (x & -> & Hx)%list_elem_of_fmap Hk%list_elem_of_singleton.
    by destruct (gw_find_none _ _ _ E Hx).
Qed.

(** ** A gateway

    It cuts a request at every [<], finds the action in the fifth piece and the values of
    the arguments by their names in those behind it. *)
Fixpoint pieces (s : string) : list string :=
  match s with
  | EmptyString => [""]
  | String c s' =>
      if Ascii.eqb c "<" then "" :: pieces s'
      else match pieces s' with p :: l => String c p :: l | [] => [] end
  end.
Definition value_of_arg (l : list string) (name : string) : string :=
  match List.find (starts_with (name +:+ ">")) l with
  | Some p => str_drop (String.length name + 1) p
  | None => ""
  end.
Definition serve_request (t : list entry) (req : string) : doc * list entry :=
  match pieces req with
  | _ :: _ :: _ :: _ :: u :: l =>
      let arg := value_of_arg l in
      if starts_with "u:AddPortMapping " u then
        let (r, t') := gw_add (mkEntry (arg "NewRemoteHost") (arg "NewExternalPort") (arg "NewProtocol")
          (arg "NewInternalPort") (arg "NewInternalClient") (arg "NewEnabled")
          (arg "NewPortMappingDescription") (arg "NewLeaseDuration")) t in
        (code_reply "AddPortMapping" r, t')
      else if starts_with "u:DeletePortMapping " u then
        let (r, t') := gw_delete (arg "NewRemoteHost", arg "NewExternalPort", arg "NewProtocol") t in
        (code_reply "DeletePortMapping" r, t')
      else (index_reply t (atoi (arg "NewPortMappingIndex")), t)
  | _ => (fault "401", t)
  end.
(** Its table after a trace, from what was sent in it. *)
Definition table_step (t : list entry) (x : call * Answer) : list entry :=
  match x.1 with Send _ req => (serve_request t req).2 | _ => t end.
Definition replay (initial : list entry) (tr : list (call * Answer)) : list entry :=
  foldl table_step initial tr.
Definition keeping_os (initial : list entry) : Os :=
  responder (fun t req => http_response (serve_request (replay initial t) req).1) 300.

Lemma pieces_app a b : str_all (fun c => negb (Ascii.eqb c "<")) a = true ->
  pieces (a +:+ String "<" b) = a :: pieces b.
Proof.
  induction a as [|c a IH]; [done|]. cbn [str_all]. intros [Hc Ha]%andb_prop. apply negb_true_iff in Hc.
  rewrite app_cons. cbn [pieces]. by rewrite Hc, IH.
Qed.
Lemma clean_no_lt s : clean s = true -> str_all (fun c => negb (Ascii.eqb c "<")) s = true.
Proof. apply str_all_impl. intros c Hc. by apply andb_prop in Hc as [[? _]%andb_prop _]. Qed.

(** The pieces of the arguments. *)
Definition arg_pieces (a : UPNParg) : list string := [a.1 +:+ ">" +:+ default "" a.2; "/" +:+ a.1 +:+ ">"].
Lemma pieces_args args rest :
  forallb (fun a => str_all (fun c => negb (Ascii.eqb c "<")) a.1) args = true -> clean_args args = true ->
  pieces (join (map print_arg args) +:+ String "<" rest) = "" :: flat_map arg_pieces args ++ pieces rest.
Proof.
  intros Hn Hc. induction args as [|[n v] args IH]; [done|].
  cbn [forallb clean_args fst snd] in Hn, Hc. apply andb_prop in Hn as [Hn1 Hn], Hc as [Hc1 Hc].
  specialize (IH Hn Hc). change (map print_arg ((n, v) :: args)) with (print_arg (n, v) :: map print_arg args).
  assert (join (print_arg (n, v) :: map print_arg args) +:+ String "<" rest =
    String "<" ((n +:+ ">" +:+ default "" v) +:+ String "<" (("/" +:+ n +:+ ">") +:+
      (join (map print_arg args) +:+ String "<" rest)))) as ->.
  { unfold join, print_arg. cbn [foldr fst snd]. by rewrite !str_app_assoc. }
  cbn [pieces flat_map arg_pieces app fst snd]. change (Ascii.eqb "<" "<") with true. cbv iota. f_equal.
  rewrite pieces_app.
  2: { rewrite !str_all_app, Hn1. cbn [str_all]. by apply clean_no_lt in Hc1. }
  f_equal. destruct (join (map print_arg args) +:+ String "<" rest) as [|c b] eqn:E.
  { by destruct (join (map print_arg args)). }
  cbn [pieces] in IH. destruct (Ascii.eqb_spec c "<") as [->|].
  - injection IH as IH. rewrite pieces_app; [by rewrite IH|]. rewrite !str_all_app, Hn1. done.
  - destruct (pieces b); discriminate.
Qed.

(** What it reads in a request of the program. *)
Definition home : url_parts := mkParts "192.168.1.1" 80 "/ctl".
Lemma pieces_request action args :
  str_all (fun c => negb (Ascii.eqb c "<")) action = true ->
  forallb (fun a => str_all (fun c => negb (Ascii.eqb c "<")) a.1) args = true -> clean_args args = true ->
  exists p1 p2 p3 p4, pieces (request home "" action args) =
    p1 :: p2 :: p3 :: p4 :: ("u:" +:+ action +:+ " xmlns:u=" +:+ quoted "" +:+ ">") ::
    flat_map arg_pieces args ++ pieces ("/u:" +:+ action +:+ envelope_tail).
Proof.
  intros Ha Hn Hc. unfold request. cbv zeta. set (head := soap_headers _ _ _ _ _ _).
  assert (str_all (fun c => negb (Ascii.eqb c "<")) head = true) as Hh.
  { unfold head, soap_headers. change (String DQ (soapact "" action +:+ String DQ CRLF)) with
      (String DQ "" +:+ soapact "" action +:+ String DQ CRLF).
    rewrite !str_all_app.
    assert (forall z, str_all (fun c => negb (Ascii.eqb c "<")) (dec z) = true) as ->
      by (intros z; apply clean_no_lt, clean_dec).
    assert (str_all (fun c => negb (Ascii.eqb c "<")) (soapact "" action) = true) as ->; [|done].
    unfold soapact. change ("" +:+ "#" +:+ action) with (String "#" action).
    assert (forall n s, str_all (fun c => negb (Ascii.eqb c "<")) s = true ->
      str_all (fun c => negb (Ascii.eqb c "<")) (str_take n s) = true) as Htake; [|by apply Htake].
    induction n as [|n IH]; [done|]. intros [|c s]; [done|]. cbn [str_take str_all].
    intros [-> Hs]%andb_prop. by rewrite IH. }
  exists head, ("?xml version=" +:+ quoted "1.0" +:+ "?>" +:+ CRLF),
    ("s:Envelope xmlns:s=" +:+ quoted "http://schemas.xmlsoap.org/soap/envelope/" +:+
     " s:encodingStyle=" +:+ quoted "http://schemas.xmlsoap.org/soap/encoding/" +:+ ">"), "s:Body>".
  assert (envelope "" action args = String "<" (("?xml version=" +:+ quoted "1.0" +:+ "?>" +:+ CRLF) +:+
    String "<" (("s:Envelope xmlns:s=" +:+ quoted "http://schemas.xmlsoap.org/soap/envelope/" +:+
     " s:encodingStyle=" +:+ quoted "http://schemas.xmlsoap.org/soap/encoding/" +:+ ">") +:+
    String "<" ("s:Body>" +:+ String "<" (("u:" +:+ action +:+ " xmlns:u=" +:+ quoted "" +:+ ">") +:+
    (join (map print_arg args) +:+ String "<" ("/u:" +:+ action +:+ envelope_tail))))))) as ->.
  { unfold envelope, envelope_head, action_head. by rewrite !str_app_assoc. }
  rewrite pieces_app by exact Hh. f_equal. rewrite pieces_app by reflexivity. f_equal.
  rewrite pieces_app by reflexivity. f_equal. rewrite pieces_app by reflexivity. f_equal.
  pose proof (pieces_args args ("/u:" +:+ action +:+ envelope_tail) Hn Hc) as E.
  destruct (join (map print_arg args) +:+ String "<" ("/u:" +:+ action +:+ envelope_tail)) as [|c b] eqn:Eb.
  { by destruct (join (map print_arg args)). }
  cbn [pieces] in E. destruct (Ascii.eqb_spec c "<") as [->|].
  - injection E as E. rewrite pieces_app; [by rewrite E|]. rewrite !str_all_app, Ha. done.
  - destruct (pieces b); discriminate.
Qed.

(** It does what the standard says. *)
Lemma serve_request_does t action args dc t' :
  does t action args dc t' -> clean_args args = true ->
  serve_request t (request home "" action args) = (dc, t').
Proof.
  intros Hd Hc. destruct (pieces_request action args) as (p1 & p2 & p3 & p4 & E);
    [by destruct Hd|by destruct Hd|done|].
  unfold serve_request. rewrite E. destruct Hd as [i Hi _|port int client desc proto lease r t' Ea|port proto r t' Ea].
  - cbn [flat_map arg_pieces app fst snd default]. unfold id.
    change (starts_with "u:AddPortMapping " _) with false. change (starts_with "u:DeletePortMapping " _) with false.
    cbv iota zeta. assert (forall l, value_of_arg (("NewPortMappingIndex" +:+ ">" +:+ dec i) :: l) "NewPortMappingIndex" = dec i)
      as -> by done. by rewrite atoi_dec by (unfold max_mappings in Hi; lia).
  - change (starts_with "u:AddPortMapping " _) with true. cbv iota zeta.
    match goal with |- context [gw_add ?e t] =>
      change e with (mkEntry "" port proto int client "1" desc lease) end.
    by rewrite Ea.
  - change (starts_with "u:AddPortMapping " _) with false. change (starts_with "u:DeletePortMapping " _) with true.
    cbv iota zeta. match goal with |- context [gw_delete ?k t] => change k with ("", port, proto) end.
    by rewrite Ea.
Qed.

(** The answers are short. *)
Lemma length_print_leaf n text rest :
  String.length (print (leaf n text rest)) =
  (5 + 2 * String.length n + String.length text + String.length (print rest))%nat.
Proof.
  unfold leaf. cbn [print]. unfold start_tag, end_tag, print_atts, print_name. cbn [prefix local].
  rewrite bool_decide_true by done. cbn [map join foldr]. len.
Qed.
Lemma length_http_response dc : (String.length (http_response dc) <= 100 + String.length (print dc))%nat.
Proof.
  unfold http_response, encode. rewrite !length_app_str.
  change (String.length (print_head _ _)) with 50%nat. change (String.length xml_declaration) with 23%nat. lia.
Qed.
Lemma length_entry_reply e : entry_fits e = true -> (String.length (print (entry_reply e)) <= 1100)%nat.
Proof.
  unfold entry_fits. rewrite !andb_true_iff. intros [[[[[[[H1 H2] H3] H4] H5] H6] H7] H8].
  unfold text_fits in *. apply andb_prop in H1 as [_ H1%Nat.leb_le], H2 as [_ H2%Nat.leb_le],
    H3 as [_ H3%Nat.leb_le], H4 as [_ H4%Nat.leb_le], H5 as [_ H5%Nat.leb_le], H6 as [_ H6%Nat.leb_le],
    H7 as [_ H7%Nat.leb_le], H8 as [_ H8%Nat.leb_le].
  unfold entry_reply. set (b := leaf "NewRemoteHost" _ _).
  assert (String.length (print b) <= 700)%nat as Hb.
  { unfold b. rewrite !length_print_leaf. cbn [String.length print]. lia. }
  clearbody b. unfold soap. cbn [print]. rewrite !length_app_str.
  change (String.length (start_tag (mkName "s" "Envelope") _)) with 64%nat.
  change (String.length (start_tag (mkName "s" "Body") _)) with 8%nat.
  change (String.length (start_tag (mkName "u" "GetGenericPortMappingEntryResponse") _)) with 95%nat.
  change (String.length (end_tag (mkName "s" "Envelope"))) with 13%nat.
  change (String.length (end_tag (mkName "s" "Body"))) with 9%nat.
  change (String.length (end_tag (mkName "u" "GetGenericPortMappingEntryResponse"))) with 39%nat.
  cbn [String.length]. lia.
Qed.
Lemma does_short t action args dc t' :
  does t action args dc t' -> (String.length (http_response dc) < 1300)%nat.
Proof.
  intros Hd. pose proof (length_http_response dc).
  assert (String.length (print dc) <= 1100)%nat; [|lia].
  assert (forall action code, action = "AddPortMapping" \/ action = "DeletePortMapping" ->
    code = 0 \/ code = 714 \/ code = 718 -> (String.length (print (code_reply action code)) <= 1100)%nat) as Hcode
    by (intros a c [-> | ->] [-> | [-> | ->]]; vm_compute; lia).
  destruct Hd as [i Hi Hf|port int client desc proto lease r t' Ea|port proto r t' Ea].
  - unfold index_reply. destruct (t !! Z.to_nat i) as [e|]; [by apply length_entry_reply, Hf|vm_compute; lia].
  - apply Hcode; [by left|]. unfold gw_add in Ea. destruct (gw_find _ _); [case_bool_decide|]; simplify_eq; auto.
  - apply Hcode; [by right|]. unfold gw_delete in Ea. destruct (gw_find _ _); simplify_eq; auto.
Qed.

Section Keeping.
Context (initial : list entry).
Hypothesis initial_keys : NoDup (mapping_key <$> initial).
#[local] Instance patience_1500 : Patience := 1500%nat.
#[local] Existing Instance keeping_os.

Lemma serve_request_keys t req :
  NoDup (mapping_key <$> t) -> NoDup (mapping_key <$> (serve_request t req).2).
Proof using.
  intros Ht. unfold serve_request. destruct (pieces req) as [|? [|? [|? [|? [|u l]]]]]; try done. cbv zeta.
  destruct (starts_with "u:AddPortMapping " u).
  { match goal with |- context [gw_add ?e t] => pose proof (gw_add_keys e t Ht); by destruct (gw_add e t) end. }
  destruct (starts_with "u:DeletePortMapping " u); [|done].
  match goal with |- context [gw_delete ?k t] => pose proof (gw_delete_keys k t Ht); by destruct (gw_delete k t) end.
Qed.
Lemma replay_snoc tr x : replay initial (tr ++ [x]) = table_step (replay initial tr) x.
Proof using. unfold replay. by rewrite foldl_app. Qed.
Lemma replay_keys tr : NoDup (mapping_key <$> replay initial tr).
Proof using initial_keys.
  induction tr as [|x tr IH] using rev_ind; [done|]. rewrite replay_snoc. unfold table_step.
  destruct x.1; try done. by apply serve_request_keys.
Qed.
Lemma request_long u service action args : 0 < slen (request u service action args).
Proof using.
  unfold request. cbv zeta. unfold soap_headers. rewrite !slen_app.
  repeat match goal with |- context [slen ?x] => lazymatch goal with H : 0 <= slen x |- _ => fail | _ => pose proof (slen_nonneg x) end end.
  change (slen "POST ") with 5 in *. lia.
Qed.

#[refine] Instance keeping_table : @TableGateway (keeping_os initial) _ "http://192.168.1.1:80/ctl" "" := {|
  gw_parts := home; table_at := replay initial
|}.
Proof using initial_keys.
  - intros s. eexists. vm_compute. reflexivity.
  - apply responder_reaches.
  - vm_compute. split; discriminate.
  - apply replay_keys.
  - intros t x Hx. rewrite replay_snoc. unfold table_step. unfold silent in Hx. by destruct x.1.
  - intros t fd action args dc t' Hfd Hd Hc Hs req a. pose proof (serve_request_does _ _ _ _ _ Hd Hc) as E.
    split; [unfold a, keeping_os; rewrite responder_sends; apply request_long|].
    split; [rewrite replay_snoc; unfold table_step; cbn [fst]; unfold req; by rewrite E|].
    pose proof (does_short _ _ _ _ _ Hd). apply http_response_responds.
    + pose proof (responder_serves (fun t req => http_response (serve_request (replay initial t) req).1) 300 fd t req a eq_refl) as HS.
      cbv beta in HS. unfold req in HS at 2. by rewrite E in HS.
    + unfold slen. lia.
    + unfold patience, patience_1500. lia.
Defined.
End Keeping.

(** ** The game's host at such a gateway *)
#[local] Existing Instance patience_1500.
Definition home_urls : UPNPUrls := mkUrls (Some "http://192.168.1.1:80/ctl") None None None None.
Definition game_host : PortMappingHandler :=
  mkPortMapping [] [make_dev "http://192.168.1.1/d.xml" "urn:x" "uuid:1" 0] "192.168.1.20" "1.2.3.4"
    (Some home_urls) (Some IGD_zero).
Definition mapping (proto port client : string) : entry := mkEntry "" port proto port client "1" "x" "0".
Definition keeping_malloc initial : @MallocLaws (keeping_os initial) := responder_malloc _ _.


(** Of two neighbouring mappings to the game's port only the first is removed. *)
Example second_mapping_stays :
  let old proto := mkEntry "" "9001" proto "7002" "192.168.1.20" "1" "x" "0" in
  let initial := [old "UDP"; old "TCP"] in
  match @mapPort (keeping_os initial) _ 7002 "game" game_host sys0 with
  | Ok (r, s') => r = 7002 /\ replay initial (trace s') =
      [old "TCP"; game_mapping game_host 7002 "UDP" "game"; game_mapping game_host 7002 "TCP" "game"]
  | Err _ => False
  end.
Proof. vm_compute. by split. Qed.
