(* ===== verification/GatewayListing.v ===== *)
(** * GatewayListing

    The listing of the command line tool (upnpc.c) at a gateway that keeps a table of port
    mappings. *)
From S2P Require Import Prelude.
From S2P Require Import CStr.
From S2P Require Import CSys.
From S2P Require Import XmlDocument.
From S2P Require Import UpnpReply.
From S2P Require Import Exchange.
From S2P Require Import IgdDesc.
From S2P Require Import UpnpCommands.
From S2P Require Import MiniUpnp.
From S2P Require Import Console.
From S2P Require Import UpnpTool.
From S2P Require Import GatewayTable.

(** An index has room in its array. *)
Lemma length_dec_digits fuel z n :
  0 <= z < 10 ^ Z.of_nat (S n) -> (String.length (dec_digits fuel z) <= S n)%nat.
Proof.
  revert z n. induction fuel as [|fuel IH]; intros z n Hz; [simpl; lia|]. cbn [dec_digits].
  destruct (Z.ltb_spec z 10); [simpl; lia|]. rewrite length_app_str. cbn [String.length].
  destruct n as [|n]; [simpl in Hz; lia|].
  rewrite Nat2Z.inj_succ, Z.pow_succ_r in Hz by lia.
  specialize (IH (z / 10) n ltac:(split; [apply Z.div_pos; lia|apply Z.div_lt_upper_bound; lia])). lia.
Qed.
Lemma index_fits i : 0 <= i < max_mappings -> str_take 5 (dec i) = dec i.
Proof.
  unfold max_mappings. intros Hi. apply str_take_all. unfold dec. destruct (Z.ltb_spec i 0); [lia|].
  apply (length_dec_digits 20 i 4). simpl. lia.
Qed.

Definition entry_line (i : nat) (e : entry) : stream * string :=
  (Stdout, join (mapping_line (Z.of_nat i) (protocol e) (extPort e) (intClient e) (intPort e) (desc e)
    (rHost e) (duration e))).
Definition header_line : stream * string :=
  (Stdout, join [" i protocol exPort->inAddr:inPort description remoteHost leaseTime"; nl]).
Definition end_line : stream * string :=
  (Stdout, join ["GetGenericPortMappingEntry() returned 713 (SpecifiedArrayIndexInvalid)"; nl]).

Section Listing.
Context `{Os} `{Patience} {ML : MallocLaws} (stack : string)
  (urls : UPNPUrls) (data : IGDdatas) (url : string)
  {G : TableGateway url (servicetype (first data))}.
Hypothesis has_url : controlURL urls = Some url.

Lemma list_redirections_ends fuel i protocol (st : Sys * Console) :
  Forall (fun e => entry_fits e = true) (table st.1) ->
  (length (table st.1) - i < fuel)%nat -> (i <= length (table st.1))%nat -> Z.of_nat (length (table st.1)) < max_mappings ->
  runs (list_redirections urls data fuel (Z.of_nat i) protocol) st (fun _ st' =>
    table st'.1 = table st.1 /\
    st'.2 = st.2 ++ imap (fun j e => entry_line (i + j) e) (drop i (table st.1)) ++ [end_line]).
Proof using ML has_url.
  revert i protocol st. induction fuel as [|fuel IH]; intros i protocol st Hf Hl Hi Hs; [lia|].
  cbn [list_redirections]. unfold wan. apply runs_bind, runs_lib. rewrite index_fits, has_url by lia.
  eapply runs_impl; [by apply get_entry; [lia|..]|]. intros [r o] s1 [Et Hget].
  rewrite Nat2Z.id in Hget. destruct (table st.1 !! i) as [e|] eqn:Ee.
  - destruct Hget as [-> ->]. cbn [Z.eqb]. run.
    pose proof (lookup_lt_Some _ _ _ Ee). assert (in_s 32 (Z.of_nat i + 1) = true) as ->
      by (unfold in_s, max_mappings in *; simpl; lia).
    replace (Z.of_nat i + 1) with (Z.of_nat (S i)) by lia.
    eapply runs_impl; [apply IH; cbn [fst]; rewrite Et; [done|lia..]|].
    cbn [fst snd]. rewrite Et. intros _ st' [-> ->]. split; [done|].
    rewrite (drop_S _ _ _ Ee). cbn [imap app]. rewrite <- app_assoc. f_equal.
    cbn [app]. f_equal; [unfold entry_line; by rewrite Nat.add_0_r|].
    f_equal. apply imap_ext. intros j x _. simpl. f_equal. lia.
  - rewrite Hget. cbn [Z.eqb]. run. split; [done|].
    rewrite drop_ge by (by apply lookup_ge_None). reflexivity.
Qed.

End Listing.

(** ** Two mappings *)
Definition two : list entry :=
  [mkEntry "" "7001" "UDP" "7001" "192.168.1.20" "1" "game" "3600"; mapping "TCP" "80" "192.168.1.9"].
#[local] Instance patience_1500 : Patience := 1500%nat.
