(* ===== verification/Json.v ===== *)
(** * Json

    The values of the JSON library (a submodule) as the program builds and reads them, and
    [split] and [replace] of src/peer/src/base/Headers.hpp.  An object is the sorted map
    the library keeps; printing and parsing are an interface, [JsonText]. *)
From S2P Require Import Prelude.
From S2P Require Import StdMap.

#[warnings="-register-all"]
Inductive json : Type :=
  | JNull
  | JBool (b : bool)
  | JStr (s : string)
  | JArr (l : list json)
  | JObj (m : list (string * json)).

(** [j[key]]: on an object a key that is missing is null, on null too; on anything else it
    throws. *)
Definition field (key : string) (j : json) : outcome json :=
  match j with
  | JObj m => Ok (default JNull (sm_find key m))
  | JNull => Ok JNull
  | _ => Err RuntimeError
  end.
(** [get<string>()], [get<bool>()]: another type throws. *)
Definition as_string (j : json) : outcome string :=
  match j with JStr s => Ok s | _ => Err RuntimeError end.
Definition as_bool (j : json) : outcome bool :=
  match j with JBool b => Ok b | _ => Err RuntimeError end.
Definition field_string (key : string) (j : json) : outcome string :=
  let? v := field key j in as_string v.
(** The elements [begin()] to [end()] walk: those of an array, or of an object in the
    order of its keys; null has none and anything else is one element, itself. *)
Definition elements_of (j : json) : list json :=
  match j with JArr l => l | JObj m => m.*2 | JNull => [] | _ => [j] end.
(** The same with [it.key()], which throws when [j] is not an object. *)
Definition items_of (j : json) : outcome (list (string * json)) :=
  match j with JObj m => Ok m | JNull => Ok [] | JArr [] => Ok [] | _ => Err RuntimeError end.

(** An object from an initializer list. *)
Definition object (l : list (string * json)) : json :=
  JObj (foldl (fun m p => sm_insert p.1 p.2 m) [] l).
Definition strings (l : list string) : json := JArr (map JStr l).

(** What the library prints and reads back unchanged: objects with ascending keys, ASCII
    strings ([dump] throws on bytes that are not UTF-8). *)
Fixpoint ascii_only (s : string) : bool :=
  match s with EmptyString => true | String c s' => (byte_of_ascii c <? 128) && ascii_only s' end.
Fixpoint ascending (m : list (string * json)) : bool :=
  match m with
  | (k, _) :: ((k', _) :: _) as m' => str_ltb k k' && ascending m'
  | _ => true
  end.
Fixpoint json_wf (j : json) : bool :=
  match j with
  | JStr s => ascii_only s
  | JArr l => forallb json_wf l
  | JObj m => ascending m && forallb (fun p => ascii_only p.1 && json_wf p.2) m
  | _ => true
  end.

(** [dump] and [parse]; both may throw. *)
Class JsonText : Type := { json_dump : json -> option string; json_parse : string -> option json }.
Class JsonTextLaws `{JsonText} : Prop := {
  parse_dump : forall j, json_wf j = true -> exists s, json_dump j = Some s /\ json_parse s = Some j
}.

Section Text.
Context `{JsonText}.
Definition or_throw {A} (o : option A) : outcome A :=
  match o with Some a => Ok a | None => Err RuntimeError end.
Definition dump (j : json) : outcome string := or_throw (json_dump j).
Definition parse (s : string) : outcome json := or_throw (json_parse s).
End Text.

(** ** Headers.hpp *)
(** [split]: [std::getline] until it extracts nothing. *)
Fixpoint split_from (delim : ascii) (item s : string) : list string :=
  match s with
  | EmptyString => if bool_decide (item = "") then [] else [item]
  | String c s' =>
      if Ascii.eqb c delim then item :: split_from delim "" s'
      else split_from delim (item +:+ String c "") s'
  end.
Definition split (s : string) (delim : ascii) : list string := split_from delim "" s.
(** [tokens.at(i)] *)
Definition at_ (l : list string) (i : nat) : outcome string :=
  match l !! i with Some s => Ok s | None => Err OutOfRange end.

(** [str.find(from)] on what is left of the string. *)
Fixpoint find_str (from s : string) : option nat :=
  if String.prefix from s then Some 0%nat
  else match s with EmptyString => None | String _ s' => S <$> find_str from s' end.
Definition replace (from to str : string) : bool * string :=
  match find_str from str with
  | None => (false, str)
  | Some n => (true, str_take n str +:+ to +:+ str_drop (n + String.length from) str)
  end.
(** [done] is the string in front of [start_pos], [rest] what follows it. *)
Fixpoint replace_from (fuel : nat) (from to done rest : string) (retval : Z) : Z * string :=
  match fuel with
  | O => (retval, done +:+ rest)
  | S fuel' =>
      match find_str from rest with
      | None => (retval, done +:+ rest)
      | Some n =>
          replace_from fuel' from to (done +:+ str_take n rest +:+ to)
            (str_drop (n + String.length from) rest) (retval + 1)
      end
  end.
Definition replaceAll (from to str : string) : Z * string :=
  if bool_decide (from = "") then (0, str)
  else replace_from (S (String.length str)) from to "" str 0.

Example split_endpoint : split "10.0.0.1:80" ":" = ["10.0.0.1"; "80"].
Proof. reflexivity. Qed.
Example split_trailing : split "a::b:" ":" = ["a"; ""; "b"].
Proof. reflexivity. Qed.
Example replaceAll_grows : replaceAll "x" "yx" "axbx" = (2, "ayxbyx").
Proof. reflexivity. Qed.
