(* ===== verification/HttpClient.v ===== *)
(** * HttpClient

    [wga::HttpClientMuxer] (src/peer/src/base/HttpClientMuxer.hpp): requests to the lobby,
    over TLS as long as that works.  Simple-Web-Server is a submodule, so its clients are
    an interface, [WebClient]. *)
From S2P Require Import Prelude.
From S2P Require Import Json.
From S2P Require Import TimeHandler.

Record response : Type := mkResponse {
  status_code : string;
  response_content : string;
  location : option string
}.
(** What a request of the secure or the plain client gives at some time; [None] when it
    throws. *)
Class WebClient : Type :=
  web : N -> bool -> string -> string -> string -> option response.

Record HttpClientMuxer : Type := mkClient {
  secureClient : bool;
  sslWorks : bool
}.
Definition Client_init : HttpClientMuxer := mkClient true false.

Definition OK_200 : string := "200 OK".
Definition REDIRECT_308 : string := "308 Permanent Redirect".

Section HttpClient.
Context `{WebClient} `{JsonText}.
Abbreviation MC := (M (HttpClientMuxer * World)).

(** A request, in the [try] block: [None] when something was thrown. *)
Definition send_request (secure : bool) (method path content : string) : MC (option response) :=
  fun s => Ok (web (tick s.2) secure method path content, (s.1, next_tick s.2)).
Definition set_client (c : HttpClientMuxer) : MC unit := modify (fun s => (c, s.2)).

(** What an attempt comes to. *)
Inductive attempt : Type :=
  | Thrown
  | Redirected (newUrl : string)
  | Parsed (result : json).
Definition attempt_of (r : option response) : outcome attempt :=
  match r with
  | None => Ok Thrown
  | Some r =>
      if negb (bool_decide (status_code r = OK_200)) &&
         negb (bool_decide (status_code r = REDIRECT_308)) then Err LogFatal
      else if bool_decide (status_code r = REDIRECT_308) then
        match location r with Some u => Ok (Redirected u) | None => Err Undefined end
      else Ok (match json_parse (response_content r) with Some j => Parsed j | None => Thrown end)
  end.
Definition try_request (secure : bool) (method path content : string) : MC attempt :=
  let! r := send_request secure method path content in
  fun s => match attempt_of r with Ok a => Ok (a, s) | Err f => Err f end.

(** [request]; a redirection asks again, [fuel] times at most. *)
Fixpoint http_request (fuel : nat) (method path content : string) : MC json :=
  match fuel with
  | O => fail Undefined
  | S fuel' =>
      let! s := get_state in
      if secureClient s.1 then
        let! a := try_request true method path content in
        match a with
        | Redirected newUrl => http_request fuel' method newUrl content
        | Parsed result => set_client (mkClient true true) ;;; ret result
        | Thrown =>
            if sslWorks s.1 then fail LogFatal
            else
              let! a := try_request false method path content in
              match a with
              | Redirected newUrl => http_request fuel' method newUrl content
              | Parsed result => set_client (mkClient false (sslWorks s.1)) ;;; ret result
              | Thrown => fail LogFatal
              end
        end
      else
        let! a := try_request false method path content in
        match a with
        | Redirected newUrl => http_request fuel' method newUrl content
        | Parsed result => ret result
        | Thrown => fail LogFatal
        end
  end.
End HttpClient.

(** ** No downgrade *)
Lemma http_request_tls `{WebClient} `{JsonText} fuel method path content w :
  http_request (S fuel) method path content (mkClient true true, w) =
  match attempt_of (web (tick w) true method path content) with
  | Ok Thrown => Err LogFatal
  | Ok (Redirected u) => http_request fuel method u content (mkClient true true, next_tick w)
  | Ok (Parsed j) => Ok (j, (mkClient true true, next_tick w))
  | Err f => Err f
  end.
Proof.
  cbn [http_request]. unfold bind, get_state, try_request, send_request. cbn.
  destruct (attempt_of _) as [[]|]; done.
Qed.

Section Downgrade.
Context `{JsonText} (w1 w2 : WebClient).
Hypothesis secure_same : forall n m p c, w1 n true m p c = w2 n true m p c.

End Downgrade.

(** A lobby that answers over TLS; the plain server gives something else, or nothing. *)
#[local] Instance demo_text : JsonText := {|
  json_dump := fun _ => Some "{}";
  json_parse := fun s => if bool_decide (s = "{}") then Some (JObj []) else None
|}.
Definition demo_web (plain : option response) : WebClient :=
  fun _ secure _ path _ =>
    if secure then
      Some (if bool_decide (path = "/old") then mkResponse REDIRECT_308 "" (Some "/new")
            else mkResponse OK_200 "{}" None)
    else plain.
