(* ===== verification/GameServer.v ===== *)
(** * GameServer

    [wga::SingleGameServer] (src/peer/src/peer/SingleGameServer.cpp and .hpp): the lobby of
    one game, the handlers of its HTTP resources over its state.  The HTTP server that
    calls them is a submodule; an aborted process or a thrown exception is an error. *)
From S2P Require Import Prelude.
From S2P Require Import StdMap.
From S2P Require Import CryptoHandler.
From S2P Require Import Json.

Record ServerPeerData : Type := mkServerPeer {
  peer_id : string;
  peer_key : string;
  peer_name : string;
  peer_endpoints : gset string
}.
Definition set_peer_endpoints e p := mkServerPeer (peer_id p) (peer_key p) (peer_name p) e.

Record SingleGameServer : Type := mkServer {
  numPlayers : Z;
  gameId : string;
  gameName : string;
  hostId : string;
  hostKey : string;
  peerData : list (string * ServerPeerData)
}.
Definition set_gameName n s :=
  mkServer (numPlayers s) (gameId s) n (hostId s) (hostKey s) (peerData s).
Definition set_peerData d s :=
  mkServer (numPlayers s) (gameId s) (gameName s) (hostId s) (hostKey s) d.

(** A [std::set<string>] in its order. *)
Definition sort_strings (l : list string) : list string :=
  foldr (fun s l => (sm_assign s tt (map (fun x => (x, tt)) l)).*1) [] l.
Definition set_list (s : gset string) : list string := sort_strings (elements s).

Section GameServer.
Context `{Sodium} `{JsonText}.

(** [to_json] *)
Definition peer_json (p : ServerPeerData) : json :=
  object [("id", JStr (peer_id p)); ("key", JStr (keyToString (peer_key p)));
          ("name", JStr (peer_name p)); ("endpoints", strings (set_list (peer_endpoints p)))].

Definition addPeer (id key name : string) (s : SingleGameServer) : SingleGameServer :=
  set_peerData (sm_assign id (mkServerPeer id key name ∅) (peerData s)) s.

(** The constructor; the port mapping and the HTTP server apart. *)
Definition Server_init (hostId hostKey hostName : string) (numPlayers : Z) : SingleGameServer :=
  addPeer hostId hostKey hostName (mkServer numPlayers "MyGameId" "" hostId hostKey []).

(** Another peer already has the endpoint. *)
Definition gotDupe (id endpoint : string) (d : list (string * ServerPeerData)) : bool :=
  existsb (fun entry => negb (bool_decide (entry.1 = id)) &&
                        bool_decide (endpoint ∈ peer_endpoints entry.2)) d.
Definition setPeerEndpoints (id : string) (endpointsWithDuplicatesInOtherPeers : list string)
    (s : SingleGameServer) : SingleGameServer :=
  let endpointsWithoutDuplicates :=
    List.filter (fun e => negb (gotDupe id e (peerData s))) endpointsWithDuplicatesInOtherPeers in
  match sm_find id (peerData s) with
  | None => s
  | Some p =>
      set_peerData
        (sm_assign id
           (set_peer_endpoints (list_to_set endpointsWithoutDuplicates ∪ peer_endpoints p) p)
           (peerData s)) s
  end.

(** ** The resources: the response, and the state left *)
Definition get_current_game_id (s : SingleGameServer) : json := object [("gameId", JStr (gameId s))].

(** The [size_t] against the [int]: a negative [numPlayers] is a huge unsigned number. *)
Definition game_ready (s : SingleGameServer) : bool :=
  (wrap_u 64 (numPlayers s) <=? Z.of_nat (length (peerData s))) &&
  forallb (fun p => negb (bool_decide (peer_endpoints p.2 = ∅))) (peerData s).
Definition get_game_info (id : string) (s : SingleGameServer) : outcome json :=
  if negb (bool_decide (gameId s = id)) then Err LogFatal
  else
    Ok (object [("gameName", JStr (gameName s)); ("ready", JBool (game_ready s));
                ("peerData", JObj (map (fun p => (p.1, peer_json p.2)) (peerData s)));
                ("hostId", JStr (hostId s))]).

Definition status_ok : json := object [("status", JStr "OK")].

Definition host (content : json) (s : SingleGameServer) : outcome (json * SingleGameServer) :=
  let? h := field_string "hostId" content in
  if negb (bool_decide (h = hostId s)) then Err LogFatal
  else
    let? g := field_string "gameId" content in
    if negb (bool_decide (g = gameId s)) then Err LogFatal
    else
      let? name := field_string "gameName" content in
      Ok (status_ok, set_gameName name s).

Definition join (content : json) (s : SingleGameServer) : outcome (json * SingleGameServer) :=
  let? peerId := field_string "peerId" content in
  let? name := field_string "name" content in
  let? key64 := field_string "peerKey" content in
  let? peerKey := stringToKey KEYBYTES key64 in
  match sm_find peerId (peerData s) with
  | Some _ => Err LogFatal
  | None => Ok (status_ok, addPeer peerId peerKey name s)
  end.

Fixpoint strings_in (l : list json) : outcome (list string) :=
  match l with
  | [] => Ok []
  | j :: l' => let? s := as_string j in let? ss := strings_in l' in Ok (s :: ss)
  end.
Definition update_endpoints (content : json) (s : SingleGameServer) :
    outcome (json * SingleGameServer) :=
  let? id := field_string "peerId" content in
  let? endpoints := field "endpoints" content in
  let? allEndpoints := strings_in (elements_of endpoints) in
  Ok (status_ok, setPeerEndpoints id allEndpoints s).

(** A request as the server gets it: [json::parse] may throw. *)
Inductive request : Type :=
  | GetCurrentGameId (peerId : string)
  | GetGameInfo (id : string)
  | PostHost (content : string)
  | PostJoin (content : string)
  | PostUpdateEndpoints (content : string).
Definition serve (r : request) (s : SingleGameServer) : outcome (string * SingleGameServer) :=
  let? (j, s') :=
    match r with
    | GetCurrentGameId _ => Ok (get_current_game_id s, s)
    | GetGameInfo id => let? j := get_game_info id s in Ok (j, s)
    | PostHost content => let? j := parse content in host j s
    | PostJoin content => let? j := parse content in join j s
    | PostUpdateEndpoints content => let? j := parse content in update_endpoints j s
    end in
  let? text := dump j in Ok (text, s').
End GameServer.

(** ** What the lobby keeps *)
Section Invariant.
Context `{Sodium} `{JsonText}.
Implicit Types (s : SingleGameServer) (i j e : string).

Record lobby_inv s : Prop := {
  li_sorted : sm_sorted (peerData s);
  li_host : is_Some (sm_find (hostId s) (peerData s));
  li_disjoint : forall i j p q, sm_find i (peerData s) = Some p -> sm_find j (peerData s) = Some q ->
    i <> j -> peer_endpoints p ## peer_endpoints q
}.

Lemma gotDupe_false i e (d : list (string * ServerPeerData)) j q :
  gotDupe i e d = false -> sm_find j d = Some q -> j <> i -> e ∉ peer_endpoints q.
Proof using.
  intros Hd Hj%sm_find_lookup Hne He. apply not_true_iff_false in Hd. apply Hd.
  apply existsb_exists. exists (j, q). split; [by apply list_elem_of_In|].
  apply andb_true_iff. split; [by apply negb_true_iff, bool_decide_eq_false|by apply bool_decide_eq_true].
Qed.

Lemma addPeer_inv i k n s : sm_find i (peerData s) = None -> lobby_inv s -> lobby_inv (addPeer i k n s).
Proof using.
  intros Hi [Hs Hh Hd]. unfold addPeer, set_peerData. split; cbn [peerData hostId].
  - by apply sm_sorted_assign.
  - rewrite sm_find_assign. case_decide; [by eexists|done].
  - intros a b p q. rewrite !sm_find_assign. repeat case_decide; simplify_eq/=; intros; simplify_eq/=;
      [set_solver..|by eapply (Hd a b)].
Qed.
Lemma setPeerEndpoints_inv i es s : lobby_inv s -> lobby_inv (setPeerEndpoints i es s).
Proof using.
  intros [Hs Hh Hd]. unfold setPeerEndpoints, set_peerData.
  destruct (sm_find i (peerData s)) as [p0|] eqn:Ei; [|by split].
  set (new := list_to_set _ : gset string).
  assert (forall j q, sm_find j (peerData s) = Some q -> j <> i ->
    (new ∪ peer_endpoints p0) ## peer_endpoints q) as Hnew.
  { intros j q Hj Hne. apply disjoint_union_l. split; [|by eapply (Hd i j)].
    intros e He Hq. apply elem_of_list_to_set, list_elem_of_In, filter_In in He as [_ He].
    apply negb_true_iff in He. by eapply gotDupe_false. }
  split; cbn [peerData hostId].
  - by apply sm_sorted_assign.
  - rewrite sm_find_assign. case_decide; [by eexists|done].
  - intros a b p q. rewrite !sm_find_assign.
    destruct (decide (a = i)) as [->|]; destruct (decide (b = i)) as [->|];
      intros; simplify_eq/=; [eapply Hnew; eauto|symmetry; eapply Hnew; eauto|by eapply (Hd a b)].
Qed.

Lemma serve_inv r s t s' : lobby_inv s -> serve r s = Ok (t, s') -> lobby_inv s'.
Proof using.
  intros Hs. unfold serve, obind. destruct r; repeat case_match; intros; simplify_eq/=; try done.
  - unfold host, obind, set_gameName in *. repeat case_match; simplify_eq/=. by destruct Hs; split.
  - unfold join, obind in *. repeat case_match; simplify_eq/=. by apply addPeer_inv.
  - unfold update_endpoints, obind in *. repeat case_match; simplify_eq/=. by apply setPeerEndpoints_inv.
Qed.

Lemma Server_init_inv h k n players : lobby_inv (Server_init h k n players).
Proof using.
  split; unfold Server_init, addPeer, set_peerData; cbn.
  - by repeat constructor.
  - rewrite decide_True by done. by eexists.
  - intros i j p q. repeat case_decide; naive_solver.
Qed.

(** The requests the lobby answered, in order. *)
Definition answer (s : SingleGameServer) (r : request) : outcome SingleGameServer :=
  let? (_, s') := serve r s in Ok s'.

(** Endpoints are added, and never taken away. *)
Definition keeps_endpoints s s' : Prop := forall i p, sm_find i (peerData s) = Some p ->
  exists p', sm_find i (peerData s') = Some p' /\ peer_endpoints p ⊆ peer_endpoints p'.
#[local] Instance keeps_endpoints_refl : Reflexive keeps_endpoints.
Proof using. intros s i p Hi. by exists p. Qed.
#[local] Instance keeps_endpoints_trans : Transitive keeps_endpoints.
Proof using.
  intros s1 s2 s3 H12 H23 i p (p2 & H2 & S2)%H12. destruct (H23 i p2 H2) as (p3 & H3 & S3).
  exists p3. split; [done|]. by etrans.
Qed.
Lemma addPeer_keeps i k n s : sm_find i (peerData s) = None -> keeps_endpoints s (addPeer i k n s).
Proof using.
  intros Hi j p Hj. unfold addPeer, set_peerData. cbn [peerData]. rewrite sm_find_assign.
  case_decide; [congruence|]. by exists p.
Qed.

(** What the endpoints a peer announces become. *)
Definition adds_unclaimed i (es : list string) s s' : Prop := forall p, sm_find i (peerData s) = Some p ->
  exists E, sm_find i (peerData s') = Some (set_peer_endpoints E p) /\
    (forall e, e ∈ E <-> e ∈ peer_endpoints p \/
       e ∈ es /\ forall j q, sm_find j (peerData s) = Some q -> j <> i -> e ∉ peer_endpoints q) /\
    forall j, j <> i -> sm_find j (peerData s') = sm_find j (peerData s).
Lemma gotDupe_true i e (d : list (string * ServerPeerData)) :
  sm_sorted d -> (forall j q, sm_find j d = Some q -> j <> i -> e ∉ peer_endpoints q) -> gotDupe i e d = false.
Proof using.
  intros Hs Hd. apply not_true_iff_false. intros Hb. apply existsb_exists in Hb as ([j q] & Hj & Hb).
  apply andb_prop in Hb as [Hne%negb_true_iff%bool_decide_eq_false He%bool_decide_eq_true]. cbn in *.
  apply (Hd j q); [|done..]. apply sm_lookup_find; [done|]. by apply list_elem_of_In.
Qed.
Lemma setPeerEndpoints_adds i es s : sm_sorted (peerData s) -> adds_unclaimed i es s (setPeerEndpoints i es s).
Proof using.
  intros Hs p Hi. unfold setPeerEndpoints. rewrite Hi. eexists. unfold set_peerData. cbn [peerData].
  rewrite sm_find_assign, decide_True by done. split; [reflexivity|]. split.
  - intros e. rewrite elem_of_union, elem_of_list_to_set, list_elem_of_In, filter_In, negb_true_iff, <- list_elem_of_In.
    split; [intros [[He Hd]|He]|intros [He|[He Hd]]]; [right|by left|by right|left]; split; try done.
    + intros j q Hj Hne. by eapply gotDupe_false.
    + by apply gotDupe_true.
  - intros j Hne. rewrite sm_find_assign. by case_decide.
Qed.
Lemma setPeerEndpoints_keeps i es s : sm_sorted (peerData s) -> keeps_endpoints s (setPeerEndpoints i es s).
Proof using.
  intros Hs j q Hj. destruct (sm_find i (peerData s)) as [p|] eqn:Hi.
  - destruct (setPeerEndpoints_adds i es s Hs p Hi) as (E & Ei & HE & Ho).
    destruct (decide (j = i)) as [->|Hne]; [|rewrite Ho by done; by exists q].
    rewrite Hi in Hj. injection Hj as <-. eexists. split; [exact Ei|]. intros e He. apply HE. by left.
  - unfold setPeerEndpoints. rewrite Hi. by exists q.
Qed.
Lemma serve_keeps r s t s' : lobby_inv s -> serve r s = Ok (t, s') -> keeps_endpoints s s'.
Proof using.
  intros Hs. unfold serve, obind. destruct r; repeat case_match; intros; simplify_eq/=; try done.
  - unfold host, obind, set_gameName in *. repeat case_match; simplify_eq/=. intros i p Hi. by exists p.
  - unfold join, obind in *. repeat case_match; simplify_eq/=. by apply addPeer_keeps.
  - unfold update_endpoints, obind in *. repeat case_match; simplify_eq/=. apply setPeerEndpoints_keeps, Hs.
Qed.

(** A body in which peer [i] announces [es]. *)
Definition announces content i (es : list string) : Prop := exists (body l : json),
  parse content = Ok body /\ field_string "peerId" body = Ok i /\ field "endpoints" body = Ok l /\
  strings_in (elements_of l) = Ok es.
Lemma serve_adds content i es s t s' : lobby_inv s -> announces content i es ->
  serve (PostUpdateEndpoints content) s = Ok (t, s') -> adds_unclaimed i es s s'.
Proof using.
  intros Hs (j & l & Ej & Ei & El & Es). unfold serve, update_endpoints. rewrite Ej. cbn [obind].
  rewrite Ei. cbn [obind]. rewrite El. cbn [obind]. rewrite Es. cbn [obind].
  destruct (dump _); cbn [obind]; [|done]. intros [= _ <-]. apply setPeerEndpoints_adds, Hs.
Qed.
Lemma answers_keep rs s s' : lobby_inv s -> ofold answer rs s = Ok s' -> lobby_inv s' /\ keeps_endpoints s s'.
Proof using.
  revert s. induction rs as [|r rs IH]; intros s Hs; cbn [ofold]; [by intros [= <-]|].
  unfold answer at 1. destruct (serve r s) as [[t s1]|] eqn:E; cbn; [|done]. intros Er.
  destruct (IH s1 (serve_inv _ _ _ _ Hs E) Er) as [H1 H2]. split; [done|].
  etrans; [by eapply serve_keeps|done].
Qed.

(** C16: No endpoint ever belongs to two players of the lobby, and the first who announces it
    keeps it.  After any requests the server answers from its start, whatever they contain,
    the host is registered, the peers are kept in the order of their ids, and no two peers
    have an endpoint in common; a peer that announces endpoints has, besides those it had,
    exactly the ones no other peer has, and the other peers are left as they were; and
    whatever requests follow, every peer stays registered and keeps the endpoints it has. *)
Theorem lobby_endpoints_disjoint h k n players rs s :
  ofold answer rs (Server_init h k n players) = Ok s ->
  lobby_inv s /\
  (forall content i es t s', announces content i es ->
     serve (PostUpdateEndpoints content) s = Ok (t, s') -> adds_unclaimed i es s s') /\
  (forall rs' s', ofold answer rs' s = Ok s' -> keeps_endpoints s s').
Proof using.
  intros E. destruct (answers_keep _ _ _ (Server_init_inv h k n players) E) as [Hs _].
  split; [done|]. split; [intros; by eapply serve_adds|]. intros rs' s' E'. by apply (answers_keep _ _ _ Hs E').
Qed.
End Invariant.

(** A lobby that two players join and announce endpoints to; the second announces one of
    the first's, which it does not get. *)
#[local] Instance demo_text : JsonText := {|
  json_dump := fun _ => Some "";
  json_parse := fun s =>
    if bool_decide (s = "join") then
      Some (object [("peerId", JStr "bob"); ("name", JStr "Bob"); ("peerKey", JStr (string_of (repeat 7 32)))])
    else if bool_decide (s = "alice") then
      Some (object [("peerId", JStr "alice"); ("endpoints", strings ["10.0.0.1:80"; "10.0.0.2:80"])])
    else if bool_decide (s = "bob") then
      Some (object [("peerId", JStr "bob"); ("endpoints", strings ["10.0.0.2:80"; "10.0.0.3:80"])])
    else None
|}.
Definition demo_requests : list request :=
  [PostJoin "join"; PostUpdateEndpoints "alice"; PostUpdateEndpoints "bob"; GetGameInfo "MyGameId"].
Definition demo_lobby : outcome SingleGameServer :=
  ofold (@answer toy_Sodium demo_text) demo_requests (Server_init "alice" "" "Alice" 2).
Lemma lobby_endpoints_disjoint_witness :
  match demo_lobby with
  | Ok s => lobby_inv s /\ game_ready s = true /\
      sm_find "bob" (peerData s) =
        Some (mkServerPeer "bob" (string_of (repeat 7 32)) "Bob" {["10.0.0.3:80"]})
  | Err _ => False
  end.
Proof.
  destruct demo_lobby as [s|f] eqn:E; [|vm_compute in E; discriminate].
  split; [by apply (proj1 (@lobby_endpoints_disjoint toy_Sodium demo_text _ _ _ _ _ _ E))|].
  vm_compute in E. injection E as <-. vm_compute. done.
Defined.
