(* ===== verification/PortMultiplexer.v ===== *)
(** * PortMultiplexer

    [wga::PortMultiplexer] (src/peer/src/base/PortMultiplexer.cpp and .hpp): one UDP
    socket shared by the handlers of all peers.  The handlers are objects behind shared
    pointers, so the state holds the objects and the containers hold indices into them. *)
From S2P Require Import Prelude.
From S2P Require Import RpcId.
From S2P Require Import Message.
From S2P Require Import TimeHandler.
From S2P Require Import RpcState.
From S2P Require Import BiDirectionalRpc.
From S2P Require Import RpcVirtuals.
From S2P Require Import UdpRpc.
From S2P Require Import MultiEndpoint.
From S2P Require Import CryptoHandler.
From S2P Require Import EncryptedRpc.

(** A [shared_ptr<EncryptedMultiEndpointHandler>]. *)
Abbreviation pointer := nat.

Section PortMultiplexer.
Context `{LruCache} `{Oracle} `{Msgpack} `{Sodium}.
Variable delay_fuel : nat.

(** [receiving]: an [async_receive_from] is pending.  [shared]: what the process shares. *)
Record PortMultiplexer : Type := mkMux {
  objects : list (Rpc * EncState);
  recipients : list pointer;
  receiveEndpoint : endpoint;
  endpointsSeen : gset endpoint;
  receiving : bool;
  socketOpen : bool;
  shared : World
}.
Definition set_objects l w m :=
  mkMux l (recipients m) (receiveEndpoint m) (endpointsSeen m) (receiving m) (socketOpen m) w.
Definition set_recipients l m :=
  mkMux (objects m) l (receiveEndpoint m) (endpointsSeen m) (receiving m) (socketOpen m) (shared m).
Definition set_receiveEndpoint e m :=
  mkMux (objects m) (recipients m) e (endpointsSeen m) (receiving m) (socketOpen m) (shared m).
Definition set_seen s m :=
  mkMux (objects m) (recipients m) (receiveEndpoint m) s (receiving m) (socketOpen m) (shared m).
Definition set_receiving b m :=
  mkMux (objects m) (recipients m) (receiveEndpoint m) (endpointsSeen m) b (socketOpen m) (shared m).
Definition set_socketOpen b m :=
  mkMux (objects m) (recipients m) (receiveEndpoint m) (endpointsSeen m) (receiving m) b (shared m).

(** [udp::endpoint()] *)
Definition no_endpoint : endpoint := mkEndpoint "0.0.0.0" 0.

(** The constructor posts the first receive. *)
Definition Mux_init (w : World) : PortMultiplexer :=
  mkMux [] [] no_endpoint ∅ true true w.

(** A call of a method of the object behind [p]. *)
Definition on_handler {A} (p : pointer) (m : M (St EncState) A) : M PortMultiplexer A := fun x =>
  match objects x !! p with
  | None => Err Undefined
  | Some (r, e) =>
      match m (mkSt r e (shared x)) with
      | Ok (a, s) => Ok (a, set_objects (<[p := (rpc s, sub s)]> (objects x)) (world s) x)
      | Err f => Err f
      end
  end.
(** A method that only reads the handler's fields. *)
Definition ask {A} (f : Rpc -> MultiState -> A) (p : pointer) : M PortMultiplexer A :=
  on_handler p (gets (fun s => f (rpc s) (multi (sub s)))).

(** The posted lambda runs on the network thread. *)
Definition closeSocket : M PortMultiplexer unit := modify (set_socketOpen false).

Definition checkEndpoint (ep : endpoint) : M PortMultiplexer unit :=
  let! m := get_state in
  if bool_decide (ep ∈ endpointsSeen m) || bool_decide (ep = receiveEndpoint m) then
    for_each (recipients m) (fun r => on_handler r (multi_banEndpoint ep))
  else modify (set_seen ({[ep]} ∪ endpointsSeen m)).

Definition addRecipient (recipient : pointer) : M PortMultiplexer unit :=
  let! eps := on_handler recipient
    (let! m := get_multi in
     read_world (reading (fun n => o_set_order n (aliveEndpoints m)))) in
  for_each eps checkEndpoint ;;;
  modify (fun m => set_recipients (recipients m ++ [recipient]) m).

(** The first loop of [handleReceive]: the last recipient that has the endpoint. *)
Fixpoint findRecipient (l : list pointer) (from : endpoint) (recipient : option pointer) :
    M PortMultiplexer (option pointer) :=
  match l with
  | [] => ret recipient
  | it :: l' =>
      let! found := on_handler it
        (let! m := get_multi in
         let (b, m') := hasEndpointAndResurrectIfFound from m in
         mod_multi (fun _ => m') ;;; ret b) in
      findRecipient l' from (if found then Some it else recipient)
  end.
(** The second: the first recipient that has not banned the endpoint. *)
Fixpoint tryRecipient (l : list pointer) (from : endpoint) : M PortMultiplexer (option pointer) :=
  match l with
  | [] => ret None
  | it :: l' =>
      let! banned := ask (fun _ => isEndpointBanned from) it in
      if banned then tryRecipient l' from
      else on_handler it (mod_multi (fun m => addEndpoint m from)) ;;; ret (Some it)
  end.

(** How an asynchronous receive completes. *)
Inductive completion : Type :=
  | operation_aborted
  | receive_error
  | received (from : endpoint) (packet : string).

Definition dispatch (from : endpoint) (packetContents : string) : M PortMultiplexer unit :=
  let! m := get_state in
  let! recipient := findRecipient (recipients m) from None in
  let! recipient :=
    match recipient with
    | None => if 0 <? slen packetContents then tryRecipient (recipients m) from else ret None
    | Some p => ret (Some p)
    end in
  match recipient with
  | None => ret tt
  | Some p =>
      let! ok := on_handler p (do_receive (enc_virtuals delay_fuel) packetContents) in
      if negb ok then on_handler p (multi_banEndpoint from) else ret tt
  end.

Definition handlePacket (from : endpoint) (packetString : string) : M PortMultiplexer unit :=
  if slen packetString <? slen WGA_MAGIC then ret tt
  else
    let n := String.length WGA_MAGIC in
    if negb (bool_decide (str_take n packetString = WGA_MAGIC)) then ret tt
    else dispatch from (str_drop n packetString).

Definition handleReceive (c : completion) : M PortMultiplexer unit :=
  modify (set_receiving false) ;;;
  match c with
  | operation_aborted => ret tt
  | receive_error => modify (set_receiving true)
  | received from packet =>
      modify (set_receiveEndpoint from) ;;;
      handlePacket from packet ;;;
      modify (set_receiving true)
  end.
End PortMultiplexer.
