(* ===== verification/RpcServer.v ===== *)
(** * RpcServer

    [wga::RpcServer] (src/peer/src/base/RpcServer.cpp and .hpp): the handlers of the
    other peers by user id, on the shared socket of [PortMultiplexer]. *)
From S2P Require Import Prelude.
From S2P Require Import StdMap.
From S2P Require Import RpcId.
From S2P Require Import Message.
From S2P Require Import Estimators.
From S2P Require Import TimeHandler.
From S2P Require Import RpcState.
From S2P Require Import BiDirectionalRpc.
From S2P Require Import RpcVirtuals.
From S2P Require Import UdpRpc.
From S2P Require Import MultiEndpoint.
From S2P Require Import CryptoHandler.
From S2P Require Import EncryptedRpc.
From S2P Require Import PortMultiplexer.

Section RpcServer.
Context `{LruCache} `{Oracle} `{Msgpack} `{Sodium}.
Variable delay_fuel : nat.
Abbreviation enc := (enc_virtuals delay_fuel).

Record UserIdIdPayload : Type := mkUserIdIdPayload { up_userId : string; up_id : RpcId; up_payload : string }.
Definition from_IdPayload (u : string) (p : IdPayload) : UserIdIdPayload :=
  mkUserIdIdPayload u (ip_id p) (ip_payload p).

Record RpcServer : Type := mkRpcServer { mux : PortMultiplexer; endpoints : list (string * pointer) }.
Definition set_mux m s := mkRpcServer m (endpoints s).
Definition set_server_endpoints l s := mkRpcServer (mux s) l.

Definition RpcServer_init (w : World) : RpcServer := mkRpcServer (Mux_init w) [].

(** A call of a method of the base class, or of a handler. *)
Definition on_mux {A} (m : M PortMultiplexer A) : M RpcServer A := fun s =>
  match m (mux s) with Ok (a, x) => Ok (a, set_mux x s) | Err f => Err f end.
Definition on {A} (p : pointer) (m : M (St EncState) A) : M RpcServer A := on_mux (on_handler p m).
Definition reads {A} (p : pointer) (f : Rpc -> A) : M RpcServer A := on p (gets (fun s => f (rpc s))).

Definition find (i : string) : M RpcServer (option pointer) := gets (fun s => sm_find i (endpoints s)).
(** [for (auto it : endpoints) body(it)] *)
Definition for_endpoints (body : string * pointer -> M RpcServer unit) : M RpcServer unit :=
  let! s := get_state in for_each (endpoints s) body.

Definition server_addEndpoint (i : string) (endpoint : pointer) : M RpcServer unit :=
  modify (fun s => set_server_endpoints (sm_insert i endpoint (endpoints s)) s) ;;;
  on_mux (addRecipient endpoint).

Definition broadcast (payload : string) : M RpcServer unit :=
  for_endpoints (fun it => on it.2 (do_requestOneWay enc payload)).

Definition server_request (u payload : string) : M RpcServer RpcId :=
  let! it := find u in
  match it with
  | None => fail LogFatal
  | Some p => on p (request (v_requestWithId enc) payload)
  end.

(** The first message of the first endpoint that has one. *)
Fixpoint first_with (has : Rpc -> bool) (first : M (St EncState) IdPayload)
    (l : list (string * pointer)) : M RpcServer (option UserIdIdPayload) :=
  match l with
  | [] => ret None
  | it :: l' =>
      let! b := reads it.2 has in
      if b then let! p := on it.2 first in ret (Some (from_IdPayload it.1 p))
      else first_with has first l'
  end.
Definition getIncomingRequest : M RpcServer (option UserIdIdPayload) :=
  let! s := get_state in first_with hasIncomingRequest getFirstIncomingRequest (endpoints s).
Definition getIncomingReply : M RpcServer (option UserIdIdPayload) :=
  let! s := get_state in first_with hasIncomingReply getFirstIncomingReply (endpoints s).

Definition server_reply (i : string) (rpcId : RpcId) (payload : string) : M RpcServer unit :=
  let! it := find i in
  match it with
  | None => fail LogFatal
  | Some p => on p (v_reply enc rpcId payload)
  end.

Definition server_heartbeat : M RpcServer unit :=
  for_endpoints (fun it =>
    on it.2 (heartbeat (v_send enc) (v_requestWithId enc) (v_readyToSend enc))).
Definition server_resendRandomOutgoingMessage : M RpcServer unit :=
  for_endpoints (fun it => on it.2 (resendRandomOutgoingMessage (v_send enc))).

Fixpoint all_ready (l : list (string * pointer)) : M RpcServer bool :=
  match l with
  | [] => ret true
  | it :: l' => let! b := on it.2 (v_readyToSend enc) in if negb b then ret false else all_ready l'
  end.
Definition server_readyToSend : M RpcServer bool :=
  let! s := get_state in all_ready (endpoints s).

(** [runUntilInitialized]: a heartbeat and a second of sleep until every handler is ready. *)
Definition initialize_turn : M RpcServer (option unit) :=
  let! ready := server_readyToSend in
  if ready then ret (Some tt) else server_heartbeat ;;; ret None.
Definition runUntilInitialized : list (M RpcServer unit) ->
    M RpcServer (option unit * list (M RpcServer unit)) := wait_loop initialize_turn.

Definition server_sendShutdown : M RpcServer unit :=
  for_endpoints (fun it => on it.2 (sendShutdown (v_requestWithId enc))).
Definition server_finish : M RpcServer unit := modify (set_server_endpoints []).

Fixpoint any_work (l : list (string * pointer)) : M RpcServer bool :=
  match l with
  | [] => ret false
  | it :: l' =>
      let! b := on it.2 (let! now := time_now in
                         gets (fun s => multi_hasWork now (rpc s) (multi (sub s)))) in
      if b then ret true else any_work l'
  end.
Definition server_hasWork : M RpcServer bool := let! s := get_state in any_work (endpoints s).

Fixpoint count_living (count : Z) (l : list (string * pointer)) : M RpcServer Z :=
  match l with
  | [] => ret count
  | it :: l' =>
      let! b := reads it.2 isShuttingDown in
      count_living (if negb b then count + 1 else count) l'
  end.
Definition getLivingPeerCount : M RpcServer Z := let! s := get_state in count_living 0 (endpoints s).

Definition isPeerShutDown (peerId : string) : M RpcServer bool :=
  let! it := find peerId in
  match it with None => ret false | Some p => reads p isShuttingDown end.
Definition getPeerIds : M RpcServer (list string) := gets (fun s => (endpoints s).*1).
Definition hasPeer (i : string) : M RpcServer bool :=
  let! it := find i in ret (match it with Some _ => true | None => false end).

(** [endpoints[key]] inserts a null pointer when the key is new, and it is followed. *)
Definition server_addEndpoints (key : string) (newEndpoints : list endpoint) : M RpcServer unit :=
  let! it := find key in
  match it with
  | None => fail Undefined
  | Some p => on p (mod_multi (addEndpoints newEndpoints))
  end.
Definition getEndpointHandler (key : string) : M RpcServer pointer :=
  let! it := find key in match it with None => fail LogFatal | Some p => ret p end.

Fixpoint latencies (l : list (string * pointer)) (retval : list (string * (double * double))) :
    M RpcServer (list (string * (double * double))) :=
  match l with
  | [] => ret retval
  | it :: l' =>
      let! latency := reads it.2 getLatency in
      match latency with
      | Ok latency => latencies l' (sm_assign it.1 latency retval)
      | Err f => fail f
      end
  end.
Definition getPeerLatency : M RpcServer (list (string * (double * double))) :=
  let! s := get_state in latencies (endpoints s) [].

(** [std::max] and [std::min] keep their first argument unless the second is beyond it. *)
Definition d_max (a b : double) : double := if d_ltb a b then b else a.
Definition d_min (a b : double) : double := if d_ltb b a then b else a.
Fixpoint max_ping (l : list (string * pointer)) (ping : double) : M RpcServer double :=
  match l with
  | [] => ret ping
  | it :: l' =>
      let! u := reads it.2 rpc_getHalfPingUpperBound in
      match u with Ok u => max_ping l' (d_max ping u) | Err f => fail f end
  end.
Definition server_getHalfPingUpperBound : M RpcServer double :=
  let! s := get_state in
  let! ping := max_ping (endpoints s) (d_of_Z 0) in
  ret (d_min ping (d_of_Z 1000000)).
End RpcServer.
