(* ===== verification/MyPeer.v ===== *)
(** * MyPeer

    [wga::MyPeer] (src/peer/src/peer/MyPeer.cpp and .hpp, PlayerData.hpp): a player of a
    game.  It joins through the lobby, connects to the other players, sends them its inputs
    and keeps everybody's inputs over time.  The [PlayerData] are objects behind shared
    pointers: [players] holds them and [peerData] and [myData] point to them.  The STUN
    exchange of the constructor, which StunDiscovery models, is over when it starts here. *)
From S2P Require Import Prelude.
From S2P Require Import StdMap.
From S2P Require Import ChronoMap.
From S2P Require Import RpcId.
From S2P Require Import Message.
From S2P Require Import Estimators.
From S2P Require Import TimeHandler.
From S2P Require Import RpcState.
From S2P Require Import BiDirectionalRpc.
From S2P Require Import RpcVirtuals.
From S2P Require Import UdpRpc.
From S2P Require Import MultiEndpoint.
From S2P Require Import CStr.
From S2P Require Import Base64.
From S2P Require Import CryptoHandler.
From S2P Require Import EncryptedRpc.
From S2P Require Import PortMultiplexer.
From S2P Require Import RpcServer.
From S2P Require Import Json.
From S2P Require Import HttpClient.

(** The network the peer is on: [LocalIpFetcher::fetch], and [NetEngine::resolve], which
    throws. *)
Class Network : Type := {
  local_ips : N -> list string;
  resolve_host : N -> string -> string -> option (list endpoint)
}.

Record PlayerData : Type := mkPlayer {
  player_key : string;
  player_name : string;
  playerInputData : ChronoMap string string;
  metadata : ChronoMap string string
}.
Definition PlayerData_init (key name : string) : PlayerData :=
  mkPlayer key name emptyChronoMap emptyChronoMap.
Definition set_playerInputData c p := mkPlayer (player_key p) (player_name p) c (metadata p).

(** What [updateTimer] calls when it expires. *)
Inductive callback : Type := CheckForEndpoints | Update.
(** The [asio::error_code] a timer's callback gets. *)
Inductive timer_error : Type := no_error | aborted | other_error.

Definition INPUT_SEND_WINDOW_SIZE : nat := 3.

Section MyPeer.
Context `{LruCache} `{Oracle} `{Msgpack} `{Sodium} `{WebClient} `{JsonText} `{Network}.
Variable delay_fuel : nat.
Variable ALL_RPC_FLAKY : bool.
Variable redirections : nat.
Abbreviation enc := (enc_virtuals delay_fuel).

Record MyPeer : Type := mkMyPeer {
  userId : string;
  privateKey : string;
  publicKey : string;
  p_shuttingDown : bool;
  updateFinished : bool;
  client : option HttpClientMuxer;
  gameId : string;
  serverPort : Z;
  hostId : string;
  rpcServer : option RpcServer;
  players : list PlayerData;
  peerData : list (string * option pointer);
  myData : option pointer;
  updateTimer : option callback;
  lastSendBuffer : list (block string string);
  gameName : string;
  name : string;
  timeShiftInitialized : bool;
  hosting : bool;
  updateCounter : Z;
  stunEndpoints : gset endpoint;
  position : Z
}.
Definition set_p_shuttingDown v p :=
  mkMyPeer (userId p) (privateKey p) (publicKey p) v (updateFinished p) (client p) (gameId p) 
    (serverPort p) (hostId p) (rpcServer p) (players p) (peerData p) (myData p) (updateTimer p) 
    (lastSendBuffer p) (gameName p) (name p) (timeShiftInitialized p) (hosting p) 
    (updateCounter p) (stunEndpoints p) (position p).
Definition set_updateFinished v p :=
  mkMyPeer (userId p) (privateKey p) (publicKey p) (p_shuttingDown p) v (client p) (gameId p) 
    (serverPort p) (hostId p) (rpcServer p) (players p) (peerData p) (myData p) (updateTimer p) 
    (lastSendBuffer p) (gameName p) (name p) (timeShiftInitialized p) (hosting p) 
    (updateCounter p) (stunEndpoints p) (position p).
Definition set_client v p :=
  mkMyPeer (userId p) (privateKey p) (publicKey p) (p_shuttingDown p) (updateFinished p) v 
    (gameId p) (serverPort p) (hostId p) (rpcServer p) (players p) (peerData p) (myData p) 
    (updateTimer p) (lastSendBuffer p) (gameName p) (name p) (timeShiftInitialized p) (hosting p) 
    (updateCounter p) (stunEndpoints p) (position p).
Definition set_rpcServer v p :=
  mkMyPeer (userId p) (privateKey p) (publicKey p) (p_shuttingDown p) (updateFinished p) (client p) 
    (gameId p) (serverPort p) (hostId p) v (players p) (peerData p) (myData p) (updateTimer p) 
    (lastSendBuffer p) (gameName p) (name p) (timeShiftInitialized p) (hosting p) 
    (updateCounter p) (stunEndpoints p) (position p).
Definition set_players v p :=
  mkMyPeer (userId p) (privateKey p) (publicKey p) (p_shuttingDown p) (updateFinished p) (client p) 
    (gameId p) (serverPort p) (hostId p) (rpcServer p) v (peerData p) (myData p) (updateTimer p) 
    (lastSendBuffer p) (gameName p) (name p) (timeShiftInitialized p) (hosting p) 
    (updateCounter p) (stunEndpoints p) (position p).
Definition set_peerData v p :=
  mkMyPeer (userId p) (privateKey p) (publicKey p) (p_shuttingDown p) (updateFinished p) (client p) 
    (gameId p) (serverPort p) (hostId p) (rpcServer p) (players p) v (myData p) (updateTimer p) 
    (lastSendBuffer p) (gameName p) (name p) (timeShiftInitialized p) (hosting p) 
    (updateCounter p) (stunEndpoints p) (position p).
Definition set_myData v p :=
  mkMyPeer (userId p) (privateKey p) (publicKey p) (p_shuttingDown p) (updateFinished p) (client p) 
    (gameId p) (serverPort p) (hostId p) (rpcServer p) (players p) (peerData p) v (updateTimer p) 
    (lastSendBuffer p) (gameName p) (name p) (timeShiftInitialized p) (hosting p) 
    (updateCounter p) (stunEndpoints p) (position p).
Definition set_updateTimer v p :=
  mkMyPeer (userId p) (privateKey p) (publicKey p) (p_shuttingDown p) (updateFinished p) (client p) 
    (gameId p) (serverPort p) (hostId p) (rpcServer p) (players p) (peerData p) (myData p) v 
    (lastSendBuffer p) (gameName p) (name p) (timeShiftInitialized p) (hosting p) 
    (updateCounter p) (stunEndpoints p) (position p).
Definition set_lastSendBuffer v p :=
  mkMyPeer (userId p) (privateKey p) (publicKey p) (p_shuttingDown p) (updateFinished p) (client p) 
    (gameId p) (serverPort p) (hostId p) (rpcServer p) (players p) (peerData p) (myData p) 
    (updateTimer p) v (gameName p) (name p) (timeShiftInitialized p) (hosting p) 
    (updateCounter p) (stunEndpoints p) (position p).
Definition set_gameName v p :=
  mkMyPeer (userId p) (privateKey p) (publicKey p) (p_shuttingDown p) (updateFinished p) (client p) 
    (gameId p) (serverPort p) (hostId p) (rpcServer p) (players p) (peerData p) (myData p) 
    (updateTimer p) (lastSendBuffer p) v (name p) (timeShiftInitialized p) (hosting p) 
    (updateCounter p) (stunEndpoints p) (position p).
Definition set_name v p :=
  mkMyPeer (userId p) (privateKey p) (publicKey p) (p_shuttingDown p) (updateFinished p) (client p) 
    (gameId p) (serverPort p) (hostId p) (rpcServer p) (players p) (peerData p) (myData p) 
    (updateTimer p) (lastSendBuffer p) (gameName p) v (timeShiftInitialized p) (hosting p) 
    (updateCounter p) (stunEndpoints p) (position p).
Definition set_timeShiftInitialized v p :=
  mkMyPeer (userId p) (privateKey p) (publicKey p) (p_shuttingDown p) (updateFinished p) (client p) 
    (gameId p) (serverPort p) (hostId p) (rpcServer p) (players p) (peerData p) (myData p) 
    (updateTimer p) (lastSendBuffer p) (gameName p) (name p) v (hosting p) (updateCounter p) 
    (stunEndpoints p) (position p).
Definition set_hosting v p :=
  mkMyPeer (userId p) (privateKey p) (publicKey p) (p_shuttingDown p) (updateFinished p) (client p) 
    (gameId p) (serverPort p) (hostId p) (rpcServer p) (players p) (peerData p) (myData p) 
    (updateTimer p) (lastSendBuffer p) (gameName p) (name p) (timeShiftInitialized p) v 
    (updateCounter p) (stunEndpoints p) (position p).
Definition set_updateCounter v p :=
  mkMyPeer (userId p) (privateKey p) (publicKey p) (p_shuttingDown p) (updateFinished p) (client p) 
    (gameId p) (serverPort p) (hostId p) (rpcServer p) (players p) (peerData p) (myData p) 
    (updateTimer p) (lastSendBuffer p) (gameName p) (name p) (timeShiftInitialized p) (hosting p) 
    v (stunEndpoints p) (position p).
Definition set_stunEndpoints v p :=
  mkMyPeer (userId p) (privateKey p) (publicKey p) (p_shuttingDown p) (updateFinished p) (client p) 
    (gameId p) (serverPort p) (hostId p) (rpcServer p) (players p) (peerData p) (myData p) 
    (updateTimer p) (lastSendBuffer p) (gameName p) (name p) (timeShiftInitialized p) (hosting p) 
    (updateCounter p) v (position p).
Definition set_position v p :=
  mkMyPeer (userId p) (privateKey p) (publicKey p) (p_shuttingDown p) (updateFinished p) (client p) 
    (gameId p) (serverPort p) (hostId p) (rpcServer p) (players p) (peerData p) (myData p) 
    (updateTimer p) (lastSendBuffer p) (gameName p) (name p) (timeShiftInitialized p) (hosting p) 
    (updateCounter p) (stunEndpoints p) v.

Abbreviation MP := (M MyPeer).

Definition lift_outcome {A} (o : outcome A) : MP A := fun p =>
  match o with Ok a => Ok (a, p) | Err f => Err f end.
(** Calls through [rpcServer]; a null pointer is followed. *)
Definition on_server {A} (m : M RpcServer A) : MP A := fun p =>
  match rpcServer p with
  | None => Err Undefined
  | Some s => match m s with Ok (a, s') => Ok (a, set_rpcServer (Some s') p) | Err f => Err f end
  end.
Definition on_peer {A} (h : pointer) (m : M (St EncState) A) : MP A := on_server (on h m).
Definition environment {A} (f : N -> A) : MP A :=
  on_server (on_mux (fun m =>
    let (a, w) := reading f (shared m) in Ok (a, set_objects (objects m) w m))).

(** [client->request] *)
Definition request_ (method path content : string) : MP json := fun p =>
  match client p, rpcServer p with
  | Some c, Some s =>
      match http_request redirections method path content (c, shared (mux s)) with
      | Ok (j, (c', w)) =>
          Ok (j, set_rpcServer (Some (set_mux (set_objects (objects (mux s)) w (mux s)) s))
                   (set_client (Some c') p))
      | Err f => Err f
      end
  | _, _ => Err Undefined
  end.

(** [*peerData[i]] and [*myData] *)
Definition player (h : option pointer) : MP PlayerData := fun p =>
  match h with
  | Some h => match players p !! h with Some d => Ok (d, p) | None => Err Undefined end
  | None => Err Undefined
  end.
Definition mod_player (h : option pointer) (f : PlayerData -> outcome PlayerData) : MP unit :=
  let! d := player h in
  let! d' := lift_outcome (f d) in
  modify (fun p => match h with
                   | Some h => set_players (<[h := d']> (players p)) p
                   | None => p
                   end).
Definition put_input (s e : Z) (m : gmap string string) (d : PlayerData) : outcome PlayerData :=
  let? c := put s e m (playerInputData d) in Ok (set_playerInputData c d).

(** ** Construction *)
(** The constructor behind the STUN exchange. *)
Definition game_id_path (userId : string) : string := "/api/get_current_game_id/" +:+ userId.
Definition game_info_path (gameId : string) : string := "/api/get_game_info/" +:+ gameId.
Definition set_ids (g h : string) (isHost : bool) (p : MyPeer) : MyPeer :=
  set_hosting isHost
    (mkMyPeer (userId p) (privateKey p) (publicKey p) (p_shuttingDown p) (updateFinished p)
       (client p) g (serverPort p) h (rpcServer p) (players p) (peerData p) (myData p)
       (updateTimer p) (lastSendBuffer p) (gameName p) (name p) (timeShiftInitialized p)
       (hosting p) (updateCounter p) (stunEndpoints p) (position p)).
Definition MyPeer_start (w : World) (userId privateKey : string) (serverPort : Z) (name : string)
    (stunEndpoints : gset endpoint) : MyPeer :=
  mkMyPeer userId privateKey (makePublicFromPrivate privateKey) false false (Some Client_init) ""
    serverPort "" (Some (RpcServer_init w)) [] [] None None [] "" name false false 0 stunEndpoints (-1).
Definition get_ids : MP unit :=
  let! p := get_state in
  let! result := request_ "GET" (game_id_path (userId p)) "" in
  let! g := lift_outcome (field_string "gameId" result) in
  let! result := request_ "GET" (game_info_path g) "" in
  let! h := lift_outcome (field_string "hostId" result) in
  modify (set_ids g h (bool_decide (h = userId p))).

(** ** Requests to the lobby *)
Definition peer_host (gameName : string) : MP unit :=
  let! p := get_state in
  let! content := lift_outcome (dump (object
    [("hostId", JStr (userId p)); ("gameId", JStr (gameId p)); ("gameName", JStr gameName)])) in
  let! _ := request_ "POST" "/api/host" content in ret tt.

Definition peer_join : MP unit :=
  let! p := get_state in
  let! content := lift_outcome (dump (object
    [("peerId", JStr (userId p)); ("name", JStr (name p));
     ("peerKey", JStr (keyToString (publicKey p)))])) in
  let! _ := request_ "POST" "/api/join" content in ret tt.

Definition print_endpoint (e : endpoint) : string := address e +:+ ":" +:+ dec (port e).
Definition getMyIps : MP (list string) :=
  let! p := get_state in
  let! ips := environment local_ips in
  let! stun := environment (fun n => o_set_order n (stunEndpoints p)) in
  ret (map (fun ip => ip +:+ ":" +:+ dec (serverPort p)) ips ++ map print_endpoint stun).

Definition updateEndpointServerHttp : MP unit :=
  let! p := get_state in
  let! myIps := getMyIps in
  let! content := lift_outcome (dump (object
    [("endpoints", strings myIps); ("peerId", JStr (userId p))])) in
  let! _ := request_ "POST" "/api/update_endpoints" content in ret tt.

(** The positions: the host first, the others in the order of their ids. *)
Fixpoint find_position (peerId64 : string) (me : string) (peerData : json) (peerIds : list string)
    (a position : Z) : outcome Z :=
  match peerIds with
  | [] => Ok position
  | peerId :: peerIds' =>
      let? peerDataValue := field peerId peerData in
      let? position :=
        if bool_decide (peerId = me) then
          if negb (position =? -1) then Err LogFatal
          else
            let? key := field "key" peerDataValue in
            match key with
            | JStr k => if bool_decide (k = peerId64) then Ok a else Err LogFatal
            | _ => Err LogFatal
            end
        else Ok position in
      find_position peerId64 me peerData peerIds' (a + 1) position
  end.
(** [sort]: by insertion, duplicates kept. *)
Fixpoint insert_string (s : string) (l : list string) : list string :=
  match l with
  | [] => [s]
  | t :: l' => if str_ltb t s then t :: insert_string s l' else s :: l
  end.
Definition sort (l : list string) : list string := foldr insert_string [] l.

Definition initial_position (me publicKey : string) (result : json) : outcome (bool * Z) :=
  let? hostId := field_string "hostId" result in
  let? peerData := field "peerData" result in
  let? publicKeyB64 := Encode (bytes_of publicKey) in
  let? items := items_of peerData in
  let peerIds := hostId :: sort (List.filter (fun i => negb (bool_decide (i = hostId))) items.*1) in
  let? position := find_position (string_of publicKeyB64) me peerData peerIds 0 (-1) in
  if position =? -1 then Err LogFatal else Ok (bool_decide (hostId = me), position).
Definition getInitialPosition : MP unit :=
  let! p := get_state in
  let! result := request_ "GET" (game_info_path (gameId p)) "" in
  let! (isHost, pos) := lift_outcome (initial_position (userId p) (publicKey p) result) in
  modify (fun p => set_position pos (set_hosting isHost p)).

Definition start : MP unit :=
  updateEndpointServerHttp ;;;
  modify (set_updateTimer (Some CheckForEndpoints)).

(** ** Setting up the other players *)
(** The endpoints of one entry of the game's data. *)
Fixpoint resolve_all (l : list json) : MP (list endpoint) :=
  match l with
  | [] => ret []
  | j :: l' =>
      let! endpointString := lift_outcome (as_string j) in
      let tokens := split endpointString ":" in
      let! host := lift_outcome (at_ tokens 0) in
      let! port := lift_outcome (at_ tokens 1) in
      let! found := environment (fun n => resolve_host n host port) in
      let! found := lift_outcome (or_throw found) in
      let! rest := resolve_all l' in
      ret (found ++ rest)
  end.

(** [new T(...)]: the pointer to it. *)
Definition new_player (d : PlayerData) : MP pointer := fun p =>
  Ok (length (players p), set_players (players p ++ [d]) p).
Definition new_handler (r : Rpc) (e : EncState) : MP pointer :=
  on_server (on_mux (fun m =>
    Ok (length (objects m), set_objects (objects m ++ [(r, e)]) (shared m) m))).

Definition setup_handler (id peerKey : string) (endpoints : list endpoint) (myIps : list string) :
    MP unit :=
  let! p := get_state in
  let! now := environment o_time in
  let! e := lift_outcome (Enc_init now endpoints (Crypto_init (privateKey p) peerKey)) in
  let! h := new_handler (Rpc_init ALL_RPC_FLAKY (bool_decide (id = hostId p))) e in
  let! eps := on_peer h
    (let! m := get_multi in read_world (reading (fun n => o_set_order n (aliveEndpoints m)))) in
  for_each eps (fun ep =>
    if bool_decide (print_endpoint ep ∈ myIps) then on_peer h (multi_banEndpoint ep) else ret tt) ;;;
  on_server (server_addEndpoint id h) ;;;
  on_peer h (sendSessionKey delay_fuel).

Definition setup_peer (myIps : list string) (it : string * json) : MP unit :=
  let (id, value) := it in
  let! p := get_state in
  let! key64 := lift_outcome (field_string "key" value) in
  let! peerKey := lift_outcome (stringToKey KEYBYTES key64) in
  let! peerName := lift_outcome (field_string "name" value) in
  let! h := new_player (PlayerData_init peerKey peerName) in
  modify (fun p => set_peerData (sm_assign id (Some h) (peerData p)) p) ;;;
  if bool_decide (id = userId p) then modify (set_name peerName)
  else
    let! endpoints := lift_outcome (field "endpoints" value) in
    let! endpoints := resolve_all (elements_of endpoints) in
    setup_handler id peerKey endpoints myIps.

(** The game name must be the one hosted, when one is hosted. *)
Definition check_game (result : json) : MP unit :=
  let! p := get_state in
  let! gameName' := lift_outcome (field_string "gameName" result) in
  if negb (slen (gameName p) =? 0) then
    if negb (bool_decide (gameName' = gameName p)) then fail LogFatal
    else
      let! h := lift_outcome (field_string "hostId" result) in
      if negb (bool_decide (h = userId p)) then fail LogFatal else ret tt
  else modify (set_gameName gameName').

(** ** The periodic update *)
(** [INPUT_SEND_WINDOW_SIZE] blocks read from a payload and put into a player's inputs. *)
Fixpoint read_blocks (n : nat) (buffer : string) (c : ChronoMap string string) :
    outcome (ChronoMap string string) :=
  match n with
  | O => Ok c
  | S n' =>
      let? (startTime, buffer) := readPrimitive_i64 buffer in
      let? (endTime, buffer) := readPrimitive_i64 buffer in
      let? (m, buffer) := readMap buffer in
      let? c := put startTime endTime m c in
      read_blocks n' buffer c
  end.
Definition take_inputs (payload : string) (c : ChronoMap string string) :
    outcome (ChronoMap string string) := read_blocks INPUT_SEND_WINDOW_SIZE payload c.
Definition receive_inputs (payload : string) (d : PlayerData) : outcome PlayerData :=
  let? c := take_inputs payload (playerInputData d) in Ok (set_playerInputData c d).

(** [while (hasIncomingRequest())]: every turn answers one request. *)
Fixpoint handle_requests (fuel : nat) (h : pointer) (peerKey : string) : MP unit :=
  let! r := on_peer h get_rpc in
  if hasIncomingRequest r then
    match fuel with
    | O => fail Undefined
    | S fuel' =>
        let! idPayload := on_peer h getFirstIncomingRequest in
        let! p := get_state in
        mod_player (default None (sm_find peerKey (peerData p)))
          (receive_inputs (ip_payload idPayload)) ;;;
        on_peer h (replyOneWay (v_reply enc) (ip_id idPayload)) ;;;
        handle_requests fuel' h peerKey
    end
  else ret tt.
(** [while (hasIncomingReply())]: the replies are dropped. *)
Fixpoint drop_replies (fuel : nat) (h : pointer) : MP unit :=
  let! r := on_peer h get_rpc in
  if hasIncomingReply r then
    match fuel with
    | O => fail Undefined
    | S fuel' => on_peer h getFirstIncomingReply ;;; drop_replies fuel' h
    end
  else ret tt.

Definition update_peer (peerKey : string) : MP unit :=
  let! p := get_state in
  if bool_decide (peerKey = userId p) then ret tt
  else
    let! h := on_server (getEndpointHandler peerKey) in
    let! r := on_peer h get_rpc in
    handle_requests (size (incomingRequests r)) h peerKey ;;;
    let! r := on_peer h get_rpc in
    drop_replies (size (incomingReplies r)) h.

Definition peer_update (error : timer_error) : MP unit :=
  match error with
  | aborted => ret tt
  | other_error => fail LogFatal
  | no_error =>
      let! p := get_state in
      match rpcServer p with
      | None => ret tt
      | Some _ =>
          (if Z.rem (updateCounter p) 100 =? 0 then on_server (server_heartbeat delay_fuel) else ret tt) ;;;
          for_each (peerData p).*1 update_peer ;;;
          let! p := get_state in
          if negb (in_s 32 (updateCounter p + 1)) then fail Undefined
          else
            modify (set_updateCounter (updateCounter p + 1)) ;;;
            if p_shuttingDown p then modify (set_updateFinished true)
            else modify (set_updateTimer (Some Update))
      end
  end.

Definition checkForEndpoints (error : timer_error) : MP unit :=
  match error with
  | aborted => ret tt
  | _ =>
      let! p := get_state in
      let! result := request_ "GET" (game_info_path (gameId p)) "" in
      let! ready := lift_outcome (let? r := field "ready" result in as_bool r) in
      if negb ready then modify (set_updateTimer (Some CheckForEndpoints))
      else
        check_game result ;;;
        let! peerDataObject := lift_outcome (field "peerData" result) in
        let! myIps := getMyIps in
        let! items := lift_outcome (items_of peerDataObject) in
        for_each items (setup_peer myIps) ;;;
        modify (fun p =>
          let mine := default None (sm_find (userId p) (peerData p)) in
          set_myData mine (set_peerData (sm_insert (userId p) None (peerData p)) p)) ;;;
        getInitialPosition ;;;
        peer_update no_error
  end.

(** The timer expires, or a second passes for a thread that sleeps: one step of [others]. *)
Definition timer_expires (error : timer_error) : MP unit :=
  let! p := get_state in
  match updateTimer p with
  | None => ret tt
  | Some c =>
      modify (set_updateTimer None) ;;;
      match c with CheckForEndpoints => checkForEndpoints error | Update => peer_update error end
  end.
Definition sleep (others : list (MP unit)) : MP (list (MP unit)) :=
  match others with [] => ret [] | o :: others' => o ;;; ret others' end.

(** ** The calls of the game *)
Fixpoint init_shifts (keys : list string) (others : list (MP unit)) :
    MP (option bool * list (MP unit)) :=
  match keys with
  | [] => ret (Some true, others)
  | peerKey :: keys' =>
      let! p := get_state in
      if bool_decide (peerKey = userId p) then init_shifts keys' others
      else
        let! h := on_server (getEndpointHandler peerKey) in
        let! (d, others) := initTimeShift (fun _ m => on_peer h m) (v_requestWithId enc) 20 others in
        match d with None => ret (None, others) | Some _ => init_shifts keys' others end
  end.
Definition initialized (others : list (MP unit)) : MP (option bool * list (MP unit)) :=
  let! p := get_state in
  match myData p with
  | None => ret (Some false, others)
  | Some _ =>
      let! ready := on_server (server_readyToSend delay_fuel) in
      if negb ready then ret (Some false, others)
      else
        let! p := get_state in
        if timeShiftInitialized p then ret (Some true, others)
        else
          modify (set_timeShiftInitialized true) ;;;
          init_shifts (peerData p).*1 others
  end.

(** [values[key].insert(make_pair(peer, value))] *)
Definition insert_value (peer key value : string) (values : gmap string (gmap string string)) :
    gmap string (gmap string string) :=
  let m := default ∅ (values !! key) in
  <[key := match m !! peer with Some _ => m | None => <[peer := value]> m end]> values.
Definition insert_values (peer : string) (l : list (string * string))
    (values : gmap string (gmap string string)) : gmap string (gmap string string) :=
  foldl (fun v kv => insert_value peer kv.1 kv.2 v) values l.

(** [waitForExpirationTime]: a second of other threads' steps at most. *)
Fixpoint wait_expiration (h : option pointer) (timestamp : Z) (steps : list (MP unit)) : MP bool :=
  let! d := player h in
  if waitForExpirationTime timestamp (playerInputData d) then ret true
  else
    match steps with
    | [] => ret false
    | o :: steps' => o ;;; wait_expiration h timestamp steps'
    end.
(** The waits of [getAllInputValues], each with the steps other threads take in it. *)
Fixpoint wait_inputs (peerId : string) (h : option pointer) (timestamp : Z)
    (values : gmap string (gmap string string)) (waits : list (list (MP unit))) :
    MP (option (gmap string (gmap string string)) * list (list (MP unit))) :=
  match waits with
  | [] => ret (None, [])
  | steps :: waits' =>
      let! in_time := wait_expiration h timestamp steps in
      if in_time then
        let! d := player h in
        let! all := lift_outcome (getAll timestamp (playerInputData d)) in
        ret (Some (insert_values peerId (map_to_list all) values), waits')
      else
        let! down := on_server (isPeerShutDown peerId) in
        if down then ret (Some values, waits') else wait_inputs peerId h timestamp values waits'
  end.
Fixpoint all_inputs (l : list (string * option pointer)) (timestamp : Z)
    (values : gmap string (gmap string string)) (waits : list (list (MP unit))) :
    MP (option (gmap string (gmap string string))) :=
  match l with
  | [] => ret (Some values)
  | (peerId, h) :: l' =>
      let! down := on_server (isPeerShutDown peerId) in
      if down then all_inputs l' timestamp values waits
      else
        let! (values, waits) := wait_inputs peerId h timestamp values waits in
        match values with
        | None => ret None
        | Some values => all_inputs l' timestamp values waits
        end
  end.
Definition getAllInputValues (timestamp : Z) (waits : list (list (MP unit))) :
    MP (option (gmap string (gmap string string))) :=
  let! p := get_state in all_inputs (peerData p) timestamp ∅ waits.

Definition getStateChanges (data : gmap string string) : MP (gmap string string) :=
  let! p := get_state in
  let! d := player (myData p) in
  lift_outcome (getChanges data (playerInputData d)).

(** The blocks sent, oldest first, the newest repeated until there are
    [INPUT_SEND_WINDOW_SIZE] of them; each map in some iteration order. *)
Definition write_block (b : block string string) (buffer : string) : MP string :=
  let! kvs := environment (fun n => o_order n b.2) in
  ret (writeMap kvs (writePrimitive (MInt b.1.2) (writePrimitive (MInt b.1.1) buffer))).
Fixpoint write_blocks (l : list (block string string)) (buffer : string) : MP string :=
  match l with
  | [] => ret buffer
  | b :: l' => let! buffer := write_block b buffer in write_blocks l' buffer
  end.
Definition send_window (buffer : list (block string string)) : list (block string string) :=
  match last buffer with
  | None => []
  | Some b => buffer ++ repeat b (INPUT_SEND_WINDOW_SIZE - length buffer)
  end.
(** [while (size() > INPUT_SEND_WINDOW_SIZE) pop_front()] *)
Definition pop_front (l : list (block string string)) : list (block string string) :=
  drop (length l - INPUT_SEND_WINDOW_SIZE) l.

(** The part of [updateState] under the lock: the payload to broadcast. *)
Definition next_payload (timestamp : Z) (data : gmap string string) : MP string :=
  let! p := get_state in
  let! d := player (myData p) in
  let lastExpirationTime := getExpirationTime (playerInputData d) in
  let! changedData := lift_outcome (getChanges data (playerInputData d)) in
  mod_player (myData p) (put_input lastExpirationTime timestamp changedData) ;;;
  let buffer := pop_front (lastSendBuffer p ++ [(lastExpirationTime, timestamp, changedData)]) in
  modify (set_lastSendBuffer buffer) ;;;
  let! s := write_blocks (send_window buffer) writer_start in
  ret (finish s).1.
Definition updateState (timestamp : Z) (data : gmap string string) : MP unit :=
  let! s := next_payload timestamp data in
  on_server (broadcast delay_fuel s).

(** [state.insert(first, last)]: what is there stays. *)
Definition wait_state (peerId : string) (h : option pointer) (timestamp : Z) :
    MP (option (gmap string string)) :=
  let! d := player h in
  if timestamp <? getExpirationTime (playerInputData d) then
    let! all := lift_outcome (getAll timestamp (playerInputData d)) in ret (Some all)
  else
    let! down := on_server (isPeerShutDown peerId) in
    ret (if down then Some ∅ else None).
Fixpoint full_state (l : list (string * option pointer)) (timestamp : Z) (state : gmap string string)
    (others : list (MP unit)) : MP (option (gmap string string)) :=
  match l with
  | [] => ret (Some state)
  | (peerId, h) :: l' =>
      let! (found, others) := wait_loop (wait_state peerId h timestamp) others in
      match found with
      | None => ret None
      | Some peerState => full_state l' timestamp (state ∪ peerState) others
      end
  end.
Definition getFullState (timestamp : Z) (others : list (MP unit)) : MP (option (gmap string string)) :=
  let! p := get_state in full_state (peerData p) timestamp ∅ others.

Fixpoint nearest (l : list (string * option pointer)) (retval : Z) : MP Z :=
  match l with
  | [] => ret retval
  | (_, h) :: l' =>
      let! d := player h in nearest l' (Z.min retval (getExpirationTime (playerInputData d)))
  end.
Definition getNearestExpirationTime : MP Z :=
  let! p := get_state in
  match peerData p with
  | [] => fail Undefined
  | (_, h) :: _ =>
      let! d := player h in nearest (peerData p) (getExpirationTime (playerInputData d))
  end.

(** ** The end *)
Definition no_work : MP (option unit) :=
  let! busy := on_server server_hasWork in ret (if busy then None else Some tt).
Definition peer_finish (others : list (MP unit)) : MP (option unit * list (MP unit)) :=
  wait_loop no_work others.

Definition update_finished : MP (option unit) :=
  let! p := get_state in ret (if updateFinished p then Some tt else None).
(** The lambda posted to the network thread. *)
Definition release : MP unit :=
  modify (fun p => set_stunEndpoints ∅ (set_updateTimer None p)).
(** What follows [d] when the wait before it is over. *)
Definition once_done (d : option unit * list (MP unit))
    (k : list (MP unit) -> MP (option unit * list (MP unit))) : MP (option unit * list (MP unit)) :=
  match d.1 with None => ret (None, d.2) | Some _ => k d.2 end.

Definition peer_shutdown (others : list (MP unit)) : MP (option unit * list (MP unit)) :=
  let! p := get_state in
  if p_shuttingDown p then ret (Some tt, others)
  else
    let! flushed := wait_loop no_work others in
    once_done flushed (fun others =>
      on_server (server_sendShutdown delay_fuel) ;;;
      let! others := sleep others in
      let! flushed := wait_loop no_work others in
      once_done flushed (fun others =>
        modify (set_p_shuttingDown true) ;;;
        let! finished := wait_loop update_finished others in
        once_done finished (fun others =>
          on_server server_finish ;;;
          on_server (on_mux closeSocket) ;;;
          modify (fun p => set_client None (set_rpcServer None p)) ;;;
          release ;;;
          let! others := sleep others in
          ret (Some tt, others)))).

Definition peer_getLivingPeerCount : MP Z :=
  let! p := get_state in
  match rpcServer p with
  | None => ret 0
  | Some _ => if p_shuttingDown p then ret 0 else on_server getLivingPeerCount
  end.
Definition getTotalPeerCount (p : MyPeer) : Z := Z.of_nat (length (peerData p)).
Definition peer_getPeerLatency : MP (list (string * (double * double))) := on_server getPeerLatency.
Definition peer_getHalfPingUpperBound : MP double := on_server server_getHalfPingUpperBound.
End MyPeer.
