(* ===== verification/MuxRouting.v ===== *)
(** * MuxRouting

    Where a datagram goes: to the handler that knows its sender, to the first handler that
    has not banned it when none does, and out of the process when it cannot be read. *)
From S2P Require Import Prelude.
From S2P Require Import RpcId.
From S2P Require Import Message.
From S2P Require Import TimeHandler.
From S2P Require Import RpcState.
From S2P Require Import Instances.
From S2P Require Import BiDirectionalRpc.
From S2P Require Import RpcVirtuals.
From S2P Require Import RpcDelivery.
From S2P Require Import UdpRpc.
From S2P Require Import MultiEndpoint.
From S2P Require Import CryptoHandler.
From S2P Require Import EncryptedRpc.
From S2P Require Import PortMultiplexer.

Section MuxRouting.
Context `{LruCache} `{Oracle} `{Msgpack} `{Sodium}.
Variable delay_fuel : nat.
Implicit Types (m : PortMultiplexer) (p q : pointer) (from : endpoint) (l : list pointer).

(** The endpoints of the handler behind [p]. *)
Definition endpoints_of p m : option MultiState := (fun o => multi o.2) <$> objects m !! p.
Definition set_multi (x : MultiState) (o : Rpc * EncState) : Rpc * EncState :=
  (o.1, mkEnc x (crypto o.2)).
Definition update_multi p (f : MultiState -> MultiState) m : PortMultiplexer :=
  set_objects (alter (fun o => set_multi (f (multi o.2)) o) p (objects m)) (shared m) m.

Lemma insert_alter {A} (f : A -> A) (i : nat) (x : A) (l : list A) :
  l !! i = Some x -> <[i := f x]> l = alter f i l.
Proof using.
  intros Hx. apply list_eq. intros j. destruct (decide (i = j)) as [<-|Hne].
  - by rewrite list_lookup_insert_eq, list_lookup_alter_eq, Hx by (by eapply lookup_lt_Some).
  - by rewrite list_lookup_insert_ne, list_lookup_alter_ne by done.
Qed.

(** *** The calls on the handlers *)
Lemma run_find from p m o :
  objects m !! p = Some o ->
  on_handler p
    (let! x := get_multi in
     let (b, x') := hasEndpointAndResurrectIfFound from x in
     mod_multi (fun _ => x') ;;; ret b) m =
  Ok ((hasEndpointAndResurrectIfFound from (multi o.2)).1,
      update_multi p (fun x => (hasEndpointAndResurrectIfFound from x).2) m).
Proof using.
  intros Ho. unfold on_handler, update_multi. rewrite Ho. destruct o as [r e].
  erewrite <- insert_alter by exact Ho. unfold bind, get_multi, mod_multi, get_part, mod_part, mod_sub, gets, modify, ret.
  cbn. destruct (hasEndpointAndResurrectIfFound from (multi e)) as [b x']. done.
Qed.

(** *** Finding the owner *)
(** The handler behind [p] takes packets from [from]. *)
Definition owns from p m : Prop :=
  exists x, endpoints_of p m = Some x /\ (hasEndpointAndResurrectIfFound from x).1 = true.
Definition foreign from p m : Prop :=
  exists x, endpoints_of p m = Some x /\ (hasEndpointAndResurrectIfFound from x).1 = false.

Lemma resurrect_false from x :
  (hasEndpointAndResurrectIfFound from x).1 = false -> (hasEndpointAndResurrectIfFound from x).2 = x.
Proof using. unfold hasEndpointAndResurrectIfFound. by repeat case_bool_decide. Qed.

Lemma update_multi_same p f m x :
  endpoints_of p m = Some x -> f x = x -> update_multi p f m = m.
Proof using.
  unfold endpoints_of, update_multi. destruct (objects m !! p) as [[r e]|] eqn:Eo; [|done]. cbn.
  intros [= <-] Hf. erewrite <- (insert_alter _ p (r, e)) by done. cbn. rewrite Hf.
  replace (set_multi (multi e) (r, e)) with (r, e) by (by destruct e). rewrite list_insert_id by done.
  by destruct m.
Qed.
Lemma endpoints_of_ne p q f m : p <> q -> endpoints_of q (update_multi p f m) = endpoints_of q m.
Proof using. intros Hne. unfold endpoints_of, update_multi. cbn. by rewrite list_lookup_alter_ne. Qed.

Lemma find_turn q l from r m x :
  endpoints_of q m = Some x ->
  findRecipient (q :: l) from r m =
  findRecipient l from (if (hasEndpointAndResurrectIfFound from x).1 then Some q else r)
    (update_multi q (fun x => (hasEndpointAndResurrectIfFound from x).2) m).
Proof using.
  unfold endpoints_of. destruct (objects m !! q) as [o|] eqn:Eo; [|done]. intros [= <-].
  cbn [findRecipient]. by rewrite (bind_step _ _ _ _ _ (run_find from q m o Eo)).
Qed.
Lemma find_foreign l from r m :
  (forall q, q ∈ l -> foreign from q m) -> findRecipient l from r m = Ok (r, m).
Proof using.
  revert r. induction l as [|q l IH]; intros r Hl; [done|].
  destruct (Hl q ltac:(left)) as (x & Hx & Hf). rewrite (find_turn _ _ _ _ _ _ Hx), Hf.
  rewrite (update_multi_same _ _ _ _ Hx) by (by apply resurrect_false). apply IH. intros q' Hq. apply Hl. by right.
Qed.
Lemma find_owner l1 p l2 from m :
  owns from p m -> (forall q, q ∈ l1 ++ l2 -> q <> p /\ foreign from q m) ->
  findRecipient (l1 ++ p :: l2) from None m =
    Ok (Some p, update_multi p (fun x => (hasEndpointAndResurrectIfFound from x).2) m).
Proof using.
  intros (x & Hx & Ht) Hl. induction l1 as [|q l1 IH].
  - cbn [app]. rewrite (find_turn _ _ _ _ _ _ Hx), Ht. apply find_foreign. intros q Hq.
    destruct (Hl q Hq) as [Hne (y & Hy & Hf)]. exists y. by rewrite endpoints_of_ne.
  - cbn [app]. destruct (Hl q ltac:(left)) as [_ (y & Hy & Hf)]. rewrite (find_turn _ _ _ _ _ _ Hy), Hf.
    rewrite (update_multi_same _ _ _ _ Hy) by (by apply resurrect_false). apply IH.
    intros q' Hq. apply Hl. by right.
Qed.

(** *** A packet with the magic header *)
Lemma handlePacket_magic from c m :
  handlePacket delay_fuel from (WGA_MAGIC +:+ c) m = dispatch delay_fuel from c m.
Proof using.
  unfold handlePacket. rewrite slen_app. destruct (Z.ltb_spec (slen WGA_MAGIC + slen c) (slen WGA_MAGIC)) as [Hl|_];
    [pose proof (slen_nonneg c); lia|].
  by rewrite str_take_app, bool_decide_true, str_drop_app by done.
Qed.

(** C18: A datagram goes to the peer it comes from.  When exactly one handler takes packets
    from the sender, a datagram with the magic header makes that handler switch to the
    sender as its active endpoint and receive the packet, and does nothing else: no other
    handler changes, and the socket goes on listening. *)
Theorem packet_goes_to_owner from c m l1 p l2 r e :
  recipients m = l1 ++ p :: l2 -> objects m !! p = Some (r, e) ->
  owns from p m -> (forall q, q ∈ l1 ++ l2 -> q <> p /\ foreign from q m) ->
  handleReceive delay_fuel (received from (WGA_MAGIC +:+ c)) m =
  match do_receive (enc_virtuals delay_fuel) c
          (mkSt r (mkEnc (hasEndpointAndResurrectIfFound from (multi e)).2 (crypto e)) (shared m)) with
  | Ok (_, s) => Ok (tt, mkMux (<[p := (rpc s, sub s)]> (objects m)) (recipients m) from
                           (endpointsSeen m) true (socketOpen m) (world s))
  | Err f => Err f
  end.
Proof using.
  intros Hr Ho Hown Hl. unfold handleReceive. set (m1 := set_receiveEndpoint from (set_receiving false m)).
  transitivity ((handlePacket delay_fuel from (WGA_MAGIC +:+ c) ;;; modify (set_receiving true)) m1); [done|].
  unfold bind at 1. rewrite handlePacket_magic. unfold dispatch.
  assert (findRecipient (recipients m1) from None m1 =
    Ok (Some p, update_multi p (fun x => (hasEndpointAndResurrectIfFound from x).2) m1)) as Hf
    by (cbn; rewrite Hr; by apply find_owner).
  unfold bind at 1, get_state. rewrite (bind_step _ _ _ _ _ Hf). cbv iota.
  rewrite (bind_step _ _ _ (Some p) _ eq_refl). unfold bind, on_handler at 1, update_multi. cbn [objects set_objects].
  rewrite list_lookup_alter_eq. change (objects m1 !! p) with (objects m !! p). rewrite Ho. cbn [fmap option_fmap option_map].
  cbn [set_multi fst snd shared set_objects]. change (shared m1) with (shared m).
  destruct (do_receive _ c _) as [[b s]|f] eqn:Er; [|done].
  pose proof (receive_true _ _ _ _ _ Er) as ->. cbn. unfold modify, set_receiving. cbn. do 3 f_equal.
  apply list_eq. intros j. destruct (decide (p = j)) as [<-|Hne].
  - assert (p < length (objects m))%nat by (by eapply lookup_lt_Some).
    by rewrite !list_lookup_insert_eq by (by rewrite ?length_alter).
  - by rewrite !list_lookup_insert_ne, list_lookup_alter_ne by done.
Qed.

(** *** Packets of strangers *)
(** The same objects, with the same endpoints banned. *)
Definition same_bans m m' : Prop :=
  recipients m' = recipients m /\
  forall q x, endpoints_of q m = Some x ->
    exists x', endpoints_of q m' = Some x' /\ bannedEndpoints x' = bannedEndpoints x.
Lemma resurrect_bans from x : bannedEndpoints (hasEndpointAndResurrectIfFound from x).2 = bannedEndpoints x.
Proof using. unfold hasEndpointAndResurrectIfFound. by repeat case_bool_decide. Qed.
Lemma update_same_bans p f m :
  (forall x, bannedEndpoints (f x) = bannedEndpoints x) -> same_bans m (update_multi p f m).
Proof using.
  intros Hf. split; [done|]. intros q x Hx. destruct (decide (p = q)) as [<-|Hne].
  - unfold endpoints_of, update_multi in *. cbn. rewrite list_lookup_alter_eq.
    destruct (objects m !! p) as [o|]; [|done]. injection Hx as <-.
    exists (f (multi o.2)). split; [done|apply Hf].
  - exists x. by rewrite endpoints_of_ne.
Qed.
Lemma same_bans_trans m1 m2 m3 : same_bans m1 m2 -> same_bans m2 m3 -> same_bans m1 m3.
Proof using.
  intros [R1 H1'] [R2 H2']. split; [congruence|]. intros q x Hx. destruct (H1' q x Hx) as (y & Hy & E1).
  destruct (H2' q y Hy) as (z & Hz & E2). exists z. split; [done|congruence].
Qed.

Definition valid m : Prop := forall q, q ∈ recipients m -> is_Some (endpoints_of q m).

Lemma find_total l from r m :
  (forall q, q ∈ l -> is_Some (endpoints_of q m)) ->
  exists r' m', findRecipient l from r m = Ok (r', m') /\ same_bans m m' /\
    (r' = r \/ exists q, q ∈ l /\ r' = Some q).
Proof using.
  revert r m. induction l as [|q l IH]; intros r m Hl.
  - exists r, m. split; [done|]. split; [split; [done|by eauto]|by left].
  - destruct (Hl q ltac:(left)) as (x & Hx). rewrite (find_turn _ _ _ _ _ _ Hx).
    pose proof (update_same_bans q _ m (resurrect_bans from)) as Hs.
    set (m1 := update_multi q _ m) in *.
    destruct (IH (if (hasEndpointAndResurrectIfFound from x).1 then Some q else r) m1) as (r' & m' & E & Hs' & Hr).
    { intros q' Hq. destruct (Hl q' ltac:(by right)) as (y & Hy). destruct (proj2 Hs _ _ Hy) as (z & Hz & _). by exists z. }
    exists r', m'. split; [exact E|]. split; [by eapply same_bans_trans|].
    destruct Hr as [->|(q' & Hq & ->)]; [|right; exists q'; split; [by right|done]].
    destruct (_ : bool); [right; exists q; split; [left|done]|by left].
Qed.

Lemma ask_banned from q m x :
  endpoints_of q m = Some x -> ask (fun _ => isEndpointBanned from) q m = Ok (isEndpointBanned from x, m).
Proof using.
  unfold endpoints_of, ask, on_handler. destruct (objects m !! q) as [[r e]|] eqn:Eo; [|done]. intros [= <-].
  unfold gets, set_objects. cbn. do 2 f_equal. rewrite list_insert_id by done. by destruct m.
Qed.
Lemma run_add from q m x :
  endpoints_of q m = Some x ->
  on_handler q (mod_multi (fun y => addEndpoint y from)) m =
    Ok (tt, update_multi q (fun y => addEndpoint y from) m).
Proof using.
  unfold endpoints_of, on_handler, update_multi. destruct (objects m !! q) as [[r e]|] eqn:Eo; [|done]. intros _.
  erewrite <- insert_alter by exact Eo. done.
Qed.
Lemma addEndpoint_bans from x : bannedEndpoints (addEndpoint x from) = bannedEndpoints x.
Proof using. unfold addEndpoint. by repeat case_bool_decide. Qed.

Lemma try_total l from m p x :
  (forall q, q ∈ l -> is_Some (endpoints_of q m)) ->
  p ∈ l -> endpoints_of p m = Some x -> from ∉ bannedEndpoints x ->
  exists q m', tryRecipient l from m = Ok (Some q, m') /\ q ∈ l /\ same_bans m m'.
Proof using.
  intros Hl Hp Hx Hb. induction l as [|q l IH]; [by apply elem_of_nil in Hp|].
  destruct (Hl q ltac:(left)) as (y & Hy). cbn [tryRecipient].
  rewrite (bind_step _ _ _ _ _ (ask_banned from q m y Hy)).
  destruct (isEndpointBanned from y) eqn:Eb.
  - apply elem_of_cons in Hp as [<-|Hp].
    + rewrite Hx in Hy. injection Hy as <-. by apply bool_decide_eq_true in Eb.
    + destruct IH as (q' & m' & E & Hq & Hs); [intros; apply Hl; by right|done|].
      exists q', m'. split; [exact E|]. split; [by right|done].
  - rewrite (bind_step _ _ _ _ _ (run_add from q m y Hy)). exists q. eexists. split; [done|].
    split; [left|]. apply update_same_bans. intros z. apply addEndpoint_bans.
Qed.

Lemma receive_unreadable c s : mp_next c = None -> do_receive (enc_virtuals delay_fuel) c s = Err RuntimeError.
Proof using.
  intros Hc. unfold do_receive, receive, reading_with, readPrimitive_u8, next_or, bind. rewrite Hc.
  by destruct (mp_malformed c).
Qed.
Lemma on_handler_fails {A} q (act : M (St EncState) A) m f :
  is_Some (endpoints_of q m) -> (forall s, act s = Err f) -> on_handler q act m = Err f.
Proof using.
  unfold endpoints_of, on_handler. intros [x Hx] Hf. destruct (objects m !! q) as [[r e]|]; [|done]. by rewrite Hf.
Qed.
Lemma bind_err {S A B} (act : M S A) (k : A -> M S B) s f : act s = Err f -> bind act k s = Err f.
Proof using. intros E. unfold bind. by rewrite E. Qed.

(** C28: Anybody can stop a peer with one datagram.  As long as some handler has not banned
    the sender, a datagram that holds the magic header and then bytes that are no msgpack
    object is handed to a handler whose reader throws; nothing catches the exception, so it
    ends the network thread and with it the process.  The sender need not be a player. *)
Theorem garbage_packet_terminates from c m p x :
  valid m -> p ∈ recipients m -> endpoints_of p m = Some x -> from ∉ bannedEndpoints x ->
  c <> "" -> mp_next c = None ->
  handleReceive delay_fuel (received from (WGA_MAGIC +:+ c)) m = Err RuntimeError.
Proof using.
  intros Hv Hp Hx Hb Hc Hn. unfold handleReceive. set (m1 := set_receiveEndpoint from (set_receiving false m)).
  transitivity ((handlePacket delay_fuel from (WGA_MAGIC +:+ c) ;;; modify (set_receiving true)) m1); [done|].
  apply bind_err. rewrite handlePacket_magic. unfold dispatch.
  destruct (find_total (recipients m1) from None m1 Hv) as (r & m2 & E & [Hr2 Hs2] & Hr).
  unfold bind at 1, get_state. rewrite (bind_step _ _ _ _ _ E).
  assert (forall q, q ∈ recipients m -> is_Some (endpoints_of q m2)) as Hv2.
  { intros q Hq. destruct (Hv q Hq) as [y Hy]. destruct (Hs2 q y Hy) as (z & Hz & _). by exists z. }
  assert (exists q m3, (match r with
     | None => if 0 <? slen c then tryRecipient (recipients m1) from else ret None
     | Some p => ret (Some p) end) m2 = Ok (Some q, m3) /\ is_Some (endpoints_of q m3)) as (q & m3 & E3 & Hq).
  { destruct Hr as [->|(q & Hq & ->)]; [|exists q, m2; split; [done|by apply Hv2]].
    destruct (Z.ltb_spec 0 (slen c)) as [_|Hl]; [|destruct c; [done|unfold slen in Hl; cbn in Hl; lia]].
    destruct (Hs2 p x Hx) as (y & Hy & Ey).
    destruct (try_total (recipients m1) from m2 p y) as (q & m3 & E3 & Hq & _ & Hs3);
      [exact Hv2|done|done|congruence|].
    exists q, m3. split; [exact E3|]. destruct (Hv2 q Hq) as [z Hz]. destruct (Hs3 q z Hz) as (z' & Hz' & _). by exists z'. }
  rewrite (bind_step _ _ _ _ _ E3). cbv iota. apply bind_err. apply on_handler_fails; [done|].
  intros s. by apply receive_unreadable.
Qed.
End MuxRouting.

(** ** Two handlers on a socket *)
Section Demo.
Definition ep_a : endpoint := mkEndpoint "10.0.0.1" 1.
Definition ep_b : endpoint := mkEndpoint "10.0.0.2" 2.
Definition ep_c : endpoint := mkEndpoint "10.0.0.3" 3.
Definition demo_handler (active : endpoint) (others : list endpoint) : Rpc * EncState :=
  (Rpc_init false false,
   mkEnc (mkMulti (Udp_init active) 0 0 0 (list_to_set others) ∅ ∅) (Crypto_init "" "")).
Definition demo_mux : PortMultiplexer :=
  mkMux [demo_handler ep_a []; demo_handler ep_b [ep_c]] [0%nat; 1%nat] no_endpoint ∅ true true
    (mkWorld 0 TimeHandler_init 0).

(** An acknowledgement from the second handler's other endpoint. *)
Lemma packet_goes_to_owner_witness :
  match handleReceive 0 (received ep_c (WGA_MAGIC +:+ ack_packet (mkRpcId 0 7) "ACK_OK")) demo_mux with
  | Ok (_, m) => active <$> endpoints_of 1%nat m = Some ep_c /\
      endpoints_of 0%nat m = endpoints_of 0%nat demo_mux /\ receiving m = true
  | Err _ => False
  end.
Proof using.
  rewrite (packet_goes_to_owner 0 ep_c (ack_packet (mkRpcId 0 7) "ACK_OK") demo_mux [0%nat] 1%nat []
    (Rpc_init false false) (demo_handler ep_b [ep_c]).2).
  - vm_compute. done.
  - reflexivity.
  - reflexivity.
  - eexists. split; [reflexivity|]. vm_compute. reflexivity.
  - intros q [->|[]%elem_of_nil]%elem_of_cons. split; [done|]. eexists. split; [reflexivity|].
    vm_compute. reflexivity.
Defined.
(** A byte that starts no object of this codec, from nobody's endpoint. *)
Lemma garbage_packet_terminates_witness :
  handleReceive 0 (received (mkEndpoint "6.6.6.6" 6) (WGA_MAGIC +:+ "!")) demo_mux = Err RuntimeError.
Proof using.
  apply (garbage_packet_terminates 0 (mkEndpoint "6.6.6.6" 6) "!" demo_mux 0%nat
    (multi (demo_handler ep_a []).2)); [|by left|reflexivity|by vm_compute|done|reflexivity].
  intros q Hq. cbn in Hq. apply elem_of_cons in Hq as [->|[->|[]%elem_of_nil]%elem_of_cons]; by eexists.
Defined.
End Demo.
