(* ===== verification/InputReplication.v ===== *)
(** * InputReplication

    A player's inputs on the machines of the others.  Each call of [updateState] sends the
    last three blocks of changes; a receiver that hears at least one of any three
    consecutive payloads ends with the sender's own [ChronoMap], in which the value of a key
    at a time is what the game last set it to. *)
From S2P Require Import Prelude.
From S2P Require Import StdMap.
From S2P Require Import ChronoMap.
From S2P Require Import RpcId.
From S2P Require Import Message.
From S2P Require Import TimeHandler.
From S2P Require Import RpcState.
From S2P Require Import Instances.
From S2P Require Import CryptoHandler.
From S2P Require Import EncryptedRpc.
From S2P Require Import PortMultiplexer.
From S2P Require Import RpcServer.
From S2P Require Import Json.
From S2P Require Import HttpClient.
From S2P Require Import MyPeer.

Abbreviation input_block := (block string string).

(** ** Changes and what they say *)
Section Changes.
Implicit Types (bs : list input_block) (cm : ChronoMap string string) (d : gmap string string).

Lemma committed_self bs R : Forall (.∈ R) bs -> committed R bs = bs /\ pending R bs = [].
Proof.
  induction 1 as [|b bs Hb _ [IH1 IH2]]; simpl; [done|]. rewrite !decide_True by done. by rewrite IH1.
Qed.
Lemma Forall_self {A} (l : list A) : Forall (.∈ l) l.
Proof. by apply Forall_forall. Qed.

(** The latest value of a key in a complete map is the last the timeline gives. *)
Lemma latest_value bs cm k t :
  chain 0 bs -> canonical bs bs cm -> chain_end 0 bs <= t ->
  lookup_log bs t k = match data cm !! k with Some im => snd <$> last im | None => None end.
Proof.
  intros Hc (Hd & He & _) Ht. destruct (committed_self bs bs (Forall_self bs)) as [Eb _].
  rewrite Eb in Hd, He.
  destruct (commit_represents bs [] ∅) as (d & E & Hr);
    [apply map_Forall_empty|exact Hc|intros k'; by rewrite lookup_empty|].
  rewrite Hd in E. injection E as <-. specialize (Hr k). cbn in Hr. unfold represents in Hr.
  destruct (data cm !! k) as [im|]; [|apply Hr]. destruct Hr as (_ & Hk & <-). unfold floor.
  rewrite upper_bound_all, take_ge; [done|done|]. eapply Forall_impl; [exact Hk|]. simpl. lia.
Qed.

Lemma canonical_inner bs R cm : canonical bs R cm -> inner_ok (data cm).
Proof.
  intros (Hd & _). destruct (commit_ok (committed R bs)) as (d & E & Hi). rewrite E in Hd.
  by injection Hd as ->.
Qed.

(** Playing the changes of [d] has the effect of playing [d]. *)
Lemma changes_play bs cm d m t k :
  chain 0 bs -> canonical bs bs cm -> chain_end 0 bs <= t -> getChanges d cm = Ok m ->
  match m !! k with Some v => Some v | None => lookup_log bs t k end =
  match d !! k with Some v => Some v | None => lookup_log bs t k end.
Proof.
  intros Hc Hcan Ht Em. destruct (getChanges_spec d cm (canonical_inner _ _ _ Hcan)) as (m' & E & Hm).
  rewrite Em in E. injection E as <-. rewrite Hm. destruct (d !! k) as [v|]; [|done]. cbn.
  rewrite (latest_value bs cm k t) by done. unfold changed.
  destruct (data cm !! k) as [im|]; [|done]. by case_decide.
Qed.
Lemma changes_subset cm d m : inner_ok (data cm) -> getChanges d cm = Ok m -> m ⊆ d.
Proof.
  intros Hi Em. destruct (getChanges_spec d cm Hi) as (m' & E & Hm). rewrite Em in E.
  injection E as <-. apply map_subseteq_spec. intros k v. rewrite Hm. unfold changed.
  destruct (d !! k) as [w|]; [|done]. cbn. repeat case_match; congruence.
Qed.

(** A new block at the end of a complete timeline. *)
Lemma chain_snoc t bs b :
  chain t bs -> bstart b = chain_end t bs -> bstart b < bend b -> chain t (bs ++ [b]).
Proof. intros Hc Hs Hl. apply chain_app. split; [done|]. by repeat split. Qed.
Lemma chain_end_snoc t bs b : chain_end t (bs ++ [b]) = bend b.
Proof. revert t. induction bs; intros t; simpl; auto. Qed.
Lemma canonical_more bs b cm :
  b ∉ bs -> canonical bs bs cm -> canonical (bs ++ [b]) bs cm.
Proof.
  intros Hb. unfold canonical. destruct (committed_app bs bs [b] (Forall_self bs)) as [-> ->].
  destruct (committed_self bs bs (Forall_self bs)) as [-> ->]. simpl.
  rewrite !decide_False, app_nil_r by done. done.
Qed.
Lemma canonical_step bs b cm :
  chain 0 (bs ++ [b]) -> first_nonempty (bs ++ [b]) -> b ∉ bs -> canonical bs bs cm ->
  exists cm', putBlock cm b = Ok cm' /\ canonical (bs ++ [b]) (bs ++ [b]) cm'.
Proof.
  intros Hc Hn Hb Hcan.
  destruct (canonical_put (bs ++ [b]) bs cm b) as (cm' & E & H');
    [done|done|apply elem_of_app; right; left|by apply canonical_more|].
  exists cm'. split; [done|]. eapply canonical_ext; [|exact H'].
  intros x _. rewrite elem_of_cons, elem_of_app, list_elem_of_singleton. tauto.
Qed.
End Changes.

(** ** Payloads *)
Section Payloads.
Context `{MsgpackLaws}.
Implicit Types (b : input_block) (l : list input_block).

(** A block that fits the wire format. *)
Definition map_fits (m : gmap string string) : Prop :=
  map_Forall (fun k v => slen k < 2 ^ 32 /\ slen v < 2 ^ 32) m /\ Z.of_nat (size m) < 2 ^ 32.
Definition block_fits b : Prop := in_s 64 b.1.1 = true /\ in_s 64 b.1.2 = true /\ map_fits b.2.

Definition print_block (kvs : list (string * string)) b : string :=
  writeMap kvs (writePrimitive (MInt b.1.2) (writePrimitive (MInt b.1.1) "")).
(** The blocks one after the other, each map in some order. *)
Inductive printed : list input_block -> string -> Prop :=
  | printed_nil : printed [] ""
  | printed_cons b l kvs s : kvs ≡ₚ map_to_list b.2 -> printed l s ->
      printed (b :: l) (print_block kvs b +:+ s).

Lemma map_fits_wf (m : gmap string string) kvs :
  map_fits m -> kvs ≡ₚ map_to_list m -> mobj_wf (MMap kvs) = true.
Proof using.
  intros [Hm Hs] Hp. unfold mobj_wf. apply andb_true_iff. split.
  - apply forallb_forall. intros [k v] Hin%list_elem_of_In. rewrite Hp in Hin.
    apply elem_of_map_to_list in Hin. destruct (Hm k v Hin). simpl. lia.
  - rewrite Hp, length_map_to_list. lia.
Qed.
Lemma map_fits_of_wf (m : gmap string string) : mobj_wf (MMap (map_to_list m)) = true -> map_fits m.
Proof using.
  unfold mobj_wf. intros [Hf Hs]%andb_true_iff. split.
  - intros k v Hk%elem_of_map_to_list%list_elem_of_In. rewrite forallb_forall in Hf.
    specialize (Hf _ Hk). simpl in Hf. lia.
  - rewrite length_map_to_list in Hs. lia.
Qed.
Lemma map_fits_subset (m m' : gmap string string) : m' ⊆ m -> map_fits m -> map_fits m'.
Proof using.
  intros Hsub [Hm Hs]. split.
  - intros k v Hk. apply Hm. by eapply map_subseteq_spec.
  - pose proof (subseteq_size _ _ (subseteq_dom _ _ Hsub)) as Hd. rewrite !size_dom in Hd. lia.
Qed.
Lemma writeMap_buffer (m : gmap string string) kvs buffer :
  map_fits m -> kvs ≡ₚ map_to_list m -> writeMap kvs buffer = buffer +:+ writeMap kvs "".
Proof using Type*.
  intros [_ Hs] Hp. rewrite !writeMap_eq; [done|..]; rewrite Hp, length_map_to_list; lia.
Qed.

(** Reading a payload puts its blocks. *)
Lemma read_blocks_printed l s rest (c : ChronoMap string string) :
  printed l s -> Forall block_fits l -> read_blocks (length l) (s +:+ rest) c = ofold putBlock l c.
Proof using Type*.
  intros Hl. revert c. induction Hl as [|b l kvs s Hp Hl IH]; intros c Hf; [done|].
  inversion Hf as [|? ? (Hs & He & Hm) Hf']; subst. cbn [read_blocks length ofold].
  destruct b as [[t1 t2] m]. simpl in Hs, He, Hm, Hp. unfold print_block.
  rewrite (writeMap_buffer m) by done. unfold writePrimitive. cbn [fst snd].
  rewrite !str_app_assoc. change ("" +:+ ?x) with x. rewrite read_i64 by done. cbn [obind].
  rewrite read_i64 by done. cbn [obind]. rewrite (read_map m) by (done || by eapply map_fits_wf).
  cbn [obind]. unfold putBlock at 1. destruct (put t1 t2 m c) as [c'|]; [|done]. cbn [obind]. by apply IH.
Qed.
End Payloads.

(** ** The sender *)
Section Sender.
Context `{LruCache} `{Oracle} `{Msgpack} `{Sodium} `{WebClient} `{JsonText} `{Network}.
Context {ML : MsgpackLaws} {OL : OracleLaws}.
Variable delay_fuel : nat.
Implicit Types (p : MyPeer) (bs l : list input_block) (d : gmap string string).

(** What [updateState] works on. *)
Definition own p : option (list input_block * ChronoMap string string) :=
  h ← myData p; d ← players p !! h; Some (lastSendBuffer p, playerInputData d).

Definition last3 bs : list input_block := pop_front bs.
Record sender_inv bs (cm : ChronoMap string string) p : Prop := {
  se_own : own p = Some (last3 bs, cm);
  se_chain : chain 0 bs;
  se_first : first_nonempty bs;
  se_map : canonical bs bs cm;
  se_fits : Forall block_fits bs
}.

Lemma last3_snoc bs b : pop_front (last3 bs ++ [b]) = last3 (bs ++ [b]).
Proof using.
  unfold last3, pop_front, INPUT_SEND_WINDOW_SIZE. rewrite !length_app, length_drop. cbn [length].
  destruct (decide (length bs <= 2)%nat) as [Hs|Hl].
  - replace (length bs - 3)%nat with 0%nat by lia. rewrite drop_0. do 2 f_equal. lia.
  - rewrite (drop_app_le bs) by lia. rewrite drop_app_le by (rewrite length_drop; lia).
    rewrite drop_drop. do 2 f_equal. lia.
Qed.
Lemma last3_elem bs b : b ∈ last3 bs -> b ∈ bs.
Proof using. unfold last3, pop_front. intros Hb. by eapply subseteq_drop. Qed.
Lemma send_window_spec bs b :
  length (send_window (last3 (bs ++ [b]))) = 3%nat /\
  forall x, x ∈ send_window (last3 (bs ++ [b])) <-> x ∈ last3 (bs ++ [b]).
Proof using.
  set (w := last3 (bs ++ [b])).
  assert (length w <= 3)%nat as Hw by (unfold w, last3, pop_front, INPUT_SEND_WINDOW_SIZE; rewrite length_drop; lia).
  assert (last w = Some b) as Hl.
  { unfold w, last3, pop_front. rewrite drop_app_le; [by rewrite last_snoc|].
    rewrite length_app. unfold INPUT_SEND_WINDOW_SIZE. cbn. lia. }
  unfold send_window. rewrite Hl, length_app, repeat_length. unfold INPUT_SEND_WINDOW_SIZE.
  split; [lia|]. intros x. rewrite elem_of_app. split; [|by left]. intros [|Hx]; [done|].
  apply list_elem_of_In, repeat_spec in Hx as ->. rewrite last_lookup in Hl. by eapply list_elem_of_lookup_2.
Qed.

Lemma environment_own {A} (f : N -> A) p a p' :
  environment f p = Ok (a, p') -> own p' = own p /\ exists n, a = f n.
Proof using.
  unfold environment, on_server, on_mux, reading. destruct (rpcServer p) as [s|]; [|done].
  intros [= <- <-]. split; [done|by eexists].
Qed.
Lemma write_blocks_spec l buf p s p' :
  Forall block_fits l -> write_blocks l buf p = Ok (s, p') ->
  own p' = own p /\ exists s0, printed l s0 /\ s = buf +:+ s0.
Proof using ML OL.
  intros Hl. revert buf p. induction Hl as [|b l (_ & _ & Hm) Hl IH]; intros buf p E; cbn [write_blocks] in E.
  - injection E as <- <-. split; [done|]. exists "". split; [constructor|by rewrite str_app_nil_r].
  - apply bind_ok in E as (buf1 & p1 & E1 & E). unfold write_block in E1.
    apply bind_ok in E1 as (kvs & p2 & E1 & E2). injection E2 as <- <-.
    apply environment_own in E1 as [Ho [n ->]]. apply IH in E as [Ho' (s0 & Hp & ->)].
    split; [congruence|]. pose proof (o_order_perm _ _ n b.2) as Hperm.
    exists (print_block (o_order n b.2) b +:+ s0). split; [by constructor|]. unfold print_block.
    rewrite (writeMap_buffer b.2), (writeMap_buffer b.2 _ (writePrimitive _ (writePrimitive _ ""))) by done.
    unfold writePrimitive. by rewrite !str_app_assoc.
Qed.

Lemma own_player p l cm :
  own p = Some (l, cm) -> exists h x, myData p = Some h /\ players p !! h = Some x /\
    lastSendBuffer p = l /\ playerInputData x = cm.
Proof using.
  unfold own. destruct (myData p) as [h|] eqn:Eh; [|done]. cbn.
  destruct (players p !! h) as [x|] eqn:Ex; [|done]. cbn. intros [= <- <-]. by eexists _, _.
Qed.
Lemma own_put p h x cm l :
  myData p = Some h -> players p !! h = Some x ->
  own (set_lastSendBuffer l (set_players (<[h := set_playerInputData cm x]> (players p)) p)) =
    Some (l, cm).
Proof using.
  intros Eh Ex. unfold own. cbn. rewrite Eh. cbn. rewrite list_lookup_insert_eq; [done|].
  by eapply lookup_lt_Some.
Qed.
Lemma run_player p h x : players p !! h = Some x -> player (Some h) p = Ok (x, p).
Proof using. intros Ex. unfold player. by rewrite Ex. Qed.

(** One call of [updateState] up to the broadcast. *)
Lemma next_payload_inv t d p s p' l cm :
  own p = Some (l, cm) -> next_payload t d p = Ok (s, p') ->
  exists m cm' p1, getChanges d cm = Ok m /\
    put (expirationTime cm) t m cm = Ok cm' /\
    (let w := pop_front (l ++ [(expirationTime cm, t, m)]) in
     own p1 = Some (w, cm') /\ write_blocks (send_window w) "" p1 = Ok (s, p')).
Proof using.
  intros (h & x & Eh & Ex & El & Ec)%own_player E. unfold next_payload in E.
  apply bind_ok in E as (p1 & p2 & E1 & E). injection E1 as <- <-. rewrite Eh in E.
  rewrite (bind_step _ _ _ _ _ (run_player _ _ _ Ex)) in E. unfold getExpirationTime in E. rewrite Ec in E.
  apply bind_ok in E as (m & p2 & E1 & E). unfold lift_outcome in E1.
  destruct (getChanges d cm) as [m'|] eqn:Em; [|done]. injection E1 as <- <-.
  apply bind_ok in E as ([] & p2 & E1 & E). unfold mod_player in E1.
  rewrite (bind_step _ _ _ _ _ (run_player _ _ _ Ex)) in E1. apply bind_ok in E1 as (d' & p3 & E1 & E2).
  unfold lift_outcome, put_input in E1. rewrite Ec in E1.
  destruct (put (expirationTime cm) t m' cm) as [cm'|] eqn:Ep; [|done]. injection E1 as <- <-.
  injection E2 as <-. apply bind_ok in E as ([] & p2 & E1 & E). injection E1 as <-.
  apply bind_ok in E as (s1 & p2 & E1 & E2). injection E2 as <- <-.
  exists m', cm', (set_lastSendBuffer (pop_front (l ++ [(expirationTime cm, t, m')]))
    (set_players (<[h := set_playerInputData cm' x]> (players p)) p)).
  split; [done|]. split; [done|]. cbv zeta. split; [by apply own_put|]. by rewrite El in E1.
Qed.

Lemma chain_end_fits t bs : in_s 64 t = true -> Forall block_fits bs -> in_s 64 (chain_end t bs) = true.
Proof using.
  intros Ht Hf. revert t Ht. induction Hf as [|b bs (Hb & He & _) Hf IH]; intros t Ht; [done|]. by apply IH.
Qed.
Lemma first_changes cm d m : canonical [] [] cm -> getChanges d cm = Ok m -> m = d.
Proof using.
  intros Hc Em. apply map_eq. intros k. pose proof (changes_play [] cm d m 0 k I Hc ltac:(done) Em) as E.
  by destruct (m !! k), (d !! k).
Qed.
Lemma put_succeeds t (m : gmap string string) cm cm' :
  0 <= expirationTime cm -> put (expirationTime cm) t m cm = Ok cm' -> expirationTime cm < t.
Proof using.
  intros He. unfold put. destruct (Z.ltb_spec (expirationTime cm) 0); [lia|]. rewrite Z.ltb_irrefl.
  by destruct (Z.leb_spec t (expirationTime cm)).
Qed.

(** A payload that carries the last three blocks of [bs]. *)
Definition carries bs (s : string) : Prop :=
  exists l, printed l s /\ length l = 3%nat /\ forall x, x ∈ l <-> x ∈ last3 bs.

Lemma next_payload_step bs cm t d p s p' :
  sender_inv bs cm p -> in_s 64 t = true -> map_fits d -> (bs = [] -> d <> ∅) ->
  next_payload t d p = Ok (s, p') ->
  exists b cm', bstart b = chain_end 0 bs /\ bend b = t /\ sender_inv (bs ++ [b]) cm' p' /\
    carries (bs ++ [b]) s /\
    forall k time, chain_end 0 bs <= time ->
      lookup_log (bs ++ [b]) time k = match d !! k with Some v => Some v | None => lookup_log bs time k end.
Proof using ML OL.
  intros [Hown Hc Hn Hcan Hf] Ht Hd Hfirst E.
  destruct (next_payload_inv _ _ _ _ _ _ _ Hown E) as (m & cm1 & p1 & Em & Ep & Hown1 & Ew).
  assert (expirationTime cm = chain_end 0 bs) as Hexp.
  { destruct Hcan as (_ & -> & _). by destruct (committed_self bs bs (Forall_self bs)) as [-> _]. }
  pose proof (chain_end_ge 0 bs Hc) as Hge.
  assert (0 <= expirationTime cm) as Hpos by (rewrite Hexp; exact Hge).
  pose proof (put_succeeds _ _ _ _ Hpos Ep) as Hlt. rewrite Hexp in Ep, Hlt, Hown1, Ew.
  set (b := (chain_end 0 bs, t, m) : input_block) in *. rewrite last3_snoc in Hown1, Ew.
  assert (b ∉ bs) as Hb by (intros Hin; pose proof (chain_end_in 0 b bs Hc Hin) as Hx; unfold bstart, b in Hx; simpl in Hx; lia).
  assert (block_fits b) as Hbf.
  { split; [by apply chain_end_fits|]. split; [done|]. simpl.
    eapply map_fits_subset; [|exact Hd]. eapply changes_subset; [by eapply canonical_inner|exact Em]. }
  assert (chain 0 (bs ++ [b])) as Hc' by (by apply chain_snoc).
  assert (first_nonempty (bs ++ [b])) as Hn'.
  { destruct bs as [|b0 bs]; [|exact Hn]. cbn. rewrite (first_changes cm d m Hcan Em). by apply Hfirst. }
  destruct (canonical_step bs b cm Hc' Hn' Hb Hcan) as (cm2 & E2 & Hcan2).
  unfold putBlock, b in E2. rewrite Ep in E2. injection E2 as <-.
  destruct (send_window_spec bs b) as [Hlen Helem].
  assert (Forall block_fits (bs ++ [b])) as Hall by (apply Forall_app; split; [done|by apply Forall_singleton]).
  assert (Forall block_fits (send_window (last3 (bs ++ [b])))) as Hwf.
  { apply Forall_forall. intros x Hx%Helem%last3_elem. by eapply Forall_forall in Hall. }
  destruct (write_blocks_spec _ _ _ _ _ Hwf Ew) as (Hown2 & s0 & Hp & ->).
  exists b, cm1. split; [done|]. split; [done|]. split; [|split].
  - split; [congruence|done|done|done|done].
  - eexists. by split.
  - intros k time Htime. rewrite lookup_log_snoc. unfold lookup_step, bstart, bdata, b. cbn [fst snd].
    destruct (Z.leb_spec (chain_end 0 bs) time); [|lia]. by apply (changes_play bs cm).
Qed.

(** ** A game from the sender's side

    [updateState] with what it broadcast; between two calls anything else may happen to the
    peer that leaves its own inputs alone. *)
Inductive plays : MyPeer -> list (Z * gmap string string) -> list string -> MyPeer -> Prop :=
  | plays_start p : plays p [] [] p
  | plays_move p moves payloads p1 t d s p2 p3 :
      plays p moves payloads p1 -> next_payload t d p1 = Ok (s, p2) ->
      on_server (broadcast delay_fuel s) p2 = Ok (tt, p3) ->
      plays p (moves ++ [(t, d)]) (payloads ++ [s]) p3
  | plays_other p moves payloads p1 p2 :
      plays p moves payloads p1 -> own p2 = own p1 -> plays p moves payloads p2.

Definition moves_ok (moves : list (Z * gmap string string)) : Prop :=
  Forall (fun mv => in_s 64 mv.1 = true /\ map_fits mv.2) moves /\
  match moves with [] => True | mv :: _ => mv.2 <> ∅ end.

(** What the game set a key to at a time: a move holds from the end of the move before it. *)
Definition play_step (time : Z) (k : string) (acc : Z * option string)
    (mv : Z * gmap string string) : Z * option string :=
  (mv.1, if acc.1 <=? time then match mv.2 !! k with Some v => Some v | None => acc.2 end else acc.2).
Definition played (moves : list (Z * gmap string string)) (time : Z) (k : string) : option string :=
  (foldl (play_step time k) (0, None) moves).2.
Definition played_until (moves : list (Z * gmap string string)) : Z :=
  default 0 (fst <$> last moves).

Lemma played_snoc moves mv time k :
  played (moves ++ [mv]) time k =
    if played_until moves <=? time
    then match mv.2 !! k with Some v => Some v | None => played moves time k end
    else played moves time k.
Proof using.
  unfold played. rewrite foldl_app. cbn [foldl]. unfold play_step at 1. cbn [snd].
  assert ((foldl (play_step time k) (0, None) moves).1 = played_until moves) as ->; [|done].
  unfold played_until. destruct moves as [|x l _] using rev_ind; [done|].
  by rewrite foldl_app, last_snoc.
Qed.

Lemma on_server_own {A} (m : M RpcServer A) p a p' : on_server m p = Ok (a, p') -> own p' = own p.
Proof using.
  unfold on_server. destruct (rpcServer p) as [x|]; [|done]. destruct (m x) as [[b y]|]; [|done].
  by intros [= _ <-].
Qed.

Lemma moves_ok_snoc moves t d :
  moves_ok (moves ++ [(t, d)]) ->
  moves_ok moves /\ in_s 64 t = true /\ map_fits d /\ (moves = [] -> d <> ∅).
Proof using.
  intros [[Hf [? ?]%Forall_singleton]%Forall_app Hn]. split; [|split; [done|split; [done|]]].
  - split; [done|]. by destruct moves.
  - by intros ->.
Qed.

Lemma plays_spec p0 moves payloads p :
  own p0 = Some ([], emptyChronoMap) -> plays p0 moves payloads p -> moves_ok moves ->
  exists bs cm, sender_inv bs cm p /\ chain_end 0 bs = played_until moves /\
    length payloads = length bs /\ length moves = length bs /\
    (forall n s, payloads !! n = Some s -> carries (take (S n) bs) s) /\
    forall k time, 0 <= time -> lookup_log bs time k = played moves time k.
Proof using ML OL.
  intros Hfresh Hp. induction Hp as [p|p moves payloads p1 t d s p2 p3 Hp IH E1 E2|p moves payloads p1 p2 Hp IH E].
  - intros _. exists [], emptyChronoMap. repeat split; done || constructor.
  - intros (Hok & Ht & Hd & Hne)%moves_ok_snoc.
    destruct (IH Hfresh Hok) as (bs & cm & Hs & Hend & Hl & Hlm & Hc & Hplay).
    assert (bs = [] -> d <> ∅) as Hne' by (intros ->; by apply Hne, length_zero_iff_nil).
    destruct (next_payload_step _ _ _ _ _ _ _ Hs Ht Hd Hne' E1) as (b & cm' & Hb & He & Hs' & Hcar & Hlook).
    exists (bs ++ [b]), cm'. apply on_server_own in E2. destruct Hs' as [Hown ? ? ? ?].
    split; [split; [congruence|done..]|]. rewrite !length_app, chain_end_snoc, He, Hl, Hlm. cbn [length].
    split; [unfold played_until; by rewrite last_snoc|]. split; [done|]. split; [done|]. split.
    + intros n s' Hn. apply lookup_app_Some in Hn as [Hn|[Hge Hn]].
      * rewrite take_app_le by (apply lookup_lt_Some in Hn; lia). by apply Hc.
      * apply list_lookup_singleton_Some in Hn as [Hz <-]. rewrite take_ge; [done|]. rewrite length_app. cbn. lia.
    + intros k time Htime. rewrite played_snoc, <- Hend. cbn [snd].
      destruct (Z.leb_spec (chain_end 0 bs) time) as [Hle|Hgt].
      * rewrite Hlook by done. by rewrite Hplay.
      * rewrite lookup_log_snoc. unfold lookup_step. rewrite Hb.
        destruct (Z.leb_spec (chain_end 0 bs) time); [lia|by apply Hplay].
  - intros Hok. destruct (IH Hfresh Hok) as (bs & cm & [Hown ? ? ? ?] & Hrest). exists bs, cm.
    split; [split; [congruence|done..]|exact Hrest].
Qed.
End Sender.

(** ** The receiver *)
Section Receiver.
Context `{LruCache} `{Oracle} `{Msgpack} `{Sodium} `{WebClient} `{JsonText} `{Network}.
Context {ML : MsgpackLaws} {OL : OracleLaws}.
Variable delay_fuel : nat.
Implicit Types (bs l R : list input_block) (payloads ss : list string) (heard : list nat).

(** The payloads taken one after the other, as [peer_update] takes them. *)
Definition take_all (heard : list string) (c : ChronoMap string string) :
    outcome (ChronoMap string string) := ofold (fun c s => take_inputs s c) heard c.

Lemma puts_canonical bs l R c :
  chain 0 bs -> first_nonempty bs -> Forall (.∈ bs) l -> canonical bs R c ->
  exists c' R', ofold putBlock l c = Ok c' /\ canonical bs R' c' /\ forall x, x ∈ R' <-> x ∈ l \/ x ∈ R.
Proof using.
  intros Hc Hn Hl. revert R c. induction Hl as [|b l Hb Hl IH]; intros R c Hcan; cbn [ofold].
  - exists c, R. split; [done|]. split; [done|]. intros x. rewrite elem_of_nil. tauto.
  - destruct (canonical_put bs R c b Hc Hn Hb Hcan) as (c1 & -> & Hput). cbn [obind].
    destruct (IH _ _ Hput) as (c' & R' & E & Hcan' & HR). exists c', R'.
    split; [done|]. split; [done|]. intros x. rewrite HR, !elem_of_cons. tauto.
Qed.

Lemma last3_take bs n i b :
  bs !! n = Some b -> (n <= i < n + 3)%nat -> b ∈ last3 (take (S i) bs).
Proof using.
  intros Hb Hi. pose proof (lookup_lt_Some _ _ _ Hb) as Hlt.
  unfold last3, pop_front, INPUT_SEND_WINDOW_SIZE. rewrite length_take.
  apply (list_elem_of_lookup_2 _ (n - (S i `min` length bs - 3))).
  rewrite lookup_drop, lookup_take_lt by lia. rewrite <- Hb. f_equal. lia.
Qed.

Lemma take_payload bs n s R c :
  chain 0 bs -> first_nonempty bs -> Forall block_fits bs -> carries (take n bs) s -> canonical bs R c ->
  exists c' R', take_inputs s c = Ok c' /\ canonical bs R' c' /\
    (forall x, x ∈ R -> x ∈ R') /\ forall x, x ∈ last3 (take n bs) -> x ∈ R'.
Proof using ML.
  intros Hc Hn Hf (l & Hp & Hlen & Hl) Hcan.
  assert (Forall (.∈ bs) l) as Hin.
  { apply Forall_forall. intros x Hx%Hl%last3_elem. by eapply subseteq_take. }
  assert (Forall block_fits l) as Hfl by (eapply Forall_impl; [exact Hin|]; intros x Hx; by eapply Forall_forall in Hf).
  destruct (puts_canonical bs l R c Hc Hn Hin Hcan) as (c' & R' & E & Hcan' & HR). exists c', R'.
  split; [|split; [done|split; [intros x ?; apply HR; by right|intros x ?; apply HR; left; by apply Hl]]].
  unfold take_inputs, INPUT_SEND_WINDOW_SIZE. rewrite <- Hlen, <- (str_app_nil_r s).
  by rewrite (read_blocks_printed l).
Qed.

Lemma take_all_spec bs payloads heard ss R c :
  chain 0 bs -> first_nonempty bs -> Forall block_fits bs ->
  (forall n s, payloads !! n = Some s -> carries (take (S n) bs) s) ->
  Forall2 (fun n s => payloads !! n = Some s) heard ss -> canonical bs R c ->
  exists c' R', take_all ss c = Ok c' /\ canonical bs R' c' /\ (forall x, x ∈ R -> x ∈ R') /\
    forall n x, n ∈ heard -> x ∈ last3 (take (S n) bs) -> x ∈ R'.
Proof using ML.
  intros Hc Hn Hf Hcar Hh. revert R c. induction Hh as [|n s heard ss Hs Hh IH]; intros R c Hcan.
  - exists c, R. split; [done|]. split; [done|]. split; [done|]. by intros n x ?%elem_of_nil.
  - unfold take_all. cbn [ofold].
    destruct (take_payload bs (S n) s R c Hc Hn Hf (Hcar _ _ Hs) Hcan) as (c1 & R1 & -> & Hcan1 & Hsub & Hin).
    cbn [obind]. destruct (IH _ _ Hcan1) as (c' & R' & E & Hcan' & Hsub' & Hin'). exists c', R'.
    split; [exact E|]. split; [done|]. split; [auto|].
    intros m x [->|Hm]%elem_of_cons Hx; [auto|by eapply Hin'].
Qed.

(** Payloads heard in any order, so that of three consecutive ones one is among them, give
    the sender's timeline. *)
Lemma heard_all bs cm payloads heard ss :
  chain 0 bs -> first_nonempty bs -> Forall block_fits bs -> canonical bs bs cm ->
  (forall n s, payloads !! n = Some s -> carries (take (S n) bs) s) ->
  Forall2 (fun n s => payloads !! n = Some s) heard ss ->
  (forall n, (n < length bs)%nat -> exists i, i ∈ heard /\ (n <= i < n + 3)%nat) ->
  take_all ss emptyChronoMap = Ok cm.
Proof using ML.
  intros Hc Hn Hf Hcan Hcar Hheard Hcover.
  destruct (take_all_spec bs payloads heard ss [] emptyChronoMap Hc Hn Hf Hcar Hheard (canonical_nil bs))
    as (c' & R & E & Hcan' & _ & Hin). rewrite E. f_equal. eapply canonical_fun; [|exact Hcan].
  eapply canonical_ext; [|exact Hcan']. intros x Hx. split; [done|]. intros _.
  apply list_elem_of_lookup in Hx as [n Hxn].
  destruct (Hcover n) as (i & Hi & Hni); [by eapply lookup_lt_Some|].
  eapply Hin; [exact Hi|]. by eapply last3_take.
Qed.
(** What a timeline gives at a time. *)
Lemma played_get bs moves cm time k :
  chain 0 bs -> canonical bs bs cm -> chain_end 0 bs = played_until moves ->
  (forall k time, 0 <= time -> lookup_log bs time k = played moves time k) -> 0 <= time ->
  get time k cm = Ok (if time <? played_until moves then played moves time k else None).
Proof using.
  intros Hc Hcan Hend Hplay Ht. rewrite (get_canonical_log bs bs) by done.
  destruct (committed_self bs bs (Forall_self bs)) as [-> _]. by rewrite Hend, Hplay.
Qed.

(** C1: A player's inputs arrive at every other player in spite of losses.  Take any game a
    fresh peer plays: the payloads its [updateState] broadcasts, and a receiver that takes
    any of them in any order and any number of times, as long as of any three consecutive
    ones it hears at least one (and the last).  Then the receiver's [ChronoMap] of that
    player is the player's own, nothing aborts, and at any time it gives for each key the
    value the game last set, which neither side ever sent as a whole: only changes. *)
Theorem inputs_replicated p0 moves payloads p heard ss :
  own p0 = Some ([], emptyChronoMap) -> moves_ok moves -> plays delay_fuel p0 moves payloads p ->
  Forall2 (fun n s => payloads !! n = Some s) heard ss ->
  (forall n, (n < length payloads)%nat -> exists i, i ∈ heard /\ (n <= i < n + 3)%nat) ->
  exists cm, snd <$> own p = Some cm /\ take_all ss emptyChronoMap = Ok cm /\
    forall time k, 0 <= time ->
      get time k cm = Ok (if time <? played_until moves then played moves time k else None).
Proof using ML OL.
  intros Hfresh Hok Hplays Hheard Hcover.
  destruct (plays_spec _ _ _ _ _ Hfresh Hplays Hok)
    as (bs & cm & [Hown Hc Hn Hcan Hf] & Hend & Hlen & _ & Hcar & Hplay).
  exists cm. rewrite Hown. split; [done|]. split.
  - eapply heard_all; try done. by rewrite <- Hlen.
  - intros time k Ht. by apply (played_get bs).
Qed.
End Receiver.

(** ** A game of four moves, of which two payloads are lost *)
Section Demo.
#[local] Instance no_web : WebClient := fun _ _ _ _ _ => None.
#[local] Instance no_json : JsonText := {| json_dump := fun _ => None; json_parse := fun _ => None |}.
#[local] Instance no_network : Network := {| local_ips := fun _ => []; resolve_host := fun _ _ _ => None |}.

Definition play_one (acc : list string * MyPeer) (mv : Z * gmap string string) :
    outcome (list string * MyPeer) :=
  let? (s, p2) := next_payload mv.1 mv.2 acc.2 in
  let? (_, p3) := on_server (broadcast 0 s) p2 in
  Ok (acc.1 ++ [s], p3).
Lemma play_moves p0 moves moves0 payloads0 p payloads p' :
  ofold play_one moves (payloads0, p) = Ok (payloads, p') ->
  plays 0 p0 moves0 payloads0 p -> plays 0 p0 (moves0 ++ moves) payloads p'.
Proof using.
  revert moves0 payloads0 p. induction moves as [|[t d] moves IH]; intros moves0 payloads0 p; cbn [ofold].
  - intros [= <- <-]. by rewrite app_nil_r.
  - unfold play_one at 1. cbn [fst snd]. destruct (next_payload t d p) as [[s p2]|] eqn:E1; [|done]. cbn [obind].
    destruct (on_server (broadcast 0 s) p2) as [[[] p3]|] eqn:E2; [|done]. cbn [obind]. intros E Hp.
    change ((t, d) :: moves) with ([(t, d)] ++ moves). rewrite (assoc_L (++)).
    eapply IH; [exact E|]. by eapply plays_move.
Qed.

Definition moves_okb (moves : list (Z * gmap string string)) : bool :=
  forallb (fun mv => in_s 64 mv.1 && mobj_wf (MMap (map_to_list mv.2))) moves &&
  match moves with [] => true | mv :: _ => negb (bool_decide (mv.2 = ∅)) end.
Lemma moves_okb_ok moves : moves_okb moves = true -> moves_ok moves.
Proof using.
  unfold moves_okb. intros [Hf Hn]%andb_true_iff. split.
  - rewrite forallb_forall in Hf. apply Forall_forall. intros mv Hin%list_elem_of_In.
    apply Hf in Hin. apply andb_true_iff in Hin as [? ?]. split; [done|by apply map_fits_of_wf].
  - destruct moves as [|mv moves]; [done|]. by apply negb_true_iff, bool_decide_eq_false in Hn.
Qed.

Definition demo_peer : MyPeer :=
  set_myData (Some 0%nat) (set_players [PlayerData_init "" "alice"]
    (MyPeer_start (mkWorld 0 TimeHandler_init 0) "alice" "" 4000 "alice" ∅)).
Definition demo_moves : list (Z * gmap string string) :=
  [(100, {["x" := "1"; "fire" := "0"]}); (200, {["x" := "2"; "fire" := "0"]});
   (300, {["x" := "2"; "fire" := "1"]}); (400, {["x" := "3"; "fire" := "1"]})].
Definition demo_game : outcome (list string * MyPeer) := ofold play_one demo_moves ([], demo_peer).

(** The receiver hears the last payload first, then the first one. *)
Lemma inputs_replicated_witness :
  match demo_game with
  | Ok (payloads, p) =>
      exists cm ss, length payloads = 4%nat /\ map (payloads !!.) [3%nat; 0%nat] = map Some ss /\
        snd <$> own p = Some cm /\ take_all ss emptyChronoMap = Ok cm /\
        get 250 "fire" cm = Ok (Some "1") /\ get 250 "x" cm = Ok (Some "2") /\ get 400 "x" cm = Ok None
  | Err _ => False
  end.
Proof using.
  destruct demo_game as [[payloads p]|f] eqn:E; [|vm_compute in E; discriminate].
  pose proof (play_moves demo_peer demo_moves [] [] demo_peer payloads p E (plays_start _ _)) as Hp.
  assert (exists a b c d, payloads = [a; b; c; d]) as (a & b & c & d & ->)
    by (vm_compute in E; injection E as <- _; by do 4 eexists).
  destruct (inputs_replicated 0 demo_peer demo_moves [a; b; c; d] p [3%nat; 0%nat] [d; a])
    as (cm & Hown & Htake & Hget); [reflexivity| |exact Hp|by repeat constructor| |].
  - apply moves_okb_ok. vm_compute. reflexivity.
  - intros n Hn. cbn in Hn. destruct n as [|n]; [exists 0%nat|exists 3%nat]; rewrite !elem_of_cons; lia.
  - exists cm, [d; a]. split; [done|]. split; [done|]. split; [exact Hown|]. split; [exact Htake|].
    clear E Hp Hown Htake. rewrite !Hget by (by vm_compute). vm_compute. done.
Defined.
End Demo.
