(* ===== verification/PeerUpdate.v ===== *)
(** * PeerUpdate

    What [MyPeer::update] does with the requests of another player: every payload waiting is
    put into that player's [ChronoMap] and answered, once each, and the loop ends. *)
From S2P Require Import Prelude.
From S2P Require Import StdMap.
From S2P Require Import ChronoMap.
From S2P Require Import RpcId.
From S2P Require Import Message.
From S2P Require Import TimeHandler.
From S2P Require Import ClockSynchronizer.
From S2P Require Import RpcState.
From S2P Require Import Instances.
From S2P Require Import BiDirectionalRpc.
From S2P Require Import RpcVirtuals.
From S2P Require Import RpcDelivery.
From S2P Require Import UdpRpc.
From S2P Require Import MultiEndpoint.
From S2P Require Import CryptoHandler.
From S2P Require Import EncryptedRpc.
From S2P Require Import PortMultiplexer.
From S2P Require Import RpcServer.
From S2P Require Import Json.
From S2P Require Import HttpClient.
From S2P Require Import MyPeer.
From S2P Require Import InputReplication.

Section PeerUpdate.
Context `{LruCache} `{Oracle} `{Msgpack} `{Sodium} `{WebClient} `{JsonText} `{Network}.
Context {OL : OracleLaws}.
Variable delay_fuel : nat.
Implicit Types (p : MyPeer) (h : pointer).

(** The handler object behind [h]. *)
Definition handler_of h p : option (Rpc * EncState) := s ← rpcServer p; objects (mux s) !! h.

Lemma on_peer_inv {A} h (m : M (St EncState) A) p a p' :
  on_peer h m p = Ok (a, p') ->
  exists r e w s', handler_of h p = Some (r, e) /\ m (mkSt r e w) = Ok (a, s') /\
    handler_of h p' = Some (rpc s', sub s') /\ players p' = players p /\ peerData p' = peerData p.
Proof using.
  unfold on_peer, on, on_server, on_mux, on_handler, handler_of.
  destruct (rpcServer p) as [sv|]; [|done]. cbn [mbind option_bind].
  destruct (objects (mux sv) !! h) as [[r e]|] eqn:Eo; [|done].
  destruct (m _) as [[b s']|] eqn:Em; [|done]. intros [= <- <-].
  exists r, e, (shared (mux sv)), s'. split; [done|]. split; [done|]. cbn.
  rewrite list_lookup_insert_eq by (by eapply lookup_lt_Some). done.
Qed.

(** *** Replying to a request takes it off the incoming ones *)
Lemma base_reply_incoming i payload (s s' : St EncState) :
  reply (enc_send delay_fuel) i payload s = Ok (tt, s') ->
  incomingRequests (rpc s') = delete i (incomingRequests (rpc s)).
Proof using.
  unfold reply. intros (r & s1 & E1 & E)%bind_ok. run E1.
  destruct (incomingRequests (rpc s) !! i); [|done].
  apply bind_ok in E as ([] & s1 & E1 & E). run E1.
  apply bind_ok in E as ([] & s1 & E1 & E). run E1.
  apply bind_ok in E as ([] & s1 & E1 & E). run E1.
  pose proof (keeps_sendReply (enc_send delay_fuel) (keeps_enc_send delay_fuel _)
    incomingRequests i payload false _ _ _ E) as K. exact K.
Qed.
Lemma enc_reply_incoming i payload (s s' : St EncState) :
  enc_reply delay_fuel i payload s = Ok (tt, s') ->
  incomingRequests (rpc s') = delete i (incomingRequests (rpc s)).
Proof using.
  unfold enc_reply. intros (ready & s1 & E1 & E)%bind_ok.
  pose proof (keeps_readyToReceive (fun r => r) _ _ _ E1) as K1. simpl in K1.
  destruct ready; [|done]. cbn [negb] in E. apply bind_ok in E as (c & s2 & E2 & E).
  pose proof (keeps_enc_encrypt (fun r => r) _ _ _ _ E2) as K2. simpl in K2.
  apply base_reply_incoming in E. by rewrite E, K2, K1.
Qed.
Lemma first_request_spec (s : St EncState) q s' :
  getFirstIncomingRequest s = Ok (q, s') ->
  incomingRequests (rpc s) !! ip_id q = Some (ip_payload q) /\ rpc s' = rpc s.
Proof using OL.
  unfold getFirstIncomingRequest. intros (r & s1 & E1 & E)%bind_ok. run E1.
  destruct (hasIncomingRequest (rpc s)); [|done]. cbn [negb] in E.
  apply bind_ok in E as (it & s2 & E2 & E). run E. split; [by eapply map_begin_elem|].
  apply (keeps_map_begin (fun r => r) _ _ _ _ E2).
Qed.

(** *** The loop over the requests *)
(** The inputs behind a pointer, and the requests a handler has not answered. *)
Definition inputs_at (k : option pointer) p : option (ChronoMap string string) :=
  k ← k; d ← players p !! k; Some (playerInputData d).
Definition requests_of h p : gmap RpcId string :=
  match handler_of h p with Some (r, _) => incomingRequests r | None => ∅ end.
Definition inputs_of (peerKey : string) p : option (ChronoMap string string) :=
  inputs_at (default None (sm_find peerKey (peerData p))) p.

Lemma mod_player_inv k f p p' :
  mod_player k f p = Ok (tt, p') ->
  exists h d d', k = Some h /\ players p !! h = Some d /\ f d = Ok d' /\
    p' = set_players (<[h := d']> (players p)) p.
Proof using.
  unfold mod_player, player. destruct k as [h|]; [|done]. intros (d & p1 & E1 & E)%bind_ok.
  destruct (players p !! h) as [d0|] eqn:Ed; [|done]. injection E1 as <- <-.
  apply bind_ok in E as (d' & p1 & E1 & E). unfold lift_outcome in E1.
  destruct (f d0) as [x|] eqn:Ef; [|done]. injection E1 as <- <-. injection E as <-.
  by exists h, d0, x.
Qed.

(** One turn: some waiting request is put into the inputs and taken off. *)
Lemma request_taken h peerKey p r p0 q p1 p3 p4 :
  on_peer h get_rpc p = Ok (r, p0) -> on_peer h getFirstIncomingRequest p0 = Ok (q, p1) ->
  mod_player (default None (sm_find peerKey (peerData p1))) (receive_inputs (ip_payload q)) p1 = Ok (tt, p3) ->
  on_peer h (replyOneWay (v_reply (enc_virtuals delay_fuel)) (ip_id q)) p3 = Ok (tt, p4) ->
  exists i payload c c', requests_of h p !! i = Some payload /\ inputs_of peerKey p = Some c /\
    take_inputs payload c = Ok c' /\ inputs_of peerKey p4 = Some c' /\
    requests_of h p4 = delete i (requests_of h p).
Proof using OL.
  intros E0 Eq E3 E4.
  apply on_peer_inv in E0 as (r0 & e0 & w0 & s0 & Hh & E1 & Hh0 & Hpl & Hpd). run E1.
  change (rpc (mkSt r0 e0 w0)) with r0 in *. change (sub (mkSt r0 e0 w0)) with e0 in *.
  assert (requests_of h p = incomingRequests r0) as Hr by (unfold requests_of; by rewrite Hh).
  apply on_peer_inv in Eq as (r1 & e1 & w1 & s1 & Hh' & E1 & Hh1 & Hpl1 & Hpd1).
  rewrite Hh0 in Hh'. injection Hh' as <- <-. apply first_request_spec in E1 as [Hq Hs1]. cbn in Hq, Hs1.
  apply mod_player_inv in E3 as (k & d & d' & Hk & Hd & Ed & ->).
  apply on_peer_inv in E4 as (r4 & e4 & w4 & s4 & Hh4 & E4 & Hh4' & Hpl4 & Hpd4).
  change (handler_of h p1 = Some (r4, e4)) in Hh4. rewrite Hh1 in Hh4. injection Hh4 as <- <-.
  apply enc_reply_incoming in E4. cbn in E4.
  unfold receive_inputs in Ed. destruct (take_inputs (ip_payload q) (playerInputData d)) as [c'|] eqn:Ec; [|done].
  injection Ed as <-. exists (ip_id q), (ip_payload q), (playerInputData d), c'.
  rewrite Hpd1, Hpd in Hk. split; [by rewrite Hr|]. split; [|split; [done|split]].
  - unfold inputs_of, inputs_at. rewrite Hk. cbn. rewrite <- Hpl, <- Hpl1, Hd. done.
  - unfold inputs_of, inputs_at. rewrite Hpd4. cbn. rewrite Hpd1, Hpd, Hk. cbn. rewrite Hpl4. cbn.
    by rewrite list_lookup_insert_eq by (by eapply lookup_lt_Some).
  - unfold requests_of at 1. rewrite Hh4', E4, Hr. by rewrite Hs1.
Qed.
Lemma handle_requests_turn fuel h peerKey p p' :
  requests_of h p <> ∅ -> handle_requests delay_fuel (S fuel) h peerKey p = Ok (tt, p') ->
  exists i payload c c' p1, requests_of h p !! i = Some payload /\ inputs_of peerKey p = Some c /\
    take_inputs payload c = Ok c' /\ inputs_of peerKey p1 = Some c' /\
    requests_of h p1 = delete i (requests_of h p) /\
    handle_requests delay_fuel fuel h peerKey p1 = Ok (tt, p').
Proof using OL.
  intros Hne E. cbn [handle_requests] in E. apply bind_ok in E as (r & p0 & E0 & E).
  assert (hasIncomingRequest r = true) as Hr.
  { pose proof E0 as (r0 & e0 & w0 & s0 & Hh & E1 & _)%on_peer_inv. run E1. unfold hasIncomingRequest.
    apply negb_true_iff, bool_decide_eq_false. unfold requests_of in Hne. by rewrite Hh in Hne. }
  rewrite Hr in E. apply bind_ok in E as (q & p1 & Eq & E). apply bind_ok in E as (p2 & p2' & E2 & E).
  injection E2 as <- <-. apply bind_ok in E as ([] & p3 & E3 & E). apply bind_ok in E as ([] & p4 & E4 & E).
  destruct (request_taken _ _ _ _ _ _ _ _ _ E0 Eq E3 E4) as (i & s & c & c' & Hi & Hc & Et & Hc' & Hd).
  by exists i, s, c, c', p4.
Qed.

Lemma handle_requests_step fuel h peerKey p :
  handle_requests delay_fuel (S fuel) h peerKey p =
  match on_peer h get_rpc p with
  | Ok (r, p0) =>
      if hasIncomingRequest r then
        match on_peer h getFirstIncomingRequest p0 with
        | Ok (q, p1) =>
            match mod_player (default None (sm_find peerKey (peerData p1))) (receive_inputs (ip_payload q)) p1 with
            | Ok (_, p3) =>
                match on_peer h (replyOneWay (v_reply (enc_virtuals delay_fuel)) (ip_id q)) p3 with
                | Ok (_, p4) => handle_requests delay_fuel fuel h peerKey p4
                | Err f => Err f
                end
            | Err f => Err f
            end
        | Err f => Err f
        end
      else Ok (tt, p0)
  | Err f => Err f
  end.
Proof using.
  cbn [handle_requests]. unfold bind at 1. destruct (on_peer h get_rpc p) as [[r p0]|]; [|done].
  by destruct (hasIncomingRequest r).
Qed.
Lemma handle_requests_none fuel h peerKey p : requests_of h p = ∅ ->
  handle_requests delay_fuel fuel h peerKey p =
  match on_peer h get_rpc p with Ok (_, p0) => Ok (tt, p0) | Err f => Err f end.
Proof using.
  intros He. assert (forall r p0, on_peer h get_rpc p = Ok (r, p0) -> hasIncomingRequest r = false) as Hr.
  { intros r p0 (r0 & e0 & w0 & s0 & Hh & E1 & _)%on_peer_inv. run E1. unfold hasIncomingRequest.
    unfold requests_of in He. rewrite Hh in He. cbn. by rewrite He. }
  destruct fuel as [|fuel]; cbn [handle_requests]; unfold bind at 1;
    (destruct (on_peer h get_rpc p) as [[r p0]|]; [|done]); by rewrite (Hr r p0).
Qed.

(** The loop without a bound: what a turn does, false when no request waits; and the runs of
    the [while], each with its number of turns.  A loop that does not end has no run. *)
Definition request_turn h (peerKey : string) : M MyPeer bool :=
  let! r := on_peer h get_rpc in
  if hasIncomingRequest r then
    let! idPayload := on_peer h getFirstIncomingRequest in
    let! p := get_state in
    mod_player (default None (sm_find peerKey (peerData p))) (receive_inputs (ip_payload idPayload)) ;;;
    on_peer h (replyOneWay (v_reply (enc_virtuals delay_fuel)) (ip_id idPayload)) ;;;
    ret true
  else ret false.
Inductive request_loop h (peerKey : string) : MyPeer -> nat -> outcome (unit * MyPeer) -> Prop :=
  | loop_done p p' : request_turn h peerKey p = Ok (false, p') -> request_loop h peerKey p 0 (Ok (tt, p'))
  | loop_abort p f : request_turn h peerKey p = Err f -> request_loop h peerKey p 0 (Err f)
  | loop_turn p p1 n out : request_turn h peerKey p = Ok (true, p1) ->
      request_loop h peerKey p1 n out -> request_loop h peerKey p (S n) out.

Lemma handle_requests_unfold fuel h peerKey p :
  handle_requests delay_fuel (S fuel) h peerKey p =
  match request_turn h peerKey p with
  | Ok (true, p1) => handle_requests delay_fuel fuel h peerKey p1
  | Ok (false, p1) => Ok (tt, p1)
  | Err f => Err f
  end.
Proof using.
  rewrite handle_requests_step. unfold request_turn, bind at 1.
  destruct (on_peer h get_rpc p) as [[r p0]|]; [|done]. destruct (hasIncomingRequest r); [|done].
  unfold bind at 1. destruct (on_peer h getFirstIncomingRequest p0) as [[q p1]|]; [|done].
  unfold bind at 1, get_state, gets. cbv beta iota. unfold bind at 1.
  destruct (mod_player _ _ p1) as [[[] p3]|]; [|done]. unfold bind at 1.
  by destruct (on_peer h (replyOneWay _ _) p3) as [[[] p4]|].
Qed.
Lemma request_turn_takes h peerKey p b p1 :
  request_turn h peerKey p = Ok (b, p1) ->
  if b then exists i, is_Some (requests_of h p !! i) /\ requests_of h p1 = delete i (requests_of h p)
  else requests_of h p = ∅ /\ requests_of h p1 = ∅.
Proof using OL.
  unfold request_turn. intros (r & p0 & E0 & E)%bind_ok.
  destruct (hasIncomingRequest r) eqn:Hr.
  - apply bind_ok in E as (q & p2 & Eq & E). apply bind_ok in E as (p2' & p2'' & E2 & E).
    injection E2 as <- <-. apply bind_ok in E as ([] & p3 & E3 & E). apply bind_ok in E as ([] & p4 & E4 & E).
    injection E as <- <-.
    destruct (request_taken _ _ _ _ _ _ _ _ _ E0 Eq E3 E4) as (i & s & c & c' & Hi & _ & _ & _ & Hd).
    exists i. split; [by eexists|done].
  - injection E as <- <-. pose proof E0 as (r0 & e0 & w0 & s0 & Hh & E1 & Hh1 & _)%on_peer_inv. run E1.
    unfold requests_of. rewrite Hh, Hh1. unfold hasIncomingRequest in Hr.
    apply negb_false_iff, bool_decide_eq_true in Hr. done.
Qed.

(** C37: The loop of [update] over a player's requests ends.  From every state the [while]
    has a run, of at most as many turns as requests wait; when it does not abort on a
    malformed payload it takes as many turns as requests waited and none waits
    afterwards.  [handle_requests] with at least that much fuel computes this run. *)
Theorem request_loop_ends h peerKey p :
  exists n out, request_loop h peerKey p n out /\ (n <= size (requests_of h p))%nat /\
    (forall p', out = Ok (tt, p') -> n = size (requests_of h p) /\ requests_of h p' = ∅) /\
    forall fuel, (size (requests_of h p) <= fuel)%nat -> handle_requests delay_fuel fuel h peerKey p = out.
Proof using OL.
  remember (size (requests_of h p)) as k eqn:Hk. revert p Hk.
  induction k as [|k IH]; intros p Hk; destruct (request_turn h peerKey p) as [[b p1]|f] eqn:Et;
    try pose proof (request_turn_takes _ _ _ _ _ Et) as Ht.
  - destruct b.
    { destruct Ht as (i & Hi & _). assert (requests_of h p = ∅) as He by (apply map_size_empty_inv; lia).
      rewrite He, lookup_empty in Hi. by destruct Hi. }
    exists 0%nat, (Ok (tt, p1)). split; [by constructor|]. split; [lia|]. split; [intros p' [= <-]; split; [done|apply Ht]|].
    intros [|fuel] _; [|by rewrite handle_requests_unfold, Et].
    rewrite handle_requests_none by apply Ht. unfold request_turn in Et.
    apply bind_ok in Et as (r & p0 & E0 & Et). rewrite E0. destruct (hasIncomingRequest r); [|by injection Et as <-].
    apply bind_ok in Et as (? & ? & _ & Et). apply bind_ok in Et as (? & ? & _ & Et).
    apply bind_ok in Et as (? & ? & _ & Et). by apply bind_ok in Et as (? & ? & _ & Et).
  - exists 0%nat, (Err f). split; [by constructor|]. split; [lia|]. split; [done|].
    intros [|fuel] _; [|by rewrite handle_requests_unfold, Et].
    assert (requests_of h p = ∅) as He by (apply map_size_empty_inv; lia).
    rewrite handle_requests_none by done. unfold request_turn, bind at 1 in Et.
    destruct (on_peer h get_rpc p) as [[r p0]|] eqn:E0; [|by injection Et as <-]. exfalso.
    destruct (hasIncomingRequest r) eqn:Hr; [|discriminate].
    pose proof E0 as (r0 & e0 & w0 & s0 & Hh & E1 & Hh1 & _)%on_peer_inv. run E1.
    unfold hasIncomingRequest in Hr. apply negb_true_iff, bool_decide_eq_false in Hr. apply Hr.
    unfold requests_of in He. by rewrite Hh in He.
  - destruct b.
    + destruct Ht as (i & Hi & Hd).
      destruct (IH p1) as (n & out & Hl & Hn & Ho & Hf).
      { rewrite Hd, map_size_delete_Some by done. lia. }
      exists (S n), out. split; [by econstructor|]. split; [lia|]. split.
      { intros p' E. destruct (Ho p' E) as [-> ?]. done. }
      intros [|fuel] Hle; [lia|]. rewrite handle_requests_unfold, Et. apply Hf. lia.
    + destruct Ht as [He _]. rewrite He, map_size_empty in Hk. done.
  - exists 0%nat, (Err f). split; [by constructor|]. split; [lia|]. split; [done|].
    intros [|fuel] Hle; [lia|]. by rewrite handle_requests_unfold, Et.
Qed.

Lemma handle_requests_done fuel h peerKey p p' :
  requests_of h p = ∅ -> handle_requests delay_fuel fuel h peerKey p = Ok (tt, p') ->
  inputs_of peerKey p' = inputs_of peerKey p /\ requests_of h p' = ∅.
Proof using.
  intros He E. assert (exists r p0, on_peer h get_rpc p = Ok (r, p0) /\ incomingRequests r = ∅ /\ p' = p0)
    as (r & p0 & E0 & Hr & ->).
  { destruct fuel as [|fuel]; cbn [handle_requests] in E; apply bind_ok in E as (r & p0 & E0 & E);
      pose proof E0 as (r0 & e0 & w0 & s0 & Hh & E1 & _)%on_peer_inv; run E1;
      (assert (incomingRequests r0 = ∅) as Hr by (unfold requests_of in He; by rewrite Hh in He));
      unfold hasIncomingRequest in E; cbn in E; rewrite Hr in E; cbn in E; injection E as <-; by eexists _, _. }
  apply on_peer_inv in E0 as (r0 & e0 & w0 & s0 & Hh & E1 & Hh0 & Hpl & Hpd). run E1.
  unfold inputs_of, inputs_at, requests_of. rewrite Hpl, Hpd, Hh0. done.
Qed.

Lemma handle_requests_spec fuel h peerKey p p' c :
  (size (requests_of h p) <= fuel)%nat -> inputs_of peerKey p = Some c ->
  handle_requests delay_fuel fuel h peerKey p = Ok (tt, p') ->
  exists ss c', ss ≡ₚ (map_to_list (requests_of h p)).*2 /\ take_all ss c = Ok c' /\
    inputs_of peerKey p' = Some c' /\ requests_of h p' = ∅.
Proof using OL.
  revert p c. induction fuel as [|fuel IH]; intros p c Hsize Hc E;
    (destruct (decide (requests_of h p = ∅)) as [He|Hne];
     [destruct (handle_requests_done _ _ _ _ _ He E) as [Hi Hr]; exists [], c;
      rewrite He, map_to_list_empty; by repeat split; try congruence|]).
  - assert (size (requests_of h p) = 0%nat) as Hz%map_size_empty_inv by lia. done.
  - destruct (handle_requests_turn _ _ _ _ _ Hne E) as (i & s & c0 & c1 & p1 & Hi & Hc0 & Et & Hc1 & Hr & E1).
    rewrite Hc in Hc0. injection Hc0 as <-.
    destruct (IH p1 c1) as (ss & c' & Hp & Ea & Hc' & Hr'); [|done|done|].
    { rewrite Hr, map_size_delete_Some by (by eexists). lia. }
    exists (s :: ss), c'. split; [|split; [unfold take_all; cbn [ofold]; by rewrite Et|done]].
    rewrite <- (map_to_list_delete (requests_of h p) i s) by done. cbn. by rewrite Hp, Hr.
Qed.

Lemma drop_replies_keeps fuel h peerKey p p' :
  drop_replies fuel h p = Ok (tt, p') ->
  inputs_of peerKey p' = inputs_of peerKey p /\ requests_of h p' = requests_of h p.
Proof using.
  revert p. induction fuel as [|fuel IH]; intros p E; cbn [drop_replies] in E;
    apply bind_ok in E as (r & p0 & E0 & E);
    apply on_peer_inv in E0 as (r0 & e0 & w0 & s0 & Hh & E1 & Hh0 & Hpl & Hpd); run E1;
    (assert (inputs_of peerKey p0 = inputs_of peerKey p /\ requests_of h p0 = requests_of h p) as [Hi Hr]
      by (unfold inputs_of, inputs_at, requests_of; by rewrite Hpl, Hpd, Hh, Hh0));
    (destruct (hasIncomingReply _); [|by injection E as <-]); [done|].
  apply bind_ok in E as (q & p1 & E1 & E). apply on_peer_inv in E1 as (r1 & e1 & w1 & s1 & Hh1 & E1 & Hh1' & Hpl1 & Hpd1).
  destruct (IH _ E) as [-> ->]. unfold inputs_of, inputs_at, requests_of in *.
  rewrite Hpl1, Hpd1, Hh1'. rewrite Hh1 in Hr. split; [done|]. rewrite <- Hr.
  unfold getFirstIncomingReply in E1. apply bind_ok in E1 as (r2 & s2 & E2 & E1). run E2.
  destruct (hasIncomingReply _); [|done]. cbn [negb] in E1.
  apply bind_ok in E1 as (it & s2 & E2 & E1). apply bind_ok in E1 as ([] & s3 & E3 & E1). run E3.
  apply bind_ok in E1 as ([] & s3 & E3 & E1). run E3. run E1. cbn.
  by rewrite (keeps_map_begin incomingRequests _ _ _ _ E2).
Qed.

(** Every input payload that waits is used, once.  When [update] turns to a player, each
    request its handler has not answered is read and its blocks are put into that player's
    [ChronoMap], in some order and each exactly once; afterwards no request waits, and the
    replies received are dropped without touching the inputs. *)
Theorem update_takes_inputs peerKey h p p' c :
  peerKey <> userId p -> (s ← rpcServer p; sm_find peerKey (endpoints s)) = Some h ->
  inputs_of peerKey p = Some c -> update_peer delay_fuel peerKey p = Ok (tt, p') ->
  exists ss c', ss ≡ₚ (map_to_list (requests_of h p)).*2 /\ take_all ss c = Ok c' /\
    inputs_of peerKey p' = Some c' /\ requests_of h p' = ∅.
Proof using OL.
  intros Hk Hh Hc E. unfold update_peer in E. apply bind_ok in E as (q & p0 & E0 & E). injection E0 as <- <-.
  rewrite bool_decide_false in E by done. apply bind_ok in E as (h' & p1 & E1 & E).
  assert (h' = h /\ p1 = p) as [-> ->].
  { unfold on_server in E1. destruct (rpcServer p) as [sv|] eqn:Es; [|done]. cbn in Hh.
    unfold getEndpointHandler, find, bind, gets in E1. rewrite Hh in E1. injection E1 as <- <-.
    split; [done|]. by destruct p; cbn in *; subst. }
  apply bind_ok in E as (r & p2 & E2 & E).
  apply on_peer_inv in E2 as (r0 & e0 & w0 & s0 & Hh0 & E2 & Hh2 & Hpl & Hpd). run E2.
  assert (inputs_of peerKey p2 = inputs_of peerKey p /\ requests_of h p2 = requests_of h p) as [Hi Hr]
    by (unfold inputs_of, inputs_at, requests_of; by rewrite Hpl, Hpd, Hh0, Hh2).
  apply bind_ok in E as ([] & p3 & E3 & E). rewrite Hc in Hi.
  destruct (handle_requests_spec _ _ _ _ _ _ ltac:(unfold requests_of; by rewrite Hh2) Hi E3)
    as (ss & c' & Hp & Ea & Hc' & Hr'). exists ss, c'. rewrite Hr in Hp. split; [done|]. split; [done|].
  apply bind_ok in E as (r4 & p4 & E4 & E).
  apply on_peer_inv in E4 as (r5 & e5 & w5 & s5 & Hh5 & E5 & Hh6 & Hpl6 & Hpd6). run E5.
  apply (drop_replies_keeps _ _ peerKey) in E as [-> ->].
  unfold inputs_of, inputs_at, requests_of in *. by rewrite Hpl6, Hpd6, Hh6, Hh5 in *.
Qed.
End PeerUpdate.

(** ** Bob takes the first payload of Alice's game *)
Section Demo.
#[local] Instance no_web : WebClient := fun _ _ _ _ _ => None.
#[local] Instance no_json : JsonText := {| json_dump := fun _ => None; json_parse := fun _ => None |}.
#[local] Instance no_network : Network := {| local_ips := fun _ => []; resolve_host := fun _ _ _ => None |}.

Definition alice_payload : string :=
  match @demo_game with Ok (s :: _, _) => s | _ => "" end.
Definition demo_world : World := mkWorld 0 TimeHandler_init 0.
(** The handler Bob has for Alice, both session keys known, with her request waiting. *)
Definition alice_handler : outcome (Rpc * EncState) :=
  let? m := Multi_init 0 [mkEndpoint "10.0.0.1" 4000] in
  let e := mkEnc m (mkCrypto "" "" "" (string_of (repeat 1 32)) (string_of (repeat 2 32))) in
  let? (_, s) := addIncomingRequest (mkIdPayload (mkRpcId 0 7) alice_payload)
                   (mkSt (Rpc_init false false) e demo_world) in
  Ok (rpc s, sub s).
Definition bob (handler : Rpc * EncState) : MyPeer :=
  let p := MyPeer_start demo_world "bob" "" 4001 "bob" ∅ in
  set_rpcServer (Some (mkRpcServer (set_objects [handler] demo_world (Mux_init demo_world)) [("alice", 0%nat)]))
    (set_peerData [("alice", Some 0%nat)] (set_players [PlayerData_init "" "alice"] p)).

Lemma request_loop_ends_witness :
  match alice_handler with
  | Ok handler =>
      exists n out, request_loop 0 0%nat "alice" (bob handler) n out /\ (n <= 1)%nat /\
        handle_requests 0 1 0%nat "alice" (bob handler) = out /\ is_ok out = true
  | Err _ => False
  end.
Proof using.
  destruct alice_handler as [handler|f] eqn:Eh; [|vm_compute in Eh; discriminate].
  assert (size (requests_of 0%nat (bob handler)) = 1%nat /\
    is_ok (handle_requests 0 1 0%nat "alice" (bob handler)) = true) as [Hs Ho]
    by (vm_compute in Eh; injection Eh as <-; split; vm_compute; reflexivity).
  destruct (request_loop_ends 0 0%nat "alice" (bob handler)) as (n & out & Hl & Hn & _ & Hf).
  rewrite Hs in Hn, Hf. exists n, out. specialize (Hf 1%nat ltac:(lia)). rewrite Hf in Ho.
  split; [exact Hl|]. split; [exact Hn|]. split; [exact Hf|exact Ho].
Defined.

Lemma update_takes_inputs_witness :
  match alice_handler with
  | Ok handler =>
      match update_peer 0 "alice" (bob handler) with
      | Ok (_, p') => exists c, inputs_of "alice" p' = Some c /\
          take_all [alice_payload] emptyChronoMap = Ok c /\ requests_of 0%nat p' = ∅ /\
          get 50 "x" c = Ok (Some "1")
      | Err _ => False
      end
  | Err _ => False
  end.
Proof using.
  destruct alice_handler as [handler|f] eqn:Eh; [|vm_compute in Eh; discriminate].
  destruct (update_peer 0 "alice" (bob handler)) as [[[] p']|f] eqn:E.
  - destruct (update_takes_inputs 0 "alice" 0%nat (bob handler) p' emptyChronoMap)
      as (ss & c' & Hp & Ea & Hc & Hr); [discriminate|reflexivity|reflexivity|exact E|].
    assert (ss = [alice_payload]) as ->.
    { apply Permutation_singleton_r. rewrite Hp. clear -Eh. vm_compute in Eh. injection Eh as <-. reflexivity. }
    exists c'. split; [done|]. split; [done|]. split; [done|].
    clear -Ea. vm_compute in Ea. injection Ea as <-. reflexivity.
  - vm_compute in Eh. injection Eh as <-. vm_compute in E. discriminate.
Defined.
End Demo.
