(* ===== verification/Replicas.v ===== *)
(** * Replicas

    Two players together: the payloads that one player's [MyPeer::updateState] broadcasts,
    and the other's calls of [MyPeer::update], which find some of them among the waiting
    requests.  The sender's side is [InputReplication.plays]; here is the receiver's side, and
    the theorem that both end with the same [ChronoMap]. *)
From S2P Require Import Prelude.
From S2P Require Import StdMap.
From S2P Require Import ChronoMap.
From S2P Require Import RpcId.
From S2P Require Import Message.
From S2P Require Import TimeHandler.
From S2P Require Import RpcState.
From S2P Require Import Instances.
From S2P Require Import BiDirectionalRpc.
From S2P Require Import UdpRpc.
From S2P Require Import MultiEndpoint.
From S2P Require Import CryptoHandler.
From S2P Require Import EncryptedRpc.
From S2P Require Import PortMultiplexer.
From S2P Require Import RpcServer.
From S2P Require Import Json.
From S2P Require Import HttpClient.
From S2P Require Import MyPeer.
From S2P Require Import InputReplication.
From S2P Require Import PeerUpdate.

Section Replicas.
Context `{LruCache} `{Oracle} `{Msgpack} `{Sodium} `{WebClient} `{JsonText} `{Network}.
Context {ML : MsgpackLaws} {OL : OracleLaws}.
Variable delay_fuel : nat.
Implicit Types (p : MyPeer) (h : pointer) (heard ns : list nat) (payloads ss : list string).

(** ** A game from the receiver's side

    The handler that the server has for another player, and the calls of [update] for that
    player with the numbers of the payloads that waited; between two calls anything may
    happen to the peer that leaves its copy of that player's inputs alone. *)
Definition handler_for (peerKey : string) p : option pointer :=
  s ← rpcServer p; sm_find peerKey (endpoints s).
Definition waiting h p : list string := (map_to_list (requests_of h p)).*2.
Definition are (payloads : list string) (ns : list nat) (ss : list string) : Prop :=
  Forall2 (fun n s => payloads !! n = Some s) ns ss.

Inductive hears (peerKey : string) (payloads : list string) (p0 : MyPeer) : list nat -> MyPeer -> Prop :=
  | hears_start : hears peerKey payloads p0 [] p0
  | hears_update heard p1 h ns p2 :
      hears peerKey payloads p0 heard p1 -> peerKey <> userId p1 -> handler_for peerKey p1 = Some h ->
      are payloads ns (waiting h p1) -> update_peer delay_fuel peerKey p1 = Ok (tt, p2) ->
      hears peerKey payloads p0 (heard ++ ns) p2
  | hears_other heard p1 p2 :
      hears peerKey payloads p0 heard p1 -> inputs_of peerKey p2 = inputs_of peerKey p1 ->
      hears peerKey payloads p0 heard p2.

Lemma are_permuted payloads ns ss ss' :
  are payloads ns ss -> ss' ≡ₚ ss -> exists ns', ns' ≡ₚ ns /\ are payloads ns' ss'.
Proof using.
  unfold are. intros Ha Hp. symmetry in Hp. revert ns Ha.
  induction Hp as [|x l l' Hp IH|x y l|l l' l'' Hp IH Hp' IH']; intros ns Ha.
  - by exists ns.
  - apply Forall2_cons_inv_r in Ha as (n & ns1 & Hn & Ha & ->). destruct (IH _ Ha) as (ns' & Hns & Ha').
    exists (n :: ns'). split; [by constructor|by constructor].
  - apply Forall2_cons_inv_r in Ha as (n & ns1 & Hn & Ha & ->).
    apply Forall2_cons_inv_r in Ha as (m & ns2 & Hm & Ha & ->).
    exists (m :: n :: ns2). split; [constructor|by repeat constructor].
  - destruct (IH _ Ha) as (ns1 & Hns1 & Ha1). destruct (IH' _ Ha1) as (ns2 & Hns2 & Ha2).
    exists ns2. split; [by rewrite Hns2|done].
Qed.

(** What was heard, in some order, is what the copy was made from. *)
Lemma hears_spec peerKey payloads p0 heard p c0 :
  hears peerKey payloads p0 heard p -> inputs_of peerKey p0 = Some c0 ->
  exists ns ss c, ns ≡ₚ heard /\ are payloads ns ss /\ take_all ss c0 = Ok c /\ inputs_of peerKey p = Some c.
Proof using OL.
  intros Hh Hstart. induction Hh as [|heard p1 h ns p2 Hh IH Hk Hfor Hns E|heard p1 p2 Hh IH E].
  - exists [], [], c0. repeat split; try done. constructor.
  - destruct IH as (ns1 & ss1 & c1 & Hp1 & Ha1 & Et1 & Hc1).
    destruct (update_takes_inputs delay_fuel _ _ _ _ _ Hk Hfor Hc1 E) as (ss2 & c2 & Hp2 & Et2 & Hc2 & _).
    destruct (are_permuted _ _ _ _ Hns Hp2) as (ns2 & Hn2 & Ha2).
    exists (ns1 ++ ns2), (ss1 ++ ss2), c2. split; [by rewrite Hp1, Hn2|].
    split; [by apply Forall2_app|]. split; [|done].
    unfold take_all in *. by rewrite ofold_app, Et1.
  - destruct IH as (ns & ss & c & ? & ? & ? & ?). exists ns, ss, c. by rewrite E.
Qed.

(** C2: Two peers play the same game.  One is fresh, makes any moves with [updateState] and
    broadcasts; the other runs [update] for that player any number of times, finding any of
    the payloads among the requests that wait, in any order and repeated as the network
    pleases, as long as of three consecutive payloads it hears at least one (and the last).
    Then the copy of the player's inputs that the second peer holds is the first peer's own
    [ChronoMap], and looking up any time and key in it gives what the game last set. *)
Theorem replicas_converge peerKey pa0 moves payloads pa pb0 heard pb :
  own pa0 = Some ([], emptyChronoMap) -> moves_ok moves -> plays delay_fuel pa0 moves payloads pa ->
  inputs_of peerKey pb0 = Some emptyChronoMap -> hears peerKey payloads pb0 heard pb ->
  (forall n, (n < length payloads)%nat -> exists i, i ∈ heard /\ (n <= i < n + 3)%nat) ->
  exists cm, snd <$> own pa = Some cm /\ inputs_of peerKey pb = Some cm /\
    forall time k, 0 <= time ->
      get time k cm = Ok (if time <? played_until moves then played moves time k else None).
Proof using ML OL.
  intros Hfresh Hok Hplays Hb0 Hhears Hcover.
  destruct (plays_spec _ _ _ _ _ Hfresh Hplays Hok)
    as (bs & cm & [Hown Hc Hn Hcan Hf] & Hend & Hlen & _ & Hcar & Hplay).
  destruct (hears_spec _ _ _ _ _ _ Hhears Hb0) as (ns & ss & c & Hns & Hare & Et & Hcb).
  assert (take_all ss emptyChronoMap = Ok cm) as Ecm.
  { eapply (heard_all bs cm payloads ns); try done. intros n Hlt. rewrite <- Hlen in Hlt.
    destruct (Hcover n Hlt) as (i & Hi & Hni). exists i. by rewrite Hns. }
  rewrite Et in Ecm. injection Ecm as ->.
  exists cm. rewrite Hown. split; [done|]. split; [done|]. intros time k Ht. by apply (played_get bs).
Qed.
End Replicas.

(** ** Alice makes three moves; Bob hears the last payload only, twice *)
Section Demo.
#[local] Instance no_web : WebClient := fun _ _ _ _ _ => None.
#[local] Instance no_json : JsonText := {| json_dump := fun _ => None; json_parse := fun _ => None |}.
#[local] Instance no_network : Network := {| local_ips := fun _ => []; resolve_host := fun _ _ _ => None |}.

Definition three_moves : list (Z * gmap string string) := take 3 demo_moves.
Definition three_game : outcome (list string * MyPeer) := ofold play_one three_moves ([], demo_peer).
Definition third_payload : string :=
  match three_game with Ok ([_; _; s], _) => s | _ => "" end.
(** Bob's handler for Alice with the request waiting under two ids. *)
Definition third_waits : outcome (Rpc * EncState) :=
  let? m := Multi_init 0 [mkEndpoint "10.0.0.1" 4000] in
  let e := mkEnc m (mkCrypto "" "" "" (string_of (repeat 1 32)) (string_of (repeat 2 32))) in
  let? (_, s) := addIncomingRequest (mkIdPayload (mkRpcId 0 7) third_payload)
                   (mkSt (Rpc_init false false) e demo_world) in
  let? (_, s') := addIncomingRequest (mkIdPayload (mkRpcId 0 9) third_payload) s in
  Ok (rpc s', sub s').

Lemma replicas_converge_witness :
  match three_game, third_waits with
  | Ok (payloads, pa), Ok handler =>
      match update_peer 0 "alice" (bob handler) with
      | Ok (_, pb) => exists cm, length payloads = 3%nat /\ snd <$> own pa = Some cm /\
          inputs_of "alice" pb = Some cm /\ get 150 "x" cm = Ok (Some "2") /\ get 250 "fire" cm = Ok (Some "1")
      | Err _ => False
      end
  | _, _ => False
  end.
Proof using.
  destruct three_game as [[payloads pa]|f] eqn:E; [|vm_compute in E; discriminate].
  destruct third_waits as [handler|f] eqn:Eh; [|vm_compute in Eh; discriminate].
  destruct (update_peer 0 "alice" (bob handler)) as [[[] pb]|f] eqn:Eb;
    [|vm_compute in Eh; injection Eh as <-; vm_compute in Eb; discriminate].
  assert (exists a b, payloads = [a; b; third_payload]) as (a & b & ->).
  { unfold third_payload. rewrite E. vm_compute in E. injection E as <- _. by do 2 eexists. }
  destruct (replicas_converge 0 "alice" demo_peer three_moves [a; b; third_payload] pa
              (bob handler) [2%nat; 2%nat] pb) as (cm & Hown & Hcm & Hget).
  - reflexivity.
  - apply moves_okb_ok. vm_compute. reflexivity.
  - apply (play_moves demo_peer three_moves [] [] demo_peer _ pa E). constructor.
  - reflexivity.
  - change [2%nat; 2%nat] with ([] ++ [2%nat; 2%nat]).
    apply (hears_update 0 _ _ _ [] (bob handler) 0%nat); [constructor|discriminate|reflexivity| |exact Eb].
    assert (waiting 0%nat (bob handler) = [third_payload; third_payload]) as ->
      by (clear -Eh; vm_compute in Eh; injection Eh as <-; vm_compute; reflexivity).
    by repeat constructor.
  - intros n Hn. cbn in Hn. exists 2%nat. split; [by left|lia].
  - exists cm. split; [done|]. split; [exact Hown|]. split; [exact Hcm|].
    clear -Hget. rewrite !Hget by (by vm_compute). vm_compute. done.
Defined.
End Demo.
