(* ===== verification/Lobby.v ===== *)
(** * Lobby

    The lobby server and the peers that ask it: the positions the peers give themselves
    from the server's game info agree with each other. *)
From S2P Require Import Prelude.
From S2P Require Import StdMap.
From S2P Require Import Base64.
From S2P Require Import CryptoHandler.
From S2P Require Import Json.
From S2P Require Import MyPeer.
From S2P Require Import GameServer.

Lemma insert_string_perm s l : insert_string s l ≡ₚ s :: l.
Proof.
  induction l as [|t l IH]; simpl; [done|]. destruct (str_ltb t s); [|done].
  rewrite IH. constructor.
Qed.
Lemma sort_perm l : MyPeer.sort l ≡ₚ l.
Proof. induction l as [|s l IH]; simpl; [done|]. by rewrite insert_string_perm, IH. Qed.

Section Lobby.
Context `{Sodium} `{JsonText}.
Implicit Types (s : SingleGameServer) (u : string).

(** cppcodec and the program's own encoder print a key the same way. *)
Definition base64_agrees : Prop := forall key l,
  Encode (bytes_of key) = Ok l -> b64_encode key = string_of l.

Lemma sm_find_map {A B} (f : A -> B) u (m : list (string * A)) :
  sm_find u (map (fun p => (p.1, f p.2)) m) = f <$> sm_find u m.
Proof using. induction m as [|[k v] m IH]; simpl; [done|]. by case_decide. Qed.

Definition peers_json s : json := JObj (map (fun p => (p.1, peer_json p.2)) (peerData s)).
Lemma game_info_fields s info :
  get_game_info (gameId s) s = Ok info ->
  field_string "hostId" info = Ok (hostId s) /\ field "peerData" info = Ok (peers_json s).
Proof using. unfold get_game_info. rewrite bool_decide_true by done. by intros [= <-]. Qed.

(** The walk over the ids. *)
Lemma find_position_absent key me m l a pos :
  me ∉ l -> find_position key me (JObj m) l a pos = Ok pos.
Proof using.
  revert a. induction l as [|x l IH]; intros a Hn; [done|]. cbn [find_position field obind].
  apply not_elem_of_cons in Hn as [Hx Hl]. rewrite bool_decide_false by done. cbn [obind]. by apply IH.
Qed.
Lemma find_position_found key me m l a n v :
  NoDup l -> l !! n = Some me -> sm_find me m = Some v -> field "key" v = Ok (JStr key) ->
  find_position key me (JObj m) l a (-1) = Ok (a + Z.of_nat n).
Proof using.
  intros Hnd. revert a n. induction Hnd as [|x l Hx Hnd IH]; intros a n Hn Hm Hk; [done|].
  cbn [find_position field obind]. destruct n as [|n]; cbn in Hn.
  - injection Hn as ->. rewrite bool_decide_true by done. cbn [Z.eqb negb]. rewrite Hm. change (default JNull (Some v)) with v.
    rewrite Hk. cbn [obind]. rewrite bool_decide_true by done.
    change (find_position key me (JObj m) l (a + 1) a = Ok (a + Z.of_nat 0)).
    rewrite find_position_absent by done. f_equal. lia.
  - rewrite bool_decide_false by (intros ->; apply Hx; by eapply list_elem_of_lookup_2). cbn [obind].
    rewrite (IH (a + 1) n) by done. f_equal. lia.
Qed.

(** The order the peers number themselves in. *)
Definition player_order s : list string :=
  hostId s :: MyPeer.sort (List.filter (fun i => negb (bool_decide (i = hostId s))) (peerData s).*1).

Lemma player_order_spec s :
  lobby_inv s -> NoDup (player_order s) /\
  forall u, u ∈ player_order s <-> is_Some (sm_find u (peerData s)).
Proof using.
  intros [Hs [hp Hh] _]. unfold player_order.
  assert (forall u, u ∈ MyPeer.sort (List.filter (fun i => negb (bool_decide (i = hostId s))) (peerData s).*1)
    <-> u ∈ (peerData s).*1 /\ u <> hostId s) as Hin.
  { intros u. rewrite sort_perm, list_elem_of_In, filter_In, <- list_elem_of_In.
    by rewrite negb_true_iff, bool_decide_eq_false. }
  assert (forall u, u ∈ (peerData s).*1 <-> is_Some (sm_find u (peerData s))) as Hkeys.
  { intros u. rewrite list_elem_of_fmap. split.
    - intros ([k v] & -> & Hp). exists v. by apply sm_lookup_find.
    - intros [v Hv%sm_find_lookup]. by exists (u, v). }
  split.
  - apply NoDup_cons. split; [rewrite Hin; tauto|]. rewrite sort_perm.
    apply NoDup_ListNoDup, List.NoDup_filter, NoDup_ListNoDup. by apply sm_sorted_NoDup.
  - intros u. rewrite elem_of_cons, Hin, Hkeys. split; [|destruct (decide (u = hostId s)); tauto].
    intros [->|[? _]]; [by exists hp|done].
Qed.

(** C17: The players agree on who is who.  From the info the lobby gives to everybody, every
    registered peer computes its own place in one common order of all the players: it starts
    with the host, names each player once, and the place a peer takes for itself is its
    index there, so no two peers take the same place. *)
Theorem positions_agree s info :
  base64_agrees -> lobby_inv s -> get_game_info (gameId s) s = Ok info ->
  exists order, NoDup order /\ head order = Some (hostId s) /\
    (forall u, u ∈ order <-> is_Some (sm_find u (peerData s))) /\
    forall u p l, sm_find u (peerData s) = Some p -> Encode (bytes_of (peer_key p)) = Ok l ->
      exists n, order !! n = Some u /\
        initial_position u (peer_key p) info = Ok (bool_decide (hostId s = u), Z.of_nat n).
Proof using.
  intros Hb Hs Hi. destruct (player_order_spec s Hs) as [Hnd Hin]. exists (player_order s).
  split; [done|]. split; [done|]. split; [done|]. intros u p l Hp El.
  assert (u ∈ player_order s) as [n Hn]%list_elem_of_lookup by (apply Hin; by eexists). exists n. split; [done|].
  destruct (game_info_fields s info Hi) as [E1 E2]. unfold initial_position. rewrite E1, E2, El. cbn [obind].
  unfold peers_json. cbn [items_of obind]. rewrite map_map. cbn [fst].
  change (map (fun x => x.1) (peerData s)) with ((peerData s).*1).
  change (hostId s :: MyPeer.sort _) with (player_order s).
  rewrite (find_position_found _ _ _ _ 0 n (peer_json p)); [|done|done|by rewrite sm_find_map, Hp|].
  - cbn [obind]. destruct (Z.eqb_spec (0 + Z.of_nat n) (-1)); [lia|]. done.
  - unfold peer_json, keyToString. by rewrite (Hb _ _ El).
Qed.
End Lobby.

(** ** A host and a guest whose id sorts before the host's *)
Section Demo.
#[local] Instance rfc_Sodium : Sodium := {|
  scalarmult_base := fun _ => ""; box_easy := fun m _ _ _ => m; box_open_easy := fun c _ _ _ => Some c;
  secretbox_easy := fun m _ _ => m; secretbox_open_easy := fun c _ _ => Some c;
  hash_sha256 := fun s => s; crypto_sign := fun m _ => m; crypto_sign_open := fun m _ => Some m;
  b64_encode := fun s => match Encode (bytes_of s) with Ok l => string_of l | Err _ => "" end;
  b64_decode := fun _ => None
|}.
#[local] Instance no_json : JsonText := {| json_dump := fun _ => None; json_parse := fun _ => None |}.
Definition host_key : string := string_of (repeat 1 32).
Definition guest_key : string := string_of (repeat 2 32).
Definition demo_server : SingleGameServer :=
  addPeer "alice" guest_key "Alice" (Server_init "zoe" host_key "Zoe" 2).

Lemma positions_agree_witness :
  exists info n m, get_game_info "MyGameId" demo_server = Ok info /\ n <> m /\
    initial_position "zoe" host_key info = Ok (true, Z.of_nat n) /\
    initial_position "alice" guest_key info = Ok (false, Z.of_nat m).
Proof using.
  destruct (get_game_info "MyGameId" demo_server) as [info|f] eqn:E; [|vm_compute in E; discriminate].
  assert (lobby_inv demo_server) as Hs by (apply addPeer_inv; [reflexivity|apply Server_init_inv]).
  assert (base64_agrees) as Hb by (intros key l El; cbn; by rewrite El).
  destruct (positions_agree demo_server info Hb Hs E) as (order & Hnd & _ & _ & Hpos).
  destruct (Encode (bytes_of host_key)) as [lh|] eqn:Eh; [|vm_compute in Eh; discriminate].
  destruct (Encode (bytes_of guest_key)) as [lg|] eqn:Eg; [|vm_compute in Eg; discriminate].
  destruct (Hpos "zoe" (mkServerPeer "zoe" host_key "Zoe" ∅) lh) as (n & Hn & Pn); [reflexivity|exact Eh|].
  destruct (Hpos "alice" (mkServerPeer "alice" guest_key "Alice" ∅) lg) as (m & Hm & Pm); [reflexivity|exact Eg|].
  exists info, n, m. split; [done|]. split; [|by split]. intros ->. congruence.
Defined.
End Demo.
