(* ===== verification/PeerInvariant.v ===== *)
(** * PeerInvariant

    The well-formedness of a [MyPeer] (MyPeer.cpp): its pointers lead to players, every
    player's timeline is a well-formed [ChronoMap], and the window of blocks to send is
    short; and that every call of the game, every turn of its timer and every datagram that
    arrives keeps it. *)
From S2P Require Import Prelude.
From S2P Require Import StdMap.
From S2P Require Import ChronoMap.
From S2P Require Import ChronoInvariant.
From S2P Require Import RpcId.
From S2P Require Import Message.
From S2P Require Import TimeHandler.
From S2P Require Import RpcState.
From S2P Require Import Instances.
From S2P Require Import BiDirectionalRpc.
From S2P Require Import RpcVirtuals.
From S2P Require Import UdpRpc.
From S2P Require Import MultiEndpoint.
From S2P Require Import Base64.
From S2P Require Import CryptoHandler.
From S2P Require Import EncryptedRpc.
From S2P Require Import PortMultiplexer.
From S2P Require Import RpcServer.
From S2P Require Import Json.
From S2P Require Import HttpClient.
From S2P Require Import MyPeer.

Section PeerInvariant.
Context `{LruCache} `{Oracle} `{Msgpack} `{Sodium} `{WebClient} `{JsonText} `{Network}.
Variable delay_fuel : nat.
Variable ALL_RPC_FLAKY : bool.
Variable redirections : nat.
Implicit Types (p : MyPeer) (h : pointer).
Abbreviation MP := (M MyPeer).

Definition player_wf (d : PlayerData) : Prop :=
  chrono_wf (playerInputData d) /\ chrono_wf (metadata d).
Definition pointer_wf p (k : option pointer) : Prop :=
  match k with Some h => (h < length (players p))%nat | None => True end.
Record peer_wf p : Prop := {
  pw_players : Forall player_wf (players p);
  pw_sorted : sm_sorted (peerData p);
  pw_peers : Forall (fun it => pointer_wf p it.2) (peerData p);
  pw_mine : pointer_wf p (myData p);
  pw_window : (length (lastSendBuffer p) <= INPUT_SEND_WINDOW_SIZE)%nat
}.
(** What it speaks of. *)
Definition own_data p := (players p, peerData p, myData p, lastSendBuffer p).
Lemma peer_wf_own p p' : own_data p' = own_data p -> peer_wf p -> peer_wf p'.
Proof using.
  unfold own_data. intros [= E1 E2 E3 E4] [].
  split; unfold pointer_wf in *; rewrite ?E1, ?E2, ?E3, ?E4; done.
Qed.

(** ** Steps that keep it, with what their result satisfies *)
Definition gives {A} (m : MP A) (Q : A -> Prop) : Prop :=
  forall p a p', peer_wf p -> m p = Ok (a, p') -> peer_wf p' /\ Q a.
Definition keeps {A} (m : MP A) : Prop := gives m (fun _ => True).

Lemma gives_bind {A B} (m : MP A) (k : A -> MP B) Q R :
  gives m Q -> (forall a, Q a -> gives (k a) R) -> gives (bind m k) R.
Proof using.
  intros Hm Hk p b p' Hp (a & p1 & Ea & Eb)%bind_ok.
  destruct (Hm _ _ _ Hp Ea) as [Hp1 HQ]. by apply (Hk a HQ p1).
Qed.
Lemma peer_bind {A B} (m : MP A) (k : A -> MP B) R :
  keeps m -> (forall a, gives (k a) R) -> gives (bind m k) R.
Proof using. intros Hm Hk. eapply gives_bind; [exact Hm|]. intros a _. apply Hk. Qed.
Lemma gives_ret {A} (a : A) (Q : A -> Prop) : Q a -> gives (ret a) Q.
Proof using. intros HQ p b p' Hp [= <- <-]. done. Qed.
Lemma gives_fail {A} f (Q : A -> Prop) : gives (fail f) Q.
Proof using. by intros p a p'. Qed.
Lemma gives_if {A} (b : bool) (m m' : MP A) Q : gives m Q -> gives m' Q -> gives (if b then m else m') Q.
Proof using. by destruct b. Qed.
Lemma gives_state (Q : MyPeer -> Prop) : (forall p, peer_wf p -> Q p) -> gives get_state Q.
Proof using. intros HQ p a p' Hp [= <- <-]. auto. Qed.
Lemma keeps_state : keeps get_state.
Proof using. by apply gives_state. Qed.
Lemma keeps_modify f : (forall p, peer_wf p -> peer_wf (f p)) -> keeps (modify f).
Proof using. intros Hf p a p' Hp [= _ <-]. auto. Qed.
Lemma keeps_set f : (forall p, own_data (f p) = own_data p) -> keeps (modify f).
Proof using. intros Hf. apply keeps_modify. intros p. by apply peer_wf_own. Qed.
Lemma peer_lift {A} (o : outcome A) : keeps (lift_outcome o).
Proof using. intros p a p' Hp. unfold lift_outcome. destruct o; [|done]. by intros [= _ <-]. Qed.
Lemma gives_lift {A} (o : outcome A) (Q : A -> Prop) :
  (forall a, o = Ok a -> Q a) -> gives (lift_outcome o) Q.
Proof using.
  intros HQ p a p' Hp. unfold lift_outcome. destruct o; [|done]. intros [= <- <-]. auto.
Qed.
Lemma keeps_server {A} (m : M RpcServer A) : keeps (on_server m).
Proof using.
  intros p a p' Hp. unfold on_server. destruct (rpcServer p) as [s|]; [|done].
  destruct (m s) as [[b s']|]; [|done]. intros [= _ <-]. by split; [apply (peer_wf_own p)|].
Qed.
Lemma keeps_peer {A} h (m : M (St EncState) A) : keeps (on_peer h m).
Proof using. apply keeps_server. Qed.
Lemma keeps_environment {A} (f : N -> A) : keeps (environment f).
Proof using. apply keeps_server. Qed.
Lemma keeps_new_handler r e : keeps (new_handler r e).
Proof using. apply keeps_server. Qed.
Lemma keeps_request method path content : keeps (request_ redirections method path content).
Proof using.
  intros p a p' Hp. unfold request_. destruct (client p), (rpcServer p); try done.
  destruct (http_request _ _ _ _ _) as [[j [c' w]]|]; [|done]. intros [= _ <-].
  by split; [apply (peer_wf_own p)|].
Qed.
Lemma peer_for_each {A} (l : list A) (body : A -> MP unit) :
  (forall x, keeps (body x)) -> keeps (for_each l body).
Proof using.
  intros Hb. induction l as [|x l IH]; simpl; [by apply gives_ret|]. by apply peer_bind.
Qed.
(** The turns other threads take while one waits. *)
Definition all_keep (others : list (MP unit)) : Prop := Forall keeps others.
Lemma gives_wait {A} (body : MP (option A)) others :
  keeps body -> all_keep others -> gives (wait_loop body others) (fun r => all_keep r.2).
Proof using.
  intros Hb Ho. induction Ho as [|o others Ho Hos IH]; cbn [wait_loop];
    (apply peer_bind; [done|]); intros [a|]; try (by apply gives_ret; constructor).
  by apply peer_bind.
Qed.

Create HintDb peer.
Hint Resolve keeps_state peer_lift keeps_server keeps_peer keeps_environment keeps_new_handler
  keeps_request peer_for_each gives_fail : peer.
Hint Extern 1 (keeps (fail _)) => by apply gives_fail : peer.
Hint Extern 1 (keeps (ret _)) => by apply gives_ret : peer.
Hint Extern 1 (gives (ret _) (fun _ => True)) => by apply gives_ret : peer.
Hint Extern 2 (gives (bind _ _) _) => apply peer_bind; [|intros ?] : peer.
Hint Extern 2 (keeps (bind _ _)) => apply peer_bind; [|intros ?] : peer.
Hint Extern 1 (gives (if _ then _ else _) _) => apply gives_if : peer.
Hint Extern 1 (keeps (if _ then _ else _)) => apply gives_if : peer.
Hint Extern 1 (gives (match ?x with _ => _ end) _) => destruct x : peer.
Hint Extern 1 (keeps (match ?x with _ => _ end)) => destruct x : peer.
Hint Extern 1 (keeps (modify _)) => by apply keeps_set : peer.
Hint Extern 1 (gives (modify _) _) => by apply keeps_set : peer.
Ltac keep := auto 30 with peer.
Lemma keeps_gives {A} (m : MP A) : keeps m -> gives m (fun _ => True).
Proof using. done. Qed.
Hint Resolve keeps_gives : peer.

(** ** Joining *)
Lemma keeps_get_ids : keeps (get_ids redirections).
Proof using. unfold get_ids. keep. Qed.
Lemma keeps_host g : keeps (peer_host redirections g).
Proof using. unfold peer_host. keep. Qed.
Lemma keeps_join : keeps (peer_join redirections).
Proof using. unfold peer_join. keep. Qed.
Lemma keeps_my_ips : keeps getMyIps.
Proof using. unfold getMyIps. keep. Qed.
Hint Resolve keeps_my_ips : peer.
Lemma keeps_start : keeps (start redirections).
Proof using. unfold start, updateEndpointServerHttp. keep. Qed.
Lemma keeps_position : keeps (getInitialPosition redirections).
Proof using. unfold getInitialPosition. keep. Qed.

(** ** Players *)
Lemma PlayerData_init_wf key name : player_wf (PlayerData_init key name).
Proof using. split; apply chrono_wf_empty. Qed.
Lemma pointer_wf_more p p' k :
  (length (players p) <= length (players p'))%nat -> pointer_wf p k -> pointer_wf p' k.
Proof using. destruct k; simpl; [lia|done]. Qed.

(** A new player, with the entry of the map that is set to it. *)
Lemma new_player_wf id d p p' :
  player_wf d -> peer_wf p ->
  (let! h := new_player d in modify (fun p => set_peerData (sm_assign id (Some h) (peerData p)) p)) p = Ok (tt, p') ->
  peer_wf p'.
Proof using.
  unfold new_player, bind, modify. intros Hd [Hp Hs Hpe Hm Hw] [= <-].
  assert (Hlen : (length (players p) <= length (players p ++ [d]))%nat) by (rewrite length_app; lia).
  split; simpl; [|by apply sm_sorted_assign| |by eapply pointer_wf_more|done].
  - apply Forall_app. by split; [|constructor].
  - apply Forall_assign; [simpl; rewrite length_app; simpl; lia|].
    eapply Forall_impl; [exact Hpe|]. intros it. by apply pointer_wf_more.
Qed.
Lemma keeps_resolve_all l : keeps (resolve_all l).
Proof using. induction l; simpl; keep. Qed.
Hint Resolve keeps_resolve_all : peer.
Lemma keeps_setup_handler id key es ips :
  keeps (setup_handler delay_fuel ALL_RPC_FLAKY id key es ips).
Proof using. unfold setup_handler. keep. Qed.
Hint Resolve keeps_setup_handler : peer.
Lemma keeps_setup_peer ips it : keeps (setup_peer delay_fuel ALL_RPC_FLAKY ips it).
Proof using.
  destruct it as [id value]. unfold setup_peer. do 4 (apply peer_bind; [keep|intros ?]).
  intros p b p' Hp (h & p1 & E1 & E)%bind_ok. apply bind_ok in E as ([] & p2 & E2 & E).
  assert (Hp2 : peer_wf p2).
  { eapply (new_player_wf id); [apply PlayerData_init_wf|exact Hp|]. by rewrite (bind_step _ _ _ _ _ E1). }
  eapply (gives_if _ _ _ (fun _ => True)); [| |exact Hp2|exact E]; keep.
Qed.
Hint Resolve keeps_setup_peer : peer.

(** ** The inputs of another player *)
Lemma take_blocks_wf n buffer c c' : read_blocks n buffer c = Ok c' -> chrono_wf c -> chrono_wf c'.
Proof using.
  revert buffer c. induction n as [|n IH]; intros buffer c; simpl; [by intros [= ->]|].
  destruct (readPrimitive_i64 buffer) as [[s b1]|]; [|done]. simpl.
  destruct (readPrimitive_i64 b1) as [[e b2]|]; [|done]. simpl.
  destruct (readMap b2) as [[m b3]|]; [|done]. simpl. intros E Hc.
  pose proof (put_wf s e m c Hc) as Hput. destruct (put s e m c) as [c1|]; [|done]. simpl in E.
  by eapply IH.
Qed.
Lemma receive_inputs_wf payload d d' : receive_inputs payload d = Ok d' -> player_wf d -> player_wf d'.
Proof using.
  unfold receive_inputs, take_inputs. intros E [Hi Hm].
  destruct (read_blocks _ _ _) as [c|] eqn:Er; [|done]. injection E as <-.
  split; [by eapply take_blocks_wf|done].
Qed.
Lemma put_input_wf s e m d d' : put_input s e m d = Ok d' -> player_wf d -> player_wf d'.
Proof using.
  unfold put_input. intros E [Hi Hm]. pose proof (put_wf s e m _ Hi) as Hp.
  destruct (put _ _ _ _) as [c|]; [|done]. injection E as <-. by split.
Qed.
Lemma keeps_mod_player k f :
  (forall d d', f d = Ok d' -> player_wf d -> player_wf d') -> keeps (mod_player k f).
Proof using.
  intros Hf p a p' Hp. unfold mod_player, player. destruct k as [h|]; [|done].
  intros (d & p1 & E1 & E)%bind_ok. destruct (players p !! h) as [d0|] eqn:Ed; [|done].
  injection E1 as <- <-. apply bind_ok in E as (d' & p1 & E1 & E). unfold lift_outcome in E1.
  destruct (f d0) as [x|] eqn:Ef; [|done]. injection E1 as <- <-. injection E as <- <-.
  split; [|done]. destruct Hp as [Hp Hs Hpe Hm Hw]. split; simpl; [|done| | |done].
  - apply Forall_insert; [done|]. eapply Hf; [exact Ef|]. by eapply Forall_lookup_1.
  - eapply Forall_impl; [exact Hpe|]. intros it. apply pointer_wf_more. simpl. by rewrite length_insert.
  - eapply pointer_wf_more; [|exact Hm]. simpl. by rewrite length_insert.
Qed.
Lemma keeps_receive k payload : keeps (mod_player k (receive_inputs payload)).
Proof using. apply keeps_mod_player. intros d d'. apply receive_inputs_wf. Qed.
Hint Resolve keeps_receive : peer.

Lemma keeps_handle_requests fuel h key : keeps (handle_requests delay_fuel fuel h key).
Proof using. induction fuel; cbn [handle_requests]; keep. Qed.
Lemma keeps_drop_replies fuel h : keeps (drop_replies fuel h).
Proof using. induction fuel; cbn [drop_replies]; keep. Qed.
Hint Resolve keeps_handle_requests keeps_drop_replies : peer.
Lemma keeps_update_peer key : keeps (update_peer delay_fuel key).
Proof using. unfold update_peer. keep. Qed.
Hint Resolve keeps_update_peer : peer.
Lemma keeps_peer_update e : keeps (peer_update delay_fuel e).
Proof using. unfold peer_update. destruct e; keep. Qed.
Hint Resolve keeps_peer_update keeps_position : peer.

(** ** The timer *)
Lemma own_pointer_wf p : peer_wf p -> pointer_wf p (default None (sm_find (userId p) (peerData p))).
Proof using.
  intros Hp. destruct (sm_find (userId p) (peerData p)) as [k|] eqn:E; [|done]. simpl.
  pose proof (pw_peers _ Hp) as Hpe. rewrite Forall_forall in Hpe.
  apply (Hpe (userId p, k)). by apply sm_find_lookup.
Qed.
Lemma keeps_my_data : keeps (modify (fun p =>
  let mine := default None (sm_find (userId p) (peerData p)) in
  set_myData mine (set_peerData (sm_insert (userId p) None (peerData p)) p))).
Proof using.
  apply keeps_modify. intros p Hp. pose proof (own_pointer_wf p Hp) as Hm.
  destruct Hp as [Hp Hs Hpe _ Hw]. split; simpl; [done|by apply sm_sorted_insert| |exact Hm|done].
  unfold sm_insert. case_match; [done|]. by apply Forall_assign.
Qed.
Lemma keeps_check_game result : keeps (check_game result).
Proof using. unfold check_game. keep. Qed.
Hint Resolve keeps_my_data keeps_check_game : peer.
Lemma keeps_checkForEndpoints e :
  keeps (checkForEndpoints delay_fuel ALL_RPC_FLAKY redirections e).
Proof using. unfold checkForEndpoints. destruct e; keep. Qed.
Hint Resolve keeps_checkForEndpoints : peer.
Lemma keeps_timer e : keeps (timer_expires delay_fuel ALL_RPC_FLAKY redirections e).
Proof using. unfold timer_expires. keep. Qed.

(** ** The calls of the game *)
Lemma gives_ping h n others :
  all_keep others ->
  gives (initTimeShift (fun _ m => on_peer h m) (v_requestWithId (enc_virtuals delay_fuel)) n others)
    (fun r => all_keep r.2).
Proof using.
  revert others. induction n as [|n IH]; intros others Ho; cbn [initTimeShift]; [by apply gives_ret|].
  apply peer_bind; [keep|intros reqId].
  eapply gives_bind; [apply gives_wait; [unfold ping_answered; keep|done]|].
  intros [[d|] others'] Ho'; [by apply IH|by apply gives_ret].
Qed.
Lemma gives_init_shifts keys others :
  all_keep others -> gives (init_shifts delay_fuel keys others) (fun r => all_keep r.2).
Proof using.
  revert others. induction keys as [|key keys IH]; intros others Ho; cbn [init_shifts]; [by apply gives_ret|].
  apply peer_bind; [keep|intros p]. apply gives_if; [by apply IH|].
  apply peer_bind; [keep|intros h]. eapply gives_bind; [by apply gives_ping|].
  intros [[d|] others'] Ho'; [by apply IH|by apply gives_ret].
Qed.
Lemma gives_initialized others :
  all_keep others -> gives (initialized delay_fuel others) (fun r => all_keep r.2).
Proof using.
  intros Ho. unfold initialized. apply peer_bind; [keep|intros p].
  destruct (myData p); [|by apply gives_ret]. apply peer_bind; [keep|intros ready].
  apply gives_if; [by apply gives_ret|]. apply peer_bind; [keep|intros p1].
  apply gives_if; [by apply gives_ret|]. apply peer_bind; [keep|intros _]. by apply gives_init_shifts.
Qed.

Lemma keeps_player k : keeps (player k).
Proof using.
  intros p a p' Hp. unfold player. destruct k as [h|]; [|done]. destruct (players p !! h); [|done].
  by intros [= _ <-].
Qed.
Hint Resolve keeps_player : peer.
Lemma keeps_wait_expiration k t steps : all_keep steps -> keeps (wait_expiration k t steps).
Proof using.
  intros Hs. induction Hs; cbn [wait_expiration]; keep.
Qed.
Lemma gives_wait_inputs id k t v waits :
  Forall all_keep waits -> gives (wait_inputs id k t v waits) (fun r => Forall all_keep r.2).
Proof using.
  intros Hw. induction Hw as [|w waits Hw Hws IH]; cbn [wait_inputs]; [by apply gives_ret|].
  apply peer_bind; [by apply keeps_wait_expiration|intros in_time]. apply gives_if.
  - do 2 (apply peer_bind; [keep|intros ?]). by apply gives_ret.
  - apply peer_bind; [keep|intros down]. apply gives_if; [by apply gives_ret|done].
Qed.
Lemma keeps_all_inputs l t v waits : Forall all_keep waits -> keeps (all_inputs l t v waits).
Proof using.
  revert v waits. induction l as [|[id k] l IH]; intros v waits Hw; cbn [all_inputs]; [keep|].
  apply peer_bind; [keep|intros down]. apply gives_if; [by apply IH|].
  eapply gives_bind; [by apply gives_wait_inputs|]. intros [[v'|] waits'] Hw'; [by apply IH|keep].
Qed.
Lemma keeps_getAllInputValues t waits : Forall all_keep waits -> keeps (getAllInputValues t waits).
Proof using. intros Hw. apply peer_bind; [keep|intros p]. by apply keeps_all_inputs. Qed.
Lemma keeps_getStateChanges data : keeps (getStateChanges data).
Proof using. unfold getStateChanges. keep. Qed.

Lemma keeps_write_blocks l buffer : keeps (write_blocks l buffer).
Proof using. revert buffer. induction l; intros buffer; simpl; unfold write_block; keep. Qed.
Hint Resolve keeps_write_blocks : peer.
Lemma keeps_window l : keeps (modify (set_lastSendBuffer (pop_front l))).
Proof using.
  apply keeps_modify. intros p []. split; simpl; try done. unfold pop_front. rewrite length_drop. lia.
Qed.
Lemma keeps_put_input k s e m : keeps (mod_player k (put_input s e m)).
Proof using. apply keeps_mod_player. intros d d'. apply put_input_wf. Qed.
Hint Resolve keeps_window keeps_put_input : peer.
Lemma keeps_updateState t data : keeps (updateState delay_fuel t data).
Proof using. unfold updateState, next_payload. keep. Qed.
Lemma keeps_wait_state id k t : keeps (wait_state id k t).
Proof using. unfold wait_state. keep. Qed.
Lemma keeps_full_state l t state others : all_keep others -> keeps (full_state l t state others).
Proof using.
  revert state others. induction l as [|[id k] l IH]; intros state others Ho; cbn [full_state]; [keep|].
  eapply gives_bind; [apply gives_wait; [apply keeps_wait_state|done]|].
  intros [[st|] others'] Ho'; [by apply IH|keep].
Qed.
Lemma keeps_getFullState t others : all_keep others -> keeps (getFullState t others).
Proof using. intros Ho. apply peer_bind; [keep|intros p]. by apply keeps_full_state. Qed.
Lemma keeps_nearest l r : keeps (nearest l r).
Proof using. revert r. induction l as [|[id k] l IH]; intros r; simpl; keep. Qed.
Hint Resolve keeps_nearest : peer.
Lemma keeps_getNearest : keeps getNearestExpirationTime.
Proof using. unfold getNearestExpirationTime. apply peer_bind; [keep|intros p]. destruct (peerData p) as [|[]]; keep. Qed.

(** ** The end *)
Lemma gives_sleep others : all_keep others -> gives (sleep others) all_keep.
Proof using. intros []; cbn [sleep]; [by apply gives_ret; constructor|]. apply peer_bind; [done|intros _]. by apply gives_ret. Qed.
Lemma gives_once_done d k :
  all_keep d.2 -> (forall others, all_keep others -> gives (k others) (fun r => all_keep r.2)) ->
  gives (once_done d k) (fun r => all_keep r.2).
Proof using. intros Hd Hk. unfold once_done. destruct d.1; [by apply Hk|by apply gives_ret]. Qed.
Lemma gives_no_work others : all_keep others -> gives (wait_loop no_work others) (fun r => all_keep r.2).
Proof using. apply gives_wait. unfold no_work. keep. Qed.
Lemma gives_shutdown others :
  all_keep others -> gives (peer_shutdown delay_fuel others) (fun r => all_keep r.2).
Proof using.
  intros Ho. unfold peer_shutdown. apply peer_bind; [keep|intros p]. apply gives_if; [by apply gives_ret|].
  eapply gives_bind; [by apply gives_no_work|]. intros d1 H1'. apply gives_once_done; [done|]. intros o1 Ho1.
  apply peer_bind; [keep|intros _]. eapply gives_bind; [by apply gives_sleep|]. intros o2 Ho2.
  eapply gives_bind; [by apply gives_no_work|]. intros d2 H2'. apply gives_once_done; [done|]. intros o3 Ho3.
  apply peer_bind; [keep|intros _].
  eapply gives_bind; [apply gives_wait; [unfold update_finished; keep|done]|]. intros d3 H3'.
  apply gives_once_done; [done|]. intros o4 Ho4.
  do 3 (apply peer_bind; [keep|intros _]). apply peer_bind; [unfold release; keep|intros _].
  eapply gives_bind; [by apply gives_sleep|]. intros o5 Ho5. by apply gives_ret.
Qed.

(** ** Everything a peer does

    The turns of the network thread, also while a call waits: the timer expires with some
    error code, a receive completes with any bytes from any sender, and a posted send runs. *)
Definition receive_completes (c : completion) : MP unit := on_server (on_mux (handleReceive delay_fuel c)).
Definition send_runs h (n : nat) : MP unit := on_peer h (run_posted n).
Inductive network_turn : MP unit -> Prop :=
  | turn_timer e : network_turn (timer_expires delay_fuel ALL_RPC_FLAKY redirections e)
  | turn_receive c : network_turn (receive_completes c)
  | turn_send h n : network_turn (send_runs h n).
Definition network_turns : list (MP unit) -> Prop := Forall network_turn.
Lemma network_turn_keeps m : network_turn m -> keeps m.
Proof using. intros []; [apply keeps_timer|apply keeps_server|apply keeps_peer]. Qed.
Lemma network_turns_keep others : network_turns others -> all_keep others.
Proof using. intros Ho. eapply Forall_impl; [exact Ho|]. apply network_turn_keeps. Qed.
Inductive peer_step p : MyPeer -> Prop :=
  | step_ids p' : get_ids redirections p = Ok (tt, p') -> peer_step p p'
  | step_host g p' : peer_host redirections g p = Ok (tt, p') -> peer_step p p'
  | step_join p' : peer_join redirections p = Ok (tt, p') -> peer_step p p'
  | step_start p' : start redirections p = Ok (tt, p') -> peer_step p p'
  | step_network m p' : network_turn m -> m p = Ok (tt, p') -> peer_step p p'
  | step_initialized others r p' :
      network_turns others -> initialized delay_fuel others p = Ok (r, p') -> peer_step p p'
  | step_inputs t waits r p' :
      Forall network_turns waits -> getAllInputValues t waits p = Ok (r, p') -> peer_step p p'
  | step_changes data r p' : getStateChanges data p = Ok (r, p') -> peer_step p p'
  | step_update t data p' : updateState delay_fuel t data p = Ok (tt, p') -> peer_step p p'
  | step_full_state t others r p' :
      network_turns others -> getFullState t others p = Ok (r, p') -> peer_step p p'
  | step_nearest r p' : getNearestExpirationTime p = Ok (r, p') -> peer_step p p'
  | step_finish others r p' :
      network_turns others -> peer_finish others p = Ok (r, p') -> peer_step p p'
  | step_shutdown others r p' :
      network_turns others -> peer_shutdown delay_fuel others p = Ok (r, p') -> peer_step p p'.
Lemma peer_step_wf p p' : peer_step p p' -> peer_wf p -> peer_wf p'.
Proof using.
  intros Hs Hp. destruct Hs as [p' E|g p' E|p' E|p' E|m p' Hm E|others r p' Ho E|t waits r p' Ho E|d r p' E
                               |t d p' E|t others r p' Ho E|r p' E|others r p' Ho E|others r p' Ho E];
    try apply network_turns_keep in Ho.
  - by apply (keeps_get_ids p _ _ Hp E).
  - by apply (keeps_host _ p _ _ Hp E).
  - by apply (keeps_join p _ _ Hp E).
  - by apply (keeps_start p _ _ Hp E).
  - by apply (network_turn_keeps _ Hm p _ _ Hp E).
  - by apply (gives_initialized _ Ho p _ _ Hp E).
  - by apply (keeps_getAllInputValues _ _ (Forall_impl _ _ _ Ho network_turns_keep) p _ _ Hp E).
  - by apply (keeps_getStateChanges _ p _ _ Hp E).
  - by apply (keeps_updateState _ _ p _ _ Hp E).
  - by apply (keeps_getFullState _ _ Ho p _ _ Hp E).
  - by apply (keeps_getNearest p _ _ Hp E).
  - by apply (gives_no_work _ Ho p _ _ Hp E).
  - by apply (gives_shutdown _ Ho p _ _ Hp E).
Qed.

(** C11: A peer stays well formed from its construction on, whatever the lobby answers,
    whatever datagrams arrive from whomever, at any moment and also while a call waits, and
    whenever its timer expires: every pointer it holds leads to a player, its map of players
    is in order, every player's timeline, which the datagrams fill, has the invariant of a
    ChronoMap, and at most three blocks wait to be sent. *)
Theorem peer_well_formed w user key port_ name_ stun p :
  rtc peer_step (MyPeer_start w user key port_ name_ stun) p -> peer_wf p.
Proof using.
  apply (rtc_ind_r (fun p => peer_wf p)); [by split; simpl; try constructor; lia|].
  intros y z _ Hs Hy. by eapply peer_step_wf.
Qed.
End PeerInvariant.

(** ** A game of two *)
Section Demo.
Definition demo_key : string := string_of (repeat 1 32).
Definition demo_key64 : string :=
  match Encode (bytes_of demo_key) with Ok l => string_of l | Err _ => "" end.
#[local] Instance one_key_Sodium : Sodium := {|
  scalarmult_base := fun _ => demo_key;
  box_easy := fun m _ pk _ => toy_tag pk +:+ m; box_open_easy := fun c _ pk _ => toy_open c pk;
  secretbox_easy := fun m _ k => toy_tag k +:+ m; secretbox_open_easy := fun c _ k => toy_open c k;
  hash_sha256 := fun s => s; crypto_sign := fun m _ => m; crypto_sign_open := fun m _ => Some m;
  b64_encode := fun s => match Encode (bytes_of s) with Ok l => string_of l | Err _ => "" end;
  b64_decode := fun s => match Decode (bytes_of s) with Ok l => Some (string_of l) | Err _ => None end
|}.
Definition demo_entry (name : string) : json :=
  object [("key", JStr demo_key64); ("name", JStr name); ("endpoints", strings ["10.0.0.2:4001"])].
Definition demo_info : json :=
  object [("gameId", JStr "game1"); ("hostId", JStr "alice"); ("gameName", JStr "chess");
          ("ready", JBool true); ("peerData", object [("alice", demo_entry "Alice"); ("bob", demo_entry "Bob")])].
#[local] Instance demo_lobby_text : JsonText :=
  {| json_dump := fun _ => Some "{}"; json_parse := fun _ => Some demo_info |}.
#[local] Instance demo_lobby_web : WebClient := fun _ _ _ _ _ => Some (mkResponse OK_200 "{}" None).
#[local] Instance demo_network : Network :=
  {| local_ips := fun _ => ["10.0.0.1"]; resolve_host := fun _ h _ => Some [mkEndpoint h 4001] |}.

Definition demo_peer (id name : string) (port : Z) : MyPeer :=
  MyPeer_start (mkWorld 0 TimeHandler_init 0) id "" port name ∅.
Definition after_call (m : M MyPeer unit) (p : MyPeer) : MyPeer :=
  match m p with Ok (_, p') => p' | Err _ => p end.
Lemma after_call_ok m p : is_ok (m p) = true -> m p = Ok (tt, after_call m p).
Proof. unfold after_call. by destruct (m p) as [[[] p']|]. Qed.
Definition expires : M MyPeer unit := timer_expires 5 false 5 no_error.
(** What a peer posted to be sent, oldest first, and a packet that arrives. *)
Definition packets (p : MyPeer) : list string :=
  match rpcServer p with
  | Some s => concat (map (fun o => (postedSends (udp (multi o.2))).*2) (objects (mux s)))
  | None => []
  end.
Definition hears (packet : option string) : M MyPeer unit :=
  receive_completes 5 (received (mkEndpoint "10.0.0.2" 4001) (default "" packet)).

(** Alice and Bob learn the game and send each other their session keys, answer them and
    acknowledge the answers; then Bob moves, Alice hears it, and her timer expires. *)
Definition alice1 : MyPeer := after_call (start 5) (demo_peer "alice" "Alice" 4000).
Definition alice2 : MyPeer := after_call expires alice1.
Definition bob2 : MyPeer := after_call expires (after_call (start 5) (demo_peer "bob" "Bob" 4001)).
Definition alice3 : MyPeer := after_call (hears (head (packets bob2))) alice2.
Definition bob3 : MyPeer := after_call (hears (head (packets alice2))) bob2.
Definition alice4 : MyPeer := after_call (hears (last (packets bob3))) alice3.
Definition bob4 : MyPeer := after_call (hears (last (packets alice3))) bob3.
Definition bob5 : MyPeer := after_call (hears (last (packets alice4))) bob4.
Definition bob6 : MyPeer := after_call (updateState 5 100 {["move" := "left"]}) bob5.
Definition alice5 : MyPeer := after_call (hears (last (packets bob6))) alice4.
Definition alice6 : MyPeer := after_call expires alice5.
Lemma network_step m p :
  network_turn 5 false 5 m -> is_ok (m p) = true -> peer_step 5 false 5 p (after_call m p).
Proof. intros Hm Hp. by apply (step_network _ _ _ _ m), after_call_ok. Qed.
Ltac turn m c := apply (network_step m); [apply c|vm_compute; reflexivity].
Lemma alice_reaches : rtc (peer_step 5 false 5) (demo_peer "alice" "Alice" 4000) alice6.
Proof.
  apply (rtc_l _ _ alice1); [apply step_start, after_call_ok; vm_compute; reflexivity|].
  apply (rtc_l _ _ alice2); [turn expires turn_timer|].
  apply (rtc_l _ _ alice3); [turn (hears (head (packets bob2))) turn_receive|].
  apply (rtc_l _ _ alice4); [turn (hears (last (packets bob3))) turn_receive|].
  apply (rtc_l _ _ alice5); [turn (hears (last (packets bob6))) turn_receive|].
  apply rtc_once. turn expires turn_timer.
Qed.

Lemma peer_well_formed_witness :
  peer_wf alice6 /\
  map (fun d => (player_name d, get 50 "move" (playerInputData d))) (players alice6) =
    [("Alice", Ok None); ("Bob", Ok (Some "left"))].
Proof.
  split; [|vm_compute; reflexivity].
  apply (peer_well_formed 5 false 5 (mkWorld 0 TimeHandler_init 0) "alice" "" 4000 "Alice" ∅).
  exact alice_reaches.
Defined.
End Demo.
