(* ===== verification/FanOutRpc.v ===== *)
(** * FanOutRpc

    [wga::FanOutRpc] (src/peer/src/base/FanOutRpc.hpp): one request sent to several
    handlers under one id, and the collection of their replies.  The handlers are objects
    of a larger state, in which [run] calls a method of one. *)
From S2P Require Import Prelude.
From S2P Require Import RpcId.
From S2P Require Import Message.
From S2P Require Import TimeHandler.
From S2P Require Import RpcState.
From S2P Require Import BiDirectionalRpc.
From S2P Require Import RpcVirtuals.

Section FanOut.
Context `{LruCache} {X : Type} `{Oracle} `{Msgpack} {T : Type}.
Variable V : @RpcVirtuals _ X.
Variable run : nat -> forall A, M (St X) A -> M T A.
Variable rpcs : list nat.

Definition fan_request (payload : string) : M T RpcId :=
  match rpcs with
  | [] => fail Undefined
  | first :: others =>
      let! i := run first _ (request (v_requestWithId V) payload) in
      for_each others (fun p => run p _ (v_requestWithId V (mkIdPayload i payload))) ;;;
      ret i
  end.
Definition fan_reply (rpcId : RpcId) (payload : string) : M T unit :=
  for_each rpcs (fun p => run p _ (v_reply V rpcId payload)).

Fixpoint all_replied (l : list nat) (rpcId : RpcId) : M T bool :=
  match l with
  | [] => ret true
  | p :: l' =>
      let! r := run p _ get_rpc in
      if negb (hasIncomingReplyWithId rpcId r) then ret false else all_replied l' rpcId
  end.
Definition fan_hasIncomingReplyWithId (rpcId : RpcId) : M T bool := all_replied rpcs rpcId.

Fixpoint consume_all (l : list nat) (rpcId : RpcId) : M T (list string) :=
  match l with
  | [] => ret []
  | p :: l' =>
      let! s := run p _ (consumeIncomingReplyWithId rpcId) in
      let! retval := consume_all l' rpcId in
      ret (s :: retval)
  end.
Definition fan_consumeIncomingReplyWithId (rpcId : RpcId) : M T (list string) :=
  consume_all rpcs rpcId.

Definition fan_heartbeat : M T unit :=
  for_each rpcs (fun p => run p _ (heartbeat (v_send V) (v_requestWithId V) (v_readyToSend V))).
Definition fan_shutdown : M T unit := for_each rpcs (fun p => run p _ shutdown).
End FanOut.
