(* ===== verification/LocalIps.v ===== *)
(** * LocalIps

    [LocalIpFetcher::fetch] (src/peer/src/base/LocalIpFetcher.cpp, the POSIX branch): the
    IPv4 addresses of the interfaces that are up, from what [getifaddrs] lists. *)
From S2P Require Import Prelude.
From S2P Require Import StdMap.

(** An interface: its flag [IFF_UP], the family of its address when it has one, and the
    text [inet_ntop] gives for it. *)
Record ifaddr : Type := mkIfaddr {
  ifa_up : bool;
  ifa_family : option Z;
  ifa_text : option string
}.
Definition AF_INET : Z := 2.

(** The loop; [buf] is the local array, not set at first and kept from turn to turn.  A
    [std::set] is a sorted map to [unit]. *)
Fixpoint collect_ips (l : list ifaddr) (buf : option string) (localIps : list (string * unit)) :
    outcome (list (string * unit)) :=
  match l with
  | [] => Ok localIps
  | ifa :: l' =>
      match ifa_family ifa with
      | None => collect_ips l' buf localIps
      | Some family =>
          if negb (ifa_up ifa) || negb (family =? AF_INET) then collect_ips l' buf localIps
          else
            let buf := match ifa_text ifa with Some t => Some t | None => buf end in
            match buf with
            | None => Err Undefined
            | Some bufString =>
                collect_ips l' buf
                  (if bool_decide (bufString = "0.0.0.0") then localIps
                   else sm_insert bufString tt localIps)
            end
      end
  end.
(** [fetch]; [None] when [getifaddrs] fails. *)
Definition fetch (myaddrs : option (list ifaddr)) : outcome (list string) :=
  match myaddrs with
  | None => Err LogFatal
  | Some l =>
      let? localIps := collect_ips l None [] in
      match localIps with [] => Err LogFatal | _ => Ok localIps.*1 end
  end.

Example fetch_addresses :
  fetch (Some [mkIfaddr true (Some AF_INET) (Some "192.168.1.20"); mkIfaddr false (Some AF_INET) (Some "10.0.0.1");
               mkIfaddr true (Some 10) (Some "fe80::1"); mkIfaddr true (Some AF_INET) (Some "127.0.0.1");
               mkIfaddr true (Some AF_INET) (Some "192.168.1.20")]) = Ok ["127.0.0.1"; "192.168.1.20"].
Proof. reflexivity. Qed.
(** [inet_ntop] failing on the first interface: the array is read without being set. *)
Example fetch_unset : fetch (Some [mkIfaddr true (Some AF_INET) None]) = Err Undefined.
Proof. reflexivity. Qed.
