(* ===== verification/StunPacket.v ===== *)
(** * StunPacket

    The packets of the STUN client (src/peer/src/base/StunClient.cpp, lines 1-368 and the
    decoding in [on_recv]): the [decoder] over the receive buffer, the message type, the
    attributes and the two address attributes.  The packets themselves are those of RFC
    5389, written down at the end as the reference the decoder is compared with. *)
From S2P Require Import Prelude.

(** [asio::ip::address] and [udp::endpoint]; [udp::endpoint()] is the unspecified IPv4
    address with port 0. *)
Inductive ip_address : Type := V4 (addr : Z) | V6 (bytes : list Z).
Record udp_endpoint : Type := mkUdp { ep_address : ip_address; ep_port : Z }.
#[export] Instance ip_address_eq_dec : EqDecision ip_address.
Proof. solve_decision. Defined.
#[export] Instance udp_endpoint_eq_dec : EqDecision udp_endpoint.
Proof. solve_decision. Defined.
Definition no_endpoint : udp_endpoint := mkUdp (V4 0) 0.

(** The error codes the code distinguishes, [asio::error::...]. *)
Inductive error_code : Type :=
  | success
  | operation_aborted
  | fault
  | operation_not_supported
  | system_error (n : Z).
#[export] Instance error_code_eq_dec : EqDecision error_code.
Proof. solve_decision. Defined.

(** ** The decoder

    Two pointers into a buffer, as offsets, and a flag that stays set. *)
Record decoder : Type := mkDecoder { d_begin : Z; d_end : Z; was_error : bool }.
Definition d_size (d : decoder) : Z := d_end d - d_begin d.
Definition d_empty (d : decoder) : bool := d_begin d =? d_end d.
Definition d_fail (d : decoder) : decoder := mkDecoder (d_begin d) (d_end d) true.
Definition d_move (n : Z) (d : decoder) : decoder := mkDecoder (d_begin d + n) (d_end d) (was_error d).
Definition decoder_at (begin size : Z) : decoder := mkDecoder begin (begin + size) false.
(** [set_error] under a condition. *)
Definition fail_if (c : bool) (d : decoder) : decoder := if c then d_fail d else d.
Definition set_error : M decoder unit := modify d_fail.

Definition shrink (new_size : Z) : M decoder unit := modify (fun d =>
  if was_error d then d
  else if new_size <? d_size d then mkDecoder (d_begin d) (d_begin d + new_size) (was_error d)
  else d).
Definition skip (size : Z) : M decoder unit := modify (fun d =>
  let d := fail_if (d_size d <? size) d in
  if was_error d then d else d_move size d).

Section Decoder.
(** The memory the pointers point into. *)
Variable mem : list Z.

(** The [w] bytes at an offset; reading outside the buffer is undefined. *)
Definition load (i : Z) (w : nat) : outcome (list Z) :=
  if (0 <=? i) && (i + Z.of_nat w <=? Z.of_nat (length mem))
  then Ok (take w (drop (Z.to_nat i) mem)) else Err Undefined.

(** [get_raw]: [w] bytes when they are there. *)
Definition get_raw (w : nat) : M decoder (option (list Z)) := fun d =>
  let d := fail_if (d_size d <? Z.of_nat w) d in
  if was_error d then Ok (None, d)
  else let? l := load (d_begin d) w in Ok (Some l, d_move (Z.of_nat w) d).
(** [get<T>] of an integer of [w] bytes, in network order; 0 on an error. *)
Definition get_be (w : nat) : M decoder Z :=
  let! l := get_raw w in ret (match l with Some l => be_value l 0 | None => 0 end).
Definition get_uint8 : M decoder Z := fun d =>
  let d := fail_if (d_empty d) d in
  if was_error d then Ok (0, d)
  else let? l := load (d_begin d) 1 in Ok (be_value l 0, d_move 1 d).
Definition get_uint16 : M decoder Z := get_be 2.
Definition get_uint32 : M decoder Z := get_be 4.
Definition get_uint64 : M decoder Z := get_be 8.
Definition get_int8 : M decoder Z := let! v := get_uint8 in ret (wrap_s 8 v).
Definition get_int16 : M decoder Z := let! v := get_be 2 in ret (wrap_s 16 v).
Definition get_int32 : M decoder Z := let! v := get_be 4 in ret (wrap_s 32 v).
Definition get_int64 : M decoder Z := let! v := get_be 8 in ret (wrap_s 64 v).
(** [decode] of the two kinds of address.  [address_v6::bytes_type] is not initialised:
    without the bytes, the address is built from indeterminate values. *)
Definition decode_v4 : M decoder ip_address := let! a := get_uint32 in ret (V4 a).
Definition decode_v6 : M decoder (option ip_address) :=
  let! l := get_raw 16 in ret (V6 <$> l).

(** ** The message type *)
Definition SUCCESS_CLASS : bool * bool := (true, false).
Definition BIND_METHOD : Z := 0x001.
Definition COOKIE : Z := 0x2112A442.
Definition HEADER_SIZE : Z := 20.
Definition ATTRIB_UNKNOWN : Z := 0x0000.
Definition ATTRIB_MAPPED_ADDRESS : Z := 0x0001.
Definition ATTRIB_XOR_MAPPED_ADDRESS : Z := 0x0020.

Definition bit (data n : Z) : Z := Z.land data (Z.shiftl 1 n).
Definition decode_method (data : Z) : Z :=
  fold_left Z.lor
    [bit data 1; bit data 2; bit data 3;
     Z.shiftr (bit data 5) 1; Z.shiftr (bit data 6) 1; Z.shiftr (bit data 7) 1;
     Z.shiftr (bit data 9) 2; Z.shiftr (bit data 10) 2;
     Z.shiftr (bit data 11) 1; Z.shiftr (bit data 12) 2; Z.shiftr (bit data 13) 2]
    (bit data 0).
(** A [bitset<2>] is the pair of its bits, the one with index 1 first. *)
Definition decode_class (data : Z) : bool * bool :=
  (negb (bit data 8 =? 0), negb (bit data 4 =? 0)).
Definition decode_plex (data : Z) : bool * bool :=
  (negb (bit data 15 =? 0), negb (bit data 14 =? 0)).

(** ** The attributes *)
Record Attribute : Type := mkAttribute { a_type : Z; a_length : Z; a_data : option Z }.
Definition decode_attribute : M decoder Attribute :=
  let! type := get_uint16 in
  let! length := get_uint16 in
  let! d := get_state in
  if was_error d then ret (mkAttribute ATTRIB_UNKNOWN 0 None)
  else ret (mkAttribute type length (Some (d_begin d))).

Definition IPV4 : Z := 0x01.
Definition IPV6 : Z := 0x02.
Definition decode_mapped_address : M decoder udp_endpoint :=
  skip 1 ;;;
  let! family := get_uint8 in
  let! port := get_uint16 in
  let! d := get_state in
  if was_error d then ret no_endpoint
  else if family =? IPV4 then let! addr := decode_v4 in ret (mkUdp addr port)
  else if family =? IPV6 then
    let! addr := decode_v6 in
    ret (match addr with Some a => mkUdp a port | None => no_endpoint end)
  else set_error ;;; ret no_endpoint.
Definition decode_xor_mapped_address : M decoder udp_endpoint :=
  skip 1 ;;;
  let! family := get_uint8 in
  let! port := get_uint16 in
  let! d := get_state in
  if was_error d then ret no_endpoint
  else if family =? IPV4 then
    let! addr := get_uint32 in
    ret (mkUdp (V4 (Z.lxor addr COOKIE)) (Z.lxor port (Z.shiftr COOKIE 16)))
  else if family =? IPV6 then fail LogFatal
  else set_error ;;; ret no_endpoint.

(** What a decoder finds in the value of an attribute, with a decoder of its own. *)
Definition in_value (a : Attribute) (m : M decoder udp_endpoint) : outcome (option udp_endpoint) :=
  match a_data a with
  | None => Err Undefined
  | Some data =>
      let? (ep, dd) := m (decoder_at data (a_length a)) in
      Ok (if was_error dd then None else Some ep)
  end.
Definition lift_value {A} (o : outcome A) : M decoder A := fun d =>
  match o with Ok a => Ok (a, d) | Err f => Err f end.

(** The loop of [on_recv]: the first address attribute decides.  Every turn that goes on
    has read four bytes; [RuntimeError] marks the end of the fuel, [attributes_end] shows
    that it is not reached. *)
Fixpoint attributes (fuel : nat) : M decoder (option udp_endpoint) :=
  match fuel with
  | O => fail RuntimeError
  | S fuel =>
      let! a := decode_attribute in
      let! d := get_state in
      if was_error d then ret None
      else if a_type a =? ATTRIB_MAPPED_ADDRESS then lift_value (in_value a decode_mapped_address)
      else if a_type a =? ATTRIB_XOR_MAPPED_ADDRESS then
        lift_value (in_value a decode_xor_mapped_address)
      else attributes fuel
  end.
Definition read_attributes (begin length : Z) : outcome (option udp_endpoint) :=
  let? (r, _) := attributes (S (Z.to_nat length)) (decoder_at begin length) in Ok r.

(** ** A reply, as [on_recv] takes it

    [Ignored]: not a STUN packet.  [Refused]: the request ends with an error.  [Decoded]:
    the attributes were walked, and the address, when there was one. *)
Inductive reply : Type :=
  | Ignored
  | Refused (e : error_code)
  | Decoded (ep : option udp_endpoint).

Definition decode_response : M decoder reply :=
  let! method_and_class := get_uint16 in
  let! length := get_uint16 in
  let! cookie := get_uint32 in
  skip 12 ;;;
  let! d := get_state in
  if was_error d then ret (Refused operation_not_supported)
  else if bool_decide (decode_plex method_and_class <> (false, false)) then ret Ignored
  else if negb (cookie =? COOKIE) then ret (Refused fault)
  else if negb (decode_method method_and_class =? BIND_METHOD)
    then ret (Refused operation_not_supported)
  else if bool_decide (decode_class method_and_class <> SUCCESS_CLASS) then ret (Refused fault)
  else let! ep := lift_value (read_attributes (d_begin d) length) in ret (Decoded ep).
Definition decode_reply (size : Z) : outcome reply :=
  if size <? HEADER_SIZE then Ok (Refused fault)
  else let? (r, _) := decode_response (decoder_at 0 size) in Ok r.
End Decoder.

(** ** The packets of RFC 5389

    The message type holds the bits of the class at the positions 4 and 8 and those of the
    method around them. *)
Definition message_type (method class : Z) : Z :=
  Z.lor (Z.lor (Z.land method 0xF) (Z.shiftl (Z.land method 0x70) 1))
    (Z.lor (Z.shiftl (Z.land method 0xF80) 2)
       (Z.lor (Z.shiftl (Z.land class 1) 4) (Z.shiftl (Z.land class 2) 7))).
Definition method_of_type (type : Z) : Z :=
  Z.lor (Z.land type 0xF)
    (Z.lor (Z.shiftr (Z.land type 0xE0) 1) (Z.shiftr (Z.land type 0x3E00) 2)).
Definition attribute (type : Z) (value : list Z) : list Z :=
  be_bytes16 type ++ be_bytes16 (Z.of_nat (length value)) ++ value.
(** An endpoint in an address attribute; with the cookie's bits for the second kind. *)
Definition mapped_value (addr port : Z) : list Z :=
  [0; IPV4] ++ be_bytes16 port ++ be_bytes32 addr.
Definition mapped_address (addr port : Z) : list Z :=
  attribute ATTRIB_MAPPED_ADDRESS (mapped_value addr port).
Definition xor_mapped_address (addr port : Z) : list Z :=
  attribute ATTRIB_XOR_MAPPED_ADDRESS
    (mapped_value (Z.lxor addr COOKIE) (Z.lxor port (Z.shiftr COOKIE 16))).
Definition message (type : Z) (id attrs : list Z) : list Z :=
  be_bytes16 type ++ be_bytes16 (Z.of_nat (length attrs)) ++ be_bytes32 COOKIE ++ id ++ attrs.
Definition success_response (id attrs : list Z) : list Z := message (message_type 1 2) id attrs.

(** All values of [w] bits, for claims that are decided value by value. *)
Fixpoint all_bits (w : nat) (P : Z -> bool) : bool :=
  match w with
  | O => P 0
  | S w => all_bits w (fun z => P (2 * z)) && all_bits w (fun z => P (2 * z + 1))
  end.
Lemma all_bits_spec w P z : all_bits w P = true -> 0 <= z < 2 ^ Z.of_nat w -> P z = true.
Proof.
  revert P z. induction w as [|w IH]; intros P z HP Hz.
  - simpl in *. by replace z with 0 by lia.
  - rewrite Nat2Z.inj_succ, Z.pow_succ_r in Hz by lia. apply andb_prop in HP as [H0 H1].
    destruct (Z.Even_or_Odd z) as [[k ->]|[k ->]].
    + apply (IH (fun z => P (2 * z))); [done|lia].
    + apply (IH (fun z => P (2 * z + 1))); [done|lia].
Qed.

(** The type of a message is a binding method exactly when RFC 5389 says so, and the class
    is that of a success exactly when it has the class bits 10; for every type of a STUN
    packet, whose first two bits are zero, although [decode_method] moves bit 11 by one place only. *)
Lemma type_recognised (type : Z) :
  0 <= type < 2 ^ 14 ->
  (decode_method type = BIND_METHOD <-> method_of_type type = BIND_METHOD) /\
  (decode_class type = SUCCESS_CLASS <-> Z.land type 0x110 = 0x100) /\
  (Z.land type 0x800 = 0 -> decode_method type = method_of_type type).
Proof.
  intros Ht.
  set (P := fun t => Bool.eqb (decode_method t =? BIND_METHOD) (method_of_type t =? BIND_METHOD) &&
                     Bool.eqb (bool_decide (decode_class t = SUCCESS_CLASS)) (Z.land t 0x110 =? 0x100) &&
                     (negb (Z.land t 0x800 =? 0) || (decode_method t =? method_of_type t))).
  assert (HP : P type = true).
  { apply (all_bits_spec 14); [vm_compute; reflexivity | exact Ht]. }
  unfold P in HP. apply andb_prop in HP as [[Hm Hc]%andb_prop Hb].
  apply Bool.eqb_prop in Hm, Hc. repeat split.
  - intros E. apply Z.eqb_eq. rewrite <- Hm. by apply Z.eqb_eq.
  - intros E. apply Z.eqb_eq. rewrite Hm. by apply Z.eqb_eq.
  - intros E. apply Z.eqb_eq. rewrite <- Hc. by apply bool_decide_eq_true.
  - intros E. apply (bool_decide_eq_true_1 _). rewrite Hc. by apply Z.eqb_eq.
  - intros E. rewrite E in Hb. simpl in Hb. by apply Z.eqb_eq.
Qed.

(** Bit 11 belongs to the method, nine places up; the code takes it for the tenth. *)
Example method_bit_eleven :
  decode_method (message_type 0x200 0) = 0x400 /\ method_of_type (message_type 0x200 0) = 0x200.
Proof. split; reflexivity. Qed.

(** ** Reading what is there *)
Definition holds (mem : list Z) (i : Z) (l : list Z) : Prop :=
  exists pre post, mem = pre ++ l ++ post /\ Z.of_nat (length pre) = i.

Lemma holds_app mem i l1 l2 :
  holds mem i (l1 ++ l2) -> holds mem i l1 /\ holds mem (i + Z.of_nat (length l1)) l2.
Proof.
  intros (pre & post & -> & <-). split.
  - exists pre, (l2 ++ post). by rewrite <- app_assoc.
  - exists (pre ++ l1), post. rewrite <- !app_assoc, length_app. split; [done|lia].
Qed.
Lemma holds_cons mem i x l :
  holds mem i (x :: l) -> holds mem i [x] /\ holds mem (i + 1) l.
Proof. apply (holds_app mem i [x] l). Qed.

Lemma load_holds mem i l w : holds mem i l -> length l = w -> load mem i w = Ok l.
Proof.
  intros (pre & post & -> & <-) <-. unfold load. rewrite Nat2Z.id, drop_app_length, take_app_length.
  rewrite !length_app, (proj2 (andb_true_iff _ _)); [done|].
  split; apply Z.leb_le; lia.
Qed.

Lemma get_be_holds mem i e w l :
  holds mem i l -> length l = w -> i + Z.of_nat w <= e ->
  get_be mem w (mkDecoder i e false) = Ok (be_value l 0, mkDecoder (i + Z.of_nat w) e false).
Proof.
  intros Hl Hw He. unfold get_be, get_raw, bind, d_size. simpl.
  replace (e - i <? Z.of_nat w) with false by lia. simpl.
  by rewrite (load_holds mem i l w).
Qed.
Lemma get_uint8_holds mem i e b :
  holds mem i [b] -> i < e -> get_uint8 mem (mkDecoder i e false) = Ok (b, mkDecoder (i + 1) e false).
Proof.
  intros Hl He. unfold get_uint8, d_empty. simpl. replace (i =? e) with false by lia. simpl.
  by rewrite (load_holds mem i [b] 1).
Qed.
Lemma get_uint16_holds mem i e v :
  holds mem i (be_bytes16 v) -> i + 2 <= e -> 0 <= v < 2 ^ 16 ->
  get_uint16 mem (mkDecoder i e false) = Ok (v, mkDecoder (i + 2) e false).
Proof.
  intros Hl He Hv. unfold get_uint16. rewrite (get_be_holds mem i e 2 (be_bytes16 v)) by done.
  unfold be_bytes16. by rewrite be16.
Qed.
Lemma get_uint32_holds mem i e v :
  holds mem i (be_bytes32 v) -> i + 4 <= e -> 0 <= v < 2 ^ 32 ->
  get_uint32 mem (mkDecoder i e false) = Ok (v, mkDecoder (i + 4) e false).
Proof.
  intros Hl He Hv. unfold get_uint32. rewrite (get_be_holds mem i e 4 (be_bytes32 v)) by done.
  unfold be_bytes32. by rewrite be32.
Qed.
Lemma skip_inside n i e :
  i + n <= e -> skip n (mkDecoder i e false) = Ok (tt, mkDecoder (i + n) e false).
Proof.
  intros H. unfold skip, modify, d_size. cbn [d_begin d_end].
  by replace (e - i <? n) with false by lia.
Qed.
#[local] Opaque be_bytes16 be_bytes32.

(** ** A reply of RFC 5389 is decoded

    The lengths of the parts, and a reply in front of whatever else the buffer holds. *)
Lemma length_be16 v : length (be_bytes16 v) = 2%nat.
Proof. done. Qed.
Lemma length_be32 v : length (be_bytes32 v) = 4%nat.
Proof. done. Qed.
Lemma length_mapped addr port : length (mapped_value addr port) = 8%nat.
Proof. done. Qed.
Definition u16 (v : Z) : Prop := 0 <= v < 2 ^ 16.
Definition u32 (v : Z) : Prop := 0 <= v < 2 ^ 32.

(** The value of an address attribute, up to the address. *)
Lemma mapped_parts mem i addr port :
  holds mem i (mapped_value addr port) ->
  holds mem (i + 1) [IPV4] /\ holds mem (i + 2) (be_bytes16 port) /\ holds mem (i + 4) (be_bytes32 addr).
Proof.
  unfold mapped_value. intros [H1 H2]%holds_app. apply holds_cons in H1 as [_ H1].
  apply holds_app in H2 as [H2 H3]. rewrite length_be16 in H3. simpl in *.
  split; [done|]. split; [done|]. by replace (i + 4) with (i + 2 + 2) by lia.
Qed.
Ltac decoder_step H :=
  eapply run_bind; [first [apply skip_inside; lia
                          |apply get_uint8_holds; [exact H|lia]
                          |apply get_uint16_holds; [exact H|lia|assumption]
                          |apply get_uint32_holds; [exact H|lia|assumption]]|].

Lemma decode_mapped_value mem i e addr port :
  holds mem i (mapped_value addr port) -> i + 8 <= e -> u32 addr -> u16 port ->
  decode_mapped_address mem (mkDecoder i e false) =
    Ok (mkUdp (V4 addr) port, mkDecoder (i + 8) e false).
Proof.
  intros (H1 & H2 & H3)%mapped_parts He Ha Hp. unfold decode_mapped_address.
  decoder_step H1. decoder_step H1. replace (i + 1 + 1) with (i + 2) by lia.
  decoder_step H2. replace (i + 2 + 2) with (i + 4) by lia.
  unfold decode_v4. simpl. eapply run_bind; [reflexivity|]. simpl.
  eapply run_bind; [|reflexivity]. decoder_step H3.
  by replace (i + 4 + 4) with (i + 8) by lia.
Qed.
Lemma lxor_range n a b : 0 <= n -> 0 <= a < 2 ^ n -> 0 <= b < 2 ^ n -> 0 <= Z.lxor a b < 2 ^ n.
Proof.
  intros Hn Ha Hb.
  assert (E : Z.lxor a b mod 2 ^ n = Z.lxor a b).
  { apply Z.bits_inj_iff'. intros k Hk. rewrite <- Z.land_ones, Z.land_spec, Z.lxor_spec by done.
    destruct (Z.lt_ge_cases k n) as [Hlt|Hge].
    - rewrite Z.ones_spec_low by lia. by rewrite andb_true_r.
    - rewrite Z.ones_spec_high by lia. rewrite andb_false_r.
      rewrite <- (Z.mod_small a (2 ^ n)), <- (Z.mod_small b (2 ^ n)) by done.
      rewrite !Z.mod_pow2_bits_high by lia. done. }
  rewrite <- E. apply Z.mod_pos_bound. lia.
Qed.
Lemma lxor_twice a b : Z.lxor (Z.lxor a b) b = a.
Proof. by rewrite Z.lxor_assoc, Z.lxor_nilpotent, Z.lxor_0_r. Qed.

Lemma decode_xor_mapped_value mem i e addr port :
  holds mem i (mapped_value (Z.lxor addr COOKIE) (Z.lxor port (Z.shiftr COOKIE 16))) ->
  i + 8 <= e -> u32 addr -> u16 port ->
  decode_xor_mapped_address mem (mkDecoder i e false) =
    Ok (mkUdp (V4 addr) port, mkDecoder (i + 8) e false).
Proof.
  intros (H1 & H2 & H3)%mapped_parts He Ha Hp.
  assert (u32 (Z.lxor addr COOKIE)) by (apply lxor_range; [lia|exact Ha|unfold COOKIE; lia]).
  assert (u16 (Z.lxor port (Z.shiftr COOKIE 16))).
  { apply lxor_range; [lia|exact Hp|]. vm_compute. split; congruence. }
  unfold decode_xor_mapped_address.
  decoder_step H1. decoder_step H1. replace (i + 1 + 1) with (i + 2) by lia.
  decoder_step H2. replace (i + 2 + 2) with (i + 4) by lia.
  eapply run_bind; [reflexivity|]. cbn [was_error].
  change (IPV4 =? IPV4) with true. cbv iota. decoder_step H3.
  rewrite !lxor_twice. by replace (i + 4 + 4) with (i + 8) by lia.
Qed.

Lemma decode_attribute_holds mem i e type value :
  holds mem i (attribute type value) -> i + 4 <= e -> u16 type -> Z.of_nat (length value) < 2 ^ 16 ->
  decode_attribute mem (mkDecoder i e false) =
    Ok (mkAttribute type (Z.of_nat (length value)) (Some (i + 4)), mkDecoder (i + 4) e false) /\
  holds mem (i + 4) value.
Proof.
  unfold attribute. intros [H1 H2]%holds_app He Ht Hv. apply holds_app in H2 as [H2 H3].
  rewrite length_be16 in H2, H3. rewrite length_be16 in H3. change (Z.of_nat 2) with 2 in *.
  replace (i + 2 + 2) with (i + 4) in H3 by lia. split; [|done].
  assert (u16 (Z.of_nat (length value))) by (split; lia).
  unfold decode_attribute. decoder_step H1. decoder_step H2.
  eapply run_bind; [reflexivity|]. cbn. by replace (i + 2 + 2) with (i + 4) by lia.
Qed.

(** The first attribute is an address attribute of one of the two kinds. *)
Inductive address_attribute (addr port : Z) : list Z -> Prop :=
  | is_mapped : address_attribute addr port (mapped_address addr port)
  | is_xor_mapped : address_attribute addr port (xor_mapped_address addr port).
Lemma length_address addr port a : address_attribute addr port a -> length a = 12%nat.
Proof. by intros []. Qed.

Lemma attributes_address mem fuel i e addr port a :
  address_attribute addr port a -> holds mem i a -> i + 12 <= e -> u32 addr -> u16 port ->
  exists d, attributes mem (S fuel) (mkDecoder i e false) = Ok (Some (mkUdp (V4 addr) port), d).
Proof.
  intros Ha Hh He Haddr Hport. cbn [attributes]. unfold bind, get_state.
  destruct Ha; apply (decode_attribute_holds mem i e) in Hh as [-> Hh];
    try (rewrite ?length_mapped; done || lia); cbn [was_error a_type];
    unfold lift_value, in_value, decoder_at; cbn [a_data a_length]; rewrite length_mapped.
  - change (ATTRIB_MAPPED_ADDRESS =? ATTRIB_MAPPED_ADDRESS) with true. cbv iota.
    rewrite (decode_mapped_value _ _ _ addr port) by (done || lia). cbn. eauto.
  - change (ATTRIB_XOR_MAPPED_ADDRESS =? ATTRIB_MAPPED_ADDRESS) with false.
    change (ATTRIB_XOR_MAPPED_ADDRESS =? ATTRIB_XOR_MAPPED_ADDRESS) with true. cbv iota.
    rewrite (decode_xor_mapped_value _ _ _ addr port) by (done || lia). cbn. eauto.
Qed.

(** A whole reply at the beginning of the buffer. *)
Lemma decode_response_holds mem e id a more addr port :
  length id = 12%nat -> address_attribute addr port a -> u32 addr -> u16 port ->
  Z.of_nat (length (a ++ more)) < 2 ^ 16 ->
  holds mem 0 (success_response id (a ++ more)) -> 20 <= e ->
  exists d, decode_response mem (mkDecoder 0 e false) =
    Ok (Decoded (Some (mkUdp (V4 addr) port)), d).
Proof.
  intros Hid Ha Haddr Hport Hlen H0 He. set (attrs := a ++ more) in *.
  unfold success_response, message in H0.
  apply holds_app in H0 as [H1 H0]. apply holds_app in H0 as [H2 H0].
  apply holds_app in H0 as [H3 H0]. apply holds_app in H0 as [_ H0].
  rewrite ?length_be16, ?length_be32, ?Hid in *. simpl in H2, H3, H0.
  apply holds_app in H0 as [H0 _].
  assert (u16 (message_type 1 2)) by (vm_compute; split; congruence).
  assert (u16 (Z.of_nat (length attrs))) by (split; lia).
  assert (u32 COOKIE) by (vm_compute; split; congruence).
  assert (12 <= Z.of_nat (length attrs)).
  { unfold attrs. rewrite length_app, (length_address _ _ _ Ha). lia. }
  destruct (attributes_address mem (Z.to_nat (Z.of_nat (length attrs))) 20
              (20 + Z.of_nat (length attrs)) addr port a) as [d Hd]; try done; [lia|].
  unfold decode_response. eexists.
  decoder_step H1. decoder_step H2. decoder_step H3. decoder_step H3.
  eapply run_bind; [reflexivity|]. cbn [was_error d_begin].
  change (decode_plex _) with (false, false). change (decode_class _) with SUCCESS_CLASS.
  change (decode_method _) with BIND_METHOD.
  rewrite Z.eqb_refl, !bool_decide_eq_false_2 by naive_solver.
  change (BIND_METHOD =? BIND_METHOD) with true. cbn [negb].
  eapply run_bind; [|reflexivity]. unfold lift_value, read_attributes, decoder_at.
  change (0 + 2 + 2 + 4 + 12) with 20. by rewrite Hd.
Qed.

(** A success response of RFC 5389 whose first attribute is a (XOR-)MAPPED-ADDRESS is
    decoded to the address and port it was made from, whatever transaction id it carries,
    whatever attributes follow and whatever the buffer still holds behind it. *)
Theorem response_roundtrip (id a more junk : list Z) (addr port : Z) :
  length id = 12%nat -> address_attribute addr port a -> u32 addr -> u16 port ->
  Z.of_nat (length (a ++ more)) < 2 ^ 16 ->
  let r := success_response id (a ++ more) in
  decode_reply (r ++ junk) (Z.of_nat (length r)) = Ok (Decoded (Some (mkUdp (V4 addr) port))).
Proof.
  intros Hid Ha Haddr Hport Hlen r.
  assert (Hsize : 20 <= Z.of_nat (length r)).
  { unfold r, success_response, message. rewrite !length_app, !length_be16, length_be32, Hid. lia. }
  destruct (decode_response_holds (r ++ junk) (Z.of_nat (length r)) id a more addr port)
    as [d Hd]; try done; [by exists [], junk|].
  unfold decode_reply, decoder_at. rewrite Z.add_0_l, Hd.
  by replace (_ <? HEADER_SIZE) with false by (unfold HEADER_SIZE; lia).
Qed.

(** An attribute of any other kind is not skipped: only its header is, and the walk goes on
    inside its value. *)
Lemma attributes_other mem fuel i e type value :
  holds mem i (attribute type value) -> i + 4 <= e -> u16 type -> Z.of_nat (length value) < 2 ^ 16 ->
  type <> ATTRIB_MAPPED_ADDRESS -> type <> ATTRIB_XOR_MAPPED_ADDRESS ->
  attributes mem (S fuel) (mkDecoder i e false) = attributes mem fuel (mkDecoder (i + 4) e false) /\
  holds mem (i + 4) value.
Proof.
  intros Hh He Ht Hv Hm Hx. apply (decode_attribute_holds mem i e) in Hh as [E Hh]; [|done..].
  split; [|done]. cbn [attributes]. unfold bind at 1. rewrite E.
  unfold bind, get_state. cbn [was_error a_type].
  by rewrite (proj2 (Z.eqb_neq _ _) Hm), (proj2 (Z.eqb_neq _ _) Hx).
Qed.
Theorem value_read_as_attribute mem i e length type addr port a rest more :
  holds mem i (attribute type (a ++ rest) ++ more) -> address_attribute addr port a ->
  u16 type -> type <> ATTRIB_MAPPED_ADDRESS -> type <> ATTRIB_XOR_MAPPED_ADDRESS ->
  u32 addr -> u16 port -> Z.of_nat (List.length (a ++ rest)) < 2 ^ 16 ->
  16 <= length -> e = i + length ->
  read_attributes mem i length = Ok (Some (mkUdp (V4 addr) port)).
Proof.
  intros [Hh _]%holds_app Ha Ht Hm Hx Haddr Hport Hlen Hl ->. unfold read_attributes, decoder_at.
  destruct (Z.to_nat length) as [|f] eqn:Ef; [lia|].
  apply (attributes_other mem (S f) i (i + length)) in Hh as [-> Hh]; try done; [|lia].
  apply holds_app in Hh as [Hh _].
  destruct (attributes_address mem f (i + 4) (i + length) addr port a) as [d ->]; try done. lia.
Qed.

(** ** The walk ends *)
Definition no_exception {A} (m : M decoder A) : Prop := forall d, m d <> Err RuntimeError.
Lemma no_exception_ret {A} (a : A) : no_exception (ret a).
Proof. done. Qed.
Lemma no_exception_modify f : no_exception (modify f).
Proof. done. Qed.
Lemma no_exception_get : no_exception get_state.
Proof. done. Qed.
Lemma no_exception_fatal {A} : no_exception (A := A) (fail LogFatal).
Proof. done. Qed.
Lemma no_exception_bind {A B} (m : M decoder A) (k : A -> M decoder B) :
  no_exception m -> (forall a, no_exception (k a)) -> no_exception (bind m k).
Proof.
  intros Hm Hk d. unfold bind. specialize (Hm d). destruct (m d) as [[a d']|]; [apply Hk|congruence].
Qed.
Lemma no_exception_if {A} (c : bool) (m n : M decoder A) :
  no_exception m -> no_exception n -> no_exception (if c then m else n).
Proof. by destruct c. Qed.
Lemma load_no_exception mem i w : load mem i w <> Err RuntimeError.
Proof. unfold load. by case_match. Qed.
Lemma no_exception_raw mem w : no_exception (get_raw mem w).
Proof.
  intros d. unfold get_raw. case_match; [done|]. unfold obind.
  case_match eqn:E; [done|]. intros [= ->]. by apply load_no_exception in E.
Qed.
Lemma no_exception_uint8 mem : no_exception (get_uint8 mem).
Proof.
  intros d. unfold get_uint8. case_match; [done|]. unfold obind.
  case_match eqn:E; [done|]. intros [= ->]. by apply load_no_exception in E.
Qed.
Create HintDb stun.
#[local] Hint Resolve no_exception_ret no_exception_modify no_exception_get no_exception_fatal
  no_exception_bind no_exception_if no_exception_raw no_exception_uint8 : stun.
#[local] Hint Unfold get_be get_uint16 get_uint32 skip set_error decode_attribute
  decode_mapped_address decode_xor_mapped_address decode_v4 decode_v6 : stun.
#[local] Hint Extern 1 (no_exception (bind _ _)) => apply no_exception_bind; [|intros ?] : stun.

Lemma no_exception_in_value a m :
  no_exception (m : M decoder udp_endpoint) -> no_exception (lift_value (in_value a m)).
Proof.
  intros Hm d. unfold lift_value, in_value, obind. destruct (a_data a) as [i|]; [|done].
  specialize (Hm (decoder_at i (a_length a))). destruct (m _) as [[]|]; [done|congruence].
Qed.
Lemma no_exception_mapped mem : no_exception (decode_mapped_address mem).
Proof. autounfold with stun. auto 20 with stun. Qed.
Lemma no_exception_xor_mapped mem : no_exception (decode_xor_mapped_address mem).
Proof. autounfold with stun. auto 20 with stun. Qed.
Lemma no_exception_attribute mem : no_exception (decode_attribute mem).
Proof. autounfold with stun. auto 20 with stun. Qed.

Lemma get_be_moves mem w d v d' :
  get_be mem w d = Ok (v, d') -> was_error d' = false ->
  d' = d_move (Z.of_nat w) d /\ was_error d = false /\ Z.of_nat w <= d_size d.
Proof.
  unfold get_be. intros (l & d1 & E & [= _ <-])%bind_ok Hd'. unfold get_raw in E.
  destruct (Z.ltb_spec (d_size d) (Z.of_nat w)); cbn [fail_if] in E.
  - simpl in E. injection E as _ <-. done.
  - destruct (was_error d) eqn:Ew; [by injection E as _ <-; congruence|].
    destruct (load _ _ _); [|done]. simpl in E. by injection E as _ <-.
Qed.
Lemma decode_attribute_moves mem d a d' :
  decode_attribute mem d = Ok (a, d') -> was_error d' = false ->
  d' = d_move 4 d /\ was_error d = false /\ 4 <= d_size d.
Proof.
  unfold decode_attribute. intros (t & d1 & E1 & E)%bind_ok Hd'.
  apply bind_ok in E as (l & d2 & E2 & E). unfold bind, get_state in E.
  assert (d' = d2) as -> by (destruct (was_error d2); injection E as _ <-; done).
  apply get_be_moves in E2 as (-> & Hd1 & H2); [|done].
  apply get_be_moves in E1 as (-> & Hd & H1); [|done].
  unfold d_move, d_size in *. simpl in *. repeat split; [|done|lia]. f_equal. lia.
Qed.

Lemma attributes_end mem fuel d :
  (0 < fuel)%nat -> d_size d < 4 * Z.of_nat fuel -> attributes mem fuel d <> Err RuntimeError.
Proof.
  revert d. induction fuel as [|fuel IH]; intros d Hpos Hf; [lia|].
  cbn [attributes]. unfold bind, get_state.
  destruct (decode_attribute mem d) as [[a d']|f] eqn:E;
    [|intros [= ->]; by apply no_exception_attribute in E].
  destruct (was_error d') eqn:Hd'; [done|].
  repeat case_match; try apply no_exception_in_value; auto using no_exception_mapped,
    no_exception_xor_mapped.
  apply decode_attribute_moves in E as (-> & _ & Hs); [|done].
  apply IH; unfold d_size, d_move in *; simpl in *; lia.
Qed.
Lemma read_attributes_ends mem i length : read_attributes mem i length <> Err RuntimeError.
Proof.
  unfold read_attributes, obind. case_match eqn:E; [by case_match|]. intros [= ->]. revert E.
  apply attributes_end; unfold d_size; simpl; lia.
Qed.
(** The walk over the attributes ends for every packet and every buffer. *)
Lemma decode_reply_ends mem size : decode_reply mem size <> Err RuntimeError.
Proof.
  unfold decode_reply, obind. case_match; [done|]. case_match eqn:E; [by case_match|].
  intros [= ->]. revert E. generalize (decoder_at 0 size). change (no_exception (decode_response mem)).
  unfold decode_response. autounfold with stun.
  repeat (apply no_exception_bind; [auto with stun|intros ?]).
  repeat (apply no_exception_if; [auto with stun|]).
  apply no_exception_bind; [|auto with stun]. intros d. unfold lift_value.
  pose proof (read_attributes_ends mem (d_begin a3) a0). case_match; [done|congruence].
Qed.

(** ** The walk stays in the buffer

    [room n d]: the next [n] bytes the decoder would hand out lie in the buffer.  A step
    that is [safe k] needs [k] of them. *)
Section Room.
Variable mem : list Z.
Hypothesis mem_bytes : forallb is_byte mem = true.

Definition room (n : Z) (d : decoder) : Prop :=
  0 <= d_begin d <= d_end d /\ Z.min (d_end d) (d_begin d + n) <= Z.of_nat (length mem).
Definition safe {A} (k : Z) (m : M decoder A) (Q : A -> decoder -> Prop) : Prop :=
  forall n d, room n d -> k <= n ->
  m d = Err LogFatal \/
  exists a d', m d = Ok (a, d') /\ room (n - k) d' /\ d_end d' = d_end d /\ Q a d'.

Lemma be_value_nonneg l acc : forallb is_byte l = true -> 0 <= acc -> 0 <= be_value l acc.
Proof.
  revert acc. induction l as [|b l IH]; intros acc Hl Hacc; simpl; [done|].
  apply andb_prop in Hl as [Hb Hl]. apply IH; [done|]. unfold is_byte in Hb. lia.
Qed.
Lemma load_room n d w :
  room n d -> Z.of_nat w <= n -> Z.of_nat w <= d_size d ->
  exists l, load mem (d_begin d) w = Ok l /\ forallb is_byte l = true.
Proof.
  unfold room, d_size. intros Hr Hn Hs. exists (take w (drop (Z.to_nat (d_begin d)) mem)).
  unfold load. rewrite (proj2 (andb_true_iff _ _)) by (split; apply Z.leb_le; lia).
  split; [done|]. apply forallb_forall. intros z Hz.
  rewrite forallb_forall in mem_bytes. apply mem_bytes.
  rewrite <- (firstn_skipn (Z.to_nat (d_begin d)) mem).
  rewrite <- (firstn_skipn w (skipn _ _)). rewrite !in_app_iff. auto.
Qed.
Lemma room_less n n' d : room n d -> n' <= n -> room n' d.
Proof. unfold room. lia. Qed.
Lemma room_fail n c d : room n d -> room n (fail_if c d).
Proof. by destruct c. Qed.
Lemma room_move n k d : room n d -> 0 <= k -> k <= d_size d -> room (n - k) (d_move k d).
Proof. unfold room, d_size. simpl. lia. Qed.

Definition nonneg : Z -> decoder -> Prop := fun v _ => 0 <= v.
Definition anything {A} : A -> decoder -> Prop := fun _ _ => True.

Lemma safe_raw w :
  safe (Z.of_nat w) (get_raw mem w)
    (fun l _ => match l with Some l => forallb is_byte l = true | None => True end).
Proof.
  intros n d Hr Hn. right. unfold get_raw.
  destruct (Z.ltb_spec (d_size d) (Z.of_nat w)); cbn [fail_if].
  - simpl. eexists _, _. repeat split; try apply Hr; try done. destruct Hr; simpl in *; lia.
  - destruct (was_error d).
    + eexists _, _. repeat split; try apply Hr; try done. destruct Hr; simpl in *; lia.
    + destruct (load_room n d w) as (l & -> & Hl); [done..|]. simpl.
      eexists _, _. split; [done|]. split; [|done]. apply room_move; (done || lia).
Qed.
Lemma safe_uint8 : safe 1 (get_uint8 mem) nonneg.
Proof.
  intros n d Hr Hn. right. unfold get_uint8, d_empty.
  destruct (Z.eqb_spec (d_begin d) (d_end d)); cbn [fail_if].
  - simpl. eexists _, _. split; [done|]. split; [|done]. by apply (room_less n); [|lia].
  - destruct (was_error d).
    + eexists _, _. split; [done|]. split; [|done]. apply (room_less n); [done|lia].
    + destruct (load_room n d 1) as (l & -> & Hl); [done|lia|destruct Hr; unfold d_size; lia|]. simpl.
      eexists _, _. split; [done|]. split; [|split; [done|by apply be_value_nonneg]].
      apply room_move; [done|lia|destruct Hr; unfold d_size; lia].
Qed.
Lemma safe_bind {A B} k1 k2 (m : M decoder A) (f : A -> M decoder B) (P : A -> Prop) R :
  0 <= k2 -> safe k1 m (fun a _ => P a) -> (forall a, P a -> safe k2 (f a) R) ->
  safe (k1 + k2) (bind m f) R.
Proof.
  intros Hk Hm Hf n d Hr Hn. unfold bind.
  destruct (Hm n d Hr) as [->|(a & d1 & -> & Hr1 & He1 & Ha)]; [lia|by left|].
  destruct (Hf a Ha (n - k1) d1 Hr1) as [->|(b & d2 & -> & Hr2 & He2 & Hb)]; [lia|by left|].
  right. exists b, d2. split; [done|]. split; [|by rewrite He2].
  by replace (n - (k1 + k2)) with (n - k1 - k2) by lia.
Qed.
Lemma safe_ret {A} k (a : A) (Q : A -> decoder -> Prop) :
  0 <= k -> (forall d, Q a d) -> safe k (ret a) Q.
Proof.
  intros Hk HQ n d Hr Hn. right. exists a, d. split; [done|]. split; [|done].
  apply (room_less n); [done|lia].
Qed.
Lemma safe_less {A} k k' (m : M decoder A) Q : safe k m Q -> k <= k' -> safe k' m Q.
Proof.
  intros Hm Hk n d Hr Hn. destruct (Hm n d Hr) as [->|(a & d1 & -> & Hr1 & He)]; [lia|by left|].
  right. exists a, d1. split; [done|]. split; [|done]. apply (room_less (n - k)); [done|lia].
Qed.
Lemma safe_if {A} k (c : bool) (m m' : M decoder A) Q :
  safe k m Q -> safe k m' Q -> safe k (if c then m else m') Q.
Proof. by destruct c. Qed.
Lemma safe_fatal {A} k (Q : A -> decoder -> Prop) : safe k (fail LogFatal) Q.
Proof. intros n d _ _. by left. Qed.
Lemma safe_modify k f (Q : unit -> decoder -> Prop) :
  0 <= k ->
  (forall n d, room n d -> k <= n -> room (n - k) (f d) /\ d_end (f d) = d_end d) ->
  (forall d, Q tt d) -> safe k (modify f) Q.
Proof.
  intros Hk Hf HQ n d Hr Hn. destruct (Hf n d Hr Hn). right. exists tt, (f d). auto.
Qed.
Lemma safe_skip k : 0 <= k -> safe k (skip k) (fun _ _ => True).
Proof.
  intros Hk. apply safe_modify; [done| |done]. intros n d Hr Hn.
  destruct (Z.ltb_spec (d_size d) k); cbn [fail_if].
  - simpl. split; [|done]. apply (room_less n); [by apply (room_fail n true)|lia].
  - destruct (was_error d); [split; [apply (room_less n); [done|lia]|done]|].
    split; [by apply room_move|done].
Qed.
Lemma safe_set_error : safe 0 set_error (fun _ _ => True).
Proof.
  apply safe_modify; [done| |done]. intros n d Hr _. split; [|done].
  apply (room_less n); [by apply (room_fail n true)|lia].
Qed.
Lemma safe_get : safe 0 get_state (fun _ _ => True).
Proof. intros n d Hr _. right. exists d, d. split; [done|]. by rewrite Z.sub_0_r. Qed.
Lemma safe_be w : safe (Z.of_nat w) (get_be mem w) nonneg.
Proof.
  replace (Z.of_nat w) with (Z.of_nat w + 0) by lia.
  eapply (safe_bind _ _ _ _ (fun l => match l with Some l => forallb is_byte l = true | None => True end));
    [lia| |].
  - apply safe_raw.
  - intros l Hl. apply safe_ret; [lia|]. intros ?. destruct l; [|done]. by apply be_value_nonneg.
Qed.

(** An address attribute takes at most twenty bytes. *)
Definition fine : udp_endpoint -> decoder -> Prop := fun _ _ => True.
Lemma safe_address (m : Z -> Z -> M decoder udp_endpoint) :
  (forall family port, safe 16 (m family port) fine) ->
  safe 20 (skip 1 ;;;
           let! family := get_uint8 mem in
           let! port := get_uint16 mem in
           let! d := get_state in
           if was_error d then ret no_endpoint else m family port) fine.
Proof.
  intros Hm.
  apply (safe_bind 1 19 _ _ (fun _ => True)); [lia|by apply safe_skip|intros _ _].
  apply (safe_bind 1 18 _ _ (fun v => 0 <= v)); [lia|apply safe_uint8|intros family _].
  apply (safe_bind 2 16 _ _ (fun v => 0 <= v)); [lia|apply (safe_be 2)|intros port _].
  apply (safe_bind 0 16 _ _ (fun _ => True)); [lia|apply safe_get|intros d _].
  apply safe_if; [by apply safe_ret|done].
Qed.
Lemma safe_unknown_family : safe 16 (set_error ;;; ret no_endpoint) fine.
Proof.
  apply (safe_less 0); [|lia]. apply (safe_bind 0 0 _ _ (fun _ => True)); [lia| |intros _ _].
  - apply safe_set_error.
  - by apply safe_ret.
Qed.
Lemma safe_mapped : safe 20 (decode_mapped_address mem) fine.
Proof.
  apply safe_address. intros family port. apply safe_if; [|apply safe_if; [|apply safe_unknown_family]].
  - apply (safe_less 4); [|lia]. apply (safe_bind 4 0 _ _ (fun _ => True)); [lia| |intros a _; by apply safe_ret].
    apply (safe_bind 4 0 _ _ (fun v => 0 <= v)); [lia|apply (safe_be 4)|intros a _; by apply safe_ret].
  - apply (safe_bind 16 0 _ _ (fun _ => True)); [lia| |intros a _; by apply safe_ret].
    apply (safe_bind 16 0 _ _ (fun l => match l with Some l => forallb is_byte l = true | None => True end));
      [lia|apply (safe_raw 16)|intros l _; by apply safe_ret].
Qed.
Lemma safe_xor_mapped : safe 20 (decode_xor_mapped_address mem) fine.
Proof.
  apply safe_address. intros family port. apply safe_if; [|apply safe_if; [|apply safe_unknown_family]].
  - apply (safe_less 4); [|lia].
    apply (safe_bind 4 0 _ _ (fun v => 0 <= v)); [lia|apply (safe_be 4)|intros a _; by apply safe_ret].
  - apply safe_fatal.
Qed.
Lemma safe_attribute :
  safe 4 (decode_attribute mem)
    (fun a d => 0 <= a_length a /\ (was_error d = false -> a_data a = Some (d_begin d))).
Proof.
  replace 4 with (2 + 2) by lia.
  apply (safe_bind 2 2 _ _ (fun v => 0 <= v)); [lia|apply (safe_be 2)|intros t _].
  intros n d Hr Hn. unfold bind, get_state.
  destruct (safe_be 2 n d Hr Hn) as [E|(l & d1 & E & Hr1 & He & Hl)];
    unfold get_uint16; rewrite E; [by left|].
  right. destruct (was_error d1) eqn:Hd; eexists _, d1; repeat split; try done; try apply Hr1.
  simpl. congruence.
Qed.

Lemma in_value_inside m a :
  safe 20 m fine -> 0 <= a_length a ->
  (exists i, a_data a = Some i /\ 0 <= i /\ i + 20 <= Z.of_nat (length mem)) ->
  in_value a m <> Err Undefined.
Proof.
  intros Hm Hl (i & Ha & Hi & Hr). unfold in_value, obind. rewrite Ha.
  destruct (Hm 20 (decoder_at i (a_length a))) as [->|(ep & d & -> & _)]; [|lia|done|done].
  unfold room, decoder_at. simpl. lia.
Qed.
Lemma lift_value_undefined {A} (o : outcome A) d : o <> Err Undefined -> lift_value o d <> Err Undefined.
Proof. unfold lift_value. destruct o; congruence. Qed.
Lemma attributes_inside fuel d :
  0 <= d_begin d <= d_end d -> d_end d + 20 <= Z.of_nat (length mem) ->
  attributes mem fuel d <> Err Undefined.
Proof.
  revert d. induction fuel as [|fuel IH]; intros d Hd He; [done|]. cbn [attributes].
  unfold bind, get_state.
  destruct (safe_attribute 4 d) as [->|(a & d' & -> & [Hr _] & He' & Hl & Ha)];
    [split; [done|lia]|lia|done|].
  destruct (was_error d'); [done|].
  assert (exists i, a_data a = Some i /\ 0 <= i /\ i + 20 <= Z.of_nat (length mem)) as Hi.
  { exists (d_begin d'). split; [by apply Ha|lia]. }
  repeat case_match; [| |apply IH; lia]; apply lift_value_undefined, in_value_inside;
    auto using safe_mapped, safe_xor_mapped.
Qed.
End Room.

Lemma read_attributes_inside mem i length :
  forallb is_byte mem = true -> 0 <= i -> 0 <= length -> i + length + 20 <= Z.of_nat (List.length mem) ->
  read_attributes mem i length <> Err Undefined.
Proof.
  intros Hb Hi Hl Hr. unfold read_attributes, obind. case_match eqn:E; [by case_match|]. intros [= ->].
  revert E. apply attributes_inside; [done|simpl; lia..].
Qed.

(** The first bytes of a buffer, as a reader sees them. *)
Definition declared_length (mem : list Z) : Z := be_value (take 2 (drop 2 mem)) 0.
Lemma holds_slice mem i w :
  (i + w <= length mem)%nat -> holds mem (Z.of_nat i) (take w (drop i mem)).
Proof.
  intros H. exists (take i mem), (drop w (drop i mem)). rewrite !take_drop. split; [done|].
  rewrite length_take. lia.
Qed.
Lemma get_slice mem (i w : nat) e :
  (i + w <= length mem)%nat -> Z.of_nat (i + w) <= e ->
  get_be mem w (mkDecoder (Z.of_nat i) e false) =
    Ok (be_value (take w (drop i mem)) 0, mkDecoder (Z.of_nat (i + w)) e false).
Proof.
  intros H He. rewrite (get_be_holds mem (Z.of_nat i) e w (take w (drop i mem))).
  - by rewrite Nat2Z.inj_add.
  - by apply holds_slice.
  - rewrite length_take, length_drop. lia.
  - lia.
Qed.

(** C35: A packet can make the client read behind its buffer only through the length it
    declares: when that is at most the size of the buffer less forty bytes, no byte outside
    the buffer is read, whatever the packet and the attributes say. *)
Theorem decode_reply_inside (mem : list Z) (size : Z) :
  forallb is_byte mem = true -> size <= Z.of_nat (length mem) ->
  declared_length mem + 40 <= Z.of_nat (length mem) ->
  decode_reply mem size <> Err Undefined.
Proof.
  intros Hb Hs Hl. unfold decode_reply, HEADER_SIZE. destruct (Z.ltb_spec size 20); [done|].
  unfold decode_response, decoder_at, bind, get_uint16, get_uint32.
  rewrite (get_slice mem 0 2) by lia. rewrite (get_slice mem 2 2) by lia.
  rewrite (get_slice mem 4 4) by lia. rewrite skip_inside by lia.
  unfold get_state. cbn [was_error d_begin].
  repeat (case_match; [done|]).
  assert (0 <= declared_length mem).
  { apply be_value_nonneg; [|done]. apply forallb_forall. intros z Hz.
    rewrite forallb_forall in Hb. apply Hb. rewrite <- (firstn_skipn 2 mem).
    rewrite <- (firstn_skipn 2 (skipn 2 mem)). rewrite !in_app_iff. auto. }
  pose proof (read_attributes_inside mem 20 (declared_length mem) Hb) as Ha.
  unfold declared_length in *. change (Z.of_nat (4 + 4) + 12) with 20. unfold lift_value, obind.
  destruct (read_attributes _ _ _) as [ep|f]; [done|]. intros [= ->]. apply Ha; [lia..|done].
Qed.

(** ** Replies a server may send *)
Definition some_id : list Z := [1; 2; 3; 4; 5; 6; 7; 8; 9; 10; 11; 12].
Definition in_buffer (packet : list Z) : list Z := packet ++ repeat 0 (512 - length packet).
Lemma some_id_length : length some_id = 12%nat.
Proof. done. Qed.

(** A packet of twenty bytes that declares 500 makes the client read behind its 512 bytes. *)
Example declared_length_overread :
  let packet := be_bytes16 (message_type 1 2) ++ be_bytes16 500 ++ be_bytes32 COOKIE ++ some_id in
  length packet = 20%nat /\ decode_reply (in_buffer packet) 20 = Err Undefined.
Proof. split; vm_compute; reflexivity. Qed.

(** A text of twelve bytes (attribute SOFTWARE, 0x8022) in front of the address is taken for
    the address when it looks like one. *)
Example software_read_as_address :
  let value := mapped_address 0x08080808 53 in
  let packet := success_response some_id (attribute 0x8022 value ++ xor_mapped_address 0xC0000201 4000) in
  decode_reply (in_buffer packet) (Z.of_nat (length packet)) =
    Ok (Decoded (Some (mkUdp (V4 0x08080808) 53))).
Proof. vm_compute. reflexivity. Qed.

(** An IPv6 address in a XOR-MAPPED-ADDRESS aborts the process. *)
Example xor_ipv6_aborts :
  let packet := success_response some_id
    (attribute ATTRIB_XOR_MAPPED_ADDRESS ([0; IPV6] ++ be_bytes16 4000 ++ repeat 7 16)) in
  decode_reply (in_buffer packet) (Z.of_nat (length packet)) = Err LogFatal.
Proof. vm_compute. reflexivity. Qed.

(** A success without an address is decoded to none. *)
Example response_without_address :
  decode_reply (in_buffer (success_response some_id [])) 20 = Ok (Decoded None).
Proof. vm_compute. reflexivity. Qed.

Lemma response_roundtrip_witness :
  decode_reply (success_response some_id (xor_mapped_address 0xC0000201 4000 ++ [1; 2]) ++ repeat 0 476)
    (Z.of_nat (length (success_response some_id (xor_mapped_address 0xC0000201 4000 ++ [1; 2])))) =
    Ok (Decoded (Some (mkUdp (V4 0xC0000201) 4000))).
Proof.
  apply (response_roundtrip some_id (xor_mapped_address 0xC0000201 4000) [1; 2] (repeat 0 476)).
  - reflexivity.
  - constructor.
  - vm_compute. split; congruence.
  - vm_compute. split; congruence.
  - vm_compute. reflexivity.
Defined.
Lemma decode_reply_inside_witness :
  decode_reply (in_buffer (success_response some_id (mapped_address 0xC0000201 4000))) 32 <> Err Undefined.
Proof.
  apply decode_reply_inside.
  - vm_compute. reflexivity.
  - vm_compute. congruence.
  - vm_compute. congruence.
Defined.
