(* ===== verification/StunClient.v ===== *)
(** * StunClient

    [wga::StunClient] (src/peer/src/base/StunClient.cpp, from [StunClient::Request] on, and
    .hpp): asks STUN servers for the address they see the socket under.  Every request is
    an object behind shared pointers; it is sent again after a growing delay until its
    answer is there.  The operations of asio under way are part of the state: datagrams
    being sent, the receive, and the timers waited for.  The methods and the handlers of
    those operations are functions, and [step] is what can happen next: a call of the user,
    or the end of an operation with whatever result the environment chooses. *)
From S2P Require Import Prelude.
From S2P Require Import StdMap.
From S2P Require Import StunPacket.

Section StunClient.
(** The order of [udp::endpoint] in a [std::map], which asio provides. *)
Context `{KeyOrder udp_endpoint} `{!KeyOrderLaws udp_endpoint}.
(** What the user passes as a handler. *)
Context {Handler : Type}.

Record Request : Type := mkRequest {
  id : list Z;
  handler : option Handler;
  tx_endpoint : udp_endpoint;
  resend_count : Z
}.
(** A wait for the timer of a request, and whether the timer was cancelled since. *)
Record Wait : Type := mkWait { w_request : nat; w_timeout : Z; w_cancelled : bool }.
(** A call of a handler, posted to the io service. *)
Record Call : Type := mkCall {
  c_request : nat;
  c_handler : option Handler;
  c_error : error_code;
  c_endpoint : udp_endpoint
}.
(** The object with its [State], which outlives it ([alive] is about the object), and the
    operations under way. *)
Record StunClient : Type := mkStun {
  alive : bool;
  objects : list Request;
  requests : list (udp_endpoint * nat);
  rx_buffer : list Z;
  rx_endpoint : udp_endpoint;
  was_destroyed : bool;
  request_count : Z;
  sending : list (list Z * udp_endpoint * nat);
  receiving : nat;
  waiting : list Wait;
  posted : list Call
}.
Definition set_alive v c := mkStun v (objects c) (requests c) (rx_buffer c) (rx_endpoint c)
  (was_destroyed c) (request_count c) (sending c) (receiving c) (waiting c) (posted c).
Definition set_objects v c := mkStun (alive c) v (requests c) (rx_buffer c) (rx_endpoint c)
  (was_destroyed c) (request_count c) (sending c) (receiving c) (waiting c) (posted c).
Definition set_requests v c := mkStun (alive c) (objects c) v (rx_buffer c) (rx_endpoint c)
  (was_destroyed c) (request_count c) (sending c) (receiving c) (waiting c) (posted c).
Definition set_rx b e c := mkStun (alive c) (objects c) (requests c) b e
  (was_destroyed c) (request_count c) (sending c) (receiving c) (waiting c) (posted c).
Definition set_was_destroyed v c := mkStun (alive c) (objects c) (requests c) (rx_buffer c)
  (rx_endpoint c) v (request_count c) (sending c) (receiving c) (waiting c) (posted c).
Definition set_request_count v c := mkStun (alive c) (objects c) (requests c) (rx_buffer c)
  (rx_endpoint c) (was_destroyed c) v (sending c) (receiving c) (waiting c) (posted c).
Definition set_sending v c := mkStun (alive c) (objects c) (requests c) (rx_buffer c)
  (rx_endpoint c) (was_destroyed c) (request_count c) v (receiving c) (waiting c) (posted c).
Definition set_receiving v c := mkStun (alive c) (objects c) (requests c) (rx_buffer c)
  (rx_endpoint c) (was_destroyed c) (request_count c) (sending c) v (waiting c) (posted c).
Definition set_waiting v c := mkStun (alive c) (objects c) (requests c) (rx_buffer c)
  (rx_endpoint c) (was_destroyed c) (request_count c) (sending c) (receiving c) v (posted c).
Definition set_posted v c := mkStun (alive c) (objects c) (requests c) (rx_buffer c)
  (rx_endpoint c) (was_destroyed c) (request_count c) (sending c) (receiving c) (waiting c) v.

Abbreviation SC := (M StunClient).

Definition StunClient_init : StunClient :=
  mkStun true [] [] (repeat 0 512) no_endpoint false 0 [] 0 [] [].

(** A member of the object is used. *)
Definition this : SC unit := fun c => if alive c then Ok (tt, c) else Err Undefined.
Definition object (r : nat) : SC Request := fun c =>
  match objects c !! r with Some o => Ok (o, c) | None => Err Undefined end.
Definition new_object (o : Request) : SC nat := fun c =>
  Ok (length (objects c), set_objects (objects c ++ [o]) c).

(** [timer.cancel()] *)
Definition cancel_timer (r : nat) : SC unit := modify (fun c =>
  set_waiting (map (fun w => if w_request w =? r then mkWait (w_request w) (w_timeout w) true else w)%nat
                 (waiting c)) c).
(** [Request::exec] *)
Definition exec (r : nat) (error : error_code) (reflected : udp_endpoint) : SC unit :=
  cancel_timer r ;;;
  let! o := object r in
  modify (fun c => set_posted (posted c ++ [mkCall r (handler o) error reflected]) c).
(** [State::destroy_requests] *)
Definition destroy_requests (error : error_code) : SC unit :=
  let! c := get_state in
  for_each (requests c) (fun it =>
    let! o := object it.2 in
    match handler o with Some _ => exec it.2 error no_endpoint | None => ret tt end) ;;;
  modify (set_requests []).

Definition execute (ri : udp_endpoint * nat) (error : error_code) (endpoint : udp_endpoint) : SC unit :=
  if bool_decide (error <> success) && bool_decide (endpoint <> no_endpoint) then fail LogFatal
  else
    modify (fun c => set_requests (sm_erase ri.1 (requests c)) c) ;;;
    exec ri.2 error endpoint.

(** The binding request: a header without attributes. *)
Definition binding_request (id : list Z) : list Z :=
  be_bytes16 BIND_METHOD ++ be_bytes16 0 ++ be_bytes32 COOKIE ++ id.
Definition start_sending (r : nat) : SC unit :=
  this ;;;
  let! o := object r in
  let buf := binding_request (id o) in
  if negb (Z.of_nat (length buf) =? HEADER_SIZE) then fail LogFatal
  else modify (fun c => set_sending (sending c ++ [(buf, tx_endpoint o, r)]) c).
Definition start_receiving : SC unit :=
  this ;;; modify (fun c => set_receiving (S (receiving c)) c).

(** [--_request_count], and the next receive unless it is 0. *)
Definition one_less : SC unit :=
  let! c := get_state in
  let n := wrap_u 64 (request_count c - 1) in
  modify (set_request_count n) ;;;
  if negb (n =? 0) then start_receiving else ret tt.

Definition reflect (id : list Z) (server_endpoint : udp_endpoint) (h : option Handler) : SC unit :=
  this ;;;
  let! request := new_object (mkRequest id h server_endpoint 0) in
  let! c := get_state in
  match sm_find server_endpoint (requests c) with
  | Some r => execute (server_endpoint, r) operation_aborted no_endpoint
  | None =>
      modify (fun c => set_requests (sm_assign server_endpoint request (requests c)) c) ;;;
      start_sending request ;;;
      let! c := get_state in
      modify (set_request_count (wrap_u 64 (request_count c + 1))) ;;;
      if request_count c =? 0 then start_receiving else ret tt
  end.

(** [250 * (2 << resend_count++)], an [int]: the 24th is undefined. *)
Definition resend_timeout (n : Z) : outcome Z :=
  if n <=? 22 then Ok (250 * Z.shiftl 2 n) else Err Undefined.
Definition on_send (ec : error_code) (r : nat) : SC unit :=
  let! o := object r in
  match handler o with
  | None => ret tt
  | Some _ =>
      if bool_decide (ec = operation_aborted) then ret tt
      else
        let! timeout := (fun c => match resend_timeout (resend_count o) with
                                  | Ok t => Ok (t, c) | Err f => Err f end) in
        modify (fun c => set_objects (<[r := mkRequest (id o) (handler o) (tx_endpoint o)
                                               (resend_count o + 1)]> (objects c)) c) ;;;
        cancel_timer r ;;;
        this ;;;
        modify (fun c => set_waiting (waiting c ++ [mkWait r timeout false]) c)
  end.
(** The handler of the timer. *)
Definition on_timer (ec : error_code) (r : nat) : SC unit :=
  if bool_decide (ec = operation_aborted) then ret tt
  else
    let! o := object r in
    match handler o with None => ret tt | Some _ => start_sending r end.

Definition on_recv (error : error_code) (size : Z) : SC unit :=
  let! c := get_state in
  if was_destroyed c then destroy_requests operation_aborted
  else if bool_decide (error <> success) then destroy_requests error
  else
    this ;;;
    match sm_find (rx_endpoint c) (requests c) with
    | None => start_receiving
    | Some r =>
        let request_i := (rx_endpoint c, r) in
        let! v := (fun c => match decode_reply (rx_buffer c) size with
                            | Ok v => Ok (v, c) | Err f => Err f end) in
        match v with
        | Ignored => start_receiving
        | Refused e => one_less ;;; execute request_i e no_endpoint
        | Decoded ep =>
            match ep with Some ep => execute request_i error ep | None => ret tt end ;;;
            let! c := get_state in
            if was_destroyed c then destroy_requests operation_aborted else one_less
        end
    end.

(** The destructor. *)
Definition destroy : SC unit :=
  modify (set_was_destroyed true) ;;;
  let! c := get_state in
  for_each (requests c) (fun it => cancel_timer it.2) ;;;
  modify (set_alive false).

(** ** What can happen

    A receive fills the buffer from its beginning with what fits of a datagram and leaves
    the rest of the buffer as it is.  A cancelled timer's wait ends with
    [operation_aborted], or, when the time was up already, without an error. *)
Definition datagram_in (buf datagram : list Z) : list Z :=
  let d := take (length buf) datagram in d ++ drop (length d) buf.
Definition deliver (datagram : list Z) (from : udp_endpoint) (c : StunClient) : StunClient :=
  set_rx (datagram_in (rx_buffer c) datagram) from (set_receiving (receiving c - 1) c).

Inductive io_step (c : StunClient) : StunClient -> Prop :=
  | io_sent i buf ep r ec c' :
      sending c !! i = Some (buf, ep, r) ->
      on_send ec r (set_sending (delete i (sending c)) c) = Ok (tt, c') -> io_step c c'
  | io_received datagram from c' :
      (0 < receiving c)%nat ->
      on_recv success (Z.of_nat (Nat.min (length datagram) (length (rx_buffer c))))
        (deliver datagram from c) = Ok (tt, c') -> io_step c c'
  | io_receive_failed ec c' :
      (0 < receiving c)%nat -> ec <> success ->
      on_recv ec 0 (set_receiving (receiving c - 1) c) = Ok (tt, c') -> io_step c c'
  | io_timer i w ec c' :
      waiting c !! i = Some w -> (ec = operation_aborted -> w_cancelled w = true) ->
      on_timer ec (w_request w) (set_waiting (delete i (waiting c)) c) = Ok (tt, c') -> io_step c c'.
Inductive step (c : StunClient) : StunClient -> Prop :=
  | step_io c' : io_step c c' -> step c c'
  | step_reflect id ep h c' :
      alive c = true -> length id = 12%nat -> reflect id ep h c = Ok (tt, c') -> step c c'
  | step_destroy c' : alive c = true -> destroy c = Ok (tt, c') -> step c c'.
Definition reachable (c : StunClient) : Prop := rtc step StunClient_init c.

(** ** The methods, as far as calls and receives go

    [view] is what the invariant speaks of; most operations leave it alone. *)
Definition view (c : StunClient) :=
  (length (objects c), requests c, posted c, request_count c, receiving c).
Definition quiet {A} (m : SC A) : Prop := forall c a c', m c = Ok (a, c') -> view c' = view c.
Lemma quiet_ret {A} (a : A) : quiet (ret a).
Proof. by intros c b c' [= <- <-]. Qed.
Lemma quiet_fail {A} f : quiet (A := A) (fail f).
Proof. by intros c b c' ?. Qed.
Lemma quiet_bind {A B} (m : SC A) (k : A -> SC B) :
  quiet m -> (forall a, quiet (k a)) -> quiet (bind m k).
Proof.
  intros Hm Hk c b c' (a & c1 & Ea & Eb)%bind_ok. rewrite (Hk _ _ _ _ Eb). by eapply Hm.
Qed.
Lemma quiet_if {A} (b : bool) (m m' : SC A) : quiet m -> quiet m' -> quiet (if b then m else m').
Proof. by destruct b. Qed.
Lemma quiet_modify f : (forall c, view (f c) = view c) -> quiet (modify f).
Proof. intros Hf c b c' [= _ <-]. apply Hf. Qed.
Lemma quiet_this : quiet this.
Proof. intros c b c'. unfold this. destruct (alive c); [by intros [= _ <-]|done]. Qed.
Lemma quiet_object r : quiet (object r).
Proof. intros c b c'. unfold object. case_match; [by intros [= _ <-]|done]. Qed.
Lemma quiet_cancel r : quiet (cancel_timer r).
Proof. by apply quiet_modify. Qed.
Lemma quiet_option {A X} (o : option X) (m : X -> SC A) (m' : SC A) :
  (forall x, quiet (m x)) -> quiet m' -> quiet (match o with Some x => m x | None => m' end).
Proof. by destruct o. Qed.
Create HintDb stun_quiet.
Hint Resolve quiet_ret quiet_fail quiet_if quiet_this quiet_object quiet_cancel : stun_quiet.
Hint Extern 1 (quiet (bind _ _)) => apply quiet_bind; [|intros ?] : stun_quiet.
Hint Extern 1 (quiet (modify _)) => apply quiet_modify; intros ?; unfold view; simpl; rewrite ?length_insert : stun_quiet.
Hint Extern 1 (quiet (match _ with Some _ => _ | None => _ end)) => apply quiet_option; [intros ?|] : stun_quiet.

Lemma quiet_start_sending r : quiet (start_sending r).
Proof. unfold start_sending. auto 10 with stun_quiet. Qed.
Lemma quiet_on_timer ec r : quiet (on_timer ec r).
Proof. unfold on_timer. pose proof quiet_start_sending. auto 10 with stun_quiet. Qed.
Lemma quiet_on_send ec r : quiet (on_send ec r).
Proof.
  unfold on_send. apply quiet_bind; [auto with stun_quiet|intros o].
  apply quiet_option; [intros h|auto with stun_quiet]. apply quiet_if; [auto with stun_quiet|].
  apply quiet_bind; [|intros t; auto 10 with stun_quiet].
  intros c a c'. case_match; [by intros [= _ <-]|done].
Qed.

(** [exec] posts one call. *)
Lemma exec_ok r e ep c c' :
  exec r e ep c = Ok (tt, c') ->
  exists o, objects c !! r = Some o /\ view c' =
    (length (objects c), requests c, posted c ++ [mkCall r (handler o) e ep], request_count c, receiving c).
Proof.
  unfold exec, cancel_timer, object, bind, modify. simpl.
  destruct (objects c !! r) as [o|]; [|done]. intros [= <-]. by exists o.
Qed.

(** No request is in the map twice or both in the map and called already; and a receive is
    under way at most once, and only while requests are counted. *)
Record client_inv (c : StunClient) : Prop := {
  ci_sorted : sm_sorted (requests c);
  ci_objects : Forall (fun r => r < length (objects c))%nat ((requests c).*2 ++ (c_request <$> posted c));
  ci_once : NoDup ((requests c).*2 ++ (c_request <$> posted c));
  ci_count : Z.of_nat (length (objects c)) < 2 ^ 64 ->
    (receiving c <= 1)%nat /\ (receiving c = 1%nat -> 0 < request_count c) /\
    0 <= request_count c <= Z.of_nat (length (objects c))
}.
Lemma client_inv_view c c' : view c' = view c -> client_inv c -> client_inv c'.
Proof.
  unfold view. intros [= E1 E2 E3 E4 E5] []. split; rewrite ?E1, ?E2, ?E3, ?E4, ?E5; done.
Qed.
Lemma client_inv_init : client_inv StunClient_init.
Proof. split; simpl; [done|constructor|constructor|]. intros _. simpl. lia. Qed.

Lemma sm_find_perm k v (m : list (udp_endpoint * nat)) :
  sm_find k m = Some v -> m ≡ₚ (k, v) :: sm_erase k m.
Proof.
  induction m as [|[k1 v1] m IH]; simpl; [done|].
  destruct (decide (k = k1)) as [->|]; [by intros [= ->]|]. intros E. rewrite (IH E) at 1. constructor.
Qed.
Lemma sm_assign_perm k v (m : list (udp_endpoint * nat)) :
  sm_find k m = None -> sm_assign k v m ≡ₚ (k, v) :: m.
Proof.
  induction m as [|[k1 v1] m IH]; simpl; [done|].
  destruct (decide (k = k1)) as [->|]; [done|]. intros E.
  destruct (key_ltb k k1); [done|]. rewrite (IH E). constructor.
Qed.

(** A request that moves from the map to the calls. *)
Lemma once_moved (m : list (udp_endpoint * nat)) k r l :
  sm_find k m = Some r -> m.*2 ++ l ≡ₚ (sm_erase k m).*2 ++ l ++ [r].
Proof.
  intros E. rewrite (sm_find_perm _ _ _ E) at 1. simpl. rewrite (Permutation_app_comm l [r]). simpl.
  by rewrite Permutation_middle.
Qed.
Lemma execute_inv k r e ep c c' :
  sm_find k (requests c) = Some r -> execute (k, r) e ep c = Ok (tt, c') ->
  client_inv c -> client_inv c'.
Proof.
  unfold execute. intros Hf E [Hs Ho Hn Hc]. case_match; [done|]. cbn [fst snd] in E.
  apply bind_ok in E as ([] & c1 & [= <-] & E). apply exec_ok in E as (o & _ & Hv).
  unfold view in Hv. simpl in Hv. injection Hv as E1 E2 E3 E4 E5.
  split; rewrite ?E1, ?E2, ?E3, ?E4, ?E5; [by apply sm_sorted_erase| | |done];
    rewrite fmap_app; simpl; by rewrite <- (once_moved _ k r).
Qed.

Lemma execute_view k r e ep c c' :
  execute (k, r) e ep c = Ok (tt, c') ->
  exists o, objects c !! r = Some o /\ view c' =
    (length (objects c), sm_erase k (requests c), posted c ++ [mkCall r (handler o) e ep],
     request_count c, receiving c).
Proof.
  unfold execute. intros E. case_match; [done|].
  apply bind_ok in E as ([] & c1 & [= <-] & E). by apply exec_ok in E.
Qed.

Lemma destroy_loop error l c c' :
  for_each l (fun it : udp_endpoint * nat =>
    let! o := object it.2 in
    match handler o with Some _ => exec it.2 error no_endpoint | None => ret tt end) c = Ok (tt, c') ->
  exists cs, c_request <$> cs `sublist_of` l.*2 /\
    view c' = (length (objects c), requests c, posted c ++ cs, request_count c, receiving c).
Proof.
  revert c. induction l as [|[k r] l IH]; intros c E; simpl in E.
  - injection E as <-. exists []. by rewrite app_nil_r.
  - apply bind_ok in E as ([] & c1 & E1 & E). apply IH in E as (cs & Hcs & Hv).
    apply bind_ok in E1 as (o & c0 & Eo & E1). unfold object in Eo.
    destruct (objects c !! r); [|done]. injection Eo as <- <-.
    destruct (handler r0) as [h|].
    + apply exec_ok in E1 as (o & _ & Hv1). unfold view in Hv1. injection Hv1 as V1 V2 V3 V4 V5.
      exists (mkCall r (handler o) error no_endpoint :: cs). split; [by constructor|].
      rewrite Hv, V1, V2, V3, V4, V5. by rewrite <- app_assoc.
    + injection E1 as <-. exists cs. split; [by constructor|done].
Qed.
Lemma destroy_requests_inv error c c' :
  destroy_requests error c = Ok (tt, c') -> client_inv c -> client_inv c'.
Proof.
  unfold destroy_requests. intros (c0 & ? & [= <- <-] & E)%bind_ok [Hs Ho Hn Hc].
  apply bind_ok in E as ([] & c1 & E & [= <-]). apply destroy_loop in E as (cs & Hcs & Hv).
  unfold view in Hv. injection Hv as E1 E2 E3 E4 E5.
  assert (Hsub : c_request <$> (posted c ++ cs) `sublist_of` (c_request <$> posted c) ++ (requests c).*2).
  { rewrite fmap_app. by apply sublist_app. }
  rewrite (Permutation_app_comm (requests c).*2) in Hn, Ho.
  split; simpl; rewrite ?E1, ?E3, ?E4, ?E5; [done| |by eapply sublist_NoDup|done].
  rewrite Forall_forall in *. intros r Hr. apply Ho. by eapply elem_of_sublist.
Qed.

(** Between the end of a receive and the next one. *)
Definition armed (c : StunClient) : Prop :=
  Z.of_nat (length (objects c)) < 2 ^ 64 -> receiving c = 0%nat /\ 0 < request_count c.
Lemma start_receiving_inv c c' :
  start_receiving c = Ok (tt, c') -> client_inv c -> armed c -> client_inv c'.
Proof.
  unfold start_receiving. intros (a & c1 & E & [= <-])%bind_ok [Hs Ho Hn Hc] Ha.
  unfold this in E. destruct (alive c); [|done]. injection E as _ <-. split; simpl; try done.
  intros Hb. destruct (Hc Hb), (Ha Hb). lia.
Qed.
Lemma one_less_inv c c' :
  one_less c = Ok (tt, c') -> client_inv c -> armed c -> client_inv c' /\ requests c' = requests c.
Proof.
  unfold one_less. intros (c0 & ? & [= <- <-] & E)%bind_ok Hi Ha.
  apply bind_ok in E as ([] & c1 & [= <-] & E).
  set (n := wrap_u 64 (request_count c - 1)) in *.
  assert (Hn : Z.of_nat (length (objects c)) < 2 ^ 64 ->
                 n = request_count c - 1 /\ 0 <= n <= Z.of_nat (length (objects c))).
  { intros Hb. destruct (Ha Hb), (ci_count _ Hi Hb) as (? & ? & ?).
    assert (n = request_count c - 1) by (apply wrap_u_id; unfold in_u; lia). lia. }
  assert (Hi' : client_inv (set_request_count n c)).
  { destruct Hi as [Hs Ho Hd Hc]. split; simpl; try done. intros Hb.
    destruct (Hn Hb), (Ha Hb). lia. }
  destruct (Z.eqb_spec n 0) as [|Hne]; cbn [negb] in E.
  - by injection E as <-.
  - split.
    + apply (start_receiving_inv _ _ E); [done|]. intros Hb. simpl in *.
      destruct (Hn Hb), (Ha Hb). lia.
    + unfold start_receiving, this, bind, modify in E. simpl in E.
      destruct (alive c); [|done]. by injection E as <-.
Qed.

Lemma on_recv_inv error size c c' :
  on_recv error size c = Ok (tt, c') -> client_inv c -> armed c -> client_inv c'.
Proof.
  unfold on_recv. intros (c0 & ? & [= <- <-] & E)%bind_ok Hi Ha.
  destruct (was_destroyed c); [by eapply destroy_requests_inv|].
  case_match; [by eapply destroy_requests_inv|].
  apply bind_ok in E as (a & c1 & E1 & E). unfold this in E1.
  destruct (alive c); [|done]. injection E1 as _ <-.
  destruct (sm_find (rx_endpoint c) (requests c)) as [r|] eqn:Hf; [|by eapply start_receiving_inv].
  apply bind_ok in E as (v & c1 & E1 & E).
  destruct (decode_reply (rx_buffer c) size) as [v'|]; [|done]. injection E1 as -> <-.
  destruct v as [|e|ep]; [by eapply start_receiving_inv| |].
  - apply bind_ok in E as ([] & c1 & E1 & E). apply one_less_inv in E1 as [Hi1 Er]; [|done..].
    eapply execute_inv; [|exact E|done]. by rewrite Er.
  - apply bind_ok in E as ([] & c1 & E1 & E).
    assert (client_inv c1 /\ armed c1) as [Hi1 Ha1].
    { destruct ep as [ep|]; [|by injection E1 as <-]. split; [by eapply execute_inv|].
      apply execute_view in E1 as (o & _ & Hv). unfold view in Hv. injection Hv as E1 _ _ E4 E5.
      unfold armed. by rewrite E1, E4, E5. }
    apply bind_ok in E as (c2 & ? & [= <- <-] & E).
    destruct (was_destroyed c1); [by eapply destroy_requests_inv|]. by eapply one_less_inv.
Qed.

Lemma fresh_object (c : StunClient) o :
  client_inv c -> client_inv (set_objects (objects c ++ [o]) c).
Proof.
  intros [Hs Ho Hn Hc]. split; simpl; try done; rewrite length_app; simpl.
  - eapply Forall_impl; [exact Ho|]. intros x Hx. simpl in *. lia.
  - intros Hb. destruct Hc; [lia|]. lia.
Qed.
Lemma reflect_inv id ep h c c' :
  reflect id ep h c = Ok (tt, c') -> client_inv c -> client_inv c'.
Proof.
  unfold reflect, new_object. intros (a & c0 & E0 & E)%bind_ok Hi.
  unfold this in E0. destruct (alive c) eqn:Hal; [|done]. injection E0 as _ <-.
  apply bind_ok in E as (r & c1 & [= <- <-] & E).
  apply (fresh_object _ (mkRequest id h ep 0)) in Hi as Hi1.
  set (c1 := set_objects _ c) in *. apply bind_ok in E as (c2 & ? & [= <- <-] & E).
  destruct (sm_find ep (requests c1)) as [r|] eqn:Hf; [by eapply execute_inv|].
  apply bind_ok in E as ([] & c2 & [= <-] & E). apply bind_ok in E as ([] & c3 & E3 & E).
  apply quiet_start_sending in E3. unfold view in E3. simpl in E3.
  assert (Hsame : alive c3 = alive c3) by done.
  apply bind_ok in E as (c4 & ? & [= <- <-] & E). apply bind_ok in E as ([] & c4 & [= <-] & E).
  injection E3 as V1 V2 V3 V4 V5.
  assert (Hi4 : client_inv (set_request_count (wrap_u 64 (request_count c3 + 1)) c3) /\
    (request_count c3 = 0 -> armed (set_request_count (wrap_u 64 (request_count c3 + 1)) c3))).
  { destruct Hi1 as [Hs Ho Hn Hc]. destruct Hi as [_ Ho' _ Hc'].
    assert (Hperm := sm_assign_perm ep (length (objects c)) (requests c1) Hf).
    rewrite length_app in V1. simpl in *.
    assert (Hw : Z.of_nat (length (objects c3)) < 2 ^ 64 ->
              wrap_u 64 (request_count c3 + 1) = request_count c3 + 1 /\ 0 <= request_count c3).
    { intros Hb. rewrite V4. destruct Hc'; [lia|]. split; [|lia].
      apply wrap_u_id. unfold in_u. lia. }
    split; [split; simpl; rewrite ?V2, ?V3, ?V5|].
    - by apply sm_sorted_assign.
    - rewrite V1, Hperm. simpl. constructor; [lia|]. eapply Forall_impl; [exact Ho'|]. simpl. lia.
    - rewrite Hperm. simpl. constructor; [|done]. intros Hin.
      rewrite Forall_forall in Ho'. apply Ho' in Hin. lia.
    - intros Hb. destruct (Hw Hb) as [-> ?]. destruct Hc' as (? & ? & ?); [lia|].
      rewrite V4. lia.
    - intros E0 Hb. simpl in *. destruct (Hw Hb) as [-> ?]. destruct Hc' as (? & ? & ?); [lia|].
      rewrite V5. rewrite V4 in E0. lia. }
  destruct Hi4 as [Hi4 Ha4]. destruct (Z.eqb_spec (request_count c3) 0) as [E0|E0].
  - eapply start_receiving_inv; eauto.
  - by injection E as <-.
Qed.

Lemma quiet_destroy : quiet destroy.
Proof.
  unfold destroy. apply quiet_bind; [by apply quiet_modify|intros _].
  apply quiet_bind; [by intros c0 a c1 [= _ <-]|intros c0].
  apply quiet_bind; [|intros _; by apply quiet_modify].
  induction (requests c0) as [|it l IH]; simpl; [apply quiet_ret|].
  apply quiet_bind; [apply quiet_cancel|done].
Qed.
Lemma destroy_inv c c' : destroy c = Ok (tt, c') -> client_inv c -> client_inv c'.
Proof.
  intros E. apply client_inv_view. by eapply quiet_destroy.
Qed.

Lemma receive_over c :
  (0 < receiving c)%nat -> client_inv c ->
  client_inv (set_receiving (receiving c - 1) c) /\ armed (set_receiving (receiving c - 1) c).
Proof.
  intros Hr [Hs Ho Hn Hc]. split; [split; simpl; try done|]; intros Hb; simpl in *;
    destruct (Hc Hb) as (? & ? & ?); lia.
Qed.
Lemma io_step_inv c c' : io_step c c' -> client_inv c -> client_inv c'.
Proof.
  intros Hstep Hi. destruct Hstep as [i buf ep r ec c' _ E|d from c' Hr E|ec c' Hr _ E|i w ec c' _ _ E].
  - apply quiet_on_send in E. by apply (client_inv_view c).
  - apply (receive_over _ Hr) in Hi as [Hi Ha]. eapply on_recv_inv; [exact E| |exact Ha].
    by eapply client_inv_view; [|exact Hi].
  - apply (receive_over _ Hr) in Hi as [Hi Ha]. by eapply on_recv_inv.
  - apply quiet_on_timer in E. by apply (client_inv_view c).
Qed.
Lemma step_inv c c' : step c c' -> client_inv c -> client_inv c'.
Proof. intros []; eauto using io_step_inv, reflect_inv, destroy_inv. Qed.
Lemma reachable_inv c : reachable c -> client_inv c.
Proof.
  unfold reachable. apply (rtc_ind_r (fun c => client_inv c)); [apply client_inv_init|].
  intros y z _ Hs Hi. by eapply step_inv.
Qed.

(** Calls are only added, and only [reflect] makes requests. *)
Definition grows (c c' : StunClient) : Prop :=
  length (objects c') = length (objects c) /\ posted c `prefix_of` posted c'.
#[export] Instance grows_preorder : PreOrder grows.
Proof.
  split; [by intros c|]. intros a b c [E1 P1] [E2 P2]. split; [congruence|by etrans].
Qed.
Lemma grows_view c c' cs :
  view c' = (length (objects c), requests c', posted c ++ cs, request_count c', receiving c') -> grows c c'.
Proof. unfold view. intros [= E1 E3]. split; [done|]. rewrite E3. by apply prefix_app_r. Qed.
Lemma grows_quiet {A} (m : SC A) c a c' : quiet m -> m c = Ok (a, c') -> grows c c'.
Proof.
  intros Hq E. apply Hq in E. unfold view in E. injection E as E1 _ E3 _ _.
  split; [done|]. by rewrite E3.
Qed.
Lemma execute_grows ri e ep c c' : execute ri e ep c = Ok (tt, c') -> grows c c'.
Proof.
  destruct ri as [k r]. intros (o & _ & Hv)%execute_view. eapply grows_view.
  unfold view in *. by injection Hv as -> _ -> _ _.
Qed.
Lemma destroy_requests_grows error c c' : destroy_requests error c = Ok (tt, c') -> grows c c'.
Proof.
  unfold destroy_requests. intros (c0 & ? & [= <- <-] & E)%bind_ok.
  apply bind_ok in E as ([] & c1 & E & [= <-]). apply destroy_loop in E as (cs & _ & Hv).
  unfold view in Hv. injection Hv as E1 _ E3 _ _. split; simpl; [done|]. rewrite E3. by apply prefix_app_r.
Qed.
Lemma start_receiving_grows c c' : start_receiving c = Ok (tt, c') -> grows c c'.
Proof.
  unfold start_receiving, this, bind, modify. destruct (alive c); [|done]. by intros [= <-].
Qed.
Lemma one_less_grows c c' : one_less c = Ok (tt, c') -> grows c c'.
Proof.
  unfold one_less. intros (c0 & ? & [= <- <-] & E)%bind_ok. apply bind_ok in E as ([] & c1 & [= <-] & E).
  case_match; [|by injection E as <-]. apply start_receiving_grows in E. done.
Qed.
Lemma on_recv_grows error size c c' : on_recv error size c = Ok (tt, c') -> grows c c'.
Proof.
  unfold on_recv. intros (c0 & ? & [= <- <-] & E)%bind_ok.
  destruct (was_destroyed c); [by eapply destroy_requests_grows|].
  case_match; [by eapply destroy_requests_grows|].
  apply bind_ok in E as (a & c1 & E1 & E). apply grows_quiet in E1; [|apply quiet_this].
  etrans; [exact E1|]. destruct (sm_find (rx_endpoint c) (requests c)) as [r|]; [|by apply start_receiving_grows].
  apply bind_ok in E as (v & c2 & E2 & E).
  destruct (decode_reply (rx_buffer c1) size) as [v'|]; [|done]. injection E2 as -> <-.
  destruct v as [|e|ep]; [by apply start_receiving_grows| |].
  - apply bind_ok in E as ([] & c2 & E2 & E). etrans; [by eapply one_less_grows|by eapply execute_grows].
  - apply bind_ok in E as ([] & c2 & E2 & E). etrans.
    { destruct ep; [by eapply execute_grows|by injection E2 as <-]. }
    apply bind_ok in E as (c3 & ? & [= <- <-] & E).
    destruct (was_destroyed c2); [by eapply destroy_requests_grows|by eapply one_less_grows].
Qed.
Lemma io_step_grows c c' : io_step c c' -> grows c c'.
Proof.
  intros [i buf ep r ec c1 _ E|d from c1 _ E|ec c1 _ _ E|i w ec c1 _ _ E].
  - eapply (grows_quiet _ (set_sending _ c)); [apply quiet_on_send|exact E].
  - by apply on_recv_grows in E.
  - by apply on_recv_grows in E.
  - eapply (grows_quiet _ (set_waiting _ c)); [apply quiet_on_timer|exact E].
Qed.
Lemma reflect_grows id ep h c c' :
  reflect id ep h c = Ok (tt, c') ->
  length (objects c') = S (length (objects c)) /\ posted c `prefix_of` posted c'.
Proof.
  unfold reflect, new_object. intros (a & c0 & E0 & E)%bind_ok.
  apply grows_quiet in E0 as [L0 P0]; [|apply quiet_this].
  apply bind_ok in E as (r & c1 & [= <- <-] & E). apply bind_ok in E as (c2 & ? & [= <- <-] & E).
  set (c1 := set_objects _ c0) in *.
  assert (L1 : length (objects c1) = S (length (objects c))).
  { unfold c1. simpl. rewrite length_app, L0. simpl. lia. }
  assert (G : grows c1 c').
  { destruct (sm_find ep (requests c1)); [by eapply execute_grows|].
    apply bind_ok in E as ([] & c2 & [= <-] & E). apply bind_ok in E as ([] & c3 & E3 & E).
    apply grows_quiet in E3; [|apply quiet_start_sending].
    apply bind_ok in E as (c4 & ? & [= <- <-] & E). apply bind_ok in E as ([] & c4 & [= <-] & E).
    etrans; [exact E3|]. case_match; [by apply start_receiving_grows in E|by injection E as <-]. }
  destruct G as [L P]. split; [congruence|]. etrans; [exact P0|exact P].
Qed.
Lemma posted_bound c : client_inv c -> (length (posted c) <= length (objects c))%nat.
Proof.
  intros [_ Ho Hn _]. apply NoDup_app in Hn as (_ & _ & Hn). apply Forall_app in Ho as [_ Ho].
  rewrite <- (length_fmap c_request (posted c)), <- (length_seq (length (objects c)) 0).
  apply submseteq_length, NoDup_submseteq; [done|]. intros r Hr. apply elem_of_seq.
  rewrite Forall_forall in Ho. apply Ho in Hr. lia.
Qed.

(** C15: Whatever is sent, lost, answered, cancelled and in whatever order, the handler of a
    request is called at most once; and at most one receive is under way on the socket and
    the one receive buffer, as long as fewer than 2^64 requests were made. *)
Theorem handlers_called_once (c : StunClient) :
  reachable c ->
  NoDup (c_request <$> posted c) /\
  (Z.of_nat (length (objects c)) < 2 ^ 64 -> (receiving c <= 1)%nat).
Proof.
  intros [Hs Ho Hn Hc]%reachable_inv. split.
  - by apply NoDup_app in Hn as (_ & _ & ?).
  - intros Hb. by destruct (Hc Hb).
Qed.

Lemma execute_success k r o ep c :
  objects c !! r = Some o ->
  exists c', execute (k, r) success ep c = Ok (tt, c') /\
    posted c' = posted c ++ [mkCall r (handler o) success ep] /\
    requests c' = sm_erase k (requests c) /\ alive c' = alive c /\ was_destroyed c' = was_destroyed c.
Proof.
  intros Ho. unfold execute. rewrite (bool_decide_eq_false_2 (success <> success)) by naive_solver.
  unfold exec, object, cancel_timer, bind, modify. simpl. rewrite Ho. eexists. done.
Qed.
Lemma on_recv_decoded size r c ep :
  alive c = true -> was_destroyed c = false -> sm_find (rx_endpoint c) (requests c) = Some r ->
  decode_reply (rx_buffer c) size = Ok (Decoded (Some ep)) ->
  on_recv success size c =
    (execute (rx_endpoint c, r) success ep ;;;
     let! c := get_state in
     if was_destroyed c then destroy_requests operation_aborted else one_less) c.
Proof.
  intros Hal Hwd Hf Hd. unfold on_recv. eapply run_bind; [reflexivity|]. rewrite Hwd.
  rewrite bool_decide_eq_false_2 by naive_solver.
  eapply run_bind; [unfold this; by rewrite Hal|]. rewrite Hf.
  eapply run_bind; [by rewrite Hd|]. done.
Qed.

(** C27: The answer of a STUN server reaches the user: while the client exists and the
    request for an endpoint is in the map, a success response of RFC 5389 from there that
    begins with a (XOR-)MAPPED-ADDRESS posts a call of that request's handler, without an
    error and with the address of the response, and takes the request out of the map. *)
Theorem response_reaches_handler (c : StunClient) (from : udp_endpoint) (r : nat) (o : Request)
    (pid a more : list Z) (addr port : Z) :
  alive c = true -> was_destroyed c = false -> length (rx_buffer c) = 512%nat ->
  sm_find from (requests c) = Some r -> objects c !! r = Some o ->
  length pid = 12%nat -> address_attribute addr port a -> u32 addr -> u16 port ->
  Z.of_nat (length (a ++ more)) <= 492 ->
  let packet := success_response pid (a ++ more) in
  exists c',
    on_recv success (Z.of_nat (length packet)) (deliver packet from c) = Ok (tt, c') /\
    posted c' = posted c ++ [mkCall r (handler o) success (mkUdp (V4 addr) port)] /\
    requests c' = sm_erase from (requests c).
Proof.
  intros Hal Hwd Hrx Hf Ho Hpid Ha Haddr Hport Hlen packet.
  assert (Hsz : Z.of_nat (length packet) = 20 + Z.of_nat (length (a ++ more))).
  { unfold packet, success_response, message.
    rewrite !length_app, !length_be16, length_be32, Hpid. lia. }
  assert (Hd : decode_reply (datagram_in (rx_buffer c) packet) (Z.of_nat (length packet)) =
               Ok (Decoded (Some (mkUdp (V4 addr) port)))).
  { unfold datagram_in. rewrite take_ge by lia. apply response_roundtrip; (done || lia). }
  rewrite (on_recv_decoded _ r _ (mkUdp (V4 addr) port)) by done.
  edestruct (execute_success from r o (mkUdp (V4 addr) port) (deliver packet from c))
    as (c1 & E1 & Hp & Hq & Hal1 & Hwd1); [done|].
  unfold bind, get_state. cbn [rx_endpoint deliver set_rx]. rewrite E1, Hwd1. simpl. rewrite Hwd.
  unfold one_less, start_receiving, this, bind, modify, get_state. simpl.
  case_match; simpl; rewrite ?Hal1; simpl; rewrite ?Hal; eexists; done.
Qed.
End StunClient.

(** ** Runs

    A concrete order of endpoints, and handlers named by numbers. *)
#[export] Instance ip_address_countable : Countable ip_address.
Proof.
  refine (inj_countable' (fun a => match a with V4 a => inl a | V6 b => inr b end)
            (fun s => match s with inl a => V4 a | inr b => V6 b end) _). by intros [].
Defined.
#[export] Instance udp_endpoint_countable : Countable udp_endpoint.
Proof.
  refine (inj_countable' (fun e => (ep_address e, ep_port e)) (fun p => mkUdp p.1 p.2) _). by intros [].
Defined.
Definition by_code : KeyOrder udp_endpoint := fun a b => Pos.ltb (encode a) (encode b).
Lemma by_code_laws : KeyOrderLaws (H := by_code) udp_endpoint.
Proof.
  split; unfold key_ltb, by_code.
  - intros a. apply Pos.ltb_irrefl.
  - intros a b c. rewrite !Pos.ltb_lt. apply Pos.lt_trans.
  - intros a b Hab. rewrite !Pos.ltb_lt. destruct (Pos.lt_total (encode a) (encode b)) as [?|[E|?]]; auto.
    by apply (inj encode) in E.
Qed.
#[local] Existing Instance by_code.
#[local] Existing Instance by_code_laws.

Definition server1 : udp_endpoint := mkUdp (V4 0x4A7D8C7F) 19302.
Definition server2 : udp_endpoint := mkUdp (V4 0xD5C03B4B) 3478.
Definition mine : udp_endpoint := mkUdp (V4 0xC0000201) 4000.
Definition answer : list Z := success_response some_id (xor_mapped_address 0xC0000201 4000).
Definition client0 : StunClient (Handler := nat) := StunClient_init.
Definition state_of (o : outcome (unit * StunClient (Handler := nat))) : StunClient (Handler := nat) :=
  match o with Ok (_, c) => c | Err _ => client0 end.

(** A request is made and its datagram is sent. *)
Definition asked : StunClient := state_of (reflect some_id server1 (Some 7%nat) client0).
Definition sent : StunClient := state_of (on_send success 0 (set_sending [] asked)).
Lemma asked_reachable : reachable asked.
Proof. apply rtc_once. by apply (step_reflect _ some_id server1 (Some 7%nat)). Qed.
Lemma sent_reachable : reachable sent.
Proof.
  eapply rtc_r; [apply asked_reachable|]. eapply step_io, (io_sent _ 0 _ _ _ success); [reflexivity|].
  vm_compute. reflexivity.
Qed.

Lemma response_reaches_handler_witness :
  exists c',
    on_recv success (Z.of_nat (length answer)) (deliver answer server1 sent) = Ok (tt, c') /\
    posted c' = [mkCall 0 (Some 7%nat) success mine] /\ requests c' = [].
Proof.
  apply (response_reaches_handler sent server1 0 (mkRequest some_id (Some 7%nat) server1 1) some_id
           (xor_mapped_address 0xC0000201 4000) [] 0xC0000201 4000); try reflexivity.
  - constructor.
  - vm_compute. split; congruence.
  - vm_compute. split; congruence.
  - vm_compute. congruence.
Defined.
Lemma handlers_called_once_witness :
  NoDup (c_request <$> posted sent) /\
  (Z.of_nat (length (objects sent)) < 2 ^ 64 -> (receiving sent <= 1)%nat).
Proof. apply handlers_called_once. exact sent_reachable. Defined.

(** A success without an address ends the only receive, and the request stays in the map:
    its datagram is sent again and again, and no answer is read any more. *)
Definition stranded : StunClient :=
  state_of (on_recv success 20 (deliver (success_response some_id []) server1 sent)).
Theorem answer_without_address_strands :
  reachable stranded /\ sm_find server1 (requests stranded) = Some 0%nat /\
  receiving stranded = 0%nat /\ posted stranded = [] /\
  waiting stranded = [mkWait 0 500 false].
Proof.
  split; [|vm_compute; by repeat split]. eapply rtc_r; [apply sent_reachable|].
  eapply step_io, (io_received _ (success_response some_id []) server1); [by constructor|].
  vm_compute. reflexivity.
Qed.

(** An error of the receive ends the requests but leaves them counted: a request made later
    is sent and nothing is received. *)
Definition refused : StunClient :=
  state_of (on_recv (system_error 111) 0 (set_receiving 0 sent)).
Example error_leaves_client_deaf :
  let c := state_of (reflect some_id server2 (Some 8%nat) refused) in
  requests refused = [] /\ posted refused = [mkCall 0 (Some 7%nat) (system_error 111) no_endpoint] /\
  sm_find server2 (requests c) = Some 1%nat /\ receiving c = 0%nat.
Proof. vm_compute. repeat split. Qed.

(** A second request for the same endpoint ends the first one and is dropped itself: no
    call, no datagram. *)
Example second_request_dropped :
  let c := state_of (reflect some_id server1 (Some 8%nat) sent) in
  posted c = [mkCall 0 (Some 7%nat) operation_aborted no_endpoint] /\ requests c = [] /\ sending c = [].
Proof. vm_compute. repeat split. Qed.

(** The answer is read before the end of the send is: the timer is started for a request
    that is over, and it is sent again. *)
Example answered_request_sent_again :
  let c1 := state_of (on_recv success (Z.of_nat (length answer)) (deliver answer server1 asked)) in
  let c2 := state_of (on_send success 0 (set_sending [] c1)) in
  let c3 := state_of (on_timer success 0 (set_waiting [] c2)) in
  posted c1 = [mkCall 0 (Some 7%nat) success mine] /\ requests c1 = [] /\
  waiting c2 = [mkWait 0 500 false] /\ sending c3 = [(binding_request some_id, server1, 0%nat)].
Proof. vm_compute. repeat split. Qed.

(** A datagram whose send is over when the client is destroyed: its handler uses the object
    that is gone. *)
Example send_after_destruction :
  on_send success 0 (set_sending [] (state_of (destroy asked))) = Err Undefined.
Proof. vm_compute. reflexivity. Qed.
