(* ===== verification/StunDiscovery.v ===== *)
(** * StunDiscovery

    The STUN exchange in the constructor of [wga::MyPeer] (src/peer/src/peer/MyPeer.cpp,
    lines 36-131): four servers are resolved and asked for the address they see, all on one
    io service that runs until nothing is left to do.  [exchange_step] is what the io
    service can do next; [exchange_result] is how the constructor goes on. *)
From S2P Require Import Prelude.
From S2P Require Import StdMap.
From S2P Require Import StunPacket.
From S2P Require Import StunClient.

(** [stuns], by their place in the vector. *)
Definition stuns : list (string * string) :=
  [("stun1.l.google.com", "19302"); ("stun.ekiga.net", "3478");
   ("stun.f.haeder.net", "3478"); ("stun.bethesda.net", "3478")].

Section Exchange.
Context `{KeyOrder udp_endpoint} `{!KeyOrderLaws udp_endpoint}.
Abbreviation Client := (StunClient (Handler := nat)).

(** The locals of the constructor.  [client] is the object behind [stun_client], [has_client]
    tells whether the pointer is set; [resolving] are the servers whose names are being
    resolved, [timing] tells whether the timer is waited for and [called] how many of the
    posted calls were run. *)
Record Exchange : Type := mkExchange {
  client : Client;
  has_client : bool;
  wait_for : Z;
  stunEndpoints : gset udp_endpoint;
  resolving : list nat;
  timing : bool;
  called : nat
}.
Definition set_client v x := mkExchange v (has_client x) (wait_for x) (stunEndpoints x)
  (resolving x) (timing x) (called x).
Definition set_resolving v x := mkExchange (client x) (has_client x) (wait_for x) (stunEndpoints x)
  v (timing x) (called x).
Definition set_timing v x := mkExchange (client x) (has_client x) (wait_for x) (stunEndpoints x)
  (resolving x) v (called x).
Definition set_called v x := mkExchange (client x) (has_client x) (wait_for x) (stunEndpoints x)
  (resolving x) (timing x) v.
Definition set_wait_for v x := mkExchange (client x) (has_client x) v (stunEndpoints x)
  (resolving x) (timing x) (called x).
Definition add_endpoint e x := mkExchange (client x) (has_client x) (wait_for x)
  ({[e]} ∪ stunEndpoints x) (resolving x) (timing x) (called x).

Definition Exchange_init : Exchange :=
  mkExchange StunClient_init true (Z.of_nat (length stuns)) ∅ (seq 0 (length stuns)) true 0.

Abbreviation EX := (M Exchange).
Definition on_client (m : M Client unit) : EX unit := fun x =>
  match m (client x) with Ok (_, c) => Ok (tt, set_client c x) | Err f => Err f end.

(** [stun_client.reset()] *)
Definition reset_client : EX unit := fun x =>
  if has_client x then
    match destroy (client x) with
    | Ok (_, c) => Ok (tt, mkExchange c false (wait_for x) (stunEndpoints x) (resolving x) (timing x) (called x))
    | Err f => Err f
    end
  else Ok (tt, x).

(** A name is resolved: [None] for an error or no address.  The id of the request is what
    [rand] returns. *)
Definition on_resolve (id : list Z) (stun : nat) (r : option udp_endpoint) : EX unit := fun x =>
  match r with
  | None => Ok (tt, x)
  | Some iter => if has_client x then on_client (reflect id iter (Some stun)) x else Err Undefined
  end.

(** The handler given to [reflect].  Cancelling the timer and the resolver makes what they
    do end, which [exchange_step] lets happen anyhow. *)
Definition on_reflected (e : error_code) (reflective_ep : udp_endpoint) : EX unit :=
  (if bool_decide (e = success) then modify (add_endpoint reflective_ep) else ret tt) ;;;
  let! x := get_state in
  modify (set_wait_for (wait_for x - 1)) ;;;
  if wait_for x - 1 =? 0 then reset_client else ret tt.

(** The handler of the timer. *)
Definition on_timeout : EX unit := reset_client.

Inductive exchange_step (x : Exchange) : Exchange -> Prop :=
  | ex_resolved i stun id r x' :
      resolving x !! i = Some stun -> length id = 12%nat ->
      on_resolve id stun r (set_resolving (delete i (resolving x)) x) = Ok (tt, x') ->
      exchange_step x x'
  | ex_timeout x' :
      timing x = true -> on_timeout (set_timing false x) = Ok (tt, x') -> exchange_step x x'
  | ex_call call x' :
      posted (client x) !! called x = Some call ->
      on_reflected (c_error call) (c_endpoint call) (set_called (S (called x)) x) = Ok (tt, x') ->
      exchange_step x x'
  | ex_client c' : io_step (client x) c' -> exchange_step x (set_client c' x).
Definition exchange_reachable (x : Exchange) : Prop := rtc exchange_step Exchange_init x.

(** [ios.run()] returns: nothing is under way and every posted call was run. *)
Definition idle (x : Exchange) : bool :=
  bool_decide (resolving x = []) && negb (timing x) && bool_decide (sending (client x) = []) &&
  (receiving (client x) =? 0)%nat && bool_decide (length (waiting (client x)) = 0%nat) &&
  (called x =? length (posted (client x)))%nat.
(** After [ios.run()]. *)
Definition exchange_result (x : Exchange) : outcome (gset udp_endpoint) :=
  if negb (wait_for x =? 0) then Err LogFatal else Ok (stunEndpoints x).

(** ** What the exchange keeps *)
#[local] Opaque stuns.
Definition reflected (calls : list (Call (Handler := nat))) : list udp_endpoint :=
  omap (fun c => if decide (c_error c = success) then Some (c_endpoint c) else None) calls.
Record exchange_inv (x : Exchange) : Prop := {
  xi_client : client_inv (client x);
  xi_called : (called x <= length (posted (client x)))%nat;
  xi_wait : wait_for x = Z.of_nat (length stuns) - Z.of_nat (called x);
  xi_resolved : (length (objects (client x)) + length (resolving x) <= length stuns)%nat;
  xi_endpoints : stunEndpoints x = list_to_set (reflected (take (called x) (posted (client x))))
}.
Lemma exchange_inv_init : exchange_inv Exchange_init.
Proof. split; simpl; [apply client_inv_init|lia|lia|rewrite length_seq; lia|done]. Qed.

Lemma take_prefix {A} n (l l' : list A) :
  (n <= length l)%nat -> l `prefix_of` l' -> take n l' = take n l.
Proof. intros Hn [k ->]. by rewrite take_app_le. Qed.

(** The client moves on, with [k] requests more. *)
Lemma exchange_inv_client k x c h rs t :
  client_inv c -> length (objects c) = (k + length (objects (client x)))%nat ->
  posted (client x) `prefix_of` posted c ->
  (k + length rs <= length (resolving x))%nat ->
  exchange_inv x ->
  exchange_inv (mkExchange c h (wait_for x) (stunEndpoints x) rs t (called x)).
Proof.
  intros Hc Ho Hp Hr [_ Hn Hw Hl He]. split; simpl; [done| |done|lia|].
  - apply prefix_length in Hp. lia.
  - rewrite (take_prefix _ (posted (client x))) by done. done.
Qed.
Lemma reset_client_inv x x' t :
  reset_client (set_timing t x) = Ok (tt, x') -> exchange_inv x -> exchange_inv x'.
Proof.
  unfold reset_client. simpl. intros E Hi. destruct (has_client x).
  - destruct (destroy (client x)) as [[[] c]|] eqn:Ed; [|done]. injection E as <-.
    pose proof (destroy_inv _ _ Ed (xi_client _ Hi)) as Hc.
    apply quiet_destroy in Ed. unfold view in Ed. injection Ed as E1 _ E3 _ _.
    apply (exchange_inv_client 0 x); [done|by rewrite E1|by rewrite E3|lia|done].
  - injection E as <-. destruct Hi. by split.
Qed.
Lemma on_reflected_inv call x x' :
  posted (client x) !! called x = Some call ->
  on_reflected (c_error call) (c_endpoint call) (set_called (S (called x)) x) = Ok (tt, x') ->
  exchange_inv x -> exchange_inv x'.
Proof.
  intros Hc E [Hi Hn Hw Hl He]. unfold on_reflected in E.
  apply bind_ok in E as ([] & x1 & E1 & E). apply bind_ok in E as (x2 & ? & [= <- <-] & E).
  apply bind_ok in E as ([] & x2 & [= <-] & E).
  assert (Hi2 : exchange_inv (set_wait_for (wait_for x1 - 1) x1)).
  { apply lookup_lt_Some in Hc as Hlt.
    assert (Ht : reflected (take (S (called x)) (posted (client x))) =
      reflected (take (called x) (posted (client x))) ++
      (if decide (c_error call = success) then [c_endpoint call] else [])).
    { unfold reflected. rewrite (take_S_r _ _ _ Hc), omap_app. f_equal. simpl. by case_decide. }
    case_bool_decide as Hs; injection E1 as <-; split; simpl; try done; try lia; rewrite Ht.
    - rewrite decide_True, list_to_set_app_L, He by done. set_solver.
    - by rewrite decide_False, app_nil_r by done. }
  case_match; [|by injection E as <-]. by eapply (reset_client_inv _ _ (timing _)); [|exact Hi2].
Qed.
Lemma exchange_step_inv x x' : exchange_step x x' -> exchange_inv x -> exchange_inv x'.
Proof.
  intros [i stun id r x1 Hs _ E|x1 _ E|call x1 Hc E|c Hc] Hi.
  - assert (Hd := length_delete _ _ (mk_is_Some _ _ Hs)). apply lookup_lt_Some in Hs. unfold on_resolve, on_client in E. simpl in E.
    destruct r as [iter|]; [|injection E as <-].
    + destruct (has_client x); [|done].
      destruct (reflect id iter (Some stun) (client x)) as [[[] c]|] eqn:Er; [|done].
      injection E as <-. pose proof (reflect_inv _ _ _ _ _ Er (xi_client _ Hi)) as Hc.
      apply reflect_grows in Er as [L P]. apply (exchange_inv_client 1 x); [done|done|done|simpl; lia|done].
    + apply (exchange_inv_client 0 x); [apply Hi|done|done|simpl; lia|done].
  - by eapply reset_client_inv.
  - by eapply on_reflected_inv.
  - pose proof (io_step_grows _ _ Hc) as [L P]. pose proof (io_step_inv _ _ Hc (xi_client _ Hi)).
    by apply (exchange_inv_client 0 x).
Qed.
Lemma exchange_reachable_inv x : exchange_reachable x -> exchange_inv x.
Proof.
  unfold exchange_reachable. apply (rtc_ind_r (fun x => exchange_inv x)); [apply exchange_inv_init|].
  intros y z _ Hs Hi. by eapply exchange_step_inv.
Qed.

(** C19: When the STUN exchange of the constructor is over, in whatever order names were
    resolved, datagrams came and timers expired: it goes on exactly when four handlers were
    called, and then the addresses it found are those of the calls without an error.  The
    calls belong to different requests, so each of the four names was resolved and asked: a
    single name that is not resolved, or a call that never comes, ends the process. *)
Theorem exchange_outcome (x : Exchange) :
  exchange_reachable x -> idle x = true ->
  exchange_result x =
    (if decide (length (posted (client x)) = length stuns)
     then Ok (list_to_set (reflected (posted (client x)))) else Err LogFatal) /\
  (is_ok (exchange_result x) = true ->
   length (objects (client x)) = length stuns /\ NoDup (c_request <$> posted (client x))).
Proof.
  intros [Hi Hn Hw Hl He]%exchange_reachable_inv Hidle. unfold idle in Hidle.
  apply andb_prop in Hidle as [_ Hc%Nat.eqb_eq]. unfold exchange_result.
  rewrite Hc, take_ge in He by lia. pose proof (posted_bound _ Hi).
  destruct (Z.eqb_spec (wait_for x) 0) as [E|E]; simpl.
  - rewrite decide_True by lia. split; [by rewrite He|]. intros _. split; [lia|].
    apply ci_once in Hi. by apply NoDup_app in Hi as (_ & _ & ?).
  - rewrite decide_False by lia. done.
Qed.

(** ** Running it

    What happens next, as data, and the step it is. *)
Inductive event : Type :=
  | Resolved (i : nat) (id : list Z) (r : option udp_endpoint)
  | Timeout
  | RunCall
  | Sent (i : nat) (ec : error_code)
  | Received (datagram : list Z) (from : udp_endpoint)
  | ReceiveFailed (ec : error_code)
  | TimerEnds (i : nat) (ec : error_code).
Definition done_ (m : EX unit) (x : Exchange) : option Exchange :=
  match m x with Ok (_, x') => Some x' | Err _ => None end.
Definition happen (x : Exchange) (e : event) : option Exchange :=
  match e with
  | Resolved i id r =>
      stun ← resolving x !! i;
      if decide (length id = 12%nat)
      then done_ (on_resolve id stun r) (set_resolving (delete i (resolving x)) x) else None
  | Timeout => if timing x then done_ on_timeout (set_timing false x) else None
  | RunCall =>
      call ← posted (client x) !! called x;
      done_ (on_reflected (c_error call) (c_endpoint call)) (set_called (S (called x)) x)
  | Sent i ec =>
      s ← sending (client x) !! i;
      done_ (on_client (on_send ec s.2)) (set_client (set_sending (delete i (sending (client x))) (client x)) x)
  | Received datagram from =>
      if decide (0 < receiving (client x))%nat then
        done_ (on_client (on_recv success
                 (Z.of_nat (Nat.min (length datagram) (length (rx_buffer (client x)))))))
          (set_client (deliver datagram from (client x)) x)
      else None
  | ReceiveFailed ec =>
      if decide (0 < receiving (client x))%nat then
        if decide (ec = success) then None
        else done_ (on_client (on_recv ec 0))
               (set_client (set_receiving (receiving (client x) - 1) (client x)) x)
      else None
  | TimerEnds i ec =>
      w ← waiting (client x) !! i;
      if decide (ec = operation_aborted -> w_cancelled w = true) then
        done_ (on_client (on_timer ec (w_request w)))
          (set_client (set_waiting (delete i (waiting (client x))) (client x)) x)
      else None
  end.
Fixpoint happens (x : Exchange) (es : list event) : option Exchange :=
  match es with [] => Some x | e :: es => x' ← happen x e; happens x' es end.

Lemma done_ok m x x' : done_ m x = Some x' -> m x = Ok (tt, x').
Proof. unfold done_. destruct (m x) as [[[] ?]|]; naive_solver. Qed.
Lemma done_client m c x x' :
  done_ (on_client m) (set_client c x) = Some x' ->
  exists c', m c = Ok (tt, c') /\ x' = set_client c' x.
Proof.
  intros E%done_ok. unfold on_client in E. simpl in E. destruct (m c) as [[[] c']|]; [|done].
  injection E as <-. by exists c'.
Qed.
Lemma happen_step x e x' : happen x e = Some x' -> exchange_step x x'.
Proof.
  destruct e; simpl; intros E.
  - apply bind_Some in E as (stun & Hs & E). case_decide; [|done].
    apply done_ok in E. by eapply ex_resolved.
  - destruct (timing x) eqn:Ht; [|done]. apply done_ok in E. by apply ex_timeout.
  - apply bind_Some in E as (call & Hc & E). apply done_ok in E. by eapply ex_call.
  - apply bind_Some in E as ([[buf ep] r] & Hs & E). apply done_client in E as (c' & E & ->).
    apply ex_client. by eapply io_sent.
  - case_decide; [|done]. apply done_client in E as (c' & E & ->). apply ex_client. by eapply io_received.
  - case_decide; [|done]. case_decide; [done|]. apply done_client in E as (c' & E & ->).
    apply ex_client. by eapply io_receive_failed.
  - apply bind_Some in E as (w & Hw & E). case_decide; [|done]. apply done_client in E as (c' & E & ->).
    apply ex_client. by eapply io_timer.
Qed.
Lemma happens_steps es x x' : happens x es = Some x' -> rtc exchange_step x x'.
Proof.
  revert x. induction es as [|e es IH]; intros x E; simpl in E.
  - by injection E as <-.
  - apply bind_Some in E as (x1 & E1 & E). eapply rtc_l; [by eapply happen_step|by apply IH].
Qed.
End Exchange.

#[local] Existing Instance by_code.
#[local] Existing Instance by_code_laws.
#[local] Transparent stuns.
Definition servers : list udp_endpoint :=
  [server1; server2; mkUdp (V4 0x55D60001) 3478; mkUdp (V4 0x55D60002) 3478].
Definition resolve_all : list event := map (fun s => Resolved 0 some_id (Some s)) servers.
Definition send_all : list event := repeat (Sent 0 success) 4.
Definition after (es : list event) : Exchange := default Exchange_init (happens Exchange_init es).

(** A decidable claim about values, by computing the decision. *)
Ltac by_evaluation := apply (bool_decide_eq_true_1 _); vm_compute; reflexivity.

(** All four servers answer, and every answer is what a server saw. *)
Definition answered : list event :=
  resolve_all ++ send_all ++ map (Received answer) servers ++ repeat RunCall 4 ++
  [Timeout] ++ repeat (TimerEnds 0 operation_aborted) 4.
Lemma exchange_outcome_witness :
  exchange_result (after answered) = Ok {[ mine ]} /\ length (objects (client (after answered))) = 4%nat.
Proof.
  assert (Hr : exchange_reachable (after answered)).
  { apply (happens_steps answered). vm_compute. reflexivity. }
  destruct (exchange_outcome (after answered) Hr) as [E H].
  - vm_compute. reflexivity.
  - split; [by_evaluation|]. apply H. vm_compute. reflexivity.
Defined.

(** No server answers: the time is up, the client is destroyed, the receive is aborted, and
    so are the four requests, whose handlers count like answers.  The constructor goes on
    without an address, and without the message that no packet came. *)
Definition silence : list event :=
  resolve_all ++ send_all ++ [Timeout; ReceiveFailed operation_aborted] ++ repeat RunCall 4 ++
  repeat (TimerEnds 0 operation_aborted) 4.
Theorem silence_accepted :
  exchange_reachable (after silence) /\ idle (after silence) = true /\
  reflected (posted (client (after silence))) = [] /\ exchange_result (after silence) = Ok ∅.
Proof.
  split; [apply (happens_steps silence); vm_compute; reflexivity|].
  split; [|split]; by_evaluation.
Qed.
(** One name is not resolved and the others answer: the process ends. *)
Definition one_name_lost : list event :=
  [Resolved 3 some_id None] ++ map (fun s => Resolved 0 some_id (Some s)) (take 3 servers) ++
  repeat (Sent 0 success) 3 ++ map (Received answer) (take 3 servers) ++ repeat RunCall 3 ++
  [Timeout] ++ repeat (TimerEnds 0 operation_aborted) 3.
Example one_name_lost_aborts :
  idle (after one_name_lost) = true /\ exchange_result (after one_name_lost) = Err LogFatal /\
  reflected (posted (client (after one_name_lost))) = [mine; mine; mine].
Proof. split; [|split]; by_evaluation. Qed.
(** A name whose resolution is over when the time is up is asked through a null pointer. *)
Example late_resolution_undefined :
  on_resolve some_id 0 (Some server1) (set_resolving [] (after [Timeout])) = Err Undefined.
Proof. vm_compute. reflexivity. Qed.
