(* ===== verification/NetEngine.v ===== *)
(** * NetEngine

    [wga::NetEngine] (src/peer/src/base/NetEngine.hpp): the thread that runs the io service
    of asio, its shutdown; the ports opened through the [PortMappingHandler]; and the
    addresses of a host.  The io service itself is not the program's: the engine keeps what
    it handed to it, and what the service's thread does meanwhile is an argument. *)
From S2P Require Import Prelude.
From S2P Require Import CStr.
From S2P Require Import CSys.
From S2P Require Import UpnpCommands.
From S2P Require Import MiniUpnp.
From S2P Require Import PortMapping.

(** ** Ports and addresses *)
Section Ports.
Context `{Os} `{Patience}.
(** [udp::socket] on a port of every IPv4 address: asio throws when it cannot be bound. *)
Variable bind_udp : Z -> M Sys (option Z).

Definition port_description (serverPort : Z) : string := "WGA: " +:+ dec serverPort.
(** The handler is null after [shutdown]. *)
Definition forwardPort (h : option PortMappingHandler) (serverPort : Z) : M Sys unit :=
  match h with
  | None => fail Undefined
  | Some h => let! _ := mapPort serverPort (port_description serverPort) h in ret tt
  end.
Definition startUdpServer (h : option PortMappingHandler) (serverPort : Z) : M Sys Z :=
  forwardPort h serverPort ;;;
  let! s := bind_udp serverPort in
  match s with Some s => ret s | None => fail RuntimeError end.
End Ports.

(** The addresses of [resolver.resolve], in order; the first is read before the end is
    compared. *)
Fixpoint push_all {A} (it : list A) (retval : list A) : list A :=
  match it with [] => retval | e :: it => push_all it (retval ++ [e]) end.
Definition resolve {A} (it : list A) : outcome (list A) :=
  match it with [] => Err Undefined | remoteEndpoint :: it => Ok (push_all it [remoteEndpoint]) end.

Lemma push_all_app {A} (it r : list A) : push_all it r = r ++ it.
Proof.
  revert r. induction it as [|e it IH]; intros r; simpl; [by rewrite app_nil_r|].
  by rewrite IH, <- app_assoc.
Qed.
Lemma resolve_all {A} (it : list A) : it <> [] -> resolve it = Ok it.
Proof. destruct it; [done|]. intros _. simpl. by rewrite push_all_app. Qed.

(** ** The thread *)
Inductive thread_state : Type := NotStarted | Running | Finished | Joined.
(** What is handed to the io service: the lambda of [shutdown] that ends the work, or a task
    of a caller. *)
Inductive task : Type := ClearWork | Task (n : nat).
Record NetEngine : Type := mkNetEngine {
  has_mapping : bool;
  has_service : bool;
  thread : thread_state;
  work : bool;
  posted : list task
}.
Definition set_mapping v n := mkNetEngine v (has_service n) (thread n) (work n) (posted n).
Definition set_service v n := mkNetEngine (has_mapping n) v (thread n) (work n) (posted n).
Definition set_thread v n := mkNetEngine (has_mapping n) (has_service n) v (work n) (posted n).
Definition set_work v n := mkNetEngine (has_mapping n) (has_service n) (thread n) v (posted n).
Definition set_posted v n := mkNetEngine (has_mapping n) (has_service n) (thread n) (work n) v.

Definition NetEngine_init : NetEngine := mkNetEngine true true NotStarted true [].
Definition start : M NetEngine unit := fun n =>
  if has_service n then Ok (tt, set_thread Running n) else Err Undefined.
(** [ioService->post]; the service is null after [shutdown]. *)
Definition post (t : task) : M NetEngine unit := fun n =>
  if has_service n then Ok (tt, set_posted (posted n ++ [t]) n) else Err Undefined.
(** The lambda of [shutdown], when the thread calls it. *)
Definition clear_work : M NetEngine unit := modify (set_work false).

(** One look at what a wait is for. *)
Definition finished : M NetEngine (option unit) :=
  gets (fun n => match thread n with Finished => Some tt | _ => None end).
Definition no_work : M NetEngine (option unit) :=
  gets (fun n => if work n then None else Some tt).
(** [shutdown]; [others] is what the thread does meanwhile.  [None]: it still waits. *)
Definition join (others : list (M NetEngine unit)) : M NetEngine (option unit * list (M NetEngine unit)) :=
  let! n := get_state in
  match thread n with
  | Running | Finished =>
      let! (j, others) := wait_loop finished others in
      match j with
      | Some _ => modify (set_thread Joined) ;;; ret (Some tt, others)
      | None => ret (None, others)
      end
  | _ => ret (Some tt, others)
  end.
Definition shutdown (others : list (M NetEngine unit)) : M NetEngine (option unit) :=
  modify (set_mapping false) ;;;
  post ClearWork ;;;
  let! (j, others) := join others in
  match j with
  | None => ret None
  | Some _ =>
      let! (w, others) := wait_loop no_work others in
      match w with
      | None => ret None
      | Some _ => modify (set_service false) ;;; ret (Some tt)
      end
  end.
(** The destructor. *)
Definition NetEngine_destroy (others : list (M NetEngine unit)) : M NetEngine (option unit) :=
  let! n := get_state in
  if work n then shutdown others else ret (Some tt).

(** The shutdown of an engine that was never started waits for ever: the lambda that ends the
    work was handed to an io service whose thread nobody runs, and nothing else ends it. *)
Definition keeps_work (m : M NetEngine unit) : Prop :=
  forall n, exists n', m n = Ok (tt, n') /\ work n' = work n.
Lemma idle_wait others n :
  Forall keeps_work others -> work n = true ->
  exists n', wait_loop no_work others n = Ok ((None, []), n').
Proof.
  unfold no_work. intros Ho. revert n. induction Ho as [|m others Hm Ho IH]; intros n Hw.
  - exists n. cbn. unfold bind, gets. by rewrite Hw.
  - destruct (Hm n) as (n1 & E & Hw1). destruct (IH n1 ltac:(congruence)) as (n' & E').
    exists n'. cbn [wait_loop]. unfold bind in *. unfold gets in *. by rewrite Hw, E.
Qed.
Theorem shutdown_without_start_waits (n : NetEngine) (others : list (M NetEngine unit)) :
  has_service n = true -> thread n = NotStarted -> work n = true -> Forall keeps_work others ->
  exists n', shutdown others n = Ok (None, n').
Proof.
  destruct n as [m s t w q]. simpl. intros -> -> -> Ho.
  destruct (idle_wait others (mkNetEngine false true NotStarted true (q ++ [ClearWork])) Ho eq_refl) as (n' & E).
  exists n'. unfold shutdown.
  eapply run_bind; [reflexivity|]. eapply run_bind; [reflexivity|].
  eapply run_bind; [reflexivity|]. cbn. by eapply run_bind; [exact E|].
Qed.
(** A started engine whose thread calls the lambda and ends is shut down. *)
Example shutdown_started :
  shutdown [ret tt; clear_work; modify (set_thread Finished)] (mkNetEngine true true Running true [Task 4]) =
  Ok (Some tt, mkNetEngine false false Joined false [Task 4; ClearWork]).
Proof. reflexivity. Qed.
